(* ===== verification/_CoqProject ===== *)
-Q . S2P
Prelude.v
Address.v
PhysMem.v
IdAlloc.v
FrameAlloc.v
AllocProps.v
PageTable.v
Sv39.v
UserMem.v
MemorySet.v
MapAreaSpec.v
MemorySetSpec.v
MemorySetOps.v
Mmap.v
Fork.v
Elf.v
UserCopy.v
TrapCx.v
UserRes.v
StackProps.v
Exec.v
SpaceProps.v
Mmu.v
Asm.v
TrapPath.v
KernelPath.v
MmapFile.v
KernelSpace.v
Drivers.v
ResProps.v
ExecProps.v
Pipe.v
BlockCache.v
Timer.v
Signal.v
Sched.v
SchedInv.v
SchedProps.v
Path.v
FdTable.v
Vfs.v
VfsProps.v
ProcCalls.v
Execve.v
Syscall.v
Trap.v
UserRun.v
UserLife.v
UserLib.v
Stdio.v
FileIO.v
FileStat.v
Uart.v
Fmt.v
Panic.v
Preempt.v
Shell.v
IntrCell.v
LaTrap.v
LaMachine.v
LaPage.v
Process.v
ProcessProps.v
Threads.v
ThreadProps.v
NewProcess.v
InitProc.v
Boot.v
