(* ===== verification/Prelude.v ===== *)
(** * cuteCore: a verification development

    cuteCore is a small Unix-like kernel in Rust for one RISC-V hart
    ([os/src]), with a LoongArch port.  This library translates the parts of it
    that keep state or compute, function by function, and proves what makes
    them correct.  Names of definitions follow the source; [os/src/...] paths
    below are relative to [src/].

    ** The program and the files

    - _Memory_.  [Address] ([mm/address.rs]): addresses and page numbers at their
      widths, page ranges.  [PhysMem]: physical memory as bytes, identity mapped.
      [FrameAlloc] ([mm/frame_allocator.rs]): the stack allocator of frames;
      [IdAlloc] ([task/pid.rs], [kernel_stack.rs]): recycling identifiers.
      [PageTable] ([trait PageTable] of [mm/pagetable.rs]) is the interface a
      page table promises to its clients, as a class with laws; [Sv39]
      ([hal/arch/riscv/sv39.rs]) is the three-level table in physical memory and
      discharges it.  [MemorySet] ([mm/memory_set.rs]) has areas and address
      spaces, generic in the page table; [MapAreaSpec], [MemorySetSpec],
      [MemorySetOps], [Mmap], [MmapFile], [Fork] and [Elf] prove its operations
      against the interface.  [UserMem] and [UserCopy] (the rest of [mm/pagetable.rs]) are
      the kernel's access to user memory.  [Mmu] is the walk of the processor
      through the tables.  [KernelSpace] ([mm/mod.rs]) builds the kernel's own
      space.
    - _Files_.  [BlockCache] ([fs/block_cache.rs], [fs/fat32.rs]) is the
      write-back cache and the byte device the FAT file system runs on; [Vfs]
      ([fs/inode.rs], [syscall/fs.rs]) the open files and the calls on paths and
      descriptors; [Path] is [resolve_path], [FdTable] the descriptor table,
      [Pipe] ([fs/pipe.rs]) the pipes, [Stdio] ([fs/stdio.rs], [console.rs]) the
      console and the calls [read] and [write], [FileIO] what these do on pipes,
      files and bad descriptors, [FileStat] ([fs/file.rs]) the records that
      [fstat] and [getdents64] store.  [Drivers] ([drivers/block/]) is what the virtio
      crate asks of the kernel, [Uart] ([drivers/serial/]) the serial port.
    - _Tasks_.  [Sched] ([task/manager.rs], [task/processor.rs], [task/mod.rs],
      [sync/], [syscall/sync.rs], the timer heap of [timer.rs]) has the ready
      queue, the processor, mutexes, semaphores, condition variables, sleeping
      and [kill]; [SchedInv] its transition system and invariant.  [Process]
      ([task/process.rs], [syscall/process.rs]) has creation, exit and wait.
      [Timer] ([timer.rs]) and [Signal] ([task/signal.rs]) are the values they
      use.  [IntrCell] ([sync/up.rs], [hal/arch/riscv/sync.rs]) has the cells
      that mask interrupts, statement by statement.
    - _Threads and programs_.  [TrapCx] ([trap/context.rs], [task/context.rs]):
      the saved registers as words in memory.  [UserRes]
      ([hal/arch/riscv/kernel_stack.rs], [task/task.rs]): kernel stacks, user
      stacks and trap contexts, with [StackProps] and [ResProps].  [Exec] and
      [ExecProps] ([task/process.rs]): a new program and its arguments on the
      stack; [Execve] the system call around it.  [Threads] and [ThreadProps]
      ([syscall/thread.rs], [sys_clone]): new threads and processes in memory;
      [NewProcess] the first process.  [Boot] ([main.rs]): from the firmware to
      the first task.
    - _The border_.  [Syscall] ([syscall/mod.rs], [user/src/syscall.rs]): the
      numbers and words of the calls on both sides.  [ProcCalls]
      ([syscall/process.rs], [sys_getcwd]): [brk], [mmap], [times], [uname] and
      the other calls that answer through user memory.  [Trap]
      ([hal/arch/riscv/trap/mod.rs]): the trap handlers, over the class
      [TrapKernel] of what they call; [mini_kernel] is its instance.  [Asm]
      ([trap/trap.S], [switch.S]): the assembly as lists of instructions, on a
      model of the processor with its registers, its mode and the walk of [Mmu],
      and the set-up of [stvec], [sscratch], [sstatus] and [sie]; [TrapPath] runs the
      entry and the exit of user traps, [KernelPath] those of kernel traps and
      [__switch].  [UserRun] puts the pieces together: a program in user mode,
      the [ecall] of its library, the assembly, the handler, a memory call and the
      way back; [UserLife] has runs of any number of such steps.  [Preempt]
      ([hal/arch/riscv/mod.rs]) is the timer interrupt, from [machine_init] on.
      [Panic] ([hal/arch/riscv/sbi.rs], [console.rs], [lang_items.rs]) has the
      calls of the firmware, the logger, the panic handler and its stack trace, and
      the panic handler of user programs; [Fmt] the numbers they print.  [LaTrap]
      ([hal/arch/loongarch/trap]): unaligned accesses on LoongArch; [LaMachine] and
      [LaPage] (the rest of [hal/arch/loongarch]): its trap contexts, clock, layout,
      TLB and page table entries.
    - _User programs_.  [UserLib] ([user/src/lib.rs]): how a program finds its
      arguments.  [Shell] ([user/src/bin/user_shell.rs]): lines, pipelines and
      redirections over descriptor tables.  [InitProc] ([user/src/bin/initproc.rs]):
      the initial process among the others.

    ** How the code is modelled

    [usize] is [Z] with the wrap-around of a release build written out
    ([wadd], [wsub], ...).  Kernel code is a computation [K S A], a function from
    a state to a result and a state, or [Panic]: [unwrap], [assert!], indexing
    out of range and [todo!()] panic.  [wp m s Q] says that [m] run in [s] does not
    panic and ends in [Q]; [wlp] allows a panic, and [cwp ok m s Q] allows one
    unless [ok] holds.  Errors returned to the caller
    are values ([result], [-1]).  [Arc] objects that are shared are identifiers
    into a table; a value dropped with its last reference runs its [Drop]
    (frames, process ids and cached blocks are given back or written back).
    Kernel code that gives up the processor or can be interrupted is a list of
    atomic pieces, and a state of the system is any interleaving of them.

    Code that is not in the repository is a parameter with the laws its
    documentation gives: the block device, the [fatfs] crate ([FatFs]), the
    [BinaryHeap] of the timers, the ELF parser (a parsed file is an argument), the
    firmware ([Firmware]), the registers of the serial port ([SerialPort]) and of
    the TLB ([Tlb]).
    Each class has an instance ([ram_disk], [list_heap], ...) on which the
    theorems are instantiated.

    Loops that are not structural carry fuel; each has a theorem that the fuel
    given suffices: [translated_byte_buffer] (a page per turn), [find_free_area]
    (a page per turn up to the gap), [read_all] (one byte of the file per turn at
    least), [check_timer] (one timer per turn), the reads and writes of the block
    device (one byte per turn at least), the copy of a mapped file (a page per
    turn).  Strings and argument vectors in user memory have no bound in the
    source; [translated_str], [read_argv] and [start_args] take the fuel as an
    argument, and 8192 suffices for what fits on a user stack of 8 KB.  The
    loop of [Stdin::read] runs over the answers of the firmware and is still
    waiting when they end.

    ** What is proved

    - Memory ([AllocProps], [SpaceProps]): frames and ids have one owner; the
      hardware tables translate exactly what the areas say (refinement of
      [ms_view]), and the processor reaches through them what the areas permit
      ([Mmu]); [map], [unmap], [mmap], [munmap], [fork] and ELF loading have
      their effect and no other; user buffers cover the range they were made
      for, and copies round-trip.
    - Files ([BlockCache], [VfsProps], [Path], [FdTable], [Pipe], [FileIO]): what is written
      is read back through any pattern of evictions; [flush] is durable; reads
      and writes of open files follow the contract of the file system; the
      descriptor table refines the map of POSIX; path resolution is normal and
      compositional; pipes are first-in first-out, and [read] and [write] carry
      bytes through them from one address space to another in every schedule;
      calls on bad descriptors fail without effect; the records of [fstat] have
      the layout of the user's headers ([FileStat]).
    - Tasks ([SchedProps], [ProcessProps]): each live task has one token in every
      interleaving, the ready queue is fair, mutexes and semaphores refine their
      specification, timers wake the right tasks in order; processes form a tree
      with the initial process as its root and [wait4] reaps each zombie once.
    - Start-up ([KernelSpace], [Boot], [Drivers], [InitProc]): the kernel space maps
      each segment with its permissions and all free memory, boot reaches the first
      task with every invariant established and its return enters the program in
      user mode at its entry point, the initial process reaps every orphan.
    - Threads and programs ([ResProps], [ExecProps], [ThreadProps], [NewProcess],
      [Execve]): kernel stacks never overlap and have a guard page, the stacks
      and trap contexts of threads are separate areas; [exec], [clone],
      [thread_create] and [new] build the address space, the registers and the
      kernel stack with which a thread starts.
    - The assembly ([TrapPath], [KernelPath]): a trap from user mode arrives in the
      handler on the kernel stack and in the kernel space with every register but
      [tp] saved, and the return gives back what the saved context holds; an interrupt
      of kernel code changes no register; [__switch] exchanges the contexts of two
      tasks, so that switching away and back is the identity on the saved registers.
    - Whole paths ([UserRun], [UserLife], [Preempt], [Panic]): a program in user mode
      changes only its own writable pages; a call of [brk] from the program grows
      its heap and returns behind the call; over any run, with any arguments of
      the memory calls, the other address spaces keep every byte or the kernel
      panics; the timer interrupts a program after at most one slice of time; the
      panic handler prints its report and the return addresses on the stack, and
      shuts the machine down.
    - The border ([Syscall], [ProcCalls], [Trap], [IntrCell], [Stdio], [Uart], [LaTrap]): a
      call of the user library arrives as the handler's arguments; a trap runs
      the right handler once and stores its result; answers are the bytes the
      user sees; critical sections run with interrupts off in every
      interleaving; the console prints the user's text, and the serial port sends
      it.
    - User programs ([UserLib], [Shell]): a program finds the arguments [exec]
      pushed; the children of a pipeline have exactly the descriptors they need.
    - Values ([Timer], [Signal]): accounting, conversions and orders.
    - Lemmas that show where the code departs from its intention stand beside
      these, under the same components ([unmapped_page_reads_frame0],
      [nanosleep_can_panic], [huge_timer_starves], ...).

    ** Not modelled

    The two instructions before [rust_main]; the kernel heap (an external buddy
    allocator, set up with a static array) and its out-of-memory message; trait
    objects, re-exports and casts of references to byte slices, which have no
    behaviour of their own.  Of the LoongArch port, the TLB refill and the trap entry
    in assembly, the writes of control registers after the point where
    [bootstrap_init] panics, and [find_pte] of [laflex.rs], which has no result, with
    [unmap] and [translate] that use it.  Of the user side, the wrappers of [lib.rs]
    that only pass their arguments on, and the heap of programs. *)

From stdpp Require Export base tactics list list_numbers gmap sorting.
From Stdlib Require Export ZArith Lia.

#[export] Set Default Goal Selector "!".
Global Open Scope Z_scope.
Global Coercion Z.of_nat : nat >-> Z.

(** ** Machine integers

    The kernel is built in release mode for a 64-bit target ([os/script/riscv.mk],
    [MODE := release]), so [usize] arithmetic wraps around silently. *)

Declare Scope usize_scope.
Delimit Scope usize_scope with usize.

Definition usize_max : Z := 2 ^ 64 - 1.
Definition wrap64 (z : Z) : Z := z mod 2 ^ 64.
Definition wadd (a b : Z) : Z := wrap64 (a + b).
Definition wsub (a b : Z) : Z := wrap64 (a - b).
Definition wmul (a b : Z) : Z := wrap64 (a * b).
Definition wshl (a n : Z) : Z := wrap64 (Z.shiftl a n).
Definition wnot (a : Z) : Z := 2 ^ 64 - 1 - a.

(** [usize as isize]: two's complement reinterpretation. *)
Definition as_isize (a : Z) : Z :=
  let w := wrap64 a in if w <? 2 ^ 63 then w else w - 2 ^ 64.

(** [usize::checked_add] *)
Definition checked_add (a b : Z) : option Z := if a + b <? 2 ^ 64 then Some (a + b) else None.

Notation "a +w b" := (wadd a b) (at level 50, left associativity) : usize_scope.
Notation "a -w b" := (wsub a b) (at level 50, left associativity) : usize_scope.
Notation "a *w b" := (wmul a b) (at level 40, left associativity) : usize_scope.
Global Open Scope usize_scope.

(** A value of type [usize]. *)
Definition is_usize (a : Z) : Prop := 0 <= a < 2 ^ 64.
Definition is_byte (a : Z) : Prop := 0 <= a < 256.

Create HintDb cute.

Ltac zdiv_lia := Z.div_mod_to_equations; lia.

Lemma wadd_small a b : 0 <= a + b < 2 ^ 64 -> a +w b = a + b.
Proof. intros. unfold wadd, wrap64. by rewrite Z.mod_small. Qed.
Lemma wsub_small a b : 0 <= a - b < 2 ^ 64 -> a -w b = a - b.
Proof. intros. unfold wsub, wrap64. by rewrite Z.mod_small. Qed.
Lemma wmul_small a b : 0 <= a * b < 2 ^ 64 -> a *w b = a * b.
Proof. intros. unfold wmul, wrap64. by rewrite Z.mod_small. Qed.
Lemma wshl_small a n : 0 <= n -> 0 <= a * 2 ^ n < 2 ^ 64 -> wshl a n = a * 2 ^ n.
Proof.
  intros. unfold wshl, wrap64. rewrite Z.shiftl_mul_pow2 by lia.
  by rewrite Z.mod_small.
Qed.

(** Removes the wrap-around of operations that [lia] shows in range. *)
Ltac wsmall := repeat match goal with
  | |- context [wadd ?a ?b] => rewrite (wadd_small a b) by lia
  | |- context [wsub ?a ?b] => rewrite (wsub_small a b) by lia
  | |- context [wmul ?a ?b] => rewrite (wmul_small a b) by lia
  end.

Lemma as_isize_small a : - 2 ^ 63 <= a < 2 ^ 63 → as_isize (wrap64 a) = a.
Proof.
  intros Hr. unfold as_isize, wrap64. rewrite Z.mod_mod by lia.
  destruct (Z.ltb_spec (a mod 2 ^ 64) (2 ^ 63)); Z.div_mod_to_equations; lia.
Qed.
Lemma wrap64_range z : is_usize (wrap64 z).
Proof. apply Z.mod_pos_bound. lia. Qed.
Lemma wadd_range a b : is_usize (a +w b).
Proof. apply wrap64_range. Qed.
Lemma wsub_range a b : is_usize (a -w b).
Proof. apply wrap64_range. Qed.

(** [x & (2^k - 1)] is the remainder modulo [2^k]. *)
Lemma land_mask x k : 0 <= k -> Z.land x (2 ^ k - 1) = x mod 2 ^ k.
Proof.
  intros. rewrite <- Z.land_ones by lia. f_equal.
  rewrite Z.ones_equiv. lia.
Qed.

(** [x & !(2^k - 1)] clears the [k] low bits. *)
Lemma land_not_mask x k :
  0 <= k <= 64 -> is_usize x -> Z.land x (wnot (2 ^ k - 1)) = x - x mod 2 ^ k.
Proof.
  unfold is_usize. intros Hk Hx. unfold wnot.
  assert (Hp : 2 ^ 64 = 2 ^ (64 - k) * 2 ^ k) by (rewrite <- Z.pow_add_r by lia; f_equal; lia).
  replace (2 ^ 64 - 1 - (2 ^ k - 1)) with (Z.shiftl (Z.ones (64 - k)) k).
  2:{ rewrite Z.shiftl_mul_pow2, Z.ones_equiv, Hp by lia. unfold Z.pred. ring. }
  replace (x - x mod 2 ^ k) with (Z.shiftl (Z.shiftr x k) k).
  2:{ rewrite Z.shiftl_mul_pow2, Z.shiftr_div_pow2 by lia.
      pose proof (Z.div_mod x (2 ^ k)). lia. }
  apply Z.bits_inj'. intros n Hn. rewrite Z.land_spec.
  destruct (decide (n < k)).
  - rewrite !Z.shiftl_spec_low by lia. by rewrite andb_false_r.
  - rewrite !Z.shiftl_spec, Z.shiftr_spec by lia.
    replace (n - k + k) with n by lia.
    destruct (decide (n < 64)).
    + rewrite Z.ones_spec_low by lia. by rewrite andb_true_r.
    + rewrite Z.ones_spec_high by lia. rewrite andb_false_r. symmetry.
      destruct (decide (x = 0)) as [->|]; [apply Z.bits_0|].
      apply Z.bits_above_log2; [lia|].
      enough (Z.log2 x < 64) by lia. apply Z.log2_lt_pow2; lia.
Qed.

(** [a << k | b] is the sum when [b] fits below bit [k]. *)
Lemma lor_shiftl_add a b k :
  0 <= k -> 0 <= b < 2 ^ k -> Z.lor (Z.shiftl a k) b = a * 2 ^ k + b.
Proof.
  intros Hk Hb. rewrite <- Z.shiftl_mul_pow2 by lia.
  rewrite Z.add_nocarry_lxor, Z.lxor_lor; try done.
  all: apply Z.bits_inj'; intros n Hn; rewrite Z.land_spec, Z.bits_0.
  all: destruct (decide (n < k)); [rewrite Z.shiftl_spec_low by lia; done|].
  all: apply andb_false_intro2; destruct (decide (b = 0)) as [->|];
    [apply Z.bits_0|apply Z.bits_above_log2; [lia|]].
  all: enough (Z.log2 b < k) by lia; apply Z.log2_lt_pow2; lia.
Qed.

(** ** Panics and state

    A Rust function that may panic returns an [outcome]; a method on shared
    mutable state is a computation of the monad [K S].  stdpp's notations
    [x ← m; k] and [m ;; k] chain them. *)

Inductive outcome (A : Type) : Type :=
| Done (a : A)
| Panic.
Arguments Done {A} _.
Arguments Panic {A}.

#[global] Instance outcome_ret : MRet outcome := λ A a, Done a.
#[global] Instance outcome_bind : MBind outcome :=
  λ A B f m, match m with Done a => f a | Panic => Panic end.

(** [Option::unwrap]. *)
Definition unwrap {A} (o : option A) : outcome A :=
  match o with Some a => Done a | None => Panic end.

Definition K (S A : Type) : Type := S → outcome (A * S).

#[global] Instance K_ret S : MRet (K S) := λ A a s, Done (a, s).
#[global] Instance K_bind S : MBind (K S) :=
  λ A B f m s, match m s with Done (a, s') => f a s' | Panic => Panic end.

Definition kpanic {S A} : K S A := λ _, Panic.
Definition kget {S} : K S S := λ s, Done (s, s).
Definition kput {S} (s : S) : K S unit := λ _, Done ((), s).
Definition kmodify {S} (f : S → S) : K S unit := λ s, Done ((), f s).
Definition kunwrap {S A} (o : option A) : K S A :=
  match o with Some a => mret a | None => kpanic end.
Definition kassert {S} (b : bool) : K S unit := if b then mret () else kpanic.

(** A pure function that may panic. *)
Definition klift {S A} (o : outcome A) : K S A := λ s, a ← o; Done (a, s).

(** [for x in l { f(x) }] *)
Fixpoint kfor {S A} (l : list A) (f : A → K S unit) : K S unit :=
  match l with
  | [] => mret ()
  | x :: l' => f x ;; kfor l' f
  end.

(** A loop that threads a local value [b] through its iterations. *)
Fixpoint kfold {S A B} (l : list A) (f : B → A → K S B) (b : B) : K S B :=
  match l with
  | [] => mret b
  | x :: l' => b' ← f b x; kfold l' f b'
  end.

(** Total correctness: [m] does not panic from [s] and [Q] holds of its result. *)
Definition wp {S A} (m : K S A) (s : S) (Q : A → S → Prop) : Prop :=
  match m s with Done (a, s') => Q a s' | Panic => False end.

Section wp_rules.
Context {S : Type}.
Implicit Types s : S.

Lemma wp_ret {A} (a : A) s (Q : A → S → Prop) : Q a s → wp (mret a) s Q.
Proof. done. Qed.

Lemma wp_bind {A B} (m : K S A) (f : A → K S B) s Q :
  wp m s (λ a s', wp (f a) s' Q) → wp (m ≫= f) s Q.
Proof. unfold wp, mbind, K_bind. by destruct (m s) as [[a s']|]. Qed.

Lemma wp_mono {A} (m : K S A) s (Q Q' : A → S → Prop) :
  wp m s Q → (∀ a s', Q a s' → Q' a s') → wp m s Q'.
Proof. unfold wp. destruct (m s) as [[a s']|]; eauto. Qed.

Lemma wp_get s (Q : S → S → Prop) : Q s s → wp kget s Q.
Proof. done. Qed.

Lemma wp_put s s' (Q : unit → S → Prop) : Q () s' → wp (kput s') s Q.
Proof. done. Qed.

Lemma wp_modify (f : S → S) s Q : Q () (f s) → wp (kmodify f) s Q.
Proof. done. Qed.

Lemma wp_unwrap {A} (o : option A) a s (Q : A → S → Prop) :
  o = Some a → Q a s → wp (kunwrap o) s Q.
Proof. by intros ->. Qed.

Lemma wp_lift {A} (o : outcome A) a s (Q : A → S → Prop) :
  o = Done a → Q a s → wp (klift o) s Q.
Proof. by intros ->. Qed.

Lemma wp_assert (b : bool) s (Q : unit → S → Prop) :
  b = true → Q () s → wp (kassert b) s Q.
Proof. by intros ->. Qed.

Lemma wp_done {A} (m : K S A) s Q :
  wp m s Q ↔ ∃ a s', m s = Done (a, s') ∧ Q a s'.
Proof. unfold wp. destruct (m s) as [[a s']|]; split; [eauto| |done|]; by intros (?&?&[=]&?); subst. Qed.

(** Loop rule: an invariant over the elements already visited. *)
Lemma wp_kfor {A} (I : list A → S → Prop) (f : A → K S unit) :
  ∀ l done_ s,
  (∀ pre x post s', done_ ++ l = pre ++ x :: post → I pre s' →
     wp (f x) s' (λ _ s'', I (pre ++ [x]) s'')) →
  I done_ s → wp (kfor l f) s (λ _ s', I (done_ ++ l) s').
Proof.
  induction l as [|x l IH]; intros pre s Hstep HI; simpl.
  - apply wp_ret. by rewrite app_nil_r.
  - apply wp_bind. eapply wp_mono; [by eapply (Hstep pre x l)|].
    intros [] s' HI'. simpl.
    replace (pre ++ x :: l) with ((pre ++ [x]) ++ l) by (by rewrite <- app_assoc).
    apply IH; [|done]. intros pre' y post s'' Heq. apply Hstep with (post := post).
    by rewrite <- Heq, <- app_assoc.
Qed.

(** A computation in which nothing can go wrong is determined by its run. *)
Lemma wp_run {A} (m : K S A) s a s' Q : m s = Done (a, s') → Q a s' → wp m s Q.
Proof. unfold wp. by intros ->. Qed.
End wp_rules.

Ltac wp_next := apply wp_bind.

(** Run the steps of a computation that need no reasoning. *)
Ltac wp_steps :=
  repeat (lazymatch goal with
    | |- wp (mbind _ _) _ _ => apply wp_bind
    | |- wp (mret _) _ _ => apply wp_ret
    | |- wp kget _ _ => apply wp_get
    | |- wp (kput _) _ _ => apply wp_put
    | |- wp (kmodify _) _ _ => apply wp_modify
    | |- wp (kunwrap (Some _)) _ _ => eapply wp_unwrap; [reflexivity|]
    end; cbn beta iota).

(** Partial correctness: [Q] holds of the result unless [m] panics. *)
Definition wlp {S A} (m : K S A) (s : S) (Q : A → S → Prop) : Prop :=
  match m s with Done (a, s') => Q a s' | Panic => True end.

Section wlp_rules.
Context {S : Type}.
Implicit Types s : S.

Lemma wlp_ret {A} (a : A) s (Q : A → S → Prop) : Q a s → wlp (mret a) s Q.
Proof. done. Qed.

Lemma wlp_bind {A B} (m : K S A) (f : A → K S B) s Q :
  wlp m s (λ a s', wlp (f a) s' Q) → wlp (m ≫= f) s Q.
Proof. unfold wlp, mbind, K_bind. by destruct (m s) as [[a s']|]. Qed.

Lemma wlp_mono {A} (m : K S A) s (Q Q' : A → S → Prop) :
  wlp m s Q → (∀ a s', Q a s' → Q' a s') → wlp m s Q'.
Proof. unfold wlp. destruct (m s) as [[a s']|]; eauto. Qed.

Lemma wlp_get s (Q : S → S → Prop) : Q s s → wlp kget s Q.
Proof. done. Qed.

Lemma wlp_put s s' (Q : unit → S → Prop) : Q () s' → wlp (kput s') s Q.
Proof. done. Qed.

Lemma wlp_modify (f : S → S) s Q : Q () (f s) → wlp (kmodify f) s Q.
Proof. done. Qed.

Lemma wlp_unwrap {A} (o : option A) s (Q : A → S → Prop) :
  (∀ a, o = Some a → Q a s) → wlp (kunwrap o) s Q.
Proof. destruct o; intros HQ; [by apply HQ|done]. Qed.

Lemma wlp_assert (b : bool) s (Q : unit → S → Prop) : (b = true → Q () s) → wlp (kassert b) s Q.
Proof. destruct b; intros HQ; [by apply HQ|done]. Qed.

Lemma wlp_panic {A} s (Q : A → S → Prop) : wlp kpanic s Q.
Proof. done. Qed.

Lemma wlp_done {A} (m : K S A) s Q a s' : wlp m s Q → m s = Done (a, s') → Q a s'.
Proof. unfold wlp. intros HQ Heq. by rewrite Heq in HQ. Qed.

Lemma wlp_intro {A} (m : K S A) s (Q : A → S → Prop) : (∀ a s', m s = Done (a, s') → Q a s') → wlp m s Q.
Proof. unfold wlp. destruct (m s) as [[a s']|]; auto. Qed.
End wlp_rules.

Ltac wlp_next := apply wlp_bind.

Ltac wlp_steps :=
  repeat (lazymatch goal with
    | |- wlp (mbind _ _) _ _ => apply wlp_bind
    | |- wlp (mret _) _ _ => apply wlp_ret
    | |- wlp kget _ _ => apply wlp_get
    | |- wlp (kput _) _ _ => apply wlp_put
    | |- wlp (kmodify _) _ _ => apply wlp_modify
    | |- wlp (kunwrap (Some _)) _ _ => apply wlp_unwrap; intros ? [= <-]
    | |- wlp (kunwrap _) _ _ => let x := fresh "x" in let Hx := fresh "Hx" in apply wlp_unwrap; intros x Hx
    | |- wlp (kassert _) _ _ => let Hx := fresh "Hb" in apply wlp_assert; intros Hx
    | |- wlp kpanic _ _ => apply wlp_panic
    end; cbn beta iota).

(** Both at once: [Q] holds of the result, and [m] does not panic when [ok] holds. *)
Definition cwp {S A} (ok : Prop) (m : K S A) (s : S) (Q : A → S → Prop) : Prop :=
  match m s with Done (a, s') => Q a s' | Panic => ¬ ok end.

Section cwp_rules.
Context {S : Type}.
Implicit Types (s : S) (ok : Prop).

Lemma cwp_wp {A} ok (m : K S A) s Q : cwp ok m s Q → ok → wp m s Q.
Proof. unfold cwp, wp. destruct (m s) as [[a s']|]; naive_solver. Qed.

Lemma cwp_wlp {A} ok (m : K S A) s Q : cwp ok m s Q → wlp m s Q.
Proof. unfold cwp, wlp. by destruct (m s) as [[a s']|]. Qed.

Lemma wp_cwp {A} ok (m : K S A) s Q : wp m s Q → cwp ok m s Q.
Proof. unfold cwp, wp. by destruct (m s) as [[a s']|]. Qed.

Lemma cwp_ret {A} ok (a : A) s (Q : A → S → Prop) : Q a s → cwp ok (mret a) s Q.
Proof. done. Qed.

Lemma cwp_bind {A B} ok (m : K S A) (f : A → K S B) s Q :
  cwp ok m s (λ a s', cwp ok (f a) s' Q) → cwp ok (m ≫= f) s Q.
Proof. unfold cwp, mbind, K_bind. by destruct (m s) as [[a s']|]. Qed.

Lemma cwp_mono {A} ok ok' (m : K S A) s (Q Q' : A → S → Prop) :
  cwp ok m s Q → (ok' → ok) → (∀ a s', Q a s' → Q' a s') → cwp ok' m s Q'.
Proof. unfold cwp. destruct (m s) as [[a s']|]; eauto. Qed.

Lemma cwp_unwrap {A} ok (o : option A) s (Q : A → S → Prop) :
  (ok → is_Some o) → (∀ a, o = Some a → Q a s) → cwp ok (kunwrap o) s Q.
Proof. destruct o as [a|]; intros Hok HQ; [by apply HQ|]. by intros [? [=]]%Hok. Qed.

Lemma cwp_assert ok (b : bool) s (Q : unit → S → Prop) :
  (ok → b = true) → (b = true → Q () s) → cwp ok (kassert b) s Q.
Proof. destruct b; intros Hok HQ; [by apply HQ|]. by intros ?%Hok. Qed.

Lemma cwp_lift {A} ok (o : outcome A) s (Q : A → S → Prop) :
  (ok → o ≠ Panic) → (∀ a, o = Done a → Q a s) → cwp ok (klift o) s Q.
Proof. destruct o as [a|]; intros Hok HQ; [by apply HQ|]. by intros ?%Hok. Qed.
End cwp_rules.

Ltac cwp_steps :=
  repeat (lazymatch goal with
    | |- cwp _ (mbind _ _) _ _ => apply cwp_bind
    | |- cwp _ (mret _) _ _ => apply cwp_ret
    | |- cwp _ kget _ _ => apply wp_cwp, wp_get
    | |- cwp _ (kput _) _ _ => apply wp_cwp, wp_put
    | |- cwp _ (kmodify _) _ _ => apply wp_cwp, wp_modify
    | |- cwp _ (kunwrap (Some _)) _ _ => apply wp_cwp; eapply wp_unwrap; [reflexivity|]
    end; cbn beta iota).

(** Case analysis over an explicit list of values. *)
Lemma forall_in_list {A} (P : A → Prop) l : Forall P l → ∀ x, x ∈ l → P x.
Proof. intros H x Hx. rewrite Forall_forall in H. by apply H. Qed.

(** [Result<A, isize>] *)
Inductive result (A : Type) : Type :=
| Ok (a : A)
| Err (e : Z).
Arguments Ok {A} _.
Arguments Err {A} _.

(** ** Loops

    [iterate p f a] runs the body [f] at most [p] times, until it returns
    [inr]; [inl] is the state of a loop that has not finished. *)
Fixpoint iterate {A B} (p : positive) (f : A → A + B) (a : A) : A + B :=
  match p with
  | xH => f a
  | xO p => match iterate p f a with inl a' => iterate p f a' | r => r end
  | xI p =>
      match f a with
      | inl a1 => match iterate p f a1 with inl a' => iterate p f a' | r => r end
      | r => r
      end
  end.

Fixpoint iterate_nat {A B} (n : nat) (f : A → A + B) (a : A) : A + B :=
  match n with
  | O => inl a
  | S n' => match f a with inl a' => iterate_nat n' f a' | r => r end
  end.

Lemma iterate_nat_add {A B} (f : A → A + B) n : ∀ m a,
  iterate_nat (n + m) f a = match iterate_nat n f a with inl a' => iterate_nat m f a' | r => r end.
Proof. induction n as [|n IH]; intros m a; simpl; [done|]. destruct (f a); [apply IH|done]. Qed.

Lemma iterate_eq {A B} (f : A → A + B) p : ∀ a, iterate p f a = iterate_nat (Pos.to_nat p) f a.
Proof.
  induction p as [p IH|p IH|]; intros a; cbn [iterate].
  - rewrite Pos2Nat.inj_xI. simpl. destruct (f a) as [a1|]; [|done].
    rewrite Nat.add_0_r, iterate_nat_add, <- IH. destruct (iterate p f a1); [apply IH|done].
  - rewrite Pos2Nat.inj_xO. cbn [Nat.mul]. rewrite Nat.add_0_r, iterate_nat_add, <- IH.
    destruct (iterate p f a); [apply IH|done].
  - change (Pos.to_nat 1) with 1%nat. simpl. by destruct (f a).
Qed.

(** A loop whose measure decreases terminates, with its invariant. *)
Lemma iterate_total {A B} (f : A → A + B) (I : A → Prop) (Q : B → Prop) (μ : A → Z) :
  (∀ a, I a → match f a with inl a' => I a' ∧ 0 <= μ a' < μ a | inr b => Q b end) →
  ∀ p a, I a → μ a < Z.pos p → ∃ b, iterate p f a = inr b ∧ Q b.
Proof.
  intros Hstep p a Ha Hp. rewrite iterate_eq. rewrite <- positive_nat_Z in Hp.
  assert (∃ n, Pos.to_nat p = S n) as [n Hn] by (exists (pred (Pos.to_nat p)); lia).
  rewrite Hn in *. clear Hn p. revert a Ha Hp. induction n as [|n IH]; intros a Ha Hp.
  - simpl. specialize (Hstep a Ha). destruct (f a); [lia|eauto].
  - simpl. specialize (Hstep a Ha). destruct (f a) as [a'|]; [|eauto]. apply IH; [tauto|lia].
Qed.

(** [&v[a..b]]: panics when the range is out of bounds or reversed. *)
Definition slice {A} (v : list A) (a b : Z) : outcome (list A) :=
  if (a <=? b) && (b <=? length v) then Done (take (Z.to_nat (b - a)) (drop (Z.to_nat a) v))
  else Panic.

Lemma slice_spec {A} (v : list A) a b :
  0 <= a <= b → b <= length v →
  ∃ l, slice v a b = Done l ∧ Z.of_nat (length l) = b - a ∧
       ∀ i, 0 <= i < b - a → l !! Z.to_nat i = v !! Z.to_nat (a + i).
Proof.
  intros Ha Hb. unfold slice. rewrite (proj2 (Z.leb_le a b)), (proj2 (Z.leb_le b _)) by lia. simpl.
  eexists. split; [done|]. split.
  - rewrite length_take, length_drop. lia.
  - intros i Hi. rewrite lookup_take_lt, lookup_drop by lia. f_equal. lia.
Qed.

(** ** [Vec] used as a stack *)

Definition vec_push {A} (v : list A) (x : A) : list A := v ++ [x].
Definition vec_pop {A} (v : list A) : option (A * list A) :=
  match last v with
  | Some x => Some (x, take (pred (length v)) v)
  | None => None
  end.

Lemma vec_pop_push {A} (v : list A) x : vec_pop (vec_push v x) = Some (x, v).
Proof.
  unfold vec_pop, vec_push. rewrite last_snoc, length_app; simpl.
  rewrite Nat.add_1_r; simpl. by rewrite take_app_length.
Qed.
Lemma vec_pop_Some {A} (v : list A) x v' : vec_pop v = Some (x, v') ↔ v = v' ++ [x].
Proof.
  split; [|intros ->; apply (vec_pop_push v' x)].
  destruct v as [|y v _] using rev_ind; [done|].
  change (v ++ [y]) with (vec_push v y). rewrite vec_pop_push. by intros [= -> ->].
Qed.
Lemma vec_pop_None {A} (v : list A) : vec_pop v = None ↔ v = [].
Proof.
  split; [|by intros ->]. destruct v as [|y v _] using rev_ind; [done|].
  change (v ++ [y]) with (vec_push v y). by rewrite vec_pop_push.
Qed.

#[export] Hint Resolve wp_ret wp_modify : cute.
#[export] Hint Resolve wrap64_range wadd_range wsub_range : cute.
