(* ===== verification/Address.v ===== *)
(** * Addresses and page numbers ([os/src/mm/address.rs])

    The newtypes [PhysAddr], [VirtAddr], [PhysPageNum] and [VirtPageNum] wrap a
    [usize]; here each is the integer it wraps.  [From] conversions, page
    rounding, page-table indexes and the [SimpleRange] iterator follow the
    source; the constants come from [os/src/hal/arch/riscv/config.rs]. *)

From S2P Require Import Prelude.

(** ** Constants *)

Definition PAGE_SIZE : Z := 0x1000.
Definition PAGE_SIZE_BITS : Z := 0xc.
Definition PA_WIDTH_SV39 : Z := 56.
Definition VA_WIDTH_SV39 : Z := 39.
Definition PPN_WIDTH_SV39 : Z := PA_WIDTH_SV39 - PAGE_SIZE_BITS.
Definition VPN_WIDTH_SV39 : Z := VA_WIDTH_SV39 - PAGE_SIZE_BITS.

(** ** Conversions between [usize] and the newtypes *)

Definition pa_from_usize (v : Z) : Z := Z.land v (Z.shiftl 1 PA_WIDTH_SV39 - 1).
Definition ppn_from_usize (v : Z) : Z := Z.land v (Z.shiftl 1 PPN_WIDTH_SV39 - 1).
Definition va_from_usize (v : Z) : Z := Z.land v (Z.shiftl 1 VA_WIDTH_SV39 - 1).
Definition vpn_from_usize (v : Z) : Z := Z.land v (Z.shiftl 1 VPN_WIDTH_SV39 - 1).

(** [usize::from(VirtAddr)]: sign extension of bit 38. *)
Definition va_to_usize (v : Z) : Z :=
  if Z.shiftl 1 (VA_WIDTH_SV39 - 1) <=? v
  then Z.lor v (wnot (Z.shiftl 1 VA_WIDTH_SV39 - 1))
  else v.

(** ** Page rounding *)

Definition va_floor (v : Z) : Z := v / PAGE_SIZE.
Definition va_ceil (v : Z) : Z :=
  if v =? 0 then 0 else (v -w 1 +w PAGE_SIZE) / PAGE_SIZE.
Definition va_page_offset (v : Z) : Z := Z.land v (PAGE_SIZE - 1).
Definition va_aligned (v : Z) : bool := va_page_offset v =? 0.

Definition pa_floor (v : Z) : Z := v / PAGE_SIZE.
Definition pa_ceil (v : Z) : Z :=
  if v =? 0 then 0 else (v -w 1 +w PAGE_SIZE) / PAGE_SIZE.
Definition pa_page_offset (v : Z) : Z := Z.land v (PAGE_SIZE - 1).
Definition pa_aligned (v : Z) : bool := pa_page_offset v =? 0.

(** [VirtPageNum::from(VirtAddr)] and [PhysPageNum::from(PhysAddr)] assert
    alignment. *)
Definition vpn_from_va (v : Z) : outcome Z :=
  if va_page_offset v =? 0 then Done (va_floor v) else Panic.
Definition ppn_from_pa (v : Z) : outcome Z :=
  if pa_page_offset v =? 0 then Done (pa_floor v) else Panic.
Definition va_from_vpn (v : Z) : Z := wshl v PAGE_SIZE_BITS.
Definition pa_from_ppn (v : Z) : Z := wshl v PAGE_SIZE_BITS.

(** ** The three page-table indexes of a virtual page number

    [for i in (0..3).rev() { idx[i] = vpn & 511; vpn >>= 9; }] *)
Definition vpn_indexes (vpn : Z) : list Z :=
  (fold_left (λ '(idx, v) (i : nat), (<[i := Z.land v 511]> idx, Z.shiftr v 9))
     [2; 1; 0]%nat ([0; 0; 0], vpn)).1.

(** ** [SimpleRange] and its iterator *)

Definition step_by_one (v : Z) : Z := v +w 1.

Record SimpleRange := mkRange { r_l : Z; r_r : Z }.

Definition range_new (start stop : Z) : outcome SimpleRange :=
  if start <=? stop then Done (mkRange start stop) else Panic.
Definition get_start (r : SimpleRange) : Z := r_l r.
Definition get_end (r : SimpleRange) : Z := r_r r.

Record SimpleRangeIterator := mkIter { it_current : Z; it_end : Z }.

Definition range_into_iter (r : SimpleRange) : SimpleRangeIterator :=
  mkIter (r_l r) (r_r r).

Definition range_next (it : SimpleRangeIterator) : option Z * SimpleRangeIterator :=
  if it_current it =? it_end it then (None, it)
  else (Some (it_current it), mkIter (step_by_one (it_current it)) (it_end it)).

(** Drive the iterator until it returns [None]; [None] when the fuel runs out. *)
Fixpoint iter_collect (fuel : nat) (it : SimpleRangeIterator) : option (list Z) :=
  match fuel with
  | O => None
  | S fuel' =>
      match range_next it with
      | (None, _) => Some []
      | (Some v, it') => cons v <$> iter_collect fuel' it'
      end
  end.

(** The elements a [for] loop over the range visits. *)
Definition range_elems (r : SimpleRange) : list Z :=
  default [] (iter_collect (S (Z.to_nat (r_r r - r_l r))) (range_into_iter r)).

Definition align_up (addr align : Z) : Z :=
  Z.land (addr +w align -w 1) (wnot (align - 1)).

(** Virtual page numbers of a 39-bit address space, physical page numbers of a
    56-bit one, and indexes into a table. *)
Definition is_vpn (v : Z) : Prop := 0 <= v < 2 ^ 27.
Definition is_ppn (p : Z) : Prop := 0 <= p < 2 ^ 44.
Definition idx_ok (i : Z) : Prop := 0 <= i < 512.

(** ** Lemmas *)

#[global] Arguments PAGE_SIZE : simpl never.
#[global] Arguments PAGE_SIZE_BITS : simpl never.

Lemma shl1_mask x k : 0 <= k -> Z.land x (Z.shiftl 1 k - 1) = x mod 2 ^ k.
Proof. intros. rewrite Z.shiftl_1_l. by apply land_mask. Qed.

Lemma pa_from_usize_mod v : pa_from_usize v = v mod 2 ^ 56.
Proof. by apply shl1_mask. Qed.
Lemma ppn_from_usize_mod v : ppn_from_usize v = v mod 2 ^ 44.
Proof. by apply shl1_mask. Qed.
Lemma va_from_usize_mod v : va_from_usize v = v mod 2 ^ 39.
Proof. by apply shl1_mask. Qed.
Lemma vpn_from_usize_mod v : vpn_from_usize v = v mod 2 ^ 27.
Proof. by apply shl1_mask. Qed.

Lemma va_page_offset_mod v : va_page_offset v = v mod 4096.
Proof. apply (land_mask v 12). lia. Qed.
Lemma pa_page_offset_mod v : pa_page_offset v = v mod 4096.
Proof. apply (land_mask v 12). lia. Qed.

Lemma va_to_usize_low v : v < 2 ^ 38 -> va_to_usize v = v.
Proof.
  intros. unfold va_to_usize.
  change (Z.shiftl 1 (VA_WIDTH_SV39 - 1)) with (2 ^ 38).
  by destruct (Z.leb_spec (2 ^ 38) v); [lia|].
Qed.

Lemma va_to_usize_high v :
  2 ^ 38 <= v < 2 ^ 39 -> va_to_usize v = v + (2 ^ 64 - 2 ^ 39).
Proof.
  intros. unfold va_to_usize.
  change (Z.shiftl 1 (VA_WIDTH_SV39 - 1)) with (2 ^ 38).
  destruct (Z.leb_spec (2 ^ 38) v); [|lia].
  change (wnot (Z.shiftl 1 VA_WIDTH_SV39 - 1)) with (Z.shiftl (2 ^ 25 - 1) 39).
  rewrite Z.lor_comm, lor_shiftl_add by lia. lia.
Qed.

(** The address widths make a page's number, offset and bounds consistent. *)
Lemma va_floor_bounds v :
  va_floor v * PAGE_SIZE <= v < va_floor v * PAGE_SIZE + PAGE_SIZE.
Proof. unfold va_floor, PAGE_SIZE. zdiv_lia. Qed.

Lemma va_ceil_eq v : 0 <= v < 2 ^ 63 -> va_ceil v = (v + 4095) / 4096.
Proof.
  intros. unfold va_ceil, PAGE_SIZE. destruct (Z.eqb_spec v 0) as [->|]; [done|].
  rewrite wsub_small, wadd_small by (rewrite ?wsub_small; lia). f_equal. lia.
Qed.

Lemma va_ceil_bounds v :
  0 <= v < 2 ^ 63 -> va_ceil v * PAGE_SIZE - PAGE_SIZE < v <= va_ceil v * PAGE_SIZE.
Proof. intros. rewrite va_ceil_eq by lia. unfold PAGE_SIZE. zdiv_lia. Qed.

Lemma pa_ceil_eq v : 0 <= v < 2 ^ 63 -> pa_ceil v = (v + 4095) / 4096.
Proof. apply va_ceil_eq. Qed.

Lemma va_from_vpn_eq v : 0 <= v < 2 ^ 52 -> va_from_vpn v = v * 4096.
Proof. intros. unfold va_from_vpn, PAGE_SIZE_BITS. rewrite wshl_small; lia. Qed.
Lemma pa_from_ppn_eq v : 0 <= v < 2 ^ 52 -> pa_from_ppn v = v * 4096.
Proof. apply va_from_vpn_eq. Qed.

Lemma vpn_indexes_eq vpn :
  vpn_indexes vpn = [(vpn / 2 ^ 18) mod 512; (vpn / 2 ^ 9) mod 512; vpn mod 512].
Proof.
  unfold vpn_indexes; simpl. rewrite !(land_mask _ 9) by lia.
  rewrite !Z.shiftr_div_pow2, Z.div_div by lia. done.
Qed.

Lemma vpn_indexes_range vpn i : i ∈ vpn_indexes vpn -> 0 <= i < 512.
Proof.
  rewrite vpn_indexes_eq, !elem_of_cons, elem_of_nil.
  intros [->|[->|[->|[]]]]; apply Z.mod_pos_bound; lia.
Qed.

Lemma vpn_indexes_inj vpn vpn' :
  0 <= vpn < 2 ^ 27 -> 0 <= vpn' < 2 ^ 27 ->
  vpn_indexes vpn = vpn_indexes vpn' -> vpn = vpn'.
Proof. rewrite !vpn_indexes_eq. intros ?? [= ???]. zdiv_lia. Qed.

Lemma iter_collect_seqZ n : ∀ l r,
  0 <= l <= r -> r < 2 ^ 64 -> (Z.to_nat (r - l) < n)%nat ->
  iter_collect n (mkIter l r) = Some (seqZ l (r - l)).
Proof.
  induction n as [|n IH]; intros l r Hl Hr Hn; [lia|]. simpl.
  unfold range_next; simpl. destruct (Z.eqb_spec l r) as [->|].
  - by rewrite Z.sub_diag.
  - unfold step_by_one. rewrite wadd_small by lia.
    rewrite IH by lia. simpl. rewrite (seqZ_cons l) by lia.
    do 3 f_equal. lia.
Qed.

Lemma range_elems_seqZ l r :
  0 <= l <= r -> r < 2 ^ 64 -> range_elems (mkRange l r) = seqZ l (r - l).
Proof.
  intros. unfold range_elems, range_into_iter; simpl r_l; simpl r_r.
  by rewrite iter_collect_seqZ by lia.
Qed.

Lemma wadd_wsub a b c : a +w b -w c = wrap64 (a + b - c).
Proof. unfold wadd, wsub, wrap64. by rewrite Zminus_mod_idemp_l. Qed.

Lemma align_up_pow2 addr k :
  0 <= k < 64 -> 0 <= addr -> addr + 2 ^ k - 1 < 2 ^ 64 ->
  align_up addr (2 ^ k) = (addr + 2 ^ k - 1) - (addr + 2 ^ k - 1) mod 2 ^ k.
Proof.
  intros Hk Ha Hb. assert (0 < 2 ^ k) by (apply Z.pow_pos_nonneg; lia).
  unfold align_up. rewrite wadd_wsub. unfold wrap64.
  rewrite Z.mod_small, land_not_mask by (unfold is_usize; lia). done.
Qed.

Lemma align_up_page addr :
  0 <= addr < 2 ^ 64 - PAGE_SIZE ->
  align_up addr PAGE_SIZE = (addr + 4095) / 4096 * 4096.
Proof.
  unfold PAGE_SIZE. intros. change 0x1000 with (2 ^ 12) at 1.
  rewrite align_up_pow2 by lia. zdiv_lia.
Qed.
