(* ===== verification/PhysMem.v ===== *)
(** * Physical memory

    The kernel identity-maps physical memory, so [PhysAddr::get_ref/get_mut],
    [PhysPageNum::get_pte_array] and [PhysPageNum::get_bytes_array]
    ([os/src/mm/address.rs]) hand out references straight into it.  Memory is a
    total function from byte addresses to bytes; a reference is an address, a
    slice an address and a length. *)

From S2P Require Import Prelude Address.

Definition mem := Z → Z.

(** ** Bytes *)

Definition load_bytes (m : mem) (a n : Z) : list Z := (λ i, m (a + i)) <$> seqZ 0 n.

(** [slice.copy_from_slice(bs)] at address [a] *)
Definition store_bytes (m : mem) (a : Z) (bs : list Z) : mem := λ x,
  if (a <=? x) && (x <? a + length bs) then default 0 (bs !! Z.to_nat (x - a)) else m x.

(** [for b in slice { *b = v }] over [n] bytes *)
Definition fill_bytes (m : mem) (a n v : Z) : mem := λ x,
  if (a <=? x) && (x <? a + n) then v else m x.

(** [dst.copy_from_slice(src)] between two disjoint slices of [n] bytes *)
Definition copy_bytes (m : mem) (dst src n : Z) : mem := λ x,
  if (dst <=? x) && (x <? dst + n) then m (src + (x - dst)) else m x.

(** ** Little-endian 64-bit words *)

Definition load64 (m : mem) (a : Z) : Z := little_endian_to_Z 8 (load_bytes m a 8).
Definition store64 (m : mem) (a v : Z) : mem := store_bytes m a (Z_to_little_endian 8 8 v).

(** ** Views of a physical page *)

(** Address of entry [idx] of [ppn.get_pte_array()]. *)
Definition pte_array_addr (ppn idx : Z) : Z := pa_from_ppn ppn + idx * 8.
(** Base address of [ppn.get_bytes_array()]. *)
Definition bytes_array_addr (ppn : Z) : Z := pa_from_ppn ppn.

(** ** Lemmas *)

Lemma length_load_bytes m a n : length (load_bytes m a n) = Z.to_nat n.
Proof. unfold load_bytes. by rewrite length_fmap, length_seqZ. Qed.

Lemma lookup_load_bytes m a n i :
  (Z.of_nat i < n) -> load_bytes m a n !! i = Some (m (a + i)).
Proof.
  intros. unfold load_bytes. rewrite list_lookup_fmap, lookup_seqZ_lt by lia. done.
Qed.

Lemma load_bytes_ext m m' a n :
  (∀ x, a <= x < a + n -> m x = m' x) -> load_bytes m a n = load_bytes m' a n.
Proof.
  intros H. unfold load_bytes. apply list_fmap_ext. intros i y Hy.
  apply lookup_seqZ in Hy as [-> ?]. apply H. lia.
Qed.

Lemma store_bytes_out m a bs x :
  x < a ∨ a + length bs <= x -> store_bytes m a bs x = m x.
Proof.
  intros. unfold store_bytes.
  destruct (Z.leb_spec a x), (Z.ltb_spec x (a + length bs)); simpl; lia || done.
Qed.

Lemma store_bytes_in m a bs i b :
  bs !! i = Some b -> store_bytes m a bs (a + Z.of_nat i) = b.
Proof.
  intros Hb. pose proof (lookup_lt_Some _ _ _ Hb). unfold store_bytes.
  rewrite (proj2 (Z.leb_le _ _)), (proj2 (Z.ltb_lt _ _)) by lia. simpl.
  replace (Z.to_nat (a + i - a)) with i by lia. by rewrite Hb.
Qed.

Lemma load_store_bytes m a bs :
  load_bytes (store_bytes m a bs) a (length bs) = bs.
Proof.
  apply list_eq. intros i. destruct (decide (i < length bs)%nat) as [Hi|Hi].
  - rewrite lookup_load_bytes by lia.
    destruct (lookup_lt_is_Some_2 _ _ Hi) as [b Hb]. rewrite Hb. f_equal.
    by apply store_bytes_in.
  - rewrite !lookup_ge_None_2; rewrite ?length_load_bytes; lia || done.
Qed.

Lemma load_bytes_store_disjoint m a bs b n :
  b + n <= a ∨ a + length bs <= b ->
  load_bytes (store_bytes m a bs) b n = load_bytes m b n.
Proof. intros. apply load_bytes_ext. intros. apply store_bytes_out. lia. Qed.

Lemma fill_bytes_in m a n v x : a <= x < a + n -> fill_bytes m a n v x = v.
Proof.
  intros. unfold fill_bytes.
  by rewrite (proj2 (Z.leb_le _ _)), (proj2 (Z.ltb_lt _ _)) by lia.
Qed.
Lemma fill_bytes_out m a n v x : x < a ∨ a + n <= x -> fill_bytes m a n v x = m x.
Proof.
  intros. unfold fill_bytes.
  destruct (Z.leb_spec a x), (Z.ltb_spec x (a + n)); simpl; lia || done.
Qed.
Lemma copy_bytes_in m d s n x : d <= x < d + n -> copy_bytes m d s n x = m (s + (x - d)).
Proof.
  intros. unfold copy_bytes.
  by rewrite (proj2 (Z.leb_le _ _)), (proj2 (Z.ltb_lt _ _)) by lia.
Qed.
Lemma copy_bytes_out m d s n x : x < d ∨ d + n <= x -> copy_bytes m d s n x = m x.
Proof.
  intros. unfold copy_bytes.
  destruct (Z.leb_spec d x), (Z.ltb_spec x (d + n)); simpl; lia || done.
Qed.

Lemma load64_ext m m' a : (∀ x, a <= x < a + 8 -> m x = m' x) -> load64 m a = load64 m' a.
Proof. intros. unfold load64. f_equal. by apply load_bytes_ext. Qed.

Lemma store64_out m a v x : x < a ∨ a + 8 <= x -> store64 m a v x = m x.
Proof.
  intros. apply store_bytes_out. rewrite length_Z_to_little_endian by lia. lia.
Qed.

Lemma load64_store64_eq m a v : 0 <= v < 2 ^ 64 -> load64 (store64 m a v) a = v.
Proof.
  intros. unfold load64, store64.
  rewrite <- (length_Z_to_little_endian 8 8 v) at 2 by lia.
  rewrite load_store_bytes, little_endian_to_Z_to_little_endian by lia.
  by apply Z.mod_small.
Qed.

Lemma load64_store64_ne m a v b :
  b + 8 <= a ∨ a + 8 <= b -> load64 (store64 m a v) b = load64 m b.
Proof. intros. apply load64_ext. intros. apply store64_out. lia. Qed.

Lemma load64_fill0 m a n b :
  a <= b -> b + 8 <= a + n -> load64 (fill_bytes m a n 0) b = 0.
Proof.
  intros. unfold load64.
  rewrite (load_bytes_ext _ (λ _, 0)); [done|].
  intros. apply fill_bytes_in. lia.
Qed.

Lemma load64_fill_out m a n v b :
  b + 8 <= a ∨ a + n <= b -> load64 (fill_bytes m a n v) b = load64 m b.
Proof. intros. apply load64_ext. intros. apply fill_bytes_out. lia. Qed.

(** Entries of different tables, or different entries of a table, do not overlap. *)
Lemma pte_array_addr_eq ppn idx :
  is_ppn ppn -> pte_array_addr ppn idx = ppn * 4096 + idx * 8.
Proof. unfold is_ppn. intros. unfold pte_array_addr. rewrite pa_from_ppn_eq; lia. Qed.

Lemma bytes_array_addr_eq ppn : is_ppn ppn -> bytes_array_addr ppn = ppn * 4096.
Proof. unfold is_ppn. intros. apply pa_from_ppn_eq. lia. Qed.

Lemma pte_array_disjoint p i p' i' :
  is_ppn p -> is_ppn p' -> idx_ok i -> idx_ok i' ->
  (p, i) ≠ (p', i') ->
  pte_array_addr p i + 8 <= pte_array_addr p' i' ∨
  pte_array_addr p' i' + 8 <= pte_array_addr p i.
Proof.
  intros ???? Hne. rewrite !pte_array_addr_eq by done. unfold idx_ok in *.
  assert (p ≠ p' ∨ p = p' ∧ i ≠ i') as [|[-> ?]]; [|lia|lia].
  destruct (decide (p = p')), (decide (i = i')); naive_solver.
Qed.
