(* ===== verification/IdAlloc.v ===== *)
(** * Allocators of unique identifiers

    [RecycleAllocator] of [os/src/task/pid.rs] hands out process and thread ids;
    [os/src/hal/arch/riscv/kernel_stack.rs] declares the same type again for
    kernel-stack ids.  The class [IdAlloc] states what an allocator promises its
    clients; [FrameAlloc.v] discharges it for physical frames. *)

From S2P Require Import Prelude.

(** ** The interface *)

Class IdAlloc (T : Type) := {
  ia_wf : T → Prop;
  (** the allocator has not run out of fresh numbers *)
  ia_room : T → Prop;
  (** identifiers handed out and not yet returned *)
  ia_live : T → Z → Prop;
  ia_alloc : T → option (Z * T);
  ia_dealloc : T → Z → outcome T;
  ia_alloc_fresh a id a' :
    ia_wf a → ia_room a → ia_alloc a = Some (id, a') →
    ia_wf a' ∧ ¬ ia_live a id ∧ (∀ x, ia_live a' x ↔ x = id ∨ ia_live a x);
  ia_dealloc_live a id :
    ia_wf a → ia_live a id →
    ∃ a', ia_dealloc a id = Done a' ∧ ia_wf a' ∧
          (∀ x, ia_live a' x ↔ x ≠ id ∧ ia_live a x);
}.

(** ** Histories of a client that only returns what it holds *)

Section history.
Context {T : Type} `{IdAlloc T}.

(** [history a held]: from an initial state with nothing handed out beyond
    [base], a sequence of allocations and returns leads to allocator [a] with
    the client holding [held]. *)
Inductive history (a0 : T) : T → list Z → Prop :=
| hist_init : history a0 a0 []
| hist_alloc a held id a' :
    history a0 a held → ia_room a → ia_alloc a = Some (id, a') →
    history a0 a' (id :: held)
| hist_dealloc a held pre id post a' :
    history a0 a held → held = pre ++ id :: post →
    ia_dealloc a id = Done a' → history a0 a' (pre ++ post).

Lemma history_sound a0 a held :
  ia_wf a0 → history a0 a held →
  ia_wf a ∧ NoDup held ∧
  (∀ x, x ∈ held → ¬ ia_live a0 x) ∧
  (∀ x, ia_live a x ↔ x ∈ held ∨ ia_live a0 x).
Proof.
  intros Hwf0. induction 1 as [|a held id a' _ (Hwf&Hnd&Hsep&Hlive) Hroom Halloc
    |a held pre id post a' _ (Hwf&Hnd&Hsep&Hlive) -> Hde].
  - split_and!; [done|constructor| |]; set_solver.
  - destruct (ia_alloc_fresh _ _ _ Hwf Hroom Halloc) as (Hwf'&Hfresh&Hl).
    rewrite Hlive in Hfresh.
    split_and!; [done|constructor; [tauto|done]| |].
    + intros x [->|Hx]%elem_of_cons; [tauto|auto].
    + intros x. rewrite Hl, Hlive, elem_of_cons. tauto.
  - assert (Hid : ia_live a id) by (apply Hlive; left; set_solver).
    destruct (ia_dealloc_live _ _ Hwf Hid) as (a''&Ha''&Hwf'&Hl).
    rewrite Hde in Ha''; injection Ha'' as <-.
    rewrite <- Permutation_middle in Hnd. apply NoDup_cons in Hnd as [Hni Hnd].
    split_and!; [done|done| |].
    + intros x Hx. apply Hsep. set_solver.
    + intros x. rewrite Hl, Hlive. assert (¬ ia_live a0 id) by (apply Hsep; set_solver).
      split; [set_solver|]. intros [Hx|Hx].
      * split; [by intros ->|left; set_solver].
      * split; [by intros ->|auto].
Qed.
End history.

(** ** [RecycleAllocator] *)

Record RecycleAllocator := mkRA { ra_current : Z; ra_recycled : list Z }.

Definition ra_new : RecycleAllocator := mkRA 0 [].

Definition ra_alloc (a : RecycleAllocator) : Z * RecycleAllocator :=
  match vec_pop (ra_recycled a) with
  | Some (id, rest) => (id, mkRA (ra_current a) rest)
  | None =>
      let cur := ra_current a +w 1 in
      (cur -w 1, mkRA cur (ra_recycled a))
  end.

Definition ra_dealloc (a : RecycleAllocator) (id : Z) : outcome RecycleAllocator :=
  if id <? ra_current a then
    if existsb (Z.eqb id) (ra_recycled a) then Panic
    else Done (mkRA (ra_current a) (vec_push (ra_recycled a) id))
  else Panic.

(** [KSTACK_ALLOCATOR]'s own copy of the type in [kernel_stack.rs]. *)
Definition kstack_ra_alloc (a : RecycleAllocator) : Z * RecycleAllocator :=
  match vec_pop (ra_recycled a) with
  | Some (id, rest) => (id, mkRA (ra_current a) rest)
  | None =>
      let cur := ra_current a +w 1 in
      (cur -w 1, mkRA cur (ra_recycled a))
  end.

Definition kstack_ra_dealloc (a : RecycleAllocator) (id : Z) : outcome RecycleAllocator :=
  if id <? ra_current a then
    if existsb (Z.eqb id) (ra_recycled a) then Panic
    else Done (mkRA (ra_current a) (vec_push (ra_recycled a) id))
  else Panic.

Definition ra_wf (a : RecycleAllocator) : Prop :=
  NoDup (ra_recycled a) ∧ Forall (λ x, 0 <= x < ra_current a) (ra_recycled a) ∧
  0 <= ra_current a < 2 ^ 64.
Definition ra_live (a : RecycleAllocator) (x : Z) : Prop :=
  0 <= x < ra_current a ∧ x ∉ ra_recycled a.
Definition ra_room (a : RecycleAllocator) : Prop := ra_current a < 2 ^ 64 - 1.

Lemma existsb_eqb_elem x l : existsb (Z.eqb x) l = true ↔ x ∈ l.
Proof.
  rewrite existsb_exists. setoid_rewrite Z.eqb_eq. rewrite list_elem_of_In.
  split; [by intros (?&?&->)|by exists x].
Qed.
Lemma existsb_eqb_not_elem x l : existsb (Z.eqb x) l = false ↔ x ∉ l.
Proof. rewrite <- existsb_eqb_elem. by destruct (existsb _ _). Qed.

Lemma not_elem_of_snoc (x y : Z) l : x ∉ l ++ [y] ↔ x ∉ l ∧ x ≠ y.
Proof. rewrite elem_of_app, list_elem_of_singleton. tauto. Qed.

Lemma ra_new_wf : ra_wf ra_new.
Proof. split_and!; simpl; [constructor|constructor|lia|lia]. Qed.

Lemma ra_alloc_fresh a id a' :
  ra_wf a → ra_room a → ra_alloc a = (id, a') →
  ra_wf a' ∧ ¬ ra_live a id ∧ (∀ x, ra_live a' x ↔ x = id ∨ ra_live a x).
Proof.
  intros (Hnd&Hall&Hc) Hroom. unfold ra_room in Hroom. unfold ra_alloc, ra_live, ra_wf.
  destruct (vec_pop (ra_recycled a)) as [[y rest]|] eqn:Hpop.
  - apply vec_pop_Some in Hpop. intros [= <- <-]; simpl. rewrite Hpop in *.
    apply Forall_app in Hall as [Hall Hy]. rewrite Forall_singleton in Hy.
    apply NoDup_app in Hnd as (Hnd&Hdisj&_).
    assert (y ∉ rest) by (intros Hin; eapply Hdisj; [done|set_solver]).
    split_and!; try done; try lia; [rewrite not_elem_of_snoc; tauto|].
    intros x. rewrite not_elem_of_snoc.
    destruct (decide (x = y)) as [->|]; tauto.
  - apply vec_pop_None in Hpop. intros [= <- <-]; simpl. rewrite Hpop in *.
    rewrite wadd_small by lia. rewrite wsub_small by lia.
    split_and!; try done; try lia.
    intros x. split; [intros [? _]|intros [->|[? _]]]; try (split; [lia|set_solver]).
    destruct (decide (x = ra_current a)); [left; lia|right; split; [lia|set_solver]].
Qed.

Lemma ra_dealloc_live a id :
  ra_wf a → ra_live a id →
  ∃ a', ra_dealloc a id = Done a' ∧ ra_wf a' ∧ (∀ x, ra_live a' x ↔ x ≠ id ∧ ra_live a x).
Proof.
  intros (Hnd&Hall&Hc) [Hid Hni]. unfold ra_dealloc.
  rewrite (proj2 (Z.ltb_lt _ _)) by lia.
  rewrite (proj2 (existsb_eqb_not_elem _ _)) by done.
  eexists; split; [done|]. unfold ra_wf, ra_live, vec_push; simpl. split_and!; try lia.
  - apply NoDup_app. split_and!; [done|set_solver|apply NoDup_singleton].
  - apply Forall_app. split; [done|by apply Forall_singleton].
  - set_solver.
Qed.

#[export, refine] Instance recycle_id_alloc : IdAlloc RecycleAllocator := {|
  ia_wf := ra_wf;
  ia_room := ra_room;
  ia_live := ra_live;
  ia_alloc a := Some (ra_alloc a);
  ia_dealloc := ra_dealloc;
|}.
Proof.
  - intros a id a' Hwf Hroom [= Heq]. by apply ra_alloc_fresh.
  - exact ra_dealloc_live.
Defined.

Lemma ra_dealloc_panics a id : 0 <= id → ¬ ra_live a id → ra_dealloc a id = Panic.
Proof.
  intros Hid Hno. unfold ra_dealloc, ra_live in *.
  destruct (Z.ltb_spec id (ra_current a)); [|done].
  rewrite (proj2 (existsb_eqb_elem _ _)); [done|].
  destruct (decide (id ∈ ra_recycled a)); [done|tauto].
Qed.
