(* ===== verification/FrameAlloc.v ===== *)
(** * The physical frame allocator ([os/src/mm/frame_allocator.rs])

    [StackFrameAllocator] and the global operations on [FRAME_ALLOCATOR].
    [KMem] is the part of the kernel state the memory subsystem owns: physical
    memory and the allocator.  A [FrameTracker] is the number of the frame it
    owns; dropping it is [frame_dealloc]. *)

From S2P Require Import Prelude Address PhysMem IdAlloc.

(** ** The allocator *)

Record StackFrameAllocator := mkFA {
  fa_current : Z;
  fa_end : Z;
  fa_recycled : list Z;
}.

Definition fa_new : StackFrameAllocator := mkFA 0 0 [].

Definition fa_init (a : StackFrameAllocator) (l r : Z) : StackFrameAllocator :=
  mkFA l r (fa_recycled a).

Definition fa_alloc (a : StackFrameAllocator) : option (Z * StackFrameAllocator) :=
  match vec_pop (fa_recycled a) with
  | Some (ppn, rest) => Some (ppn_from_usize ppn, mkFA (fa_current a) (fa_end a) rest)
  | None =>
      if fa_current a =? fa_end a then None
      else
        let cur := fa_current a +w 1 in
        Some (ppn_from_usize (cur -w 1), mkFA cur (fa_end a) (fa_recycled a))
  end.

Definition fa_alloc_more (a : StackFrameAllocator) (pages : Z)
  : option (list Z * StackFrameAllocator) :=
  if fa_end a <=? fa_current a +w pages then None
  else
    let cur := fa_current a +w pages in
    let arr := seqZ 1 pages in
    Some ((λ x, ppn_from_usize (cur -w x)) <$> arr, mkFA cur (fa_end a) (fa_recycled a)).

Definition fa_dealloc (a : StackFrameAllocator) (ppn : Z) : outcome StackFrameAllocator :=
  if (fa_current a <=? ppn) || existsb (Z.eqb ppn) (fa_recycled a) then Panic
  else Done (mkFA (fa_current a) (fa_end a) (vec_push (fa_recycled a) ppn)).

(** ** Global operations *)

Record KMem := mkKMem { km_mem : mem; km_fa : StackFrameAllocator }.

Definition with_mem (f : mem → mem) (s : KMem) : KMem := mkKMem (f (km_mem s)) (km_fa s).

Definition MEMORY_END : Z := 0x88000000.

(** [init_frame_allocator]; [ekernel] is the linker symbol. *)
Definition init_frame_allocator (ekernel : Z) : K KMem unit :=
  kmodify (λ s, mkKMem (km_mem s)
    (fa_init (km_fa s) (pa_ceil (pa_from_usize ekernel)) (pa_floor (pa_from_usize MEMORY_END)))).

(** [FrameTracker::new]: zero the frame. *)
Definition frame_tracker_new (ppn : Z) : K KMem Z :=
  kmodify (with_mem (λ m, fill_bytes m (bytes_array_addr ppn) 4096 0)) ;; mret ppn.

Definition frame_alloc : K KMem (option Z) := λ s,
  match fa_alloc (km_fa s) with
  | None => Done (None, s)
  | Some (ppn, fa') => (p ← frame_tracker_new ppn; mret (Some p)) (mkKMem (km_mem s) fa')
  end.

Definition frame_alloc_more (num : Z) : K KMem (option (list Z)) := λ s,
  match fa_alloc_more (km_fa s) num with
  | None => Done (None, s)
  | Some (ppns, fa') =>
      (kfor ppns (λ p, frame_tracker_new p ;; mret ()) ;; mret (Some ppns))
        (mkKMem (km_mem s) fa')
  end.

Definition frame_dealloc (ppn : Z) : K KMem unit := λ s,
  match fa_dealloc (km_fa s) ppn with
  | Done fa' => Done ((), mkKMem (km_mem s) fa')
  | Panic => Panic
  end.

(** ** Invariant and ownership *)

Definition fa_wf (a : StackFrameAllocator) : Prop :=
  NoDup (fa_recycled a) ∧ Forall (λ x, 0 <= x < fa_current a) (fa_recycled a) ∧
  0 <= fa_current a <= fa_end a ∧ fa_end a < 2 ^ 44.

(** Frames below [current] that are not on the recycled stack are in use. *)
Definition fa_owned (a : StackFrameAllocator) (p : Z) : Prop :=
  0 <= p < fa_current a ∧ p ∉ fa_recycled a.

(** Number of frames [alloc] can still hand out. *)
Definition fa_free (a : StackFrameAllocator) : Z :=
  fa_end a - fa_current a + length (fa_recycled a).

Lemma ppn_from_usize_id p : 0 <= p < 2 ^ 44 -> ppn_from_usize p = p.
Proof. intros. rewrite ppn_from_usize_mod. by apply Z.mod_small. Qed.

Lemma fa_owned_range a p : fa_wf a -> fa_owned a p -> is_ppn p.
Proof. unfold is_ppn. intros (?&?&?&?) [? _]. lia. Qed.

Lemma fa_alloc_fresh a p a' :
  fa_wf a -> fa_alloc a = Some (p, a') ->
  fa_wf a' ∧ ¬ fa_owned a p ∧ (∀ x, fa_owned a' x ↔ x = p ∨ fa_owned a x) ∧
  fa_end a' = fa_end a ∧ fa_free a' = fa_free a - 1.
Proof.
  intros (Hnd&Hall&Hc&He). unfold fa_alloc, fa_owned, fa_wf, fa_free.
  destruct (vec_pop (fa_recycled a)) as [[y rest]|] eqn:Hpop.
  - apply vec_pop_Some in Hpop. intros [= <- <-]; simpl. rewrite Hpop in *.
    apply Forall_app in Hall as [Hall Hy]. rewrite Forall_singleton in Hy.
    apply NoDup_app in Hnd as (Hnd&Hdisj&_). rewrite ppn_from_usize_id by lia.
    assert (y ∉ rest) by (intros Hin; eapply Hdisj; [done|set_solver]).
    rewrite length_app; simpl. split_and!; try done; try lia.
    + rewrite not_elem_of_snoc. tauto.
    + intros x. rewrite not_elem_of_snoc. destruct (decide (x = y)) as [->|]; tauto.
  - apply vec_pop_None in Hpop. destruct (Z.eqb_spec (fa_current a) (fa_end a)); [done|].
    intros [= <- <-]; simpl. rewrite Hpop in *.
    rewrite wadd_small, wsub_small by lia. rewrite ppn_from_usize_id by lia.
    split_and!; try done; try lia.
    intros x. split; [intros [? _]|intros [->|[? _]]]; try (split; [lia|set_solver]).
    destruct (decide (x = fa_current a)); [left; lia|right; split; [lia|set_solver]].
Qed.

Lemma fa_dealloc_owned a p :
  fa_wf a -> fa_owned a p ->
  ∃ a', fa_dealloc a p = Done a' ∧ fa_wf a' ∧ (∀ x, fa_owned a' x ↔ x ≠ p ∧ fa_owned a x) ∧
        fa_end a' = fa_end a ∧ fa_free a' = fa_free a + 1.
Proof.
  intros (Hnd&Hall&Hc&He) [Hp Hni]. unfold fa_dealloc.
  rewrite (proj2 (Z.leb_gt _ _)) by lia.
  rewrite (proj2 (existsb_eqb_not_elem _ _)) by done.
  eexists; split; [done|]. unfold fa_wf, fa_owned, fa_free, vec_push; simpl.
  rewrite length_app; simpl. split_and!; try lia.
  - apply NoDup_app. split_and!; [done|set_solver|apply NoDup_singleton].
  - apply Forall_app. split; [done|]. by rewrite Forall_singleton.
  - intros x. rewrite not_elem_of_snoc. tauto.
Qed.

Lemma fa_dealloc_panics a p :
  fa_wf a -> 0 <= p -> ¬ fa_owned a p -> fa_dealloc a p = Panic.
Proof.
  intros Hwf Hp Hno. unfold fa_dealloc, fa_owned in *.
  destruct (Z.leb_spec (fa_current a) p); [done|].
  rewrite (proj2 (existsb_eqb_elem _ _)); [done|].
  destruct (decide (p ∈ fa_recycled a)); [done|tauto].
Qed.

Lemma fa_alloc_some a : fa_wf a -> 0 < fa_free a -> is_Some (fa_alloc a).
Proof.
  intros _ Hf. unfold fa_alloc, fa_free in *.
  destruct (vec_pop (fa_recycled a)) as [[y rest]|] eqn:Hpop; [done|].
  apply vec_pop_None in Hpop. rewrite Hpop in Hf; simpl in Hf.
  destruct (Z.eqb_spec (fa_current a) (fa_end a)); [lia|done].
Qed.

Lemma fa_alloc_none a : fa_wf a -> fa_free a = 0 -> fa_alloc a = None.
Proof.
  intros (_&_&?&_) Hf. unfold fa_alloc, fa_free in *.
  destruct (fa_recycled a); simpl in *; [|lia].
  rewrite (proj2 (Z.eqb_eq _ _)) by lia. done.
Qed.

#[export, refine] Instance frame_id_alloc : IdAlloc StackFrameAllocator := {|
  ia_wf := fa_wf;
  ia_room _ := True;
  ia_live := fa_owned;
  ia_alloc := fa_alloc;
  ia_dealloc := fa_dealloc;
|}.
Proof.
  - intros a id a' Hwf _ Heq. destruct (fa_alloc_fresh _ _ _ Hwf Heq) as (?&?&?&_). done.
  - intros a id Hwf Hl. destruct (fa_dealloc_owned _ _ Hwf Hl) as (a'&?&?&?&_). by exists a'.
Defined.

(** *** Global operations *)

(** Memory outside the frames satisfying [P] is unchanged. *)
Definition same_outside (P : Z → Prop) (m m' : mem) : Prop :=
  ∀ x, ¬ P (x / 4096) → m' x = m x.

Lemma same_outside_refl P m : same_outside P m m.
Proof. by intros x. Qed.
Lemma same_outside_trans (P Q R : Z → Prop) m m' m'' :
  same_outside P m m' → same_outside Q m' m'' →
  (∀ p, P p → R p) → (∀ p, Q p → R p) → same_outside R m m''.
Proof. intros H1 H2 HP HQ x Hx. rewrite H2, H1; [done|by intros ?%HP|by intros ?%HQ]. Qed.
Lemma same_outside_mono (P Q : Z → Prop) m m' :
  same_outside P m m' → (∀ p, P p → Q p) → same_outside Q m m'.
Proof. intros H1 HP x Hx. apply H1. by intros ?%HP. Qed.

Lemma zero_frame_outside m p :
  is_ppn p -> same_outside (eq p) m (fill_bytes m (bytes_array_addr p) 4096 0).
Proof.
  intros Hp x Hx. apply fill_bytes_out. rewrite bytes_array_addr_eq by done. zdiv_lia.
Qed.

Lemma zero_frame_inside m p x :
  is_ppn p -> x / 4096 = p -> fill_bytes m (bytes_array_addr p) 4096 0 x = 0.
Proof. intros Hp Hx. apply fill_bytes_in. rewrite bytes_array_addr_eq by done. zdiv_lia. Qed.

(** What a successful [frame_alloc] guarantees. *)
Definition alloc_post (s : KMem) (p : Z) (s' : KMem) : Prop :=
  fa_wf (km_fa s') ∧ ¬ fa_owned (km_fa s) p ∧ is_ppn p ∧
  (∀ x, fa_owned (km_fa s') x ↔ x = p ∨ fa_owned (km_fa s) x) ∧
  fa_free (km_fa s') = fa_free (km_fa s) - 1 ∧
  same_outside (eq p) (km_mem s) (km_mem s') ∧
  (∀ x, x / 4096 = p → km_mem s' x = 0).

Lemma frame_alloc_spec s :
  fa_wf (km_fa s) → 0 < fa_free (km_fa s) →
  wp frame_alloc s (λ r s', ∃ p, r = Some p ∧ alloc_post s p s').
Proof.
  intros Hwf Hfree. destruct (fa_alloc_some _ Hwf Hfree) as [[p fa'] Ha].
  unfold wp, frame_alloc. rewrite Ha. simpl.
  destruct (fa_alloc_fresh _ _ _ Hwf Ha) as (Hwf'&Hno&Hown&_&Hf).
  assert (is_ppn p) by (eapply fa_owned_range; [done|apply Hown; auto]).
  exists p. split; [done|]. unfold alloc_post; simpl.
  split_and!; try done; try lia; eauto using zero_frame_outside, zero_frame_inside.
Qed.

(** Whether or not frames are left. *)
Lemma frame_alloc_total s :
  fa_wf (km_fa s) →
  wp frame_alloc s (λ r s', match r with Some p => alloc_post s p s' | None => fa_free (km_fa s) = 0 ∧ s' = s end).
Proof.
  intros Hwf. destruct (decide (0 < fa_free (km_fa s))) as [Hf|Hf].
  - eapply wp_mono; [by apply frame_alloc_spec|]. by intros r s' (p&->&?).
  - assert (Hz : fa_free (km_fa s) = 0) by (pose proof Hwf as (_&_&?&_); unfold fa_free in *; lia).
    unfold wp, frame_alloc. by rewrite fa_alloc_none.
Qed.

Lemma frame_dealloc_spec s p :
  fa_wf (km_fa s) → fa_owned (km_fa s) p →
  wp (frame_dealloc p) s (λ _ s',
    fa_wf (km_fa s') ∧ km_mem s' = km_mem s ∧
    (∀ x, fa_owned (km_fa s') x ↔ x ≠ p ∧ fa_owned (km_fa s) x) ∧
    fa_free (km_fa s') = fa_free (km_fa s) + 1).
Proof.
  intros Hwf Hown. destruct (fa_dealloc_owned _ _ Hwf Hown) as (fa'&Hd&?&?&_&?).
  unfold wp, frame_dealloc. rewrite Hd. simpl. done.
Qed.
