(* ===== verification/AllocProps.v ===== *)
(** * Properties of the allocators

    Process ids and physical frames: an identifier is never handed out twice,
    returning one that is not in use panics, and what [alloc_more] gives. *)

From S2P Require Import Prelude Address PhysMem IdAlloc FrameAlloc.

(** After any sequence of [alloc] and [dealloc] calls of clients that
    return only what they hold, the ids held are pairwise distinct and are
    exactly the ids in use; returning any other id panics. *)
Theorem pid_history_unique a held :
  history ra_new a held →
  NoDup held ∧ (∀ x, ra_live a x ↔ x ∈ held) ∧
  (∀ x, 0 <= x → x ∉ held → ra_dealloc a x = Panic).
Proof.
  intros Hh. destruct (history_sound ra_new a held) as (_&Hnd&_&Hl); [apply ra_new_wf|done|].
  assert (Hlive : ∀ x, ra_live a x ↔ x ∈ held).
  { intros x. change (ra_live a x) with (ia_live a x). rewrite Hl.
    split; [intros [?|[? _]]; [done|simpl in *; lia]|auto]. }
  split; [done|]. split; [done|]. intros x Hx Hn. rewrite <- Hlive in Hn.
  by apply ra_dealloc_panics.
Qed.

Lemma pid_history_unique_witness :
  let a2 := (ra_alloc (ra_alloc ra_new).2).2 in
  NoDup [1; 0] ∧ ra_dealloc a2 2 = Panic.
Proof.
  destruct (pid_history_unique (ra_alloc (ra_alloc ra_new).2).2 [1; 0]) as (Hnd&_&Hp).
  - eapply (hist_alloc _ _ [0] 1); [eapply (hist_alloc _ ra_new [] 0); [constructor| |]| |]; try reflexivity;
      vm_compute; split; congruence.
  - split; [exact Hnd|]. apply Hp; [lia|]. set_solver.
Defined.

(** Frames are handed out one owner at a time: after any sequence of
    [alloc] and [dealloc] calls from a well-formed allocator, the frames held
    are distinct, were free at the start, and are exactly the frames in use
    besides those in use at the start. *)
Theorem frame_history_unique a0 a held :
  fa_wf a0 → history a0 a held →
  fa_wf a ∧ NoDup held ∧ (∀ x, x ∈ held → ¬ fa_owned a0 x) ∧
  (∀ x, fa_owned a x ↔ x ∈ held ∨ fa_owned a0 x) ∧
  (∀ x, 0 <= x → x ∉ held → ¬ fa_owned a0 x → fa_dealloc a x = Panic).
Proof.
  intros Hwf Hh. destruct (history_sound a0 a held) as (Hwf'&Hnd&Hsep&Hl); [done|done|].
  split; [done|]. split; [done|]. split; [done|]. split; [done|].
  intros x Hx Hn Ho. apply fa_dealloc_panics; [done|done|].
  change (¬ ia_live a x). rewrite Hl. intros [?|Ha]; [done|]. by apply Ho.
Qed.

Lemma frame_history_unique_witness :
  let a0 := mkFA 5 9 [] in
  match fa_alloc a0 with
  | Some (p, a1) => fa_wf a1 ∧ p = 5 ∧ fa_dealloc a1 6 = Panic
  | None => False
  end.
Proof.
  assert (Hwf : fa_wf (mkFA 5 9 [])) by (split; [constructor|split; [constructor|simpl; lia]]).
  destruct (frame_history_unique (mkFA 5 9 []) (mkFA 6 9 []) [5] Hwf) as (Hw&_&_&_&Hp).
  - eapply (hist_alloc _ (mkFA 5 9 []) [] 5); [constructor|exact I|reflexivity].
  - split; [exact Hw|]. split; [reflexivity|]. apply Hp; [lia|set_solver|]. intros [H _]. simpl in H. lia.
Defined.

(** ** [alloc_more] *)

Lemma alloc_more_eq a pages :
  fa_wf a → 0 < pages → fa_current a + pages < fa_end a →
  fa_alloc_more a pages =
    Some ((λ x, fa_current a + pages - x) <$> seqZ 1 pages, mkFA (fa_current a + pages) (fa_end a) (fa_recycled a)).
Proof.
  intros (_&_&Hc&He) Hp Hlt. unfold fa_alloc_more. rewrite wadd_small by lia.
  rewrite (proj2 (Z.leb_gt _ _)) by lia. do 2 f_equal. apply list_fmap_ext. intros i x Hx.
  apply lookup_seqZ in Hx as [-> ?]. rewrite wsub_small, ppn_from_usize_id by lia. done.
Qed.

(** A successful [alloc_more] returns the next [pages] frames, all of them
    free before and in use after, without repetition. *)
Theorem alloc_more_fresh a pages l a' :
  fa_wf a → 0 < pages < 2 ^ 44 → fa_alloc_more a pages = Some (l, a') →
  Z.of_nat (length l) = pages ∧ NoDup l ∧ fa_wf a' ∧
  (∀ x, x ∈ l ↔ fa_current a <= x < fa_current a + pages) ∧
  (∀ x, x ∈ l → ¬ fa_owned a x) ∧
  (∀ x, fa_owned a' x ↔ x ∈ l ∨ fa_owned a x).
Proof.
  intros Hwf Hp Ha. pose proof Hwf as (Hnd&Hrec&Hc&He).
  assert (Hlt : fa_current a + pages < fa_end a).
  { unfold fa_alloc_more in Ha. rewrite wadd_small in Ha by lia.
    destruct (Z.leb_spec (fa_end a) (fa_current a + pages)); [done|lia]. }
  rewrite alloc_more_eq in Ha by (done || lia). injection Ha as <- <-.
  assert (Hin : ∀ x, x ∈ (λ x, fa_current a + pages - x) <$> seqZ 1 pages ↔ fa_current a <= x < fa_current a + pages).
  { intros x. rewrite list_elem_of_fmap. setoid_rewrite elem_of_seqZ. split.
    - intros (y&->&?). lia.
    - intros ?. exists (fa_current a + pages - x). lia. }
  rewrite Forall_forall in Hrec.
  split; [rewrite length_fmap, length_seqZ; lia|]. split.
  { apply NoDup_fmap_2_strong; [|apply NoDup_seqZ]. intros; lia. }
  split.
  { split; [done|]. split; [|simpl; lia]. rewrite Forall_forall. intros x Hx. specialize (Hrec x Hx). simpl in *. lia. }
  split; [done|]. split.
  - intros x Hx%Hin [? _]. lia.
  - intros x. rewrite Hin. unfold fa_owned; simpl. split.
    + intros [? Hn]. destruct (decide (x < fa_current a)); [right|left; lia]. split; [lia|done].
    + intros [?|[? ?]]; [|split; [lia|done]]. split; [lia|]. intros Hx%Hrec. simpl in Hx. lia.
Qed.

Lemma alloc_more_fresh_witness :
  match fa_alloc_more (mkFA 5 9 [2]) 3 with Some (l, _) => NoDup l ∧ l = [7; 6; 5] | None => False end.
Proof.
  destruct (alloc_more_fresh (mkFA 5 9 [2]) 3 [7; 6; 5] (mkFA 8 9 [2])) as (_&Hnd&_).
  - split; [apply NoDup_singleton|]. split; [|simpl; lia]. constructor; [simpl; lia|constructor].
  - lia.
  - reflexivity.
  - split; [exact Hnd|reflexivity].
Defined.

(** [alloc_more] refuses a request for exactly the frames that remain
    beyond [current], and never looks at the recycled frames, although [alloc]
    can still serve the request one frame at a time. *)
Theorem alloc_more_refuses_last a pages :
  fa_wf a → 0 < pages → fa_current a + pages = fa_end a →
  fa_alloc_more a pages = None ∧ pages <= fa_free a ∧ is_Some (fa_alloc a).
Proof.
  intros Hwf Hp He. pose proof Hwf as (_&_&?&?). split; [|split].
  - unfold fa_alloc_more. rewrite wadd_small by lia. by rewrite (proj2 (Z.leb_le _ _)) by lia.
  - unfold fa_free. lia.
  - apply fa_alloc_some; [done|]. unfold fa_free. lia.
Qed.

Lemma alloc_more_refuses_last_witness : fa_alloc_more (mkFA 5 9 []) 4 = None ∧ 4 <= fa_free (mkFA 5 9 []).
Proof.
  destruct (alloc_more_refuses_last (mkFA 5 9 []) 4) as (H1&H2&_); [|lia|reflexivity|split; assumption].
  split; [constructor|]. split; [constructor|simpl; lia].
Defined.
