(* ===== verification/PageTable.v ===== *)
(** * The page-table interface ([trait PageTable], [os/src/mm/pagetable.rs])

    [PageTable T] lists the operations of the trait with the laws the memory
    subsystem relies on.  A page table lives in physical memory, so its
    operations are computations over [KMem]; an entry returned by [translate] is
    the 64-bit word [PageTableEntry::bits].  [Sv39.v] discharges the laws for
    the three-level RISC-V table; [MemorySet.v] is written against the class. *)

From S2P Require Import Prelude Address PhysMem IdAlloc FrameAlloc.

(** ** Mapping permissions ([bitflags MapPermission], [os/src/mm/memory_set.rs]) *)

Definition PERM_R : Z := Z.shiftl 1 1.
Definition PERM_W : Z := Z.shiftl 1 2.
Definition PERM_X : Z := Z.shiftl 1 3.
Definition PERM_U : Z := Z.shiftl 1 4.
Definition PERM_ALL : Z := 30.

(** [MapPermission::from_bits]: [None] when an unnamed bit is set. *)
Definition perm_from_bits (b : Z) : option Z :=
  if Z.land b PERM_ALL =? b then Some b else None.

Definition is_perm (b : Z) : Prop := perm_from_bits b = Some b.

(** What an operation that may add table frames does to the allocator. *)
Record grows (s : KMem) (new : list Z) (s' : KMem) : Prop := {
  gr_wf : fa_wf (km_fa s');
  gr_fresh : ∀ p, p ∈ new → ¬ fa_owned (km_fa s) p;
  gr_nodup : NoDup new;
  gr_owned : ∀ p, fa_owned (km_fa s') p ↔ p ∈ new ∨ fa_owned (km_fa s) p;
  gr_free : fa_free (km_fa s') = fa_free (km_fa s) - length new;
}.

Lemma grows_refl s : fa_wf (km_fa s) → grows s [] s.
Proof. intros. split; [done|set_solver|constructor|set_solver|simpl; lia]. Qed.

Lemma grows_trans s n1 s1 n2 s2 :
  grows s n1 s1 → grows s1 n2 s2 → grows s (n1 ++ n2) s2.
Proof.
  intros [W1 F1 N1 O1 R1] [W2 F2 N2 O2 R2]. split.
  - done.
  - intros p [Hp|Hp]%elem_of_app; [by apply F1|]. intros Hs. apply (F2 p Hp). apply O1. auto.
  - apply NoDup_app. split_and!; [done| |done].
    intros p Hp1 Hp2. apply (F2 p Hp2). apply O1. auto.
  - intros p. rewrite O2, O1, elem_of_app. tauto.
  - rewrite R2, R1, length_app. lia.
Qed.

Lemma grows_alloc s p s' : alloc_post s p s' → grows s [p] s'.
Proof.
  intros (?&?&?&Ho&?&_). split; [done|set_solver|apply NoDup_singleton| |simpl; lia].
  intros x. rewrite Ho, list_elem_of_singleton. done.
Qed.

Lemma grows_perm s new new' s' : new ≡ₚ new' → grows s new s' → grows s new' s'.
Proof. intros Hp [????]. split; try done; setoid_rewrite <- Hp; done. Qed.

(** Writing memory does not touch the allocator. *)
Lemma grows_mem s new s' s'' : km_fa s'' = km_fa s' → grows s new s' → grows s new s''.
Proof. intros Heq [????]. by split; rewrite ?Heq. Qed.

(** Taking frames does not move the end of the memory the allocator manages. *)
Lemma grows_end s new s' : fa_wf (km_fa s) → grows s new s' → fa_end (km_fa s') = fa_end (km_fa s).
Proof.
  intros (Hnd&Hrec&Hc&_) [(Hnd'&Hrec'&Hc'&_) Hfr Hnn Ho Hf].
  set (O := filter (λ p, p ∉ fa_recycled (km_fa s)) (seqZ 0 (fa_current (km_fa s)))).
  rewrite Forall_forall in Hrec, Hrec'. assert (HO : ∀ p, p ∈ O ↔ fa_owned (km_fa s) p).
  { intros p. unfold O, fa_owned. rewrite list_elem_of_filter, elem_of_seqZ. intuition lia. }
  assert (HndO : NoDup O) by apply NoDup_filter, NoDup_seqZ.
  assert (H1 : seqZ 0 (fa_current (km_fa s)) ≡ₚ fa_recycled (km_fa s) ++ O).
  { apply NoDup_Permutation; [apply NoDup_seqZ| |].
    - apply NoDup_app. split; [done|]. split; [|done]. intros p Hp [_ Hn]%HO. done.
    - intros p. rewrite elem_of_app, HO, elem_of_seqZ. unfold fa_owned.
      destruct (decide (p ∈ fa_recycled (km_fa s))) as [Hin|]; [specialize (Hrec p Hin); simpl in Hrec|]; intuition lia. }
  assert (H2 : seqZ 0 (fa_current (km_fa s')) ≡ₚ fa_recycled (km_fa s') ++ (new ++ O)).
  { apply NoDup_Permutation; [apply NoDup_seqZ| |].
    - apply NoDup_app. split; [done|]. split.
      + intros p Hp [?|?%HO]%elem_of_app; assert (fa_owned (km_fa s') p) as [_ ?] by (apply Ho; auto); done.
      + apply NoDup_app. split; [done|]. split; [|done]. intros p Hp Hp'%HO. by eapply Hfr.
    - intros p. rewrite !elem_of_app, HO, <- Ho, elem_of_seqZ. unfold fa_owned.
      destruct (decide (p ∈ fa_recycled (km_fa s'))) as [Hin|]; [specialize (Hrec' p Hin); simpl in Hrec'|]; intuition lia. }
  apply Permutation_length in H1, H2. rewrite length_app, length_seqZ in H1, H2. rewrite length_app in H2. unfold fa_free in Hf. lia.
Qed.

(** ** The class *)

Class PageTable (T : Type) := {
  pt_new_kernel : K KMem T;
  pt_map : T → Z → Z → Z → K KMem T;
  pt_unmap : T → Z → K KMem unit;
  pt_translate : mem → T → Z → option Z;
  pt_token : T → Z;
  (** the [PageTableEntry] accessors [ppn], [is_valid] and the entry [map] writes *)
  pte_ppn : Z → Z;
  pte_valid : Z → bool;
  pte_make : Z → Z → Z;
  (** the frames of [self.frames] *)
  pt_frames : T → list Z;

  (** well-formedness of the tables in memory, and the valid entry of a page *)
  pt_ok : mem → T → Prop;
  pt_lookup : mem → T → Z → option Z;

  pt_frames_ok m t p : pt_ok m t → p ∈ pt_frames t → is_ppn p;
  pt_nodup m t : pt_ok m t → NoDup (pt_frames t);
  pte_make_spec ppn perm :
    is_ppn ppn → is_perm perm → pte_valid (pte_make ppn perm) = true ∧ pte_ppn (pte_make ppn perm) = ppn;
  pt_lookup_valid m t v e : pt_lookup m t v = Some e → pte_valid e = true;
  (** [translate] finds every valid entry, and else nothing or an invalid entry *)
  pt_translate_spec m t v :
    match pt_translate m t v with
    | Some e => if pte_valid e then pt_lookup m t v = Some e else pt_lookup m t v = None
    | None => pt_lookup m t v = None
    end;
  (** only the memory of the table's own frames matters *)
  pt_frame m m' t :
    pt_ok m t → (∀ x, x / 4096 ∈ pt_frames t → m' x = m x) →
    pt_ok m' t ∧ (∀ v, is_vpn v → pt_lookup m' t v = pt_lookup m t v);
  pt_new_spec s :
    fa_wf (km_fa s) → 1 <= fa_free (km_fa s) →
    wp pt_new_kernel s (λ t s',
      grows s (pt_frames t) s' ∧ pt_ok (km_mem s') t ∧ length (pt_frames t) = 1%nat ∧
      same_outside (λ p, p ∈ pt_frames t) (km_mem s) (km_mem s') ∧
      (∀ v, is_vpn v → pt_lookup (km_mem s') t v = None));
  (** mapping a page that has a valid entry panics, and so does running out of
      frames; nothing else does *)
  pt_map_spec s t v ppn perm :
    pt_ok (km_mem s) t → fa_wf (km_fa s) → (∀ p, p ∈ pt_frames t → fa_owned (km_fa s) p) →
    is_vpn v → is_ppn ppn → is_perm perm →
    cwp (pt_lookup (km_mem s) t v = None ∧ 2 <= fa_free (km_fa s)) (pt_map t v ppn perm) s (λ t' s',
      pt_lookup (km_mem s) t v = None ∧ ∃ new,
      grows s new s' ∧ (length new <= 2)%nat ∧ pt_frames t' = pt_frames t ++ new ∧
      pt_token t' = pt_token t ∧ pt_ok (km_mem s') t' ∧
      same_outside (λ p, p ∈ pt_frames t') (km_mem s) (km_mem s') ∧
      (∀ v', is_vpn v' → pt_lookup (km_mem s') t' v' =
         if decide (v' = v) then Some (pte_make ppn perm) else pt_lookup (km_mem s) t v'));
  pt_unmap_spec s t v e :
    pt_ok (km_mem s) t → is_vpn v → pt_lookup (km_mem s) t v = Some e →
    wp (pt_unmap t v) s (λ _ s',
      km_fa s' = km_fa s ∧ pt_ok (km_mem s') t ∧
      same_outside (λ p, p ∈ pt_frames t) (km_mem s) (km_mem s') ∧
      (∀ v', is_vpn v' → pt_lookup (km_mem s') t v' =
         if decide (v' = v) then None else pt_lookup (km_mem s) t v'));
  pt_unmap_panics s t v :
    pt_ok (km_mem s) t → is_vpn v → pt_lookup (km_mem s) t v = None →
    pt_unmap t v s = Panic;
}.

Lemma pt_map_panics {T} `{!PageTable T} s t v ppn perm e :
  pt_ok (km_mem s) t → fa_wf (km_fa s) → (∀ p, p ∈ pt_frames t → fa_owned (km_fa s) p) →
  is_vpn v → is_ppn ppn → is_perm perm → pt_lookup (km_mem s) t v = Some e → pt_map t v ppn perm s = Panic.
Proof.
  intros Hok Hfa Ho Hv Hp Hperm Hl. pose proof (pt_map_spec s t v ppn perm Hok Hfa Ho Hv Hp Hperm) as H.
  unfold cwp in H. destruct (pt_map t v ppn perm s) as [[t' s']|]; [|done]. destruct H as [? _]. congruence.
Qed.
