(* ===== verification/Sv39.v ===== *)
(** * SV39 page tables ([os/src/hal/arch/riscv/sv39.rs])

    Page-table entries, the three-level walk, [map], [unmap] and [translate] over
    tables that live in physical memory.  The ghost map [T] of [wf_tree] assigns
    to each table frame the path of indexes that leads to it, which makes every
    table reachable by one path only.  The section at the end discharges the
    [PageTable] interface. *)

From S2P Require Import Prelude Address PhysMem IdAlloc FrameAlloc PageTable.

(** ** Page-table entries *)

Definition PTE_V : Z := Z.shiftl 1 0.
Definition PTE_R : Z := Z.shiftl 1 1.
Definition PTE_W : Z := Z.shiftl 1 2.
Definition PTE_X : Z := Z.shiftl 1 3.
Definition PTE_U : Z := Z.shiftl 1 4.
Definition PTE_G : Z := Z.shiftl 1 5.
Definition PTE_A : Z := Z.shiftl 1 6.
Definition PTE_D : Z := Z.shiftl 1 7.

(** [PTEFlags::from_bits]: every bit of the [u8] is named. *)
Definition pteflags_from_bits (b : Z) : option Z :=
  if Z.land b 255 =? b then Some b else None.

(** [PageTableEntry { bits }] is the word itself. *)
Definition sv39_pte_new (ppn flags : Z) : Z := Z.lor (wshl ppn 10) flags.
Definition sv39_pte_empty : Z := 0.
Definition sv39_pte_ppn (bits : Z) : Z :=
  ppn_from_usize (Z.land (Z.shiftr bits 10) (Z.shiftl 1 44 - 1)).
(** [self.bits as u8]; the [unwrap] in the source never fails. *)
Definition sv39_pte_flags (bits : Z) : Z := Z.land bits 255.
Definition sv39_pte_is_valid (bits : Z) : bool := negb (Z.land (sv39_pte_flags bits) PTE_V =? 0).
Definition sv39_pte_readable (bits : Z) : bool := negb (Z.land (sv39_pte_flags bits) PTE_R =? 0).
Definition sv39_pte_writable (bits : Z) : bool := negb (Z.land (sv39_pte_flags bits) PTE_W =? 0).
Definition sv39_pte_executable (bits : Z) : bool := negb (Z.land (sv39_pte_flags bits) PTE_X =? 0).

(** ** The table *)

Record SV39PageTable := mkSV39 { root_ppn : Z; sv_frames : list Z }.

Definition sv39_new : K KMem SV39PageTable :=
  o ← frame_alloc; frame ← kunwrap o; mret (mkSV39 frame [frame]).

Definition sv39_new_kernel : K KMem SV39PageTable :=
  o ← frame_alloc; frame ← kunwrap o; mret (mkSV39 frame [frame]).

Definition sv39_from_token (satp : Z) : SV39PageTable :=
  mkSV39 (ppn_from_usize (Z.land satp (Z.shiftl 1 44 - 1))) [].

(** The loop of [find_pte]; the result is the address of the entry. *)
Fixpoint find_pte_loop (m : mem) (idxs : list Z) (i ppn : Z) : option Z :=
  match idxs with
  | [] => None
  | idx :: rest =>
      let pte := pte_array_addr ppn idx in
      if i =? 2 then Some pte
      else if negb (sv39_pte_is_valid (load64 m pte)) then None
      else find_pte_loop m rest (i + 1) (sv39_pte_ppn (load64 m pte))
  end.

Definition sv39_find_pte (m : mem) (pt : SV39PageTable) (vpn : Z) : option Z :=
  find_pte_loop m (vpn_indexes vpn) 0 (root_ppn pt).

(** [*pte = v] *)
Definition write_pte (pte v : Z) : K KMem unit := kmodify (with_mem (λ m, store64 m pte v)).

(** [if !pte.is_valid() { let frame = frame_alloc().unwrap(); *pte = ...; self.frames.push(frame) }] *)
Definition ensure_table (pte : Z) (pt : SV39PageTable) : K KMem SV39PageTable :=
  s ← kget;
  if negb (sv39_pte_is_valid (load64 (km_mem s) pte)) then
    o ← frame_alloc;
    frame ← kunwrap o;
    write_pte pte (sv39_pte_new frame PTE_V) ;;
    mret (mkSV39 (root_ppn pt) (vec_push (sv_frames pt) frame))
  else mret pt.

Fixpoint find_pte_create_loop (idxs : list Z) (i ppn : Z) (pt : SV39PageTable)
  : K KMem (option Z * SV39PageTable) :=
  match idxs with
  | [] => mret (None, pt)
  | idx :: rest =>
      let pte := pte_array_addr ppn idx in
      if i =? 2 then mret (Some pte, pt)
      else
        pt' ← ensure_table pte pt;
        s' ← kget;
        find_pte_create_loop rest (i + 1) (sv39_pte_ppn (load64 (km_mem s') pte)) pt'
  end.

Definition sv39_find_pte_create (pt : SV39PageTable) (vpn : Z)
  : K KMem (option Z * SV39PageTable) :=
  find_pte_create_loop (vpn_indexes vpn) 0 (root_ppn pt) pt.

Definition sv39_map (pt : SV39PageTable) (vpn ppn flags : Z) : K KMem SV39PageTable :=
  '(o, pt') ← sv39_find_pte_create pt vpn;
  pte ← kunwrap o;
  s ← kget;
  kassert (negb (sv39_pte_is_valid (load64 (km_mem s) pte))) ;;
  f ← kunwrap (pteflags_from_bits flags);
  write_pte pte (sv39_pte_new ppn (Z.lor f PTE_V)) ;;
  mret pt'.

Definition sv39_unmap (pt : SV39PageTable) (vpn : Z) : K KMem unit :=
  s ← kget;
  pte ← kunwrap (sv39_find_pte (km_mem s) pt vpn);
  kassert (sv39_pte_is_valid (load64 (km_mem s) pte)) ;;
  write_pte pte sv39_pte_empty.

Definition sv39_translate (m : mem) (pt : SV39PageTable) (vpn : Z) : option Z :=
  load64 m <$> sv39_find_pte m pt vpn.

Definition sv39_translate_va (m : mem) (pt : SV39PageTable) (va : Z) : option Z :=
  (λ pte, let aligned_pa := pa_from_ppn (sv39_pte_ppn (load64 m pte)) in
          let offset := va_page_offset va in
          pa_from_usize (aligned_pa +w offset)) <$> sv39_find_pte m pt (va_floor va).

Definition sv39_token (pt : SV39PageTable) : Z := Z.lor (wshl 8 60) (root_ppn pt).

(** [activate] writes this value to the [satp] register. *)
Definition sv39_activate (pt : SV39PageTable) : Z := sv39_token pt.

(** ** Entries: lemmas *)

Lemma sv39_pte_new_eq ppn flags :
  is_ppn ppn → 0 <= flags < 1024 → sv39_pte_new ppn flags = ppn * 1024 + flags.
Proof.
  intros Hp Hf. unfold sv39_pte_new. unfold is_ppn in Hp.
  rewrite wshl_small by lia. rewrite <- Z.shiftl_mul_pow2 by lia.
  rewrite lor_shiftl_add by lia. done.
Qed.

Lemma sv39_pte_flags_mod b : sv39_pte_flags b = b mod 256.
Proof. apply (land_mask b 8). lia. Qed.

Lemma sv39_pte_ppn_eq b : 0 <= b -> sv39_pte_ppn b = (b / 1024) mod 2 ^ 44.
Proof.
  intros. unfold sv39_pte_ppn. rewrite shl1_mask by lia.
  rewrite ppn_from_usize_id by (apply Z.mod_pos_bound; lia).
  by rewrite Z.shiftr_div_pow2 by lia.
Qed.

Lemma sv39_is_valid_mod b : sv39_pte_is_valid b = negb (b mod 2 =? 0).
Proof.
  unfold sv39_pte_is_valid. rewrite sv39_pte_flags_mod. unfold PTE_V.
  change (Z.shiftl 1 0) with (2 ^ 1 - 1). rewrite land_mask by lia.
  do 2 f_equal. zdiv_lia.
Qed.

Lemma sv39_pte_new_ppn ppn flags :
  is_ppn ppn → 0 <= flags < 1024 → sv39_pte_ppn (sv39_pte_new ppn flags) = ppn.
Proof.
  intros Hp Hf. rewrite sv39_pte_new_eq by done. unfold is_ppn in *.
  rewrite sv39_pte_ppn_eq by lia. zdiv_lia.
Qed.

Lemma sv39_pte_new_flags ppn flags :
  is_ppn ppn → 0 <= flags < 256 → sv39_pte_flags (sv39_pte_new ppn flags) = flags.
Proof.
  intros Hp Hf. rewrite sv39_pte_new_eq by (done || lia).
  rewrite sv39_pte_flags_mod. zdiv_lia.
Qed.

Lemma sv39_pte_new_valid ppn flags :
  is_ppn ppn → 0 <= flags < 1024 → flags mod 2 = 1 → sv39_pte_is_valid (sv39_pte_new ppn flags) = true.
Proof.
  intros Hp Hf Ho. rewrite sv39_pte_new_eq by done. rewrite sv39_is_valid_mod.
  destruct (Z.eqb_spec ((ppn * 1024 + flags) mod 2) 0); [|done]. exfalso. zdiv_lia.
Qed.

Lemma sv39_pte_new_range ppn flags :
  is_ppn ppn → 0 <= flags < 1024 → 0 <= sv39_pte_new ppn flags < 2 ^ 64.
Proof. intros Hp Hf. rewrite sv39_pte_new_eq by done. unfold is_ppn in *. lia. Qed.

Lemma perm_cases b : is_perm b → b ∈ [0;2;4;6;8;10;12;14;16;18;20;22;24;26;28;30].
Proof.
  unfold is_perm, perm_from_bits, PERM_ALL. destruct (Z.eqb_spec (Z.land b 30) b) as [Hb|]; [|done].
  intros _. assert (Hr : b mod 2 ^ 5 = b).
  { rewrite <- (land_mask b 5) by lia. rewrite <- Hb at 1. by rewrite <- Z.land_assoc. }
  assert (Hin : b ∈ seqZ 0 32) by (apply elem_of_seqZ; zdiv_lia).
  revert Hb. clear Hr. revert b Hin. refine (forall_in_list _ _ _). vm_compute.
  repeat constructor; intros; try done; set_solver.
Qed.

Lemma perm_lor_V b : is_perm b → Z.lor b PTE_V = b + 1 ∧ 0 <= b <= 30 ∧ b mod 2 = 0.
Proof.
  intros Hb%perm_cases. revert b Hb. refine (forall_in_list _ _ _). vm_compute.
  repeat constructor; done.
Qed.

Lemma perm_pteflags b : is_perm b → pteflags_from_bits b = Some b.
Proof.
  intros Hb%perm_cases. revert b Hb. refine (forall_in_list _ _ _). vm_compute.
  repeat constructor; done.
Qed.

(** ** The tree of tables *)

(** The table that entry [i] of table [p] points to. *)
Definition child (m : mem) (p i : Z) : option Z :=
  let e := load64 m (pte_array_addr p i) in
  if sv39_pte_is_valid e then Some (sv39_pte_ppn e) else None.

Record wf_tree (m : mem) (root : Z) (T : gmap Z (list Z)) : Prop := {
  wt_root : T !! root = Some [];
  wt_range : ∀ p path, T !! p = Some path → is_ppn p;
  wt_child : ∀ p path i q, T !! p = Some path → (length path < 2)%nat → 0 <= i < 512 →
    child m p i = Some q → T !! q = Some (path ++ [i]);
  wt_pointer : ∀ p path i q, T !! p = Some path → (length path < 2)%nat → 0 <= i < 512 →
    child m p i = Some q → load64 m (pte_array_addr p i) = sv39_pte_new q PTE_V;
}.

(** The address of the leaf entry for three indexes. *)
Definition leaf_addr (m : mem) (root i j k : Z) : option Z :=
  p ← child m root i; q ← child m p j; Some (pte_array_addr q k).

(** The valid leaf entry. *)
Definition leaf (m : mem) (root i j k : Z) : option Z :=
  a ← leaf_addr m root i j k;
  let e := load64 m a in if sv39_pte_is_valid e then Some e else None.

Lemma find_pte_leaf_addr m pt vpn :
  sv39_find_pte m pt vpn =
  leaf_addr m (root_ppn pt) ((vpn / 2 ^ 18) mod 512) ((vpn / 2 ^ 9) mod 512) (vpn mod 512).
Proof.
  unfold sv39_find_pte, leaf_addr, child. rewrite vpn_indexes_eq. cbn [find_pte_loop].
  change (0 =? 2) with false. change (0 + 1 =? 2) with false. change (0 + 1 + 1 =? 2) with true.
  cbv iota. destruct (sv39_pte_is_valid (load64 m (pte_array_addr (root_ppn pt) _))); [|done].
  simpl. by destruct (sv39_pte_is_valid _).
Qed.

Section tree.
Context (m : mem) (root : Z) (T : gmap Z (list Z)) (Hwf : wf_tree m root T).

Lemma tree_level1 i p : idx_ok i → child m root i = Some p → T !! p = Some [i].
Proof. intros Hi Hc. by apply (wt_child _ _ _ Hwf root [] i p (wt_root _ _ _ Hwf)); [simpl; lia|..]. Qed.

Lemma tree_level2 i j p q :
  idx_ok i → idx_ok j → child m root i = Some p → child m p j = Some q → T !! q = Some [i; j].
Proof.
  intros Hi Hj Hp Hq.
  by apply (wt_child _ _ _ Hwf p [i] j q (tree_level1 _ _ Hi Hp)); [simpl; lia|..].
Qed.

Lemma leaf_addr_table i j k a :
  idx_ok i → idx_ok j → leaf_addr m root i j k = Some a →
  ∃ q, a = pte_array_addr q k ∧ T !! q = Some [i; j].
Proof.
  intros Hi Hj. unfold leaf_addr.
  destruct (child m root i) as [p|] eqn:Hp; [|done]; simpl.
  destruct (child m p j) as [q|] eqn:Hq; [|done]; simpl.
  intros [= <-]. exists q. split; [done|]. by eapply tree_level2.
Qed.
End tree.

(** Only the memory of the frames in [T] matters. *)
Lemma entry_ext m m' p i :
  is_ppn p → idx_ok i → (∀ x, x / 4096 = p → m' x = m x) → load64 m' (pte_array_addr p i) = load64 m (pte_array_addr p i).
Proof.
  intros Hp Hi Hm. apply load64_ext.
  unfold idx_ok, is_ppn in *. rewrite pte_array_addr_eq by done. intros. apply Hm. zdiv_lia.
Qed.

Lemma tree_frame m m' root T :
  wf_tree m root T → (∀ p, is_Some (T !! p) → ∀ x, x / 4096 = p → m' x = m x) →
  wf_tree m' root T ∧
  (∀ i j k, idx_ok i → idx_ok j → idx_ok k →
     leaf_addr m' root i j k = leaf_addr m root i j k ∧ leaf m' root i j k = leaf m root i j k).
Proof.
  intros Hwf Hm.
  assert (He : ∀ p path i, T !! p = Some path → idx_ok i → load64 m' (pte_array_addr p i) = load64 m (pte_array_addr p i)).
  { intros p path i Hp Hi. apply entry_ext; [by eapply wt_range|done|]. apply Hm. by eexists. }
  assert (Hc : ∀ p path i, T !! p = Some path → idx_ok i → child m' p i = child m p i).
  { intros p path i Hp Hi. unfold child. by erewrite He. }
  split.
  - split; [by eapply wt_root|by eapply wt_range| |]; intros p path i q Hp Hl Hi;
      rewrite (Hc _ _ _ Hp Hi), ?(He _ _ _ Hp Hi); [by eapply wt_child|by eapply wt_pointer].
  - intros i j k Hi Hj Hk.
    assert (Ha : leaf_addr m' root i j k = leaf_addr m root i j k).
    { unfold leaf_addr. rewrite (Hc root [] i); [|by eapply wt_root|done].
      destruct (child m root i) as [p|] eqn:Hp; [|done]; simpl.
      by rewrite (Hc p [i] j) by (eauto using tree_level1). }
    split; [done|]. unfold leaf. rewrite Ha.
    destruct (leaf_addr m root i j k) as [a|] eqn:Hl; [|done]; simpl.
    destruct (leaf_addr_table _ _ _ Hwf _ _ _ _ Hi Hj Hl) as (q&->&Hq).
    rewrite (load64_ext m' m); [done|]. pose proof (wt_range _ _ _ Hwf _ _ Hq) as Hr.
    unfold idx_ok, is_ppn in *. rewrite pte_array_addr_eq by done.
    intros. apply (Hm q); [by eexists|]. zdiv_lia.
Qed.

(** ** Adding a table below entry [i] of table [p] *)

Section extend.
Context (m : mem) (root : Z) (T : gmap Z (list Z)) (Hwf : wf_tree m root T).
Context (p : Z) (path : list Z) (i f : Z).
Context (Hp : T !! p = Some path) (Hlen : (length path < 2)%nat) (Hi : idx_ok i).
Context (Hnone : child m p i = None).
Context (Hf : is_ppn f) (Hfresh : T !! f = None).

Definition ext_mem (m0 : mem) : mem := store64 m0 (pte_array_addr p i) (sv39_pte_new f PTE_V).

(** [m0] is [m] with frame [f] zeroed. *)
Context (m0 : mem).
Context (Hout : ∀ x, x / 4096 ≠ f → m0 x = m x) (Hzero : ∀ x, x / 4096 = f → m0 x = 0).

Lemma ext_ne : f ≠ p.
Proof. intros ->. congruence. Qed.

Lemma ext_p_range : is_ppn p.
Proof. by eapply wt_range. Qed.

Lemma ext_other p' i' path' :
  T !! p' = Some path' → idx_ok i' → (p', i') ≠ (p, i) →
  load64 (ext_mem m0) (pte_array_addr p' i') = load64 m (pte_array_addr p' i').
Proof.
  intros Hp' Hi' Hne. pose proof (wt_range _ _ _ Hwf _ _ Hp') as Hr'.
  unfold ext_mem. rewrite load64_store64_ne.
  2:{ apply pte_array_disjoint; eauto using ext_p_range. }
  apply load64_ext. intros x Hx. apply Hout. intros Hxf.
  rewrite pte_array_addr_eq in Hx by done. assert (p' = f); [|congruence].
  unfold idx_ok in *. zdiv_lia.
Qed.

Lemma ext_new_zero i' : idx_ok i' → load64 (ext_mem m0) (pte_array_addr f i') = 0.
Proof.
  intros Hi'. unfold ext_mem. pose proof ext_ne. rewrite load64_store64_ne.
  2:{ apply pte_array_disjoint; eauto using ext_p_range. intros [=]; congruence. }
  rewrite (load64_ext m0 (λ _, 0)); [done|]. intros x Hx. apply Hzero.
  unfold idx_ok, is_ppn in *. rewrite pte_array_addr_eq in Hx by done. zdiv_lia.
Qed.

Lemma ext_child_new : child (ext_mem m0) p i = Some f.
Proof.
  unfold child, ext_mem.
  rewrite load64_store64_eq by (apply sv39_pte_new_range; [done|vm_compute; done]).
  rewrite sv39_pte_new_valid by (done || vm_compute; done).
  by rewrite sv39_pte_new_ppn by (done || vm_compute; done).
Qed.

Lemma ext_child_other p' i' path' :
  T !! p' = Some path' → idx_ok i' → (p', i') ≠ (p, i) →
  child (ext_mem m0) p' i' = child m p' i'.
Proof. intros. unfold child. by erewrite ext_other. Qed.

Lemma ext_child_zero i' : idx_ok i' → child (ext_mem m0) f i' = None.
Proof. intros. unfold child. by rewrite ext_new_zero. Qed.

Lemma ext_wf : wf_tree (ext_mem m0) root (<[f := path ++ [i]]> T).
Proof.
  assert (Hrf : root ≠ f) by (intros ->; rewrite (wt_root _ _ _ Hwf) in Hfresh; done).
  split.
  - rewrite lookup_insert_ne by done. by eapply wt_root.
  - intros q pq. rewrite lookup_insert_Some. intros [[<- _]|[_ Hq]]; [done|by eapply wt_range].
  - intros q pq j r Hq Hl Hj Hc. apply lookup_insert_Some in Hq as [[<- _]|[Hqf Hq]].
    { by rewrite ext_child_zero in Hc. }
    destruct (decide ((q, j) = (p, i))) as [Heq|Hne].
    + injection Heq as -> ->. rewrite ext_child_new in Hc. injection Hc as <-. rewrite Hp in Hq. injection Hq as <-.
      by rewrite lookup_insert_eq.
    + erewrite ext_child_other in Hc by done.
      pose proof (wt_child _ _ _ Hwf _ _ _ _ Hq Hl Hj Hc) as Hr.
      rewrite lookup_insert_ne; [done|]. intros ->. congruence.
  - intros q pq j r Hq Hl Hj Hc. apply lookup_insert_Some in Hq as [[<- _]|[Hqf Hq]].
    { by rewrite ext_child_zero in Hc. }
    destruct (decide ((q, j) = (p, i))) as [Heq|Hne].
    + injection Heq as -> ->. rewrite ext_child_new in Hc. injection Hc as <-. unfold ext_mem.
      apply load64_store64_eq, sv39_pte_new_range; [done|vm_compute; done].
    + erewrite ext_child_other in Hc by done. erewrite ext_other by done. by eapply wt_pointer.
Qed.

Lemma ext_leaf i' j' k' :
  idx_ok i' → idx_ok j' → idx_ok k' → leaf (ext_mem m0) root i' j' k' = leaf m root i' j' k'.
Proof.
  intros Hi' Hj' Hk'. unfold leaf, leaf_addr.
  destruct (decide ((root, i') = (p, i))) as [Heq|Hne].
  { injection Heq as Hr Hii. rewrite Hr, Hii, Hnone, ext_child_new; simpl.
    by rewrite ext_child_zero. }
  rewrite (ext_child_other root i' []) by eauto using wt_root.
  destruct (child m root i') as [q|] eqn:Hq; [|done]; simpl.
  pose proof (tree_level1 _ _ _ Hwf _ _ Hi' Hq) as HTq.
  destruct (decide ((q, j') = (p, i))) as [Heq|Hne2].
  { injection Heq as Hr Hii. rewrite Hr, Hii, Hnone, ext_child_new; simpl.
    by rewrite ext_new_zero. }
  rewrite (ext_child_other q j' [i']) by done.
  destruct (child m q j') as [r|] eqn:Hr; [|done]; simpl.
  pose proof (tree_level2 _ _ _ Hwf _ _ _ _ Hi' Hj' Hq Hr) as HTr.
  rewrite (ext_other r k' [i'; j']); [done..|].
  intros [= -> ->]. rewrite Hp in HTr. injection HTr as ->. simpl in Hlen. lia.
Qed.
End extend.

(** ** Growing the tree *)

Definition pt_inv (m : mem) (pt : SV39PageTable) (T : gmap Z (list Z)) : Prop :=
  wf_tree m (root_ppn pt) T ∧ (∀ x, is_Some (T !! x) ↔ x ∈ sv_frames pt) ∧ NoDup (sv_frames pt).

Definition frames_owned (s : KMem) (pt : SV39PageTable) : Prop :=
  ∀ p, p ∈ sv_frames pt → fa_owned (km_fa s) p.

(** [pt'] extends [pt] by the tables [new], with the same leaves. *)
Record extends (s : KMem) (pt : SV39PageTable) (T : gmap Z (list Z)) (new : list Z)
    (s' : KMem) (pt' : SV39PageTable) (T' : gmap Z (list Z)) : Prop := {
  ex_grows : grows s new s';
  ex_frames : sv_frames pt' = sv_frames pt ++ new;
  ex_root : root_ppn pt' = root_ppn pt;
  ex_inv : pt_inv (km_mem s') pt' T';
  ex_sub : T ⊆ T';
  ex_child : ∀ p path i q, T !! p = Some path → idx_ok i →
    child (km_mem s) p i = Some q → child (km_mem s') p i = Some q;
  ex_leaf : ∀ i j k, idx_ok i → idx_ok j → idx_ok k →
    leaf (km_mem s') (root_ppn pt) i j k = leaf (km_mem s) (root_ppn pt) i j k;
  ex_same : same_outside (λ p, p ∈ sv_frames pt') (km_mem s) (km_mem s');
}.

Lemma extends_refl s pt T :
  fa_wf (km_fa s) → pt_inv (km_mem s) pt T → extends s pt T [] s pt T.
Proof.
  intros Hfa Hinv. split; try done; eauto using grows_refl, same_outside_refl.
  by rewrite app_nil_r.
Qed.

Lemma extends_trans s pt T n1 s1 pt1 T1 n2 s2 pt2 T2 :
  extends s pt T n1 s1 pt1 T1 → extends s1 pt1 T1 n2 s2 pt2 T2 →
  extends s pt T (n1 ++ n2) s2 pt2 T2.
Proof.
  intros [G1 F1 R1 I1 S1 C1 L1 O1] [G2 F2 R2 I2 S2 C2 L2 O2]. split.
  - by eapply grows_trans.
  - by rewrite F2, F1, app_assoc.
  - congruence.
  - done.
  - by etrans.
  - intros p path i q Hp Hi Hc. eapply C2; [by eapply lookup_weaken|done|]. by eapply C1.
  - intros. rewrite <- L1 by done. rewrite <- R1. by apply L2.
  - eapply same_outside_trans; [done..| |done]. intros p Hp. rewrite F2. set_solver.
Qed.

Lemma extends_owned s pt T n s' pt' T' :
  extends s pt T n s' pt' T' → frames_owned s pt → frames_owned s' pt'.
Proof.
  intros [G F _ _ _ _ _ _] Ho p Hp. apply (gr_owned _ _ _ G). rewrite F in Hp.
  apply elem_of_app in Hp as [Hp|Hp]; auto.
Qed.

Lemma ensure_table_spec s pt T p path i :
  pt_inv (km_mem s) pt T → fa_wf (km_fa s) → frames_owned s pt →
  T !! p = Some path → (length path < 2)%nat → idx_ok i →
  cwp (1 <= fa_free (km_fa s)) (ensure_table (pte_array_addr p i) pt) s (λ pt' s', ∃ new T' q,
    extends s pt T new s' pt' T' ∧ (length new <= 1)%nat ∧
    child (km_mem s') p i = Some q).
Proof.
  intros Hinv Hfa Hown Hp Hlen Hi. unfold ensure_table. cwp_steps.
  destruct (sv39_pte_is_valid (load64 (km_mem s) (pte_array_addr p i))) eqn:Hv; simpl; cwp_steps.
  { exists [], T, (sv39_pte_ppn (load64 (km_mem s) (pte_array_addr p i))).
    split_and!; [by apply extends_refl|simpl; lia|]. unfold child. by rewrite Hv. }
  apply wp_cwp. eapply wp_mono; [by apply frame_alloc_total|]. intros o s1 Ho.
  apply cwp_bind, cwp_unwrap; [intros Hfree; destruct o; [done|lia]|]. intros f ->. rename Ho into Hpost.
  pose proof (grows_alloc _ _ _ Hpost) as G.
  destruct Hpost as (_&Hno&Hf&_&_&Hout&Hzero). unfold write_pte. cwp_steps.
  destruct Hinv as (Hwf&Hdom&Hnd).
  assert (HTf : T !! f = None).
  { destruct (T !! f) eqn:E; [|done]. destruct Hno. apply Hown, Hdom. by eexists. }
  assert (Hfn : f ∉ sv_frames pt) by (rewrite <- Hdom, HTf; by intros [? [=]]).
  assert (Hnone : child (km_mem s) p i = None) by (unfold child; by rewrite Hv).
  assert (Hout' : ∀ x, x / 4096 ≠ f → km_mem s1 x = km_mem s x) by (intros; apply Hout; congruence).
  exists [f], (<[f := path ++ [i]]> T), f. split_and!; [split|simpl; lia|].
  - by eapply grows_mem; [|done].
  - done.
  - done.
  - split_and!; simpl.
    + by eapply ext_wf.
    + intros x. unfold vec_push. rewrite elem_of_app, list_elem_of_singleton, <- Hdom.
      rewrite lookup_insert_is_Some. destruct (decide (f = x)); naive_solver.
    + apply NoDup_app. split_and!; [done|set_solver|apply NoDup_singleton].
  - by apply insert_subseteq.
  - intros p' path' i' q Hp' Hi' Hc.
    assert ((p', i') ≠ (p, i)) by (intros [= -> ->]; congruence).
    etrans; [by eapply ext_child_other|done].
  - intros. by eapply ext_leaf.
  - simpl. intros x Hx. unfold ext_mem, vec_push in *.
    rewrite elem_of_app, list_elem_of_singleton, <- Hdom in Hx.
    rewrite store64_out; [apply Hout'; tauto|].
    assert (x / 4096 ≠ p) by (intros E; apply Hx; left; rewrite E; eauto).
    pose proof (wt_range _ _ _ Hwf _ _ Hp). rewrite pte_array_addr_eq by done.
    unfold idx_ok in *. zdiv_lia.
  - by eapply ext_child_new.
Qed.

Lemma child_ppn m p i q : child m p i = Some q → sv39_pte_ppn (load64 m (pte_array_addr p i)) = q.
Proof. unfold child. destruct (sv39_pte_is_valid _); congruence. Qed.

(** [find_pte_create] returns the address of the leaf entry, after adding at
    most two tables. *)
Lemma find_pte_create_spec s pt T v :
  pt_inv (km_mem s) pt T → fa_wf (km_fa s) → frames_owned s pt →
  cwp (2 <= fa_free (km_fa s)) (sv39_find_pte_create pt v) s (λ '(o, pt') s', ∃ new T' a,
    o = Some a ∧ extends s pt T new s' pt' T' ∧ (length new <= 2)%nat ∧
    sv39_find_pte (km_mem s') pt' v = Some a).
Proof.
  intros Hinv Hfa Hown. unfold sv39_find_pte_create. rewrite vpn_indexes_eq.
  set (i := _ mod 512). set (j := (_ / 2 ^ 9) mod 512). set (k := v mod 512).
  assert (Hi : idx_ok i) by (apply Z.mod_pos_bound; lia).
  assert (Hj : idx_ok j) by (apply Z.mod_pos_bound; lia).
  cbn [find_pte_create_loop]. change (0 =? 2) with false. change (0 + 1 =? 2) with false.
  change (0 + 1 + 1 =? 2) with true. cbv iota. cwp_steps.
  pose proof (wt_root _ _ _ (proj1 Hinv)) as HTroot.
  eapply cwp_mono.
  { eapply (ensure_table_spec s pt T (root_ppn pt) [] i); [done..|simpl; lia|done]. }
  { lia. }
  intros pt1 s1 (n1&T1&q1&E1&L1&C1). cwp_steps. rewrite (child_ppn _ _ _ _ C1).
  assert (HTq1 : T1 !! q1 = Some [i]).
  { rewrite <- (ex_root _ _ _ _ _ _ _ E1) in C1. eapply tree_level1; [apply E1|done..]. }
  pose proof (gr_free _ _ _ (ex_grows _ _ _ _ _ _ _ E1)) as Hfree1.
  eapply cwp_mono.
  { eapply (ensure_table_spec s1 pt1 T1 q1 [i] j); [apply E1|apply E1| |done|simpl; lia|done].
    by eapply extends_owned. }
  { lia. }
  intros pt2 s2 (n2&T2&q2&E2&L2&C2). cwp_steps. rewrite (child_ppn _ _ _ _ C2).
  exists (n1 ++ n2), T2, (pte_array_addr q2 k). split_and!; [done|by eapply extends_trans|rewrite length_app; lia|].
  rewrite find_pte_leaf_addr. fold i j k. unfold leaf_addr.
  rewrite (ex_root _ _ _ _ _ _ _ E2), (ex_root _ _ _ _ _ _ _ E1).
  assert (C1' : child (km_mem s2) (root_ppn pt) i = Some q1).
  { eapply (ex_child _ _ _ _ _ _ _ E2); [|done..].
    eapply lookup_weaken; [done|apply E1]. }
  rewrite C1'; simpl. by rewrite C2.
Qed.

(** ** Writing a leaf entry *)

Section set_leaf.
Context (m : mem) (root : Z) (T : gmap Z (list Z)) (Hwf : wf_tree m root T).
Context (q i j k e : Z) (Hq : T !! q = Some [i; j]) (Hk : idx_ok k) (He : 0 <= e < 2 ^ 64).

Definition set_leaf : mem := store64 m (pte_array_addr q k) e.

Lemma set_leaf_other p' path' i' :
  T !! p' = Some path' → idx_ok i' → (p', i') ≠ (q, k) →
  load64 set_leaf (pte_array_addr p' i') = load64 m (pte_array_addr p' i').
Proof.
  intros Hp' Hi' Hne. apply load64_store64_ne.
  apply pte_array_disjoint; eauto using wt_range.
Qed.

Lemma set_leaf_child p' path' i' :
  T !! p' = Some path' → (length path' < 2)%nat → idx_ok i' → child set_leaf p' i' = child m p' i'.
Proof.
  intros Hp' Hl Hi'. unfold child. erewrite set_leaf_other; [done..|].
  intros [= -> ->]. rewrite Hq in Hp'. injection Hp' as <-. simpl in Hl. lia.
Qed.

Lemma set_leaf_wf : wf_tree set_leaf root T.
Proof.
  split; [by eapply wt_root|by eapply wt_range| |]; intros p path i' r Hp Hl Hi';
    rewrite (set_leaf_child p path) by done; [by eapply wt_child|]. intros Hc. erewrite set_leaf_other; [by eapply wt_pointer|done..|].
  intros [= -> ->]. rewrite Hq in Hp. injection Hp as <-. simpl in Hl. lia.
Qed.

Lemma set_leaf_addr i' j' k' :
  idx_ok i' → idx_ok j' → leaf_addr set_leaf root i' j' k' = leaf_addr m root i' j' k'.
Proof.
  intros Hi' Hj'. unfold leaf_addr. rewrite (set_leaf_child root []); [|by eapply wt_root|simpl; lia|done].
  destruct (child m root i') as [p|] eqn:Hp; [|done]; simpl.
  by rewrite (set_leaf_child p [i']); [|by eapply tree_level1|simpl; lia|].
Qed.

Lemma set_leaf_leaf i' j' k' :
  leaf_addr m root i j k = Some (pte_array_addr q k) →
  idx_ok i' → idx_ok j' → idx_ok k' →
  leaf set_leaf root i' j' k' =
  if decide ((i', j', k') = (i, j, k)) then (if sv39_pte_is_valid e then Some e else None)
  else leaf m root i' j' k'.
Proof.
  intros Ha Hi' Hj' Hk'. unfold leaf. rewrite set_leaf_addr by done. case_decide as Heq.
  - injection Heq as -> -> ->. rewrite Ha; simpl. unfold set_leaf. by rewrite load64_store64_eq.
  - destruct (leaf_addr m root i' j' k') as [a|] eqn:Ha'; [|done]; simpl.
    destruct (leaf_addr_table _ _ _ Hwf _ _ _ _ Hi' Hj' Ha') as (r&->&Hr).
    erewrite set_leaf_other; [done..|]. intros [= -> ->]. rewrite Hq in Hr. by injection Hr as -> ->.
Qed.

Lemma set_leaf_out : same_outside (λ p, is_Some (T !! p)) m set_leaf.
Proof.
  intros x Hx. unfold set_leaf. pose proof (wt_range _ _ _ Hwf _ _ Hq).
  rewrite store64_out; [done|]. rewrite pte_array_addr_eq by done.
  assert (x / 4096 ≠ q) by (intros E; apply Hx; rewrite E; eauto).
  unfold idx_ok in *. zdiv_lia.
Qed.
End set_leaf.

(** ** The operations *)

Definition sv39_ok (m : mem) (pt : SV39PageTable) : Prop := ∃ T, pt_inv m pt T.

(** The valid leaf entry of a page. *)
Definition sv39_lookup (m : mem) (pt : SV39PageTable) (v : Z) : option Z :=
  leaf m (root_ppn pt) ((v / 2 ^ 18) mod 512) ((v / 2 ^ 9) mod 512) (v mod 512).

Lemma idx_mod x : idx_ok (x mod 512).
Proof. apply Z.mod_pos_bound. lia. Qed.
#[local] Hint Resolve idx_mod : core.

Lemma sv39_indexes_decide {A} v v' (x y : A) :
  is_vpn v → is_vpn v' →
  (if decide (((v' / 2 ^ 18) mod 512, (v' / 2 ^ 9) mod 512, v' mod 512) =
              ((v / 2 ^ 18) mod 512, (v / 2 ^ 9) mod 512, v mod 512)) then x else y) =
  if decide (v' = v) then x else y.
Proof.
  intros Hv Hv'. case_decide as H1; case_decide as H2; try done; [|by subst].
  destruct H2. apply vpn_indexes_inj; [done..|]. rewrite !vpn_indexes_eq. congruence.
Qed.

(** Writing the leaf entry that [find_pte] returned. *)
Lemma write_leaf_spec m pt T v a e :
  pt_inv m pt T → is_vpn v → sv39_find_pte m pt v = Some a → 0 <= e < 2 ^ 64 →
  pt_inv (store64 m a e) pt T ∧
  same_outside (λ p, p ∈ sv_frames pt) m (store64 m a e) ∧
  (∀ v', is_vpn v' → sv39_lookup (store64 m a e) pt v' =
     if decide (v' = v) then (if sv39_pte_is_valid e then Some e else None) else sv39_lookup m pt v').
Proof.
  intros (Hwf&Hdom&Hnd) Hv Ha He. rewrite find_pte_leaf_addr in Ha.
  destruct (leaf_addr_table _ _ _ Hwf _ _ _ _ (idx_mod _) (idx_mod _) Ha) as (q&->&Hq).
  split_and!; [split_and!; [|done..]; by eapply set_leaf_wf| |].
  - eapply (same_outside_mono (λ p, is_Some (T !! p))); [by eapply set_leaf_out|].
    intros p. by rewrite Hdom.
  - intros v' Hv'. unfold sv39_lookup. rewrite <- sv39_indexes_decide by done.
    by eapply set_leaf_leaf.
Qed.

Lemma sv39_lookup_find m pt v :
  sv39_lookup m pt v =
  a ← sv39_find_pte m pt v; let e := load64 m a in if sv39_pte_is_valid e then Some e else None.
Proof. unfold sv39_lookup, leaf. by rewrite find_pte_leaf_addr. Qed.

Lemma perm_pte ppn perm :
  is_ppn ppn → is_perm perm →
  0 <= sv39_pte_new ppn (Z.lor perm PTE_V) < 2 ^ 64 ∧
  sv39_pte_is_valid (sv39_pte_new ppn (Z.lor perm PTE_V)) = true ∧
  sv39_pte_ppn (sv39_pte_new ppn (Z.lor perm PTE_V)) = ppn.
Proof.
  intros Hp Hperm. destruct (perm_lor_V _ Hperm) as (->&Hr&Ho).
  split; [|split]; [apply sv39_pte_new_range|apply sv39_pte_new_valid|apply sv39_pte_new_ppn]; done || zdiv_lia.
Qed.

(** [map] fails on a page that has a valid entry; else only for want of frames. *)
Lemma sv39_map_ok s pt v ppn perm :
  sv39_ok (km_mem s) pt → fa_wf (km_fa s) → frames_owned s pt →
  is_vpn v → is_ppn ppn → is_perm perm →
  cwp (sv39_lookup (km_mem s) pt v = None ∧ 2 <= fa_free (km_fa s)) (sv39_map pt v ppn perm) s (λ pt' s',
    sv39_lookup (km_mem s) pt v = None ∧ ∃ new,
    grows s new s' ∧ (length new <= 2)%nat ∧ sv_frames pt' = sv_frames pt ++ new ∧
    root_ppn pt' = root_ppn pt ∧ sv39_ok (km_mem s') pt' ∧
    same_outside (λ p, p ∈ sv_frames pt') (km_mem s) (km_mem s') ∧
    (∀ v', is_vpn v' → sv39_lookup (km_mem s') pt' v' =
       if decide (v' = v) then Some (sv39_pte_new ppn (Z.lor perm PTE_V))
       else sv39_lookup (km_mem s) pt v')).
Proof.
  intros [T Hinv] Hfa Hown Hv Hp Hperm. unfold sv39_map. cwp_steps.
  eapply cwp_mono; [by eapply find_pte_create_spec|by intros [_ ?]|].
  intros [o pt'] s' (new&T'&a&->&E&Hl&Hf). unfold write_pte. cwp_steps.
  destruct (perm_pte _ _ Hp Hperm) as (Hr&Hvalid&_).
  assert (Hlook : ∀ v', sv39_lookup (km_mem s') pt' v' = sv39_lookup (km_mem s) pt v').
  { intros v'. unfold sv39_lookup. rewrite (ex_root _ _ _ _ _ _ _ E). by apply E. }
  pose proof (Hlook v) as Hlv. rewrite sv39_lookup_find, Hf in Hlv. simpl in Hlv.
  apply cwp_assert; [intros [Hnone _]; rewrite Hnone in Hlv; by destruct (sv39_pte_is_valid (load64 _ a))|].
  intros Hnv%negb_true_iff. rewrite Hnv in Hlv.
  cwp_steps. rewrite perm_pteflags by done. cwp_steps.
  destruct (write_leaf_spec _ _ _ _ _ _ (ex_inv _ _ _ _ _ _ _ E) Hv Hf Hr) as (Hinv'&Hout&Hleaf).
  split; [done|]. exists new. split_and!; [|done|apply E|apply E|by exists T'| |].
  - by eapply grows_mem; [|apply E].
  - eapply same_outside_trans; [apply E|done|done|done].
  - intros v' Hv'. simpl. rewrite Hleaf, Hvalid, Hlook by done. done.
Qed.

Lemma sv39_find_pte_valid m pt v e :
  sv39_lookup m pt v = Some e →
  ∃ a, sv39_find_pte m pt v = Some a ∧ load64 m a = e ∧ sv39_pte_is_valid e = true.
Proof.
  rewrite sv39_lookup_find. destruct (sv39_find_pte m pt v) as [a|]; [|done]; simpl.
  destruct (sv39_pte_is_valid (load64 m a)) eqn:E; [|done]. intros [= <-]. eauto.
Qed.

(** When the leaf exists [find_pte_create] changes nothing. *)
Lemma find_pte_create_existing s pt v a :
  sv39_find_pte (km_mem s) pt v = Some a → sv39_find_pte_create pt v s = Done (Some a, pt, s).
Proof.
  rewrite find_pte_leaf_addr. unfold sv39_find_pte_create. rewrite vpn_indexes_eq.
  cbn [find_pte_create_loop]. change (0 =? 2) with false. change (0 + 1 =? 2) with false.
  change (0 + 1 + 1 =? 2) with true. cbv iota. unfold leaf_addr, child, ensure_table.
  unfold mbind, K_bind, kget; simpl. destruct (sv39_pte_is_valid _); [|done]; simpl.
  destruct (sv39_pte_is_valid _); [|done]; simpl. by intros [= ->].
Qed.

Lemma sv39_unmap_ok s pt v e :
  sv39_ok (km_mem s) pt → is_vpn v → sv39_lookup (km_mem s) pt v = Some e →
  wp (sv39_unmap pt v) s (λ _ s',
    km_fa s' = km_fa s ∧ sv39_ok (km_mem s') pt ∧
    same_outside (λ p, p ∈ sv_frames pt) (km_mem s) (km_mem s') ∧
    (∀ v', is_vpn v' → sv39_lookup (km_mem s') pt v' =
       if decide (v' = v) then None else sv39_lookup (km_mem s) pt v')).
Proof.
  intros [T Hinv] Hv (a&Ha&<-&Hvalid)%sv39_find_pte_valid. unfold sv39_unmap, write_pte. wp_steps.
  rewrite Ha. wp_steps. apply wp_assert; [done|]. wp_steps.
  destruct (write_leaf_spec _ _ _ _ _ sv39_pte_empty Hinv Hv Ha ltac:(done)) as (Hinv'&Hout&Hleaf).
  split_and!; [done|by exists T|done|done].
Qed.

Lemma sv39_unmap_panic s pt v : sv39_lookup (km_mem s) pt v = None → sv39_unmap pt v s = Panic.
Proof.
  rewrite sv39_lookup_find. unfold sv39_unmap, mbind, K_bind, kget; simpl.
  destruct (sv39_find_pte (km_mem s) pt v) as [a|]; [|done]; simpl.
  by destruct (sv39_pte_is_valid (load64 (km_mem s) a)).
Qed.

Lemma sv39_zero_root m root :
  is_ppn root → (∀ x, x / 4096 = root → m x = 0) →
  (∀ i, idx_ok i → child m root i = None) ∧ pt_inv m (mkSV39 root [root]) {[root := []]}.
Proof.
  intros Hr Hz. assert (Hc : ∀ i, idx_ok i → child m root i = None).
  { intros i Hi. unfold child. by rewrite (entry_ext (λ _, 0)) by done. }
  split; [done|]. split; [split|split]; simpl.
  - by rewrite lookup_singleton_eq.
  - by intros p path [<- _]%lookup_singleton_Some.
  - intros p path i q [<- _]%lookup_singleton_Some _ Hi. by rewrite Hc.
  - intros p path i q [<- _]%lookup_singleton_Some _ Hi. by rewrite Hc.
  - intros x. rewrite list_elem_of_singleton. destruct (decide (root = x)) as [->|].
    + rewrite lookup_singleton_eq. naive_solver.
    + rewrite lookup_singleton_ne by done. split; [by intros [? [=]]|congruence].
  - apply NoDup_singleton.
Qed.

Lemma sv39_new_ok s :
  fa_wf (km_fa s) → 1 <= fa_free (km_fa s) →
  wp sv39_new_kernel s (λ pt s',
    grows s (sv_frames pt) s' ∧ sv39_ok (km_mem s') pt ∧ length (sv_frames pt) = 1%nat ∧
    same_outside (λ p, p ∈ sv_frames pt) (km_mem s) (km_mem s') ∧
    (∀ v, is_vpn v → sv39_lookup (km_mem s') pt v = None)).
Proof.
  intros Hfa Hfree. unfold sv39_new_kernel, sv39_new. wp_steps.
  eapply wp_mono; [apply frame_alloc_spec; [done|lia]|]. intros o s' (f&->&Hpost). wp_steps.
  pose proof (grows_alloc _ _ _ Hpost) as G. destruct Hpost as (_&_&Hf&_&_&Hout&Hzero).
  destruct (sv39_zero_root _ _ Hf Hzero) as [Hc Hinv]. simpl.
  split_and!; [done|by exists {[f := []]}|done| |].
  - eapply same_outside_mono; [done|]. intros p <-. set_solver.
  - intros v _. unfold sv39_lookup, leaf, leaf_addr. simpl. by rewrite Hc.
Qed.

#[global, refine] Instance sv39_page_table : PageTable SV39PageTable := {
  pt_new_kernel := sv39_new_kernel;
  pt_map := sv39_map;
  pt_unmap := sv39_unmap;
  pt_translate := sv39_translate;
  pt_token := sv39_token;
  pte_ppn := sv39_pte_ppn;
  pte_valid := sv39_pte_is_valid;
  pte_make := λ ppn perm, sv39_pte_new ppn (Z.lor perm PTE_V);
  pt_frames := sv_frames;
  pt_ok := sv39_ok;
  pt_lookup := sv39_lookup;
}.
Proof.
  - intros m t p [T (Hwf&Hdom&_)] Hp%Hdom. destruct Hp as [path Hp]. by eapply wt_range.
  - by intros m t [T (_&_&?)].
  - intros ppn perm Hp Hperm. by apply perm_pte.
  - intros m t v e (a&_&<-&?)%sv39_find_pte_valid. done.
  - intros m t v. unfold sv39_translate. rewrite sv39_lookup_find.
    destruct (sv39_find_pte m t v) as [a|]; [|done]; simpl. by destruct (sv39_pte_is_valid _).
  - intros m m' t [T (Hwf&Hdom&Hnd)] Hm.
    destruct (tree_frame m m' _ _ Hwf) as [Hwf' Hleaf].
    { intros p Hp x <-. by apply Hm, Hdom. }
    split; [by exists T|]. intros v _. apply Hleaf; apply idx_mod.
  - apply sv39_new_ok.
  - intros s t v ppn perm ??????. eapply cwp_mono; [by apply sv39_map_ok|done|].
    intros t' s' (?&new&?&?&?&Hr&?). split; [done|]. exists new. do 3 (split; [done|]).
    split; [|done]. unfold sv39_token. by rewrite Hr.
  - apply sv39_unmap_ok.
  - intros s t v _ _. apply sv39_unmap_panic.
Defined.

(** [from_token] recovers the root table from [token]. *)
Lemma sv39_token_root pt : is_ppn (root_ppn pt) → root_ppn (sv39_from_token (sv39_token pt)) = root_ppn pt.
Proof.
  intros Hr. unfold sv39_from_token, sv39_token; simpl. unfold is_ppn in Hr.
  rewrite wshl_small by lia. rewrite shl1_mask by lia.
  rewrite <- (Z.shiftl_mul_pow2 8 60) by lia. rewrite lor_shiftl_add by lia.
  rewrite ppn_from_usize_id; [|apply Z.mod_pos_bound; lia]. zdiv_lia.
Qed.
