(* ===== verification/UserMem.v ===== *)
(** * Access to user memory ([os/src/mm/pagetable.rs], from line 57)

    [translated_byte_buffer] and its relatives walk the page table of a process
    and hand out slices of physical memory; a slice is its address and length.
    A [UserBuffer] is a list of slices.  The page table is the Sv39 one, the
    [PageTableImpl] of this architecture. *)

From S2P Require Import Prelude Address PhysMem IdAlloc FrameAlloc PageTable Sv39.

(** ** Translation *)

Definition uslice : Type := Z * Z.

(** One iteration of [while start < end]: the slice and the next [start]. *)
Definition tbb_step (m : mem) (pt : SV39PageTable) (start stop : Z) : outcome (uslice * Z) :=
  let start_va := va_from_usize start in
  let vpn := va_floor start_va in
  pte ← unwrap (sv39_translate m pt vpn);
  let ppn := sv39_pte_ppn pte in
  let vpn := step_by_one vpn in
  let end_va := va_from_vpn vpn in
  let end_va := Z.min end_va (va_from_usize stop) in
  let hi := if va_page_offset end_va =? 0 then PAGE_SIZE else va_page_offset end_va in
  if va_page_offset start_va <=? hi then
    Done ((bytes_array_addr ppn + va_page_offset start_va, hi - va_page_offset start_va), va_to_usize end_va)
  else Panic.

Fixpoint tbb_loop (fuel : nat) (m : mem) (pt : SV39PageTable) (start stop : Z) : outcome (list uslice) :=
  match fuel with
  | O => Panic
  | S fuel' =>
      if start <? stop then
        '(sl, start') ← tbb_step m pt start stop;
        v ← tbb_loop fuel' m pt start' stop;
        mret (sl :: v)
      else mret []
  end.

(** Every iteration but the first and the last covers a page. *)
Definition translated_byte_buffer (m : mem) (token ptr len : Z) : outcome (list uslice) :=
  let page_table := sv39_from_token token in
  let start := ptr in
  let stop := start +w len in
  tbb_loop (Z.to_nat (len / 4096) + 3) m page_table start stop.

Fixpoint translated_str_loop (fuel : nat) (m : mem) (pt : SV39PageTable) (va : Z) : outcome (list Z) :=
  match fuel with
  | O => Panic
  | S fuel' =>
      pa ← unwrap (sv39_translate_va m pt (va_from_usize va));
      let ch := m pa in
      if ch =? 0 then mret []
      else rest ← translated_str_loop fuel' m pt (va +w 1); mret (ch :: rest)
  end.

(** [fuel] bounds the length of the string; the source has no bound. *)
Definition translated_str (fuel : nat) (m : mem) (token ptr : Z) : outcome (list Z) :=
  translated_str_loop fuel m (sv39_from_token token) ptr.

(** The physical address of the referenced object. *)
Definition translated_ref (m : mem) (token ptr : Z) : outcome Z :=
  unwrap (sv39_translate_va m (sv39_from_token token) (va_from_usize ptr)).

Definition translated_refmut (m : mem) (token ptr : Z) : outcome Z :=
  unwrap (sv39_translate_va m (sv39_from_token token) (va_from_usize ptr)).

(** ** [UserBuffer] *)

Definition ub_len (b : list uslice) : Z := foldl (λ total (s : uslice), total + s.2) 0 b.

(** The bytes of one slice; [inr] is the early [return]. *)
Fixpoint ws_bytes (src : list Z) (a : Z) (n : nat) (cur : Z) (m : mem) : (Z * mem) + (Z * mem) :=
  match n with
  | O => inl (cur, m)
  | S n' =>
      if cur <? length src then
        ws_bytes src (a + 1) n' (cur + 1) (store_bytes m a [default 0 (src !! Z.to_nat cur)])
      else if cur =? length src then inr (length src + 1, store_bytes m a [0])
      else inl (cur, m)
  end.

Fixpoint ws_buffers (src : list Z) (b : list uslice) (cur : Z) (m : mem) : Z * mem :=
  match b with
  | [] => (cur, m)
  | (a, n) :: b' =>
      match ws_bytes src a (Z.to_nat n) cur m with
      | inr r => r
      | inl (cur', m') => ws_buffers src b' cur' m'
      end
  end.

Definition write_string (b : list uslice) (src : list Z) (m : mem) : Z * mem :=
  ws_buffers src b 0 m.

(** [v[a..b].copy_from_slice(bs)] on a kernel slice. *)
Definition slice_set (v : list Z) (a b : Z) (bs : list Z) : outcome (list Z) :=
  if (a <=? b) && (b <=? length v) && (Z.of_nat (length bs) =? b - a)
  then Done (take (Z.to_nat a) v ++ bs ++ drop (Z.to_nat b) v) else Panic.

(** The bytes [from..to] of a slice. *)
Definition uslice_bytes (m : mem) (s : uslice) (lo hi : Z) : outcome (list Z) :=
  if (lo <=? hi) && (hi <=? s.2) then Done (load_bytes m (s.1 + lo) (hi - lo)) else Panic.

(** The loop of [read]; the result is the count and the destination. *)
Fixpoint ub_read_loop (m : mem) (b : list uslice) (offset : Z) (dst : list Z) (read_bytes dst_start : Z)
  : outcome (Z * list Z) :=
  match b with
  | [] => mret (read_bytes, dst)
  | s :: b' =>
      let dst_len : Z := length dst in
      let dst_end := dst_start + s.2 in
      let copy_dst_start := Z.max dst_start offset in
      let copy_dst_end := Z.min dst_end (offset + dst_len) in
      if copy_dst_end <=? copy_dst_start then ub_read_loop m b' offset dst read_bytes dst_end
      else
        let copy_src_start := copy_dst_start - offset in
        let copy_src_end := copy_src_start + (copy_dst_end - copy_dst_start) in
        let copy_buffer_start := copy_dst_start - dst_start in
        let copy_buffer_end := copy_buffer_start + (copy_dst_end - copy_dst_start) in
        bs ← uslice_bytes m s copy_buffer_start copy_buffer_end;
        dst' ← slice_set dst copy_src_start copy_src_end bs;
        let read_bytes := read_bytes + (copy_dst_end - copy_dst_start) in
        if read_bytes =? dst_len then mret (read_bytes, dst')
        else ub_read_loop m b' offset dst' read_bytes dst_end
  end.

Definition ub_read (m : mem) (b : list uslice) (offset : option Z) (dst : list Z) : outcome (Z * list Z) :=
  let offset := default 0 offset in
  if ub_len b <=? offset then mret (0, dst)
  else ub_read_loop m b offset dst 0 0.

(** The loop of [write_buffer]. *)
Fixpoint ub_write_loop (b : list uslice) (offset : Z) (src : list Z) (write_bytes dst_start : Z) (m : mem)
  : outcome (Z * mem) :=
  match b with
  | [] => mret (write_bytes, m)
  | s :: b' =>
      let src_len : Z := length src in
      let dst_end := dst_start + s.2 in
      let copy_dst_start := Z.max dst_start offset in
      let copy_dst_end := Z.min dst_end (offset + src_len) in
      if copy_dst_end <=? copy_dst_start then ub_write_loop b' offset src write_bytes dst_end m
      else
        let copy_src_start := copy_dst_start - offset in
        let copy_src_end := copy_src_start + (copy_dst_end - copy_dst_start) in
        let copy_buffer_start := copy_dst_start - dst_start in
        let copy_buffer_end := copy_buffer_start + (copy_dst_end - copy_dst_start) in
        bs ← slice src copy_src_start copy_src_end;
        if (copy_buffer_start <=? copy_buffer_end) && (copy_buffer_end <=? s.2) then
          ub_write_loop b' offset src (write_bytes + (copy_dst_end - copy_dst_start)) dst_end
            (store_bytes m (s.1 + copy_buffer_start) bs)
        else Panic
  end.

Definition ub_write_buffer (b : list uslice) (offset : option Z) (src : list Z) (m : mem) : outcome (Z * mem) :=
  let offset := default 0 offset in
  if ub_len b <=? offset then mret (0, m)
  else ub_write_loop b offset src 0 0 m.

(** ** [UserBufferIterator] *)

Record UserBufferIterator := mkUBI { ubi_buffers : list uslice; current_buffer : nat; current_idx : Z }.

Definition ub_into_iter (b : list uslice) : UserBufferIterator := mkUBI b 0 0.

(** The address of the next byte; indexing an empty slice panics. *)
Definition ubi_next (it : UserBufferIterator) : outcome (option Z * UserBufferIterator) :=
  match ubi_buffers it !! current_buffer it with
  | None => Done (None, it)
  | Some (a, n) =>
      if current_idx it <? n then
        let r := a + current_idx it in
        Done (Some r,
          if current_idx it + 1 =? n then mkUBI (ubi_buffers it) (S (current_buffer it)) 0
          else mkUBI (ubi_buffers it) (current_buffer it) (current_idx it + 1))
      else Panic
  end.

(** ** Objects; [bytes] is the representation of a [T] *)

Definition copy_to_user (token : Z) (bytes : list Z) (dst : Z) (m : mem) : outcome mem :=
  let size : Z := length bytes in
  if va_floor (va_from_usize dst) =? va_floor (va_from_usize (dst +w size -w 1)) then
    a ← translated_refmut m token dst; mret (store_bytes m a bytes)
  else
    b ← translated_byte_buffer m token dst size;
    '(_, m') ← ub_write_buffer b None bytes m;
    mret m'.

(** [dst] is the kernel object that is overwritten, [size] bytes long. *)
Definition copy_from_user (token : Z) (src : Z) (dst : list Z) (m : mem) : outcome (list Z) :=
  let size : Z := length dst in
  if va_floor (va_from_usize src) =? va_floor (va_from_usize (src +w size -w 1)) then
    a ← translated_ref m token src; mret (load_bytes m a size)
  else
    b ← translated_byte_buffer m token src size;
    '(_, dst') ← ub_read m b None dst;
    mret dst'.

Definition get_from_user (token src : Z) (uninit : list Z) (m : mem) : outcome (list Z) :=
  copy_from_user token src uninit m.

(** ** Correctness *)

(** The physical address of a mapped user address. *)
Definition phys (m : mem) (pt : SV39PageTable) (va : Z) : Z :=
  match sv39_lookup m pt (va / 4096) with
  | Some e => sv39_pte_ppn e * 4096 + va mod 4096
  | None => 0
  end.

(** Every page of [lo, hi) is mapped, in the lower half of the address space. *)
Record user_range (m : mem) (pt : SV39PageTable) (lo hi : Z) : Prop := {
  ur_lo : 0 <= lo;
  ur_hi : hi <= 2 ^ 38;
  ur_mapped : ∀ va, lo <= va < hi → is_Some (sv39_lookup m pt (va / 4096));
}.

(** The addresses a list of slices covers, in order. *)
Definition uaddrs (b : list uslice) : list Z := b ≫= λ s, seqZ s.1 s.2.

Lemma sv39_translate_mapped m pt v e :
  sv39_lookup m pt v = Some e → sv39_translate m pt v = Some e.
Proof. intros (a&Ha&He&_)%sv39_find_pte_valid. unfold sv39_translate. rewrite Ha. simpl. by rewrite He. Qed.

Lemma lookup_ppn_range m pt v e : sv39_lookup m pt v = Some e → is_ppn (sv39_pte_ppn e).
Proof. intros _. unfold sv39_pte_ppn. rewrite ppn_from_usize_mod. apply Z.mod_pos_bound. lia. Qed.

Lemma translated_ref_lookup m token va e :
  0 <= va < 2 ^ 39 → sv39_lookup m (sv39_from_token token) (va / 4096) = Some e →
  translated_ref m token va = Done (sv39_pte_ppn e * 4096 + va mod 4096).
Proof.
  intros Hva He. unfold translated_ref, sv39_translate_va. rewrite va_from_usize_mod, Z.mod_small by lia.
  change (va_floor va) with (va / 4096). apply sv39_find_pte_valid in He as Hf. destruct Hf as (x&->&Hx&_).
  cbn [fmap option_fmap option_map unwrap]. rewrite Hx. pose proof (lookup_ppn_range _ _ _ _ He) as Hp. unfold is_ppn in Hp.
  rewrite pa_from_ppn_eq, va_page_offset_mod by lia. rewrite wadd_small by zdiv_lia.
  rewrite pa_from_usize_mod, Z.mod_small by zdiv_lia. done.
Qed.

(** Where the iteration that starts at [start] stops. *)
Definition next_stop (start stop : Z) : Z := Z.min ((start / 4096 + 1) * 4096) stop.

Lemma tbb_step_eq m pt start stop e :
  0 <= start < stop → stop < 2 ^ 38 → sv39_lookup m pt (start / 4096) = Some e →
  tbb_step m pt start stop =
    Done ((phys m pt start, next_stop start stop - start), next_stop start stop).
Proof.
  intros Hs Hlim He. unfold tbb_step, phys, next_stop. rewrite He.
  rewrite !va_from_usize_mod, !Z.mod_small by lia. change (va_floor start) with (start / 4096).
  rewrite (sv39_translate_mapped _ _ _ _ He). unfold step_by_one.
  rewrite wadd_small by zdiv_lia. rewrite va_from_vpn_eq by zdiv_lia. rewrite !va_page_offset_mod. cbn [unwrap mbind outcome_bind].
  rewrite bytes_array_addr_eq by by eapply lookup_ppn_range. unfold PAGE_SIZE.
  set (n := Z.min ((start / 4096 + 1) * 4096) stop).
  assert (Hn : start < n <= (start / 4096 + 1) * 4096) by (unfold n; zdiv_lia).
  rewrite va_to_usize_low by lia. rewrite (proj2 (Z.leb_le _ _)); [|destruct (Z.eqb_spec (n mod 4096) 0); zdiv_lia].
  do 2 f_equal. f_equal. destruct (Z.eqb_spec (n mod 4096) 0); zdiv_lia.
Qed.

Lemma phys_page m pt start n :
  0 < n → start / 4096 = (start + n - 1) / 4096 →
  phys m pt <$> seqZ start n = match sv39_lookup m pt (start / 4096) with
    | Some _ => seqZ (phys m pt start) n | None => replicate (Z.to_nat n) 0 end.
Proof.
  intros Hn Hpage. destruct (sv39_lookup m pt (start / 4096)) as [e|] eqn:He.
  - apply list_eq. intros i. rewrite list_lookup_fmap. destruct (decide (i < n)) as [Hi|Hi].
    + rewrite !lookup_seqZ_lt by lia. simpl. f_equal. unfold phys.
      replace ((start + i) / 4096) with (start / 4096) by zdiv_lia. rewrite He. zdiv_lia.
    + rewrite !lookup_seqZ_ge by lia. done.
  - apply list_eq. intros i. rewrite list_lookup_fmap. destruct (decide (i < n)) as [Hi|Hi].
    + rewrite lookup_seqZ_lt, lookup_replicate_2 by lia. simpl. f_equal. unfold phys.
      replace ((start + i) / 4096) with (start / 4096) by zdiv_lia. by rewrite He.
    + rewrite lookup_seqZ_ge by lia. symmetry. apply lookup_ge_None. rewrite length_replicate. lia.
Qed.

Lemma seqZ_split a n k : 0 <= k <= n → seqZ a n = seqZ a k ++ seqZ (a + k) (n - k).
Proof. intros. rewrite <- seqZ_app by lia. f_equal. lia. Qed.

(** Pages the range [start, stop) still touches. *)
Definition pages_left (start stop : Z) : Z :=
  if start <? stop then (stop - 1) / 4096 - start / 4096 + 1 else 0.

Lemma tbb_loop_ok m pt stop : ∀ (fuel : nat) start,
  user_range m pt start stop → stop < 2 ^ 38 → pages_left start stop < fuel →
  ∃ b, tbb_loop fuel m pt start stop = Done b ∧
    uaddrs b = phys m pt <$> seqZ start (stop - start) ∧
    Forall (λ s, 0 < s.2 <= 4096) b.
Proof.
  induction fuel as [|fuel IH]; intros start [Hlo Hhi Hmap] Hlim Hfuel.
  { unfold pages_left in Hfuel. destruct (Z.ltb_spec start stop); zdiv_lia. }
  cbn [tbb_loop]. destruct (Z.ltb_spec start stop) as [Hlt|Hge].
  2:{ exists []. split; [done|]. split; [|constructor]. by rewrite seqZ_nil by lia. }
  destruct (Hmap start) as [e He]; [lia|]. rewrite (tbb_step_eq m pt start stop e) by done.
  assert (Hn : start < next_stop start stop <= stop) by (unfold next_stop; zdiv_lia).
  destruct (IH (next_stop start stop)) as (b&Hb&Hua&Hall).
  { split; [lia|done|]. intros va Hva. apply Hmap. lia. }
  { done. }
  { unfold pages_left, next_stop in *. destruct (Z.ltb_spec start stop); [|lia].
    destruct (Z.ltb_spec (Z.min ((start / 4096 + 1) * 4096) stop) stop); [|zdiv_lia].
    rewrite Z.min_l by lia. zdiv_lia. }
  cbn [mbind outcome_bind]. rewrite Hb. eexists. split; [done|]. split.
  - change (uaddrs (?s :: b)) with (seqZ s.1 s.2 ++ uaddrs b). simpl.
    rewrite Hua, (seqZ_split start _ (next_stop start stop - start)), fmap_app by lia.
    rewrite (phys_page m pt start) by (unfold next_stop in *; zdiv_lia). rewrite He.
    do 3 f_equal; lia.
  - constructor; [|done]. simpl. unfold next_stop in *. zdiv_lia.
Qed.

Lemma tbb_ok m token ptr len :
  user_range m (sv39_from_token token) ptr (ptr + len) → 0 <= len → ptr + len < 2 ^ 38 →
  ∃ b, translated_byte_buffer m token ptr len = Done b ∧
    uaddrs b = phys m (sv39_from_token token) <$> seqZ ptr len ∧ Forall (λ s, 0 < s.2 <= 4096) b.
Proof.
  intros Hr Hlen Hlim. unfold translated_byte_buffer. pose proof (ur_lo _ _ _ _ Hr).
  rewrite wadd_small by lia.
  destruct (tbb_loop_ok m (sv39_from_token token) (ptr + len) (Z.to_nat (len / 4096) + 3) ptr) as (b&?&Hu&?).
  - done.
  - lia.
  - unfold pages_left. destruct (Z.ltb_spec ptr (ptr + len)); zdiv_lia.
  - exists b. split; [done|]. split; [|done]. rewrite Hu. do 2 f_equal. lia.
Qed.

(** ** [UserBuffer::read] and [write_buffer] *)

(** The contents of a buffer. *)
Definition bytes_at (m : mem) (l : list Z) : list Z := (λ x, m x) <$> l.
Definition ub_bytes (m : mem) (b : list uslice) : list Z := bytes_at m (uaddrs b).

Lemma uaddrs_cons s b : uaddrs (s :: b) = seqZ s.1 s.2 ++ uaddrs b.
Proof. done. Qed.

Lemma ub_len_foldl b : ∀ z, foldl (λ total (s : uslice), total + s.2) z b = z + ub_len b.
Proof.
  unfold ub_len. induction b as [|s b IH]; intros z; cbn [foldl]; [lia|].
  rewrite (IH (z + s.2)), (IH (0 + s.2)). lia.
Qed.

Lemma ub_len_length b : Forall (λ s : uslice, 0 < s.2) b → ub_len b = length (uaddrs b).
Proof.
  induction 1 as [|s b Hs _ IH]; [done|]. unfold ub_len. cbn [foldl]. rewrite ub_len_foldl, IH.
  rewrite uaddrs_cons, length_app, length_seqZ. lia.
Qed.

Lemma slice_set_spec v a b bs :
  0 <= a <= b → b <= length v → Z.of_nat (length bs) = b - a →
  ∃ v', slice_set v a b bs = Done v' ∧ length v' = length v ∧
    ∀ i : nat, v' !! i = if decide (a <= i < b) then bs !! Z.to_nat (i - a) else v !! i.
Proof.
  intros Ha Hb Hl. unfold slice_set.
  rewrite (proj2 (Z.leb_le _ _)), (proj2 (Z.leb_le _ _)), (proj2 (Z.eqb_eq _ _)) by lia. simpl.
  eexists. split; [done|]. split; [rewrite !length_app, length_take, length_drop; lia|].
  intros i. case_decide.
  - rewrite lookup_app_r, lookup_app_l by (rewrite ?length_take; lia). f_equal. rewrite length_take. lia.
  - destruct (decide (i < a)).
    + rewrite lookup_app_l, lookup_take_lt by (rewrite ?length_take; lia). done.
    + rewrite !lookup_app_r by (rewrite ?length_take; lia). rewrite lookup_drop, !length_take. f_equal. lia.
Qed.

(** How many bytes are copied once the first [d] bytes have been looked at. *)
Definition copied_upto (d off len : Z) : Z := Z.max 0 (Z.min (d - off) len).

Lemma uslice_bytes_ok m s lo hi :
  0 <= lo <= hi → hi <= s.2 → uslice_bytes m s lo hi = Done (load_bytes m (s.1 + lo) (hi - lo)).
Proof. intros. unfold uslice_bytes. rewrite !(proj2 (Z.leb_le _ _)) by lia. done. Qed.

(** Byte [j] of the buffer lies in slice [s] behind [d] earlier bytes. *)
Lemma ub_bytes_mid m pre s b (j : Z) :
  Z.of_nat (length pre) <= j < Z.of_nat (length pre) + s.2 →
  bytes_at m (pre ++ seqZ s.1 s.2 ++ uaddrs b) !! Z.to_nat j = Some (m (s.1 + (j - Z.of_nat (length pre)))).
Proof.
  intros Hj. unfold bytes_at. rewrite list_lookup_fmap, lookup_app_r, lookup_app_l by (rewrite ?length_seqZ; lia).
  rewrite lookup_seqZ_lt by lia. simpl. do 2 f_equal. lia.
Qed.

Lemma ub_read_loop_ok m off b : ∀ pre dst r,
  Forall (λ s : uslice, 0 < s.2) b → 0 <= off → r = copied_upto (length pre) off (length dst) →
  ∃ n dst', ub_read_loop m b off dst r (length pre) = Done (n, dst') ∧ length dst' = length dst ∧
    n = copied_upto (length (pre ++ uaddrs b)) off (length dst) ∧
    ∀ i : nat, dst' !! i = if decide (r <= i < n) then bytes_at m (pre ++ uaddrs b) !! Z.to_nat (off + i) else dst !! i.
Proof.
  induction b as [|s b IH]; intros pre dst r Hall Hoff Hr.
  { exists r, dst. simpl. rewrite app_nil_r. split; [done|]. split; [done|]. split; [done|].
    intros i. by rewrite decide_False by lia. }
  apply Forall_cons in Hall as [Hs Hall]. rewrite uaddrs_cons.
  assert (Hlen : Z.of_nat (length (pre ++ seqZ s.1 s.2)) = length pre + s.2) by (rewrite length_app, length_seqZ; lia).
  simpl ub_read_loop. destruct (Z.leb_spec (Z.min (length pre + s.2) (off + length dst)) (Z.max (length pre) off)) as [Hle|Hgt].
  - destruct (IH (pre ++ seqZ s.1 s.2) dst r) as (n&dst'&Hrun&?&?&?).
    { done. } { done. } { rewrite Hr, Hlen. unfold copied_upto. lia. }
    exists n, dst'. rewrite Hlen in Hrun. rewrite !app_assoc. done.
  - rewrite uslice_bytes_ok by lia. cbn [mbind outcome_bind].
    set (st := Z.max (length pre) off) in *. set (en := Z.min (length pre + s.2) (off + length dst)) in *.
    destruct (slice_set_spec dst (st - off) (st - off + (en - st))
      (load_bytes m (s.1 + (st - length pre)) (st - length pre + (en - st) - (st - length pre))))
      as (d1&->&Hl1&Hd1); [lia|lia|rewrite length_load_bytes; lia|]. cbn [mbind outcome_bind].
    assert (Hr' : r = st - off) by (rewrite Hr; unfold copied_upto; lia).
    assert (Hd1' : ∀ i : nat, d1 !! i = if decide (r <= i < en - off) then
              bytes_at m (pre ++ seqZ s.1 s.2 ++ uaddrs b) !! Z.to_nat (off + i) else dst !! i).
    { intros i. rewrite Hd1, Hr'. destruct (decide (st - off <= i < st - off + (en - st))).
      - rewrite decide_True by lia. rewrite ub_bytes_mid, lookup_load_bytes by lia. do 2 f_equal. lia.
      - by rewrite decide_False by lia. }
    replace (r + (en - st)) with (en - off) by lia.
    destruct (Z.eqb_spec (en - off) (length dst)) as [Hfull|Hmore].
    + exists (en - off), d1. split; [done|]. split; [done|]. split; [|done].
      unfold copied_upto. rewrite !length_app, length_seqZ. lia.
    + destruct (IH (pre ++ seqZ s.1 s.2) d1 (en - off)) as (n&dst'&Hrun&Hl2&Hn&Hd2).
      { done. } { done. } { rewrite Hlen, Hl1. unfold copied_upto. lia. }
      exists n, dst'. rewrite Hlen in Hrun. rewrite <- app_assoc, ?Hl1 in *.
      split; [done|]. split; [congruence|]. split; [done|]. intros i. rewrite Hd2, Hd1'.
      assert (en - off <= n) by (rewrite Hn; unfold copied_upto; rewrite !length_app, length_seqZ; lia).
      repeat case_decide; try done; lia.
Qed.

Lemma ub_read_ok m b off dst :
  Forall (λ s : uslice, 0 < s.2) b → 0 <= off →
  ∃ n dst', ub_read m b (Some off) dst = Done (n, dst') ∧ length dst' = length dst ∧
    n = copied_upto (length (uaddrs b)) off (length dst) ∧
    ∀ i : nat, dst' !! i = if decide (i < n) then ub_bytes m b !! Z.to_nat (off + i) else dst !! i.
Proof.
  intros Hall Hoff. unfold ub_read, ub_bytes. simpl default. rewrite ub_len_length by done.
  destruct (Z.leb_spec (length (uaddrs b)) off).
  - exists 0, dst. split; [done|]. split; [done|]. split; [unfold copied_upto; lia|].
    intros i. by rewrite decide_False by lia.
  - destruct (ub_read_loop_ok m off b [] dst 0) as (n&dst'&?&?&?&Hd); [done|done|unfold copied_upto; simpl; lia|].
    exists n, dst'. split; [done|]. split; [done|]. split; [done|].
    intros i. rewrite Hd. simpl. by apply decide_ext; lia.
Qed.

(** Memory after the bytes [lo, hi) of a buffer with addresses [A] were
    overwritten by [src], whose byte [0] belongs at position [off]. *)
Definition written (m m' : mem) (A src : list Z) (off lo hi : Z) : Prop :=
  (∀ x, x ∉ A → m' x = m x) ∧
  (∀ (j : nat) x, A !! j = Some x → m' x =
     if decide (lo <= j < hi) then default 0 (src !! Z.to_nat (j - off)) else m x).

Lemma store_bytes_at m a bs x :
  store_bytes m a bs x = if decide (a <= x < a + length bs) then default 0 (bs !! Z.to_nat (x - a)) else m x.
Proof.
  unfold store_bytes. destruct (Z.leb_spec a x), (Z.ltb_spec x (a + length bs)); simpl;
    case_decide; try lia; done.
Qed.

(** Storing into the part [lo, hi) of slice [s] that follows [pre]. *)
Lemma store_slice_written m pre s b bs src off lo hi :
  NoDup (pre ++ seqZ s.1 s.2 ++ uaddrs b) → Z.of_nat (length pre) <= lo <= hi →
  hi <= length pre + s.2 → off <= lo → Z.of_nat (length bs) = hi - lo →
  (∀ i, 0 <= i < hi - lo → bs !! Z.to_nat i = src !! Z.to_nat (lo - off + i)) →
  written m (store_bytes m (s.1 + (lo - length pre)) bs) (pre ++ seqZ s.1 s.2 ++ uaddrs b) src off lo hi.
Proof.
  intros Hnd Hlo Hhi Hoff Hlen Hbs. split.
  - intros x Hx. apply store_bytes_out. rewrite !elem_of_app, elem_of_seqZ in Hx.
    destruct (decide (s.1 <= x < s.1 + s.2)); [tauto|lia].
  - intros j x Hj. rewrite store_bytes_at. case_decide as Hd.
    + assert (Hx : (pre ++ seqZ s.1 s.2 ++ uaddrs b) !! Z.to_nat (length pre + (x - s.1)) = Some x).
      { rewrite lookup_app_r, lookup_app_l by (rewrite ?length_seqZ; lia). rewrite lookup_seqZ_lt by lia. f_equal. lia. }
      assert (j = Z.to_nat (length pre + (x - s.1))) as -> by (eapply NoDup_lookup; done).
      rewrite decide_True by lia. f_equal. rewrite Hbs by lia. f_equal. lia.
    + rewrite decide_False; [done|]. intros Hjr. apply Hd.
      rewrite lookup_app_r, lookup_app_l in Hj by (rewrite ?length_seqZ; lia).
      rewrite lookup_seqZ_lt in Hj by lia. injection Hj as <-. lia.
Qed.

Lemma written_trans m m1 m2 A src off lo mid hi :
  lo <= mid <= hi → written m m1 A src off lo mid → written m1 m2 A src off mid hi →
  written m m2 A src off lo hi.
Proof.
  intros Hmid [O1 I1] [O2 I2]. split.
  - intros x Hx. by rewrite O2, O1.
  - intros j x Hj. rewrite (I2 _ _ Hj), (I1 _ _ Hj). repeat case_decide; try done; lia.
Qed.

Lemma written_refl m A src off lo : written m m A src off lo lo.
Proof. split; [done|]. intros j x _. by rewrite decide_False by lia. Qed.

Lemma ub_write_loop_ok off src b : ∀ pre m w,
  Forall (λ s : uslice, 0 < s.2) b → 0 <= off → NoDup (pre ++ uaddrs b) →
  w = copied_upto (length pre) off (length src) →
  ∃ n m', ub_write_loop b off src w (length pre) m = Done (n, m') ∧
    n = copied_upto (length (pre ++ uaddrs b)) off (length src) ∧
    written m m' (pre ++ uaddrs b) src off (off + w) (off + n).
Proof.
  induction b as [|s b IH]; intros pre m w Hall Hoff Hnd Hw.
  { exists w, m. simpl. rewrite app_nil_r. split; [done|]. split; [done|]. apply written_refl. }
  apply Forall_cons in Hall as [Hs Hall]. rewrite uaddrs_cons in *.
  assert (Hlen : Z.of_nat (length (pre ++ seqZ s.1 s.2)) = length pre + s.2) by (rewrite length_app, length_seqZ; lia).
  cbn [ub_write_loop]. destruct (Z.leb_spec (Z.min (length pre + s.2) (off + length src)) (Z.max (length pre) off)) as [Hle|Hgt].
  - destruct (IH (pre ++ seqZ s.1 s.2) m w) as (n&m'&Hrun&?&?).
    { done. } { done. } { by rewrite <- app_assoc. } { rewrite Hw, Hlen. unfold copied_upto. lia. }
    exists n, m'. rewrite Hlen in Hrun. rewrite !app_assoc. done.
  - set (st := Z.max (length pre) off) in *. set (en := Z.min (length pre + s.2) (off + length src)) in *.
    destruct (slice_spec src (st - off) (st - off + (en - st))) as (bs&->&Hbl&Hbs); [lia|lia|].
    cbn [mbind outcome_bind]. rewrite !(proj2 (Z.leb_le _ _)) by lia. cbn [andb].
    assert (Hw' : w = st - off) by (rewrite Hw; unfold copied_upto; lia).
    assert (Hst : written m (store_bytes m (s.1 + (st - length pre)) bs) (pre ++ seqZ s.1 s.2 ++ uaddrs b) src off st en).
    { apply store_slice_written; try done; try lia. intros i Hi. rewrite Hbs by lia. done. }
    destruct (IH (pre ++ seqZ s.1 s.2) (store_bytes m (s.1 + (st - length pre)) bs) (w + (en - st))) as (n&m'&Hrun&Hn&Hwr).
    { done. } { done. } { by rewrite <- app_assoc. } { rewrite Hlen, Hw'. unfold copied_upto. lia. }
    exists n, m'. rewrite Hlen in Hrun. rewrite <- app_assoc in *. split; [done|]. split; [done|].
    assert (st <= en <= off + n) by (rewrite Hn; unfold copied_upto; rewrite !length_app, length_seqZ; lia).
    eapply (written_trans _ _ _ _ _ _ _ en); [lia| |].
    + by replace (off + w) with st by lia.
    + by replace en with (off + (w + (en - st))) by lia.
Qed.

Lemma ub_write_ok b off src m :
  Forall (λ s : uslice, 0 < s.2) b → 0 <= off → NoDup (uaddrs b) →
  ∃ n m', ub_write_buffer b (Some off) src m = Done (n, m') ∧
    n = copied_upto (length (uaddrs b)) off (length src) ∧
    written m m' (uaddrs b) src off off (off + n).
Proof.
  intros Hall Hoff Hnd. unfold ub_write_buffer. simpl default. rewrite ub_len_length by done.
  destruct (Z.leb_spec (length (uaddrs b)) off).
  - exists 0, m. split; [done|]. split; [unfold copied_upto; lia|]. rewrite Z.add_0_r. apply written_refl.
  - destruct (ub_write_loop_ok off src b [] m 0) as (n&m'&?&?&Hwr); [done|done|done|unfold copied_upto; simpl; lia|].
    exists n, m'. split; [done|]. split; [done|]. by rewrite Z.add_0_r in Hwr.
Qed.

(** ** The iterator yields the addresses of the buffer *)

(** What the iterator still has to yield. *)
Definition ubi_rest (it : UserBufferIterator) : list Z :=
  match drop (current_buffer it) (ubi_buffers it) with
  | [] => []
  | s :: b => seqZ (s.1 + current_idx it) (s.2 - current_idx it) ++ uaddrs b
  end.

Definition ubi_ok (it : UserBufferIterator) : Prop :=
  Forall (λ s : uslice, 0 < s.2) (ubi_buffers it) ∧ 0 <= current_idx it ∧
  ∀ s, ubi_buffers it !! current_buffer it = Some s → current_idx it < s.2.

Lemma ubi_rest_start b n : ubi_rest (mkUBI b n 0) = uaddrs (drop n b).
Proof.
  unfold ubi_rest. simpl. destruct (drop n b) as [|s l]; [done|]. rewrite uaddrs_cons, Z.add_0_r, Z.sub_0_r. done.
Qed.

Lemma ubi_next_ok it :
  ubi_ok it → ∃ it', ubi_ok it' ∧ ubi_next it = Done (head (ubi_rest it), it') ∧ ubi_rest it' = tail (ubi_rest it).
Proof.
  intros (Hall&Hi&Hlt). unfold ubi_next. destruct (ubi_buffers it !! current_buffer it) as [[a n]|] eqn:E.
  - specialize (Hlt _ eq_refl). simpl in Hlt. rewrite (proj2 (Z.ltb_lt _ _)) by lia.
    assert (ubi_rest it = (a + current_idx it) ::
      seqZ (Z.succ (a + current_idx it)) (Z.pred (n - current_idx it)) ++ uaddrs (drop (S (current_buffer it)) (ubi_buffers it))) as ->.
    { unfold ubi_rest. rewrite (drop_S (A:=uslice) (ubi_buffers it) (a, n) (current_buffer it) E). simpl. by rewrite (seqZ_cons _ (n - current_idx it)) by lia. }
    eexists. split; [|split; [done|]].
    + split; [by destruct (_ =? n)|]. destruct (Z.eqb_spec (current_idx it + 1) n); simpl.
      * split; [lia|]. intros s Hs. rewrite Forall_lookup in Hall. by eapply Hall.
      * split; [lia|]. intros s Hs. rewrite E in Hs. injection Hs as <-. simpl. lia.
    + destruct (Z.eqb_spec (current_idx it + 1) n) as [Hn|Hn].
      * rewrite ubi_rest_start. simpl tail. by rewrite seqZ_nil by lia.
      * unfold ubi_rest. simpl. rewrite (drop_S (A:=uslice) (ubi_buffers it) (a, n) (current_buffer it) E). simpl. do 2 f_equal; lia.
  - exists it. split; [split; [done|]; split; [done|]; by rewrite E|]. unfold ubi_rest. rewrite drop_ge by by apply lookup_ge_None. done.
Qed.
