(* ===== verification/MemorySet.v ===== *)
(** * Address spaces ([os/src/mm/memory_set.rs])

    [MapArea] and [MemorySet], generic in the page table as in the source.
    Dropping a [FrameTracker] gives its frame back, so the places where the
    source drops one ([BTreeMap::insert] over an old value, [BTreeMap::remove],
    [Vec::remove], [Vec::clear]) call [frame_dealloc]. *)

From S2P Require Import Prelude Address PhysMem IdAlloc FrameAlloc PageTable.

(** ** Data *)

Inductive MapType :=
| Identical
| Framed
| Linear (pn_offset : Z).
#[global] Instance MapType_eq_dec : EqDecision MapType.
Proof. solve_decision. Defined.

Record MapArea := mkArea {
  vpn_range : SimpleRange;
  data_frames : gmap Z Z;
  map_type : MapType;
  map_perm : Z;
}.

Record MemorySet (T : Type) := mkMS {
  page_table : T;
  areas : list MapArea;
  brk : Z;
  heap_start : Z;
}.
Arguments mkMS {T} _ _ _ _.
Arguments page_table {T} _.
Arguments areas {T} _.
Arguments brk {T} _.
Arguments heap_start {T} _.

Definition with_pt {T} (ms : MemorySet T) (t : T) (l : list MapArea) : MemorySet T :=
  mkMS t l (brk ms) (heap_start ms).
Definition with_frames (a : MapArea) (f : gmap Z Z) : MapArea :=
  mkArea (vpn_range a) f (map_type a) (map_perm a).
Definition with_range (a : MapArea) (r : SimpleRange) : MapArea :=
  mkArea r (data_frames a) (map_type a) (map_perm a).

Definition TRAMPOLINE : Z := 2 ^ 64 - 1 - PAGE_SIZE + 1.
Definition TRAP_CONTEXT_BASE : Z := TRAMPOLINE - PAGE_SIZE.

(** What [mmap] uses of a [dyn File]: [get_stat().st_size] and [read_at], which
    returns the buffer after the read, or [None] for an error. *)
Record MappedFile := mkFile {
  mf_size : Z;
  mf_read_at : Z → list Z → option (list Z);
}.

(** The interface of [xmas_elf] the loader uses. *)
Record ProgramHeader := mkPH {
  ph_is_load : option bool;  (** [get_type()], [None] for an error *)
  ph_virtual_addr : Z;
  ph_mem_size : Z;
  ph_read : bool;
  ph_write : bool;
  ph_execute : bool;
  ph_offset : Z;
  ph_file_size : Z;
}.
Record ElfFile := mkElf {
  elf_magic : list Z;
  elf_ph_count : Z;
  elf_program_header : Z → option ProgramHeader;
  elf_entry_point : Z;
}.

(** ** [MapArea] without a page table *)

Definition area_new (start_va end_va : Z) (ty : MapType) (perm : Z) : outcome MapArea :=
  let start_vpn := va_floor start_va in
  let end_vpn := va_ceil end_va in
  r ← range_new start_vpn end_vpn;
  mret (mkArea r ∅ ty perm).

Definition area_from_another (a : MapArea) : outcome MapArea :=
  r ← range_new (get_start (vpn_range a)) (get_end (vpn_range a));
  mret (mkArea r ∅ (map_type a) (map_perm a)).

Definition check_overlapping (a : MapArea) (start_vpn end_vpn : Z) : option (Z * Z) :=
  let area_start_vpn := get_start (vpn_range a) in
  let area_end_vpn := get_end (vpn_range a) in
  if (end_vpn <? area_start_vpn) || (area_end_vpn <? start_vpn) then None
  else
    let overlap_start := if area_start_vpn <? start_vpn then start_vpn else area_start_vpn in
    let overlap_end := if end_vpn <? area_end_vpn then end_vpn else area_end_vpn in
    Some (overlap_start, overlap_end).

(** The result is [self] and the two new areas. *)
Definition into_three (a : MapArea) (start_vpn end_vpn : Z)
  : outcome (MapArea * option (MapArea * MapArea)) :=
  let area_start := get_start (vpn_range a) in
  let area_end := get_end (vpn_range a) in
  let start_va := va_from_vpn start_vpn in
  let end_va := va_from_vpn end_vpn in
  let area_end_va := va_from_vpn area_end in
  if negb ((area_start <? start_vpn) && (start_vpn <? end_vpn) && (end_vpn <? area_end))
  then mret (a, None)
  else
    middle ← area_new start_va end_va (map_type a) (map_perm a);
    right ← area_new end_va area_end_va (map_type a) (map_perm a);
    r ← range_new area_start start_vpn;
    mret (with_range a r, Some (with_frames middle (data_frames a), with_frames right (data_frames a))).

Definition key_le (x y : Z * Z) : Prop := x.1 <= y.1.
#[global] Instance key_le_dec x y : Decision (key_le x y).
Proof. unfold key_le. apply _. Defined.

(** The trackers of an area in key order, the order in which they are dropped. *)
Definition frames_in_order (a : MapArea) : list Z :=
  (merge_sort key_le (map_to_list (data_frames a))).*2.

Definition drop_area (a : MapArea) : K KMem unit := kfor (frames_in_order a) frame_dealloc.

(** ** [MapArea] on a page table *)

Section ops.
Context {T : Type} `{!PageTable T}.

Definition map_one (a : MapArea) (t : T) (vpn : Z) : K KMem (MapArea * T) :=
  '(a', ppn) ← match map_type a with
    | Identical => mret (a, vpn)
    | Framed =>
        o ← frame_alloc;
        frame ← kunwrap o;
        match data_frames a !! vpn with Some old => frame_dealloc old | None => mret () end ;;
        mret (with_frames a (<[vpn := frame]> (data_frames a)), frame)
    | Linear pn_offset =>
        kassert (vpn <? Z.shiftl 1 27) ;;
        mret (a, wrap64 (as_isize vpn + pn_offset))
    end;
  pte_flags ← kunwrap (perm_from_bits (map_perm a'));
  t' ← pt_map t vpn ppn pte_flags;
  mret (a', t').

Definition unmap_one (a : MapArea) (t : T) (vpn : Z) : K KMem MapArea :=
  a' ← (if decide (map_type a = Framed) then
          match data_frames a !! vpn with Some old => frame_dealloc old | None => mret () end ;;
          mret (with_frames a (delete vpn (data_frames a)))
        else mret a);
  pt_unmap t vpn ;;
  mret a'.

Definition area_map (a : MapArea) (t : T) : K KMem (MapArea * T) :=
  kfold (range_elems (vpn_range a)) (λ '(a, t) vpn, map_one a t vpn) (a, t).

Definition area_unmap (a : MapArea) (t : T) : K KMem MapArea :=
  kfold (range_elems (vpn_range a)) (λ a vpn, unmap_one a t vpn) a.

(** [page_table.translate(vpn).unwrap().ppn()] *)
Definition translate_ppn (t : T) (vpn : Z) : K KMem Z :=
  s ← kget; e ← kunwrap (pt_translate (km_mem s) t vpn); mret (pte_ppn e).

(** [ppn.get_bytes_array()[..src.len()].copy_from_slice(src)] *)
Definition write_page (ppn : Z) (src : list Z) : K KMem unit :=
  kassert (length src <=? PAGE_SIZE) ;;
  kmodify (with_mem (λ m, store_bytes m (bytes_array_addr ppn) src)).

(** The loop of [copy_data]; every iteration advances [start] by a page. *)
Fixpoint copy_data_loop (fuel : nat) (t : T) (data : list Z) (start current_vpn : Z)
  : K KMem unit :=
  match fuel with
  | O => kpanic
  | S fuel' =>
      let len : Z := length data in
      src ← klift (slice data start (Z.min len (start + PAGE_SIZE)));
      ppn ← translate_ppn t current_vpn;
      write_page ppn src ;;
      let start' := start + PAGE_SIZE in
      if len <=? start' then mret ()
      else copy_data_loop fuel' t data start' (step_by_one current_vpn)
  end.

Definition copy_data (a : MapArea) (t : T) (data : list Z) : K KMem unit :=
  kassert (bool_decide (map_type a = Framed)) ;;
  copy_data_loop (S (length data)) t data 0 (get_start (vpn_range a)).

Definition shrink_to (a : MapArea) (t : T) (new_end : Z) : K KMem (MapArea * bool) :=
  let new_end_vpn := va_floor new_end in
  let old_end_vpn := get_end (vpn_range a) in
  let start_vpn := get_start (vpn_range a) in
  if negb ((start_vpn <? new_end_vpn) && (new_end_vpn <? old_end_vpn)) then mret (a, false)
  else
    kfor (seqZ new_end_vpn (old_end_vpn - new_end_vpn)) (pt_unmap t) ;;
    r ← klift (range_new start_vpn new_end_vpn);
    mret (with_range a r, true).

Definition rshrink_to (a : MapArea) (t : T) (new_start : Z) : K KMem (MapArea * bool) :=
  let new_start_vpn := va_floor new_start in
  let old_start_vpn := get_start (vpn_range a) in
  let old_end_vpn := get_end (vpn_range a) in
  if negb ((old_start_vpn <? new_start_vpn) && (new_start_vpn <? old_end_vpn)) then mret (a, false)
  else
    kfor (seqZ old_start_vpn (new_start_vpn - old_start_vpn)) (pt_unmap t) ;;
    r ← klift (range_new new_start_vpn old_end_vpn);
    mret (with_range a r, true).

(** ** [MemorySet] *)

Definition new_bare : K KMem (MemorySet T) :=
  t ← pt_new_kernel; mret (mkMS t [] 0 0).

Definition token (ms : MemorySet T) : Z := pt_token (page_table ms).

Definition translate (m : mem) (ms : MemorySet T) (vpn : Z) : option Z :=
  pt_translate m (page_table ms) vpn.

Definition push (ms : MemorySet T) (map_area : MapArea) (data : option (list Z))
  : K KMem (MemorySet T) :=
  '(a, t) ← area_map map_area (page_table ms);
  match data with Some d => copy_data a t d | None => mret () end ;;
  mret (with_pt ms t (vec_push (areas ms) a)).

Definition insert_framed_area (ms : MemorySet T) (start_va end_va permission : Z)
  : K KMem (MemorySet T) :=
  a ← klift (area_new start_va end_va Framed permission);
  push ms a None.

(** [area.unmap(..); self.areas.remove(idx)] *)
Definition unmap_area_at (ms : MemorySet T) (idx : nat) (area : MapArea) : K KMem (MemorySet T) :=
  a ← area_unmap area (page_table ms);
  drop_area a ;;
  mret (with_pt ms (page_table ms) (delete idx (areas ms))).

Definition remove_area_with_start_vpn (ms : MemorySet T) (start_vpn : Z) : K KMem (MemorySet T) :=
  match list_find (λ a, get_start (vpn_range a) = start_vpn) (areas ms) with
  | Some (idx, area) => unmap_area_at ms idx area
  | None => mret ms
  end.

(** [strampoline] is the linker symbol. *)
Definition map_trampoline (strampoline : Z) (ms : MemorySet T) : K KMem (MemorySet T) :=
  vpn ← klift (vpn_from_va (va_from_usize TRAMPOLINE));
  ppn ← klift (ppn_from_pa (pa_from_usize strampoline));
  t ← pt_map (page_table ms) vpn ppn (Z.lor PERM_R PERM_X);
  mret (with_pt ms t (areas ms)).

Definition expand_heap (ms : MemorySet T) (new_brk : Z) : K KMem (MemorySet T * result unit) :=
  let old_brk := brk ms in
  let old_page := align_up old_brk PAGE_SIZE in
  let new_page := align_up new_brk PAGE_SIZE in
  ms' ← (if old_page <? new_page then
           insert_framed_area ms (va_from_usize old_page) (va_from_usize new_page)
             (Z.lor (Z.lor PERM_R PERM_W) PERM_U)
         else mret ms);
  mret (ms', Ok ()).

Definition munmap (ms : MemorySet T) (start len : Z) : K KMem (MemorySet T * result unit) :=
  if len =? 0 then mret (ms, Err (-1))
  else
    let start_va := va_from_usize start in
    if negb (va_aligned start_va) then mret (ms, Err (-1))
    else
      match checked_add start len with
      | None => mret (ms, Err (-1))
      | Some stop =>
          let end_va := va_from_usize stop in
          let start_vpn := va_floor start_va in
          let end_vpn := va_ceil end_va in
          if end_vpn <=? start_vpn then mret (ms, Err (-1))
          else
            match list_find (λ a, get_start (vpn_range a) = start_vpn ∧
                                  get_end (vpn_range a) = end_vpn) (areas ms) with
            | None => mret (ms, Err (-1))
            | Some (idx, area) => ms' ← unmap_area_at ms idx area; mret (ms', Ok ())
            end
      end.

(** One iteration of the loop of [find_free_area]. *)
Definition find_free_step (l : list MapArea) (len addr : Z) : Z + Z :=
  let start_vpn := va_floor (va_from_usize addr) in
  let end_vpn := va_ceil (va_from_usize (addr +w len)) in
  let conflict := existsb (λ a, bool_decide (is_Some (check_overlapping a start_vpn end_vpn))) l in
  if negb conflict then inr addr
  else
    inl match list_find (λ a, va_to_usize (va_from_vpn (get_start (vpn_range a))) <= addr ∧
                              addr < va_to_usize (va_from_vpn (get_end (vpn_range a)))) l with
        | Some (_, a) => va_to_usize (va_from_vpn (get_end (vpn_range a)))
        | None => addr +w PAGE_SIZE
        end.

(** [None] when the loop has not finished after [2 ^ 53] iterations. *)
Definition find_free_area (ms : MemorySet T) (len : Z) : option (Z * MemorySet T) :=
  let len := Z.land (len +w PAGE_SIZE -w 1) (wnot (PAGE_SIZE - 1)) in
  match iterate (2 ^ 53) (find_free_step (areas ms) len) (brk ms) with
  | inr addr => Some (addr, mkMS (page_table ms) (areas ms) (addr +w len) (heap_start ms))
  | inl _ => None
  end.

(** [while offset < copy_len] in [mmap]. *)
Fixpoint mmap_copy_loop (fuel : nat) (t : T) (buf : list Z) (copy_len offset vpn : Z)
  : K KMem unit :=
  match fuel with
  | O => kpanic
  | S fuel' =>
      if offset <? copy_len then
        ppn ← translate_ppn t vpn;
        let stop := Z.min (offset +w PAGE_SIZE) copy_len in
        src ← klift (slice buf offset stop);
        write_page ppn src ;;
        mmap_copy_loop fuel' t buf copy_len (offset +w PAGE_SIZE) (step_by_one vpn)
      else mret ()
  end.

(** [mmap] from the point where the start address is known. *)
Definition mmap_at (ms : MemorySet T) (start_va len prot : Z) (file_arc : option MappedFile) (off : Z)
  : K KMem (MemorySet T * result Z) :=
  match checked_add (va_to_usize start_va) len with
  | None => mret (ms, Err (-1))
  | Some stop =>
      let end_va := va_from_usize stop in
      let start_vpn := va_floor start_va in
      let end_vpn := va_ceil end_va in
      if existsb (λ a, bool_decide (is_Some (check_overlapping a start_vpn end_vpn))) (areas ms)
      then mret (ms, Err (-1))
      else
        let perm := default (Z.lor (Z.lor PERM_R PERM_W) PERM_U) (perm_from_bits (prot mod 256)) in
        klift (area_new start_va end_va Framed perm) ;;
        ms' ← insert_framed_area ms start_va end_va perm;
        match file_arc with
        | None => mret ()
        | Some file =>
            let file_len := mf_size file in
            let copy_len := Z.min len file_len in
            buf ← kunwrap (mf_read_at file 0 (replicate (Z.to_nat copy_len) 0));
            mmap_copy_loop (S (length buf)) (page_table ms') buf copy_len off start_vpn
        end ;;
        mret (ms', Ok (va_to_usize start_va))
  end.

Definition mmap (ms : MemorySet T) (start len prot flags : Z) (file_arc : option MappedFile) (off : Z)
  : K KMem (MemorySet T * result Z) :=
  if len =? 0 then mret (ms, Err (-1))
  else if start =? 0 then
    '(va, ms') ← kunwrap (find_free_area ms len);
    mmap_at ms' (va_from_usize va) len prot file_arc off
  else
    let va := va_from_usize start in
    if negb (va_aligned va) then mret (ms, Err (-1))
    else mmap_at ms va len prot file_arc off.

(** The kernel's own address space; the symbols are the linker's. *)
Record KernelSymbols := mkSyms {
  stext : Z; etext : Z; srodata : Z; erodata : Z; sdata : Z; edata : Z;
  sbss_with_stack : Z; ebss : Z; ekernel : Z; strampoline : Z;
}.

Definition push_identical (ms : MemorySet T) (start stop perm : Z) : K KMem (MemorySet T) :=
  a ← klift (area_new (va_from_usize start) (va_from_usize stop) Identical perm);
  push ms a None.

Definition new_kernel (k : KernelSymbols) (MMIO : list (Z * Z)) : K KMem (MemorySet T) :=
  ms ← new_bare;
  ms ← map_trampoline (strampoline k) ms;
  ms ← push_identical ms (stext k) (etext k) (Z.lor PERM_R PERM_X);
  ms ← push_identical ms (srodata k) (erodata k) PERM_R;
  ms ← push_identical ms (sdata k) (edata k) (Z.lor PERM_R PERM_W);
  ms ← push_identical ms (sbss_with_stack k) (ebss k) (Z.lor PERM_R PERM_W);
  ms ← push_identical ms (ekernel k) MEMORY_END (Z.lor PERM_R PERM_W);
  kfold MMIO (λ ms pair, push_identical ms pair.1 (pair.1 +w pair.2) (Z.lor PERM_R PERM_W)) ms.

(** The permission of a program header. *)
Definition ph_perm (ph : ProgramHeader) : Z :=
  let p := PERM_U in
  let p := if ph_read ph then Z.lor p PERM_R else p in
  let p := if ph_write ph then Z.lor p PERM_W else p in
  if ph_execute ph then Z.lor p PERM_X else p.

(** The body of the loop over the program headers, with [max_end_vpn]. *)
Definition load_segment (input : list Z) (ms : MemorySet T) (max_end_vpn : Z) (ph : ProgramHeader)
  : K KMem (MemorySet T * Z) :=
  is_load ← kunwrap (ph_is_load ph);
  if is_load : bool then
    let start_va := va_from_usize (ph_virtual_addr ph) in
    let end_va := va_from_usize (ph_virtual_addr ph +w ph_mem_size ph) in
    map_area ← klift (area_new start_va end_va Framed (ph_perm ph));
    let max_end_vpn := Z.max max_end_vpn (get_end (vpn_range map_area)) in
    data ← klift (slice input (ph_offset ph) (ph_offset ph +w ph_file_size ph));
    ms ← push ms map_area (Some data);
    mret (ms, max_end_vpn)
  else mret (ms, max_end_vpn).

(** [elf_new] is [xmas_elf::ElfFile::new]; the result has the entry point. *)
Definition from_elf (elf_new : list Z → option ElfFile) (strampoline : Z) (elf_data : list Z)
  : K KMem (MemorySet T * Z) :=
  ms ← new_bare;
  ms ← map_trampoline strampoline ms;
  elf ← kunwrap (elf_new elf_data);
  kassert (bool_decide (elf_magic elf = [0x7f; 0x45; 0x4c; 0x46])) ;;
  '(ms, max_end_vpn) ← kfold (seqZ 0 (elf_ph_count elf)) (λ '(ms, max_end_vpn) i,
      ph ← kunwrap (elf_program_header elf i);
      load_segment elf_data ms max_end_vpn ph) (ms, 0);
  let max_end_va := va_from_vpn max_end_vpn in
  let heap := align_up (va_to_usize max_end_va) PAGE_SIZE in
  mret (mkMS (page_table ms) (areas ms) heap heap, elf_entry_point elf).

(** [dst_ppn.get_bytes_array().copy_from_slice(src_ppn.get_bytes_array())] *)
Definition copy_page (t_src t_dst : T) (vpn : Z) : K KMem unit :=
  src_ppn ← translate_ppn t_src vpn;
  dst_ppn ← translate_ppn t_dst vpn;
  kmodify (with_mem (λ m, copy_bytes m (bytes_array_addr dst_ppn) (bytes_array_addr src_ppn) PAGE_SIZE)).

Definition copy_area (user_space ms : MemorySet T) (area : MapArea) : K KMem (MemorySet T) :=
  new_area ← klift (area_from_another area);
  ms ← push ms new_area None;
  kfor (range_elems (vpn_range area)) (copy_page (page_table user_space) (page_table ms)) ;;
  mret ms.

Definition from_existed_user (strampoline : Z) (user_space : MemorySet T) : K KMem (MemorySet T) :=
  ms ← new_bare;
  ms ← map_trampoline strampoline ms;
  kfold (areas user_space) (copy_area user_space) ms.

Definition recycle_data_pages (ms : MemorySet T) : K KMem (MemorySet T) :=
  kfor (areas ms) drop_area ;;
  mret (with_pt ms (page_table ms) []).
End ops.
