(* ===== verification/MapAreaSpec.v ===== *)
(** * Mapping and unmapping areas: correctness

    Proved against the [PageTable] interface.  [pt_grow] says what an operation
    that adds mappings may change: it takes new frames from the allocator,
    writes only page-table frames and new frames, and keeps every frame it had. *)

From S2P Require Import Prelude Address PhysMem IdAlloc FrameAlloc PageTable MemorySet.

(** ** Views of an area *)

Definition area_pages (a : MapArea) : list Z := range_elems (vpn_range a).

Definition area_frames (a : MapArea) : list Z := (map_to_list (data_frames a)).*2.

(** The frame page [v] of area [a] is mapped to. *)
Definition area_target (a : MapArea) (v : Z) : option Z :=
  match map_type a with
  | Identical => Some v
  | Framed => data_frames a !! v
  | Linear off => Some (wrap64 (as_isize v + off))
  end.

Definition owns (s : KMem) (l : list Z) : Prop := ∀ p, p ∈ l → fa_owned (km_fa s) p.

Section grow.
Context {T : Type} `{!PageTable T}.

Record pt_grow (s : KMem) (t : T) (D : list Z) (new : list Z) (s' : KMem) (t' : T) (D' : list Z) : Prop := {
  pg_grows : grows s new s';
  pg_frames : pt_frames t' ++ D' ≡ₚ (pt_frames t ++ D) ++ new;
  pg_sub : pt_frames t ⊆ pt_frames t';
  pg_subD : D ⊆ D';
  pg_tables : ∀ p, p ∈ pt_frames t' → p ∈ pt_frames t ∨ p ∈ new;
  pg_token : pt_token t' = pt_token t;
  pg_ok : pt_ok (km_mem s') t';
  pg_same : same_outside (λ p, p ∈ pt_frames t ∨ p ∈ new) (km_mem s) (km_mem s');
}.

Lemma pt_grow_refl s t D : fa_wf (km_fa s) → pt_ok (km_mem s) t → pt_grow s t D [] s t D.
Proof.
  intros. split; try done; eauto using grows_refl, same_outside_refl. by rewrite app_nil_r.
Qed.

Lemma pt_grow_trans s t D n1 s1 t1 D1 n2 s2 t2 D2 :
  pt_grow s t D n1 s1 t1 D1 → pt_grow s1 t1 D1 n2 s2 t2 D2 →
  pt_grow s t D (n1 ++ n2) s2 t2 D2.
Proof.
  intros [G1 F1 S1 SD1 B1 K1 O1 M1] [G2 F2 S2 SD2 B2 K2 O2 M2]. split.
  - by eapply grows_trans.
  - by rewrite F2, F1, app_assoc.
  - set_solver.
  - set_solver.
  - set_solver.
  - congruence.
  - done.
  - eapply same_outside_trans; [done..| |]; set_solver.
Qed.

Lemma pt_grow_owns s t D new s' t' D' :
  pt_grow s t D new s' t' D' → owns s (pt_frames t ++ D) → owns s' (pt_frames t' ++ D').
Proof.
  intros [G F _ _ _ _ _ _] Ho p Hp. apply (gr_owned _ _ _ G). rewrite F in Hp.
  apply elem_of_app in Hp as [Hp|Hp]; auto.
Qed.

Lemma pt_grow_nodup s t D new s' t' D' :
  pt_grow s t D new s' t' D' → owns s (pt_frames t ++ D) → NoDup (pt_frames t ++ D) →
  NoDup (pt_frames t' ++ D').
Proof.
  intros [G F _ _ _ _ _ _] Ho Hnd. rewrite F. apply NoDup_app. split_and!; [done| |apply G].
  intros p Hp Hn. apply (gr_fresh _ _ _ G p Hn). by apply Ho.
Qed.

(** Frames that were in use and are not page tables keep their contents. *)
Lemma pt_grow_keep s t D new s' t' D' p x :
  pt_grow s t D new s' t' D' → p ∉ pt_frames t →
  fa_owned (km_fa s) p → x / 4096 = p → km_mem s' x = km_mem s x.
Proof.
  intros [G F _ _ _ _ _ M] Hp Hown Hx. apply M. rewrite Hx.
  intros [?|Hn]; [done|]. by apply (gr_fresh _ _ _ G p Hn).
Qed.

Lemma pt_grow_not_table s t D new s' t' D' p :
  pt_grow s t D new s' t' D' → p ∉ pt_frames t → fa_owned (km_fa s) p → p ∉ pt_frames t'.
Proof.
  intros [G _ _ _ B _ _ _] Hp Hown [?|Hn]%B; [done|]. by apply (gr_fresh _ _ _ G p Hn).
Qed.

(** ** [map_one] *)

(** Mapping a page needs a target that is a physical page. *)
Definition target_ok (a : MapArea) (v : Z) : Prop :=
  match map_type a with
  | Identical => True
  | Framed => data_frames a !! v = None
  | Linear off => is_ppn (wrap64 (as_isize v + off))
  end.

Definition same_attrs (a a' : MapArea) : Prop :=
  vpn_range a' = vpn_range a ∧ map_type a' = map_type a ∧ map_perm a' = map_perm a.

(** The frames of [a] within a larger collection [D] of data frames. *)
Record map_post (s : KMem) (t : T) (a : MapArea) (vs : list Z) (new : list Z)
    (s' : KMem) (t' : T) (a' : MapArea) : Prop := {
  mp_attrs : same_attrs a a';
  mp_grow : pt_grow s t (area_frames a) new s' t' (area_frames a');
  mp_len : (length new <= 3 * length vs)%nat;
  mp_frames : ∀ v, v ∉ vs → data_frames a' !! v = data_frames a !! v;
  mp_dom : map_type a = Framed ∨ data_frames a' = data_frames a;
  mp_target : ∀ v, v ∈ vs → ∃ ppn, area_target a' v = Some ppn ∧ is_ppn ppn ∧
    pt_lookup (km_mem s') t' v = Some (pte_make ppn (map_perm a)) ∧
    (map_type a = Framed → ppn ∈ new ∧ ppn ∉ pt_frames t' ∧ ∀ x, x / 4096 = ppn → km_mem s' x = 0);
  mp_other : ∀ v, is_vpn v → v ∉ vs → pt_lookup (km_mem s') t' v = pt_lookup (km_mem s) t v;
}.

Lemma area_frames_insert a v p :
  data_frames a !! v = None →
  area_frames (with_frames a (<[v := p]> (data_frames a))) ≡ₚ p :: area_frames a.
Proof. intros Hv. unfold area_frames. simpl. by rewrite map_to_list_insert. Qed.

(** [pt_map], with the area's frames held fixed. *)
Lemma pt_map_grow s t D v ppn perm :
  pt_ok (km_mem s) t → fa_wf (km_fa s) → owns s (pt_frames t) →
  is_vpn v → is_ppn ppn → is_perm perm →
  cwp (pt_lookup (km_mem s) t v = None ∧ 2 <= fa_free (km_fa s)) (pt_map t v ppn perm) s (λ t' s',
    pt_lookup (km_mem s) t v = None ∧ ∃ new,
    pt_grow s t D new s' t' D ∧ (length new <= 2)%nat ∧
    (∀ v', is_vpn v' → pt_lookup (km_mem s') t' v' =
       if decide (v' = v) then Some (pte_make ppn perm) else pt_lookup (km_mem s) t v')).
Proof.
  intros Hok Hfa Ho Hv Hp Hperm. eapply cwp_mono; [by apply pt_map_spec|done|].
  intros t' s' (Hn&new&G&Hl&Hf&Ht&Hok'&Hsame&Hlook). split; [done|]. exists new. split; [|done]. split; try done.
  - rewrite Hf. solve_Permutation.
  - rewrite Hf. set_solver.
  - rewrite Hf. set_solver.
  - eapply same_outside_mono; [done|]. rewrite Hf. set_solver.
Qed.

Lemma pt_grow_owns_pt s t D new s' t' D' :
  pt_grow s t D new s' t' D' → owns s (pt_frames t) → owns s' (pt_frames t').
Proof.
  intros [G _ _ _ B _ _ _] Ho p Hp. apply (gr_owned _ _ _ G).
  destruct (B p Hp); auto.
Qed.

(** Allocating a data frame leaves the tables alone. *)
Lemma alloc_grow s t D p s' :
  alloc_post s p s' → pt_ok (km_mem s) t → owns s (pt_frames t) →
  pt_grow s t D [p] s' t (p :: D) ∧
  (∀ v, is_vpn v → pt_lookup (km_mem s') t v = pt_lookup (km_mem s) t v).
Proof.
  intros Hpost Hok Ho. pose proof (grows_alloc _ _ _ Hpost) as G.
  destruct Hpost as (_&Hno&_&_&_&Hout&_).
  destruct (pt_frame (km_mem s) (km_mem s') t) as [Hok' Hl]; [done| |].
  { intros x Hx. apply Hout. intros ->. by apply Hno, Ho. }
  split; [|done]. split; try done; try set_solver.
  - solve_Permutation.
  - eapply same_outside_mono; [done|]. set_solver.
Qed.

Lemma pt_grow_perm s t D new s' t' D1 D2 :
  D1 ≡ₚ D2 → pt_grow s t D new s' t' D1 → pt_grow s t D new s' t' D2.
Proof.
  intros HD [????????]. split; try done; [by rewrite <- HD|].
  intros x Hx. rewrite <- HD. auto.
Qed.

(** What [map_one] needs in order not to panic. *)
Definition map_one_can (s : KMem) (t : T) (v : Z) : Prop := pt_lookup (km_mem s) t v = None ∧ 3 <= fa_free (km_fa s).

Lemma map_one_framed s t a v :
  pt_ok (km_mem s) t → fa_wf (km_fa s) → owns s (pt_frames t) → is_perm (map_perm a) →
  is_vpn v → data_frames a !! v = None → map_type a = Framed →
  cwp (map_one_can s t v) (map_one a t v) s (λ '(a', t') s',
    pt_lookup (km_mem s) t v = None ∧ ∃ new, map_post s t a [v] new s' t' a').
Proof.
  intros Hok Hfa Ho Hperm Hv Hnone Hty. unfold map_one_can, map_one. rewrite Hty. cwp_steps.
  apply wp_cwp. eapply wp_mono; [by apply frame_alloc_total|]. intros o s1 Hpost.
  apply cwp_bind, cwp_unwrap; [intros [_ Hfree]; destruct o; [done|lia]|]. intros p ->.
  rewrite Hnone. cwp_steps. simpl. rewrite Hperm. cwp_steps.
  destruct (alloc_grow s t (area_frames a) p s1 Hpost Hok Ho) as [G1 Hl1].
  pose proof (pt_grow_owns_pt _ _ _ _ _ _ _ G1 Ho) as Ho1.
  destruct Hpost as (Hfa1&Hno&Hp&Hown&Hfree1&_&Hzero).
  eapply cwp_mono; [apply (pt_map_grow s1 t (p :: area_frames a)); try done; apply G1| |].
  { intros [Hn Hfree]. rewrite Hl1 by done. split; [done|lia]. }
  intros t' s2 (Hn&n2&G2&Hlen&Hlook). rewrite Hl1 in Hn by done.
  cwp_steps. split; [done|]. exists ([p] ++ n2). split; simpl; try done.
  - eapply pt_grow_perm; [symmetry; by apply area_frames_insert|].
    exact (pt_grow_trans _ _ _ [p] _ _ _ n2 _ _ _ G1 G2).
  - lia.
  - intros v' Hv'. simpl. rewrite lookup_insert_ne; [done|set_solver].
  - auto.
  - intros v' ->%list_elem_of_singleton. exists p. unfold area_target; simpl.
    rewrite Hty, lookup_insert_eq. rewrite Hlook, decide_True by done. split_and!; try done.
    intros _. assert (Hpt : p ∉ pt_frames t) by (intros Hin; by apply Hno, Ho).
    assert (Hps : fa_owned (km_fa s1) p) by (apply Hown; auto).
    split_and!; [set_solver|by eapply pt_grow_not_table|].
    intros x Hx. rewrite <- (Hzero x Hx). by eapply pt_grow_keep.
  - intros v' Hv' Hne. rewrite Hlook, decide_False, Hl1 by set_solver. done.
Qed.

Lemma pt_map_direct s t a v ppn :
  pt_ok (km_mem s) t → fa_wf (km_fa s) → owns s (pt_frames t) → is_perm (map_perm a) →
  is_vpn v → map_type a ≠ Framed → area_target a v = Some ppn → is_ppn ppn →
  cwp (map_one_can s t v) (pt_map t v ppn (map_perm a)) s (λ t' s',
    pt_lookup (km_mem s) t v = None ∧ ∃ new, map_post s t a [v] new s' t' a).
Proof.
  intros Hok Hfa Ho Hperm Hv Hty Htgt Hp.
  eapply cwp_mono; [by apply (pt_map_grow s t (area_frames a))|unfold map_one_can; intros []; split; [done|lia]|].
  intros t' s' (Hn&new&G&Hlen&Hlook). split; [done|]. exists new. split; try done; try (simpl; lia); auto.
  - intros v' ->%list_elem_of_singleton. exists ppn. rewrite Hlook, decide_True by done.
    by split_and!.
  - intros v' Hv' Hne. rewrite Hlook, decide_False by set_solver. done.
Qed.

Lemma map_one_cwp s t a v :
  pt_ok (km_mem s) t → fa_wf (km_fa s) → owns s (pt_frames t) → is_perm (map_perm a) →
  is_vpn v → target_ok a v →
  cwp (map_one_can s t v) (map_one a t v) s (λ '(a', t') s',
    pt_lookup (km_mem s) t v = None ∧ ∃ new, map_post s t a [v] new s' t' a').
Proof.
  intros Hok Hfa Ho Hperm Hv Htgt. unfold target_ok in Htgt. destruct (map_type a) as [| |off] eqn:Hty.
  2:{ by apply map_one_framed. }
  all: unfold map_one; rewrite Hty; cwp_steps.
  2:{ apply cwp_assert; [by rewrite (proj2 (Z.ltb_lt _ _)) by apply Hv|]. intros _. cwp_steps. rewrite Hperm. cwp_steps.
      eapply cwp_mono; [apply pt_map_direct; try done; [congruence|]|done|intros t' s' H; cwp_steps; exact H]. unfold area_target. by rewrite Hty. }
  rewrite Hperm. cwp_steps. eapply cwp_mono; [apply pt_map_direct; try done|done|intros t' s' H; cwp_steps; exact H].
  - congruence.
  - unfold area_target. by rewrite Hty.
  - unfold is_vpn, is_ppn in *. lia.
Qed.

Lemma map_one_spec s t a v :
  pt_ok (km_mem s) t → fa_wf (km_fa s) → owns s (pt_frames t) → is_perm (map_perm a) →
  is_vpn v → target_ok a v → pt_lookup (km_mem s) t v = None → 3 <= fa_free (km_fa s) →
  wp (map_one a t v) s (λ '(a', t') s', ∃ new, map_post s t a [v] new s' t' a').
Proof.
  intros Hok Hfa Ho Hperm Hv Htgt Hl Hfree. eapply wp_mono; [by eapply cwp_wp; [apply map_one_cwp|]|]. by intros [a' t'] s' [_ ?].
Qed.

(** ** [area_map] *)

Lemma map_post_nil s t a :
  fa_wf (km_fa s) → pt_ok (km_mem s) t → map_post s t a [] [] s t a.
Proof. intros. split; try done; [by apply pt_grow_refl|auto|set_solver]. Qed.

Lemma same_attrs_trans a b c : same_attrs a b → same_attrs b c → same_attrs a c.
Proof. unfold same_attrs. intuition congruence. Qed.

Lemma area_target_ext a a' v :
  map_type a' = map_type a → data_frames a' !! v = data_frames a !! v →
  area_target a' v = area_target a v.
Proof. unfold area_target. by intros -> ->. Qed.

Lemma map_post_cons s t a v n1 s1 t1 a1 vs n2 s2 t2 a2 :
  map_post s t a [v] n1 s1 t1 a1 → map_post s1 t1 a1 vs n2 s2 t2 a2 →
  owns s (pt_frames t) → is_vpn v → v ∉ vs →
  map_post s t a (v :: vs) (n1 ++ n2) s2 t2 a2.
Proof.
  intros [A1 G1 L1 F1 D1 T1 O1] [A2 G2 L2 F2 D2 T2 O2] Ho Hv Hvs.
  destruct A1 as (R1&Y1&P1). split.
  - by eapply same_attrs_trans; [|done].
  - by eapply pt_grow_trans.
  - rewrite length_app. simpl in *. lia.
  - intros v' Hv'. rewrite F2, F1 by set_solver. done.
  - rewrite Y1 in D2. destruct D1 as [?|D1]; [auto|]. destruct D2 as [?|D2]; [auto|]. right. congruence.
  - intros v' [->|Hin]%elem_of_cons.
    + destruct (T1 v) as (ppn&Ht&Hp&Hl&Hz); [set_solver|]. exists ppn. split_and!.
      * rewrite <- Ht. apply area_target_ext; [apply A2|]. by apply F2.
      * done.
      * by rewrite O2.
      * intros Hf. destruct (Hz Hf) as (Hin&Hnt&Hz').
        assert (fa_owned (km_fa s1) ppn) by (apply G1; auto).
        split_and!; [set_solver|by eapply pt_grow_not_table|].
        intros x Hx. rewrite <- (Hz' x Hx). by eapply pt_grow_keep.
    + destruct (T2 v' Hin) as (ppn&Ht&Hp&Hl&Hz). rewrite Y1, P1 in *. exists ppn.
      split_and!; try done. intros Hf. destruct (Hz Hf) as (?&?&?). split_and!; [set_solver|done..].
  - intros v' Hv' Hn. rewrite O2, O1 by set_solver. done.
Qed.

Lemma map_pages_cwp vs : ∀ s t a,
  pt_ok (km_mem s) t → fa_wf (km_fa s) → owns s (pt_frames t) → is_perm (map_perm a) →
  NoDup vs → (∀ v, v ∈ vs → is_vpn v ∧ target_ok a v) →
  cwp ((∀ v, v ∈ vs → pt_lookup (km_mem s) t v = None) ∧ 3 * length vs <= fa_free (km_fa s))
    (kfold vs (λ '(a, t) vpn, map_one a t vpn) (a, t)) s
    (λ '(a', t') s', (∀ v, v ∈ vs → pt_lookup (km_mem s) t v = None) ∧ ∃ new, map_post s t a vs new s' t' a').
Proof.
  induction vs as [|v vs IH]; intros s t a Hok Hfa Ho Hperm Hnd Hvs; simpl.
  { cwp_steps. split; [set_solver|]. exists []. by apply map_post_nil. }
  apply NoDup_cons in Hnd as [Hv Hnd]. cwp_steps. destruct (Hvs v) as (Hvv&Htgt); [set_solver|].
  eapply cwp_mono; [by apply map_one_cwp|intros [Hl Hfree]; split; [apply Hl; set_solver|simpl in Hfree; lia]|].
  intros [a1 t1] s1 (Hl&n1&M1). pose proof M1 as [A1 G1 L1 F1 D1 _ O1]. destruct A1 as (R1&Y1&P1).
  assert (Ho1 : ∀ v', v' ∈ vs → pt_lookup (km_mem s1) t1 v' = pt_lookup (km_mem s) t v').
  { intros v' Hin. destruct (Hvs v') as [? _]; [set_solver|]. apply O1; set_solver. }
  eapply cwp_mono; [apply IH| |].
  - apply G1.
  - apply (pg_grows _ _ _ _ _ _ _ G1).
  - by eapply pt_grow_owns_pt.
  - by rewrite P1.
  - done.
  - intros v' Hin. destruct (Hvs v') as (Hvv'&Htgt'); [set_solver|]. split; [done|].
    unfold target_ok in *. rewrite Y1, F1 by set_solver. done.
  - intros [Hn Hfree]. split; [intros v' Hin; rewrite Ho1 by done; apply Hn; set_solver|].
    rewrite (gr_free _ _ _ (pg_grows _ _ _ _ _ _ _ G1)). simpl in *. lia.
  - intros [a2 t2] s2 (Hl2&n2&M2). split; [|exists (n1 ++ n2); by eapply map_post_cons].
    intros v' [->|Hin]%elem_of_cons; [done|]. rewrite <- Ho1 by done. by apply Hl2.
Qed.

Lemma map_pages_spec vs s t a :
  pt_ok (km_mem s) t → fa_wf (km_fa s) → owns s (pt_frames t) → is_perm (map_perm a) →
  NoDup vs → (∀ v, v ∈ vs → is_vpn v ∧ target_ok a v ∧ pt_lookup (km_mem s) t v = None) →
  3 * length vs <= fa_free (km_fa s) →
  wp (kfold vs (λ '(a, t) vpn, map_one a t vpn) (a, t)) s
    (λ '(a', t') s', ∃ new, map_post s t a vs new s' t' a').
Proof.
  intros Hok Hfa Ho Hperm Hnd Hvs Hfree. eapply wp_mono; [eapply cwp_wp; [apply map_pages_cwp; try done|]|].
  - intros v Hv. by destruct (Hvs v Hv) as (?&?&_).
  - split; [|done]. intros v Hv. by destruct (Hvs v Hv) as (_&_&?).
  - by intros [a' t'] s' [_ ?].
Qed.

(** ** [unmap_one] and [area_unmap] *)

(** The frames that unmapping the pages [vs] of [a] gives back. *)
Definition released (a : MapArea) (vs : list Z) (p : Z) : Prop :=
  map_type a = Framed ∧ ∃ v, v ∈ vs ∧ data_frames a !! v = Some p.

Definition frames_inj (a : MapArea) : Prop :=
  ∀ v1 v2 p, data_frames a !! v1 = Some p → data_frames a !! v2 = Some p → v1 = v2.

Record unmap_post (s : KMem) (t : T) (a : MapArea) (vs : list Z) (s' : KMem) (a' : MapArea) : Prop := {
  up_attrs : same_attrs a a';
  up_fa : fa_wf (km_fa s');
  up_ok : pt_ok (km_mem s') t;
  up_same : same_outside (λ p, p ∈ pt_frames t) (km_mem s) (km_mem s');
  up_frames : ∀ v, data_frames a' !! v =
    if decide (v ∈ vs ∧ map_type a = Framed) then None else data_frames a !! v;
  up_owned : ∀ p, fa_owned (km_fa s') p ↔ fa_owned (km_fa s) p ∧ ¬ released a vs p;
  up_free : fa_free (km_fa s') =
    fa_free (km_fa s) + if decide (map_type a = Framed) then length vs else 0;
  up_gone : ∀ v, v ∈ vs → pt_lookup (km_mem s') t v = None;
  up_other : ∀ v, is_vpn v → v ∉ vs → pt_lookup (km_mem s') t v = pt_lookup (km_mem s) t v;
}.

(** The first half of [unmap_one]: drop the tracker. *)
Lemma untrack_spec s a v :
  fa_wf (km_fa s) →
  (map_type a = Framed → ∃ p, data_frames a !! v = Some p ∧ fa_owned (km_fa s) p) →
  wp (if decide (map_type a = Framed) then
        match data_frames a !! v with Some old => frame_dealloc old | None => mret () end ;;
        mret (with_frames a (delete v (data_frames a)))
      else mret a) s (λ a' s',
    same_attrs a a' ∧ fa_wf (km_fa s') ∧ km_mem s' = km_mem s ∧
    (∀ v', data_frames a' !! v' =
       if decide (v' ∈ [v] ∧ map_type a = Framed) then None else data_frames a !! v') ∧
    (∀ p, fa_owned (km_fa s') p ↔ fa_owned (km_fa s) p ∧ ¬ released a [v] p) ∧
    fa_free (km_fa s') = fa_free (km_fa s) + if decide (map_type a = Framed) then 1 else 0).
Proof.
  intros Hfa Htr. destruct (decide (map_type a = Framed)) as [Hty|Hty].
  - destruct (Htr Hty) as (p&Hp&Hown). rewrite Hp. wp_steps.
    eapply wp_mono; [by apply frame_dealloc_spec|]. intros [] s1 (Hfa1&Hm&Ho&Hf). wp_steps.
    split_and!; try done.
    + intros v'. simpl. destruct (decide (v' = v)) as [->|].
      * rewrite lookup_delete_eq, decide_True; [done|set_solver].
      * rewrite lookup_delete_ne, decide_False; [done|set_solver|done].
    + intros q. rewrite Ho. unfold released. split.
      * intros [Hq ?]. split; [done|]. intros (_&v'&->%list_elem_of_singleton&Hv'). congruence.
      * intros [? Hn]. split; [|done]. intros ->. apply Hn. split; [done|].
        exists v. split; [set_solver|done].
  - wp_steps. split_and!; try done.
    + intros v'. by rewrite decide_False by tauto.
    + intros q. unfold released. tauto.
    + lia.
Qed.

Lemma unmap_one_spec s t a v :
  pt_ok (km_mem s) t → fa_wf (km_fa s) → is_vpn v → is_Some (pt_lookup (km_mem s) t v) →
  (map_type a = Framed → ∃ p, data_frames a !! v = Some p ∧ fa_owned (km_fa s) p) →
  wp (unmap_one a t v) s (λ a' s', unmap_post s t a [v] s' a').
Proof.
  intros Hok Hfa Hv [e He] Htr. unfold unmap_one. wp_next.
  eapply wp_mono; [by apply untrack_spec|].
  intros a1 s1 (Hat&Hfa1&Hm&Hfr&Hown&Hfree). wp_steps. rewrite <- Hm in Hok, He.
  eapply wp_mono; [by eapply pt_unmap_spec|].
  intros [] s2 (Hfa2&Hok2&Hsame&Hlook). wp_steps. rewrite <- Hfa2 in *.
  split; try done.
  - by rewrite <- Hm.
  - intros v' ->%list_elem_of_singleton. rewrite Hlook, decide_True by done. done.
  - intros v' Hv' Hne. rewrite Hlook, decide_False, Hm by set_solver. done.
Qed.

Lemma unmap_post_nil s t a :
  fa_wf (km_fa s) → pt_ok (km_mem s) t → unmap_post s t a [] s a.
Proof.
  intros. split; try done.
  - intros p. unfold released. set_solver.
  - simpl. case_decide; lia.
  - set_solver.
Qed.

Lemma unmap_post_cons s t a v s1 a1 vs s2 a2 :
  unmap_post s t a [v] s1 a1 → unmap_post s1 t a1 vs s2 a2 → is_vpn v → v ∉ vs →
  unmap_post s t a (v :: vs) s2 a2.
Proof.
  intros [A1 W1 K1 M1 F1 O1 R1 G1 P1] [A2 W2 K2 M2 F2 O2 R2 G2 P2] Hv Hvs.
  destruct A1 as (?&Y1&?). rewrite Y1 in *. split; try done.
  - by eapply same_attrs_trans; [|done].
  - by eapply same_outside_trans.
  - intros v'. rewrite F2, F1. destruct (decide (map_type a = Framed)) as [Hty|Hty].
    + destruct (decide (v' ∈ vs)); [rewrite !decide_True by set_solver; done|].
      rewrite (decide_False (P := v' ∈ vs ∧ _)) by tauto.
      by apply decide_ext; set_solver.
    + by rewrite !decide_False by tauto.
  - intros p. rewrite O2, O1. unfold released. rewrite Y1. setoid_rewrite F1. split.
    + intros [[? N1] N2]. split; [done|]. intros (Hty&v'&[->|Hin]%elem_of_cons&Hp).
      * apply N1. split; [done|]. exists v. set_solver.
      * apply N2. split; [done|]. exists v'. split; [done|].
        rewrite decide_False; [done|]. set_solver.
    + intros [? N]. split; [split; [done|]|].
      * intros (Hty&v'&Hin&Hp). apply N. split; [done|]. exists v'. set_solver.
      * intros (Hty&v'&Hin&Hp). apply N. split; [done|]. exists v'. split; [set_solver|].
        by case_decide.
  - rewrite R2, R1. simpl. case_decide; lia.
  - intros v' [->|Hin]%elem_of_cons; [|by apply G2]. rewrite P2 by done. apply G1. set_solver.
  - intros v' Hv' Hn. rewrite P2, P1 by set_solver. done.
Qed.

Lemma unmap_pages_spec vs : ∀ s t a,
  pt_ok (km_mem s) t → fa_wf (km_fa s) → NoDup vs → frames_inj a →
  (∀ v, v ∈ vs → is_vpn v ∧ is_Some (pt_lookup (km_mem s) t v) ∧
     (map_type a = Framed → ∃ p, data_frames a !! v = Some p ∧ fa_owned (km_fa s) p)) →
  wp (kfold vs (λ a vpn, unmap_one a t vpn) a) s (λ a' s', unmap_post s t a vs s' a').
Proof.
  induction vs as [|v vs IH]; intros s t a Hok Hfa Hnd Hinj Hvs; simpl.
  { wp_steps. by apply unmap_post_nil. }
  apply NoDup_cons in Hnd as [Hv Hnd]. wp_steps. destruct (Hvs v) as (Hvv&Hl&Htr); [set_solver|].
  eapply wp_mono; [by apply unmap_one_spec|]. intros a1 s1 U1.
  pose proof U1 as [A1 W1 K1 M1 F1 O1 R1 G1 P1]. destruct A1 as (?&Y1&?).
  eapply wp_mono; [apply IH; try done|].
  - intros v1 v2 p. rewrite !F1. destruct (decide (v1 ∈ _ ∧ _)); [done|]. destruct (decide (v2 ∈ _ ∧ _)); [done|]. apply Hinj.
  - intros v' Hin. destruct (Hvs v') as (Hvv'&Hl'&Htr'); [set_solver|].
    split_and!; [done|rewrite P1 by set_solver; done|]. rewrite Y1. intros Hty.
    destruct (Htr' Hty) as (p&Hp&Hown). exists p. rewrite F1, decide_False by set_solver.
    split; [done|]. apply O1. split; [done|]. intros (_&v''&->%list_elem_of_singleton&Hp').
    assert (v' = v) by by eapply Hinj. congruence.
  - intros a2 s2 U2. by eapply unmap_post_cons.
Qed.
End grow.

(** ** Dropping trackers *)

Lemma dealloc_list_spec l : ∀ s,
  fa_wf (km_fa s) → NoDup l → owns s l →
  wp (kfor l frame_dealloc) s (λ _ s',
    fa_wf (km_fa s') ∧ km_mem s' = km_mem s ∧
    (∀ p, fa_owned (km_fa s') p ↔ fa_owned (km_fa s) p ∧ p ∉ l) ∧
    fa_free (km_fa s') = fa_free (km_fa s) + length l).
Proof.
  induction l as [|p l IH]; intros s Hfa Hnd Ho; simpl.
  { wp_steps. split; [done|]. split; [done|]. split; [|lia]. intros p. rewrite elem_of_nil. tauto. }
  apply NoDup_cons in Hnd as [Hp Hnd]. wp_steps.
  eapply wp_mono; [apply frame_dealloc_spec; [done|apply Ho; left]|].
  intros [] s1 (W1&M1&O1&F1). eapply wp_mono; [apply IH; try done|].
  - intros q Hq. apply O1. split; [by intros ->|]. apply Ho. by right.
  - intros [] s2 (W2&M2&O2&F2). split; [done|]. split; [congruence|]. split; [|lia].
    intros q. rewrite O2, O1, elem_of_cons. tauto.
Qed.

Lemma frames_in_order_perm a : frames_in_order a ≡ₚ area_frames a.
Proof. unfold frames_in_order, area_frames. by rewrite merge_sort_Permutation. Qed.

Lemma drop_area_spec s a :
  fa_wf (km_fa s) → NoDup (area_frames a) → owns s (area_frames a) →
  wp (drop_area a) s (λ _ s',
    fa_wf (km_fa s') ∧ km_mem s' = km_mem s ∧
    (∀ p, fa_owned (km_fa s') p ↔ fa_owned (km_fa s) p ∧ p ∉ area_frames a) ∧
    fa_free (km_fa s') = fa_free (km_fa s) + length (area_frames a)).
Proof.
  intros Hfa Hnd Ho. unfold drop_area. rewrite <- frames_in_order_perm in Hnd.
  eapply wp_mono; [apply dealloc_list_spec; [done..|]|].
  - intros p. rewrite frames_in_order_perm. apply Ho.
  - intros [] s' (?&?&Hown&Hf). split; [done|]. split; [done|]. split.
    + intros p. rewrite Hown. by rewrite frames_in_order_perm.
    + rewrite Hf. by rewrite frames_in_order_perm.
Qed.
