(* ===== verification/MemorySetSpec.v ===== *)
(** * Address spaces: invariant and correctness of the operations

    [ms_ok] says that the page table maps exactly the pages of the areas, each
    to the frame the area records, with the area's permissions, that areas do
    not overlap, and that every frame belongs to one place only.  [ms_view] is
    the abstract address space it implements. *)

From S2P Require Import Prelude Address PhysMem IdAlloc FrameAlloc PageTable MemorySet MapAreaSpec.

(** ** The abstract address space *)

Definition in_area (a : MapArea) (v : Z) : Prop :=
  get_start (vpn_range a) <= v < get_end (vpn_range a).
#[global] Instance in_area_dec a v : Decision (in_area a v).
Proof. unfold in_area. apply _. Defined.

(** The frame and permissions of a page. *)
Definition ms_view {T} (ms : MemorySet T) (v : Z) : option (Z * Z) :=
  '(_, a) ← list_find (λ a, in_area a v) (areas ms);
  ppn ← area_target a v;
  Some (ppn, map_perm a).

(** The page number of the trampoline: the last page of the address space. *)
Definition TRAMP_VPN : Z := 2 ^ 27 - 1.

Definition n_pages (a : MapArea) : Z := get_end (vpn_range a) - get_start (vpn_range a).

Record range_ok (a : MapArea) : Prop := {
  ro_start : 0 <= get_start (vpn_range a);
  ro_le : get_start (vpn_range a) <= get_end (vpn_range a);
  ro_end : get_end (vpn_range a) <= TRAMP_VPN;
}.

Lemma area_pages_eq a : range_ok a → area_pages a = seqZ (get_start (vpn_range a)) (n_pages a).
Proof.
  intros [H0 H1 H2]. unfold TRAMP_VPN in *. unfold area_pages, n_pages. destruct (vpn_range a); simpl in *.
  apply range_elems_seqZ; lia.
Qed.

Lemma elem_of_area_pages a v : range_ok a → v ∈ area_pages a ↔ in_area a v.
Proof. intros Hr. rewrite area_pages_eq, elem_of_seqZ by done. unfold in_area, n_pages. lia. Qed.

Lemma NoDup_area_pages a : range_ok a → NoDup (area_pages a).
Proof. intros Hr. rewrite area_pages_eq by done. apply NoDup_seqZ. Qed.

Lemma length_area_pages a : range_ok a → Z.of_nat (length (area_pages a)) = n_pages a.
Proof.
  intros Hr. rewrite area_pages_eq, length_seqZ by done. destruct Hr. unfold n_pages in *. lia.
Qed.

Lemma in_area_vpn a v : range_ok a → in_area a v → is_vpn v ∧ v ≠ TRAMP_VPN.
Proof. intros [???]. unfold in_area, is_vpn, TRAMP_VPN in *. lia. Qed.

Lemma in_area_attrs a a' v : same_attrs a a' → in_area a' v ↔ in_area a v.
Proof. intros (Hr&_&_). unfold in_area. by rewrite Hr. Qed.

Lemma range_ok_attrs a a' : same_attrs a a' → range_ok a → range_ok a'.
Proof. intros (Hr&_&_) [???]. split; by rewrite Hr. Qed.

(** ** The invariant *)

Record area_ok (a : MapArea) : Prop := {
  ao_range : range_ok a;
  ao_perm : is_perm (map_perm a);
  ao_dom : ∀ v, is_Some (data_frames a !! v) ↔ map_type a = Framed ∧ in_area a v;
}.

Definition disjoint_areas (l : list MapArea) : Prop :=
  ∀ i j a b v, l !! i = Some a → l !! j = Some b → in_area a v → in_area b v → i = j.

(** Area [a] shares no page with the areas of [l]. *)
Definition fresh_area (l : list MapArea) (a : MapArea) : Prop :=
  ∀ b v, b ∈ l → in_area a v → in_area b v → False.

Section ms.
Context {T : Type} `{!PageTable T}.
Implicit Types ms : MemorySet T.

Definition areas_frames (l : list MapArea) : list Z := l ≫= area_frames.
Definition ms_frames ms : list Z := pt_frames (page_table ms) ++ areas_frames (areas ms).

(** Page [v] of [a] is mapped as [a] says. *)
Definition page_ok (m : mem) (t : T) (a : MapArea) (v : Z) : Prop :=
  ∃ ppn, area_target a v = Some ppn ∧ is_ppn ppn ∧
         pt_lookup m t v = Some (pte_make ppn (map_perm a)).

Record ms_ok (s : KMem) ms : Prop := {
  mo_pt : pt_ok (km_mem s) (page_table ms);
  mo_owned : owns s (ms_frames ms);
  mo_nodup : NoDup (ms_frames ms);
  mo_areas : ∀ a, a ∈ areas ms → area_ok a;
  mo_disj : disjoint_areas (areas ms);
  mo_mapped : ∀ a v, a ∈ areas ms → in_area a v → page_ok (km_mem s) (page_table ms) a v;
  mo_unmapped : ∀ v, is_vpn v → v ≠ TRAMP_VPN → (∀ a, a ∈ areas ms → ¬ in_area a v) →
    pt_lookup (km_mem s) (page_table ms) v = None;
}.

Lemma areas_frames_app l l' : areas_frames (l ++ l') = areas_frames l ++ areas_frames l'.
Proof. apply bind_app. Qed.

Lemma areas_frames_one a : areas_frames [a] = area_frames a.
Proof. unfold areas_frames; simpl. by rewrite app_nil_r. Qed.

Lemma elem_of_areas_frames l p : p ∈ areas_frames l ↔ ∃ a, a ∈ l ∧ p ∈ area_frames a.
Proof. unfold areas_frames. rewrite list_elem_of_bind. naive_solver. Qed.

Lemma elem_of_area_frames a p : p ∈ area_frames a ↔ ∃ v, data_frames a !! v = Some p.
Proof.
  unfold area_frames. rewrite list_elem_of_fmap. split.
  - intros ([v q]&->&Hin%elem_of_map_to_list). eauto.
  - intros [v Hv]. exists (v, p). split; [done|]. by apply elem_of_map_to_list.
Qed.

(** The page table implements the abstract address space. *)
Lemma ms_view_lookup s ms v :
  ms_ok s ms → is_vpn v → v ≠ TRAMP_VPN →
  pt_lookup (km_mem s) (page_table ms) v = (λ '(ppn, perm), pte_make ppn perm) <$> ms_view ms v.
Proof.
  intros Hok Hv Ht. unfold ms_view.
  destruct (list_find _ (areas ms)) as [[i a]|] eqn:Hf; simpl.
  - apply list_find_Some in Hf as (Ha&Hin&_). apply list_elem_of_lookup_2 in Ha.
    destruct (mo_mapped _ _ Hok a v Ha Hin) as (ppn&->&_&->). done.
  - apply list_find_None in Hf. rewrite Forall_forall in Hf.
    by apply (mo_unmapped _ _ Hok).
Qed.

Lemma ms_view_perm s ms v ppn perm :
  ms_ok s ms → ms_view ms v = Some (ppn, perm) → is_ppn ppn ∧ is_perm perm.
Proof.
  intros Hok. unfold ms_view. destruct (list_find _ (areas ms)) as [[i a]|] eqn:Hf; [|done]; simpl.
  apply list_find_Some in Hf as (Ha&Hin&_). apply list_elem_of_lookup_2 in Ha.
  destruct (mo_mapped _ _ Hok a v Ha Hin) as (q&->&Hq&_). simpl. intros [= <- <-].
  split; [done|]. by apply Hok.
Qed.

(** Only the memory of the page tables and the ownership of the frames matter:
    work elsewhere in the kernel preserves an address space. *)
Lemma ms_ok_frame s s' ms :
  ms_ok s ms → owns s' (ms_frames ms) →
  (∀ x, x / 4096 ∈ pt_frames (page_table ms) → km_mem s' x = km_mem s x) →
  ms_ok s' ms.
Proof.
  intros [Hpt Ho Hnd Ha Hd Hm Hu] Ho' Hmem.
  destruct (pt_frame _ (km_mem s') _ Hpt Hmem) as [Hpt' Hl]. split; try done.
  - intros a v Hin Hv. destruct (Hm a v Hin Hv) as (ppn&?&?&?). exists ppn.
    rewrite Hl; [done|]. by eapply in_area_vpn; [apply Ha|].
  - intros v Hv Ht Hn. rewrite Hl by done. auto.
Qed.

Lemma fresh_disjoint l a a' :
  disjoint_areas l → fresh_area l a → same_attrs a a' → disjoint_areas (l ++ [a']).
Proof.
  intros Hd Hf Hat i j b c v Hi Hj Hb Hc.
  apply lookup_snoc_Some in Hi as [[? Hi]|[-> <-]], Hj as [[? Hj]|[-> <-]]; try done.
  - by eapply Hd.
  - destruct (Hf b v); [by eapply list_elem_of_lookup_2|by apply (in_area_attrs _ _ _ Hat)|done].
  - destruct (Hf c v); [by eapply list_elem_of_lookup_2|by apply (in_area_attrs _ _ _ Hat)|done].
Qed.

(** ** [push] *)

(** The frames of an address space after an operation that only adds to it. *)
Record ms_grow (s : KMem) ms (new : list Z) (s' : KMem) (ms' : MemorySet T) : Prop := {
  mg_grows : grows s new s';
  mg_frames : ms_frames ms' ≡ₚ ms_frames ms ++ new;
  mg_tables : ∀ p, p ∈ pt_frames (page_table ms') → p ∈ pt_frames (page_table ms) ∨ p ∈ new;
  mg_token : token ms' = token ms;
  mg_same : same_outside (λ p, p ∈ pt_frames (page_table ms) ∨ p ∈ new) (km_mem s) (km_mem s');
  mg_tramp : pt_lookup (km_mem s') (page_table ms') TRAMP_VPN = pt_lookup (km_mem s) (page_table ms) TRAMP_VPN;
}.

Lemma ms_grow_trans s ms n1 s1 ms1 n2 s2 ms2 :
  ms_grow s ms n1 s1 ms1 → ms_grow s1 ms1 n2 s2 ms2 → ms_grow s ms (n1 ++ n2) s2 ms2.
Proof.
  intros [G1 F1 B1 K1 M1 U1] [G2 F2 B2 K2 M2 U2]. split.
  - by eapply grows_trans.
  - by rewrite F2, F1, app_assoc.
  - intros p [Hp|Hp]%B2; [apply B1 in Hp as [?|?]|]; rewrite ?elem_of_app; auto.
  - congruence.
  - eapply same_outside_trans; [done..| |].
    + intros p [?|?]; rewrite ?elem_of_app; auto.
    + intros p [[?|?]%B1|?]; rewrite ?elem_of_app; auto.
  - by rewrite U2.
Qed.

Lemma ms_grow_owned s ms new s' ms' :
  ms_grow s ms new s' ms' → owns s (ms_frames ms) → owns s' (ms_frames ms').
Proof.
  intros [G F _ _ _ _] Ho p Hp. apply (gr_owned _ _ _ G). rewrite F in Hp.
  apply elem_of_app in Hp as [?|?]; auto.
Qed.

Lemma ms_grow_nodup s ms new s' ms' :
  ms_grow s ms new s' ms' → owns s (ms_frames ms) → NoDup (ms_frames ms) → NoDup (ms_frames ms').
Proof.
  intros [G F _ _ _ _] Ho Hnd. rewrite F. apply NoDup_app. split; [done|]. split; [|apply G].
  intros p Hp Hn. apply (gr_fresh _ _ _ G p Hn). auto.
Qed.

(** An area about to be pushed. *)
Record new_area_ok ms (a : MapArea) : Prop := {
  na_range : range_ok a;
  na_perm : is_perm (map_perm a);
  na_empty : data_frames a = ∅;
  na_target : ∀ v, in_area a v → target_ok a v;
  na_fresh : fresh_area (areas ms) a;
}.

(** Page [v] of [a] is zero-filled memory in a new frame. *)
Definition zero_page (m : mem) (new : list Z) (a : MapArea) (v : Z) : Prop :=
  ∃ ppn, data_frames a !! v = Some ppn ∧ ppn ∈ new ∧ ∀ x, x / 4096 = ppn → m x = 0.

Record push_post (s : KMem) ms (a : MapArea) (new : list Z) (s' : KMem) (ms' : MemorySet T) (a' : MapArea) : Prop := {
  pp_grow : ms_grow s ms new s' ms';
  pp_ok : ms_ok s' ms';
  pp_areas : areas ms' = areas ms ++ [a'];
  pp_brk : brk ms' = brk ms ∧ heap_start ms' = heap_start ms;
  pp_attrs : same_attrs a a';
  pp_len : length new <= 3 * n_pages a;
  pp_zero : map_type a = Framed → ∀ v, in_area a v → zero_page (km_mem s') new a' v;
  pp_other : ∀ v, is_vpn v → ¬ in_area a v →
    pt_lookup (km_mem s') (page_table ms') v = pt_lookup (km_mem s) (page_table ms) v;
}.

Lemma area_frames_empty a : data_frames a = ∅ → area_frames a = [].
Proof. intros E. unfold area_frames. by rewrite E, map_to_list_empty. Qed.

Lemma map_post_ms_grow s ms a new s' t' a' :
  range_ok a → data_frames a = ∅ → map_post s (page_table ms) a (area_pages a) new s' t' a' →
  ms_grow s ms new s' (with_pt ms t' (areas ms ++ [a'])).
Proof.
  intros Hr He M. destruct (mp_grow _ _ _ _ _ _ _ _ M) as [G F _ _ B K _ S].
  rewrite (area_frames_empty a) in F by done. split; try done.
  - unfold ms_frames; simpl. rewrite areas_frames_app, areas_frames_one.
    rewrite app_nil_r in F. rewrite Permutation_app_comm, <- app_assoc, (Permutation_app_comm _ (pt_frames t')), F.
    solve_Permutation.
  - apply (mp_other _ _ _ _ _ _ _ _ M); [unfold is_vpn, TRAMP_VPN; lia|]. rewrite elem_of_area_pages by done.
    unfold in_area. pose proof (ro_end _ Hr). lia.
Qed.

Lemma mapped_area_ok a vs s t new s' t' a' :
  range_ok a → is_perm (map_perm a) → data_frames a = ∅ → vs = area_pages a →
  map_post s t a vs new s' t' a' → area_ok a'.
Proof.
  intros Hr Hp He -> M. destruct M as [At _ _ F D Tg _]. destruct At as (HR&HY&HP).
  split; [by eapply range_ok_attrs|by rewrite HP|].
  intros v. rewrite HY, (in_area_attrs a a') by done. rewrite <- elem_of_area_pages by done. split.
  - intros [p Hv]. destruct (decide (v ∈ area_pages a)) as [Hin|Hn].
    + split; [|done]. destruct D as [?|D]; [done|]. by rewrite D, He in Hv.
    + by rewrite F, He in Hv.
  - intros [Hty Hin]. destruct (Tg v Hin) as (ppn&Ht&_). unfold area_target in Ht.
    rewrite HY, Hty in Ht. eauto.
Qed.

Lemma push_post_of_map s ms a new s' t' a' :
  ms_ok s ms → new_area_ok ms a →
  map_post s (page_table ms) a (area_pages a) new s' t' a' →
  push_post s ms a new s' (with_pt ms t' (areas ms ++ [a'])) a'.
Proof.
  intros Hok [Hr Hp He Htg Hfr] M. pose proof (map_post_ms_grow _ _ _ _ _ _ _ Hr He M) as MG.
  pose proof (mapped_area_ok _ _ _ _ _ _ _ _ Hr Hp He eq_refl M) as Hao.
  destruct M as [At G L F D Tg Oth]. pose proof At as (HR&HY&HP).
  assert (Hoth : ∀ v, is_vpn v → ¬ in_area a v →
    pt_lookup (km_mem s') t' v = pt_lookup (km_mem s) (page_table ms) v).
  { intros v Hv Hn. apply Oth; [done|]. by rewrite elem_of_area_pages. }
  split; try done.
  - split; simpl.
    + apply G.
    + by eapply (ms_grow_owned _ _ _ _ _ MG); apply Hok.
    + by eapply (ms_grow_nodup _ _ _ _ _ MG); apply Hok.
    + intros b [Hb| ->%list_elem_of_singleton]%elem_of_app; [by apply Hok|done].
    + eapply fresh_disjoint; [apply Hok|done..].
    + intros b v [Hb| ->%list_elem_of_singleton]%elem_of_app Hin.
      * destruct (mo_mapped _ _ Hok b v Hb Hin) as (ppn&?&?&?). exists ppn.
        rewrite Hoth; [done| |intros Ha; by eapply Hfr].
        by eapply in_area_vpn; [apply Hok|].
      * destruct (Tg v) as (ppn&?&?&?&_).
        { apply elem_of_area_pages; [done|]. by apply (in_area_attrs a a'). }
        exists ppn. by rewrite HP.
    + intros v Hv Ht Hn. rewrite Hoth; [|done|].
      * apply (mo_unmapped _ _ Hok); [done..|]. intros b Hb. apply Hn, elem_of_app. auto.
      * rewrite <- (in_area_attrs a a') by done. apply Hn, elem_of_app. right. by left.
  - rewrite <- length_area_pages by done. lia.
  - intros Hty v Hv. destruct (Tg v) as (ppn&Ht&_&_&Hz); [by apply elem_of_area_pages|].
    destruct (Hz Hty) as (?&_&?). exists ppn. unfold area_target in Ht. rewrite HY, Hty in Ht. done.
Qed.

(** An area whose pages the table does not map overlaps no other. *)
Lemma unmapped_fresh s ms a :
  ms_ok s ms → range_ok a → (∀ v, v ∈ area_pages a → pt_lookup (km_mem s) (page_table ms) v = None) → fresh_area (areas ms) a.
Proof.
  intros Hok Hr Hn b v Hb Ha Hin. destruct (mo_mapped _ _ Hok b v Hb Hin) as (ppn&_&_&Hl).
  by rewrite Hn in Hl by by apply elem_of_area_pages.
Qed.

(** [push] fails on an area that overlaps another one; else only for want of frames. *)
Lemma push_cwp s ms a :
  fa_wf (km_fa s) → ms_ok s ms → range_ok a → is_perm (map_perm a) → data_frames a = ∅ → (∀ v, in_area a v → target_ok a v) →
  cwp (fresh_area (areas ms) a ∧ 3 * n_pages a <= fa_free (km_fa s)) (push ms a None) s (λ ms' s',
    fresh_area (areas ms) a ∧ ∃ new a', push_post s ms a new s' ms' a').
Proof.
  intros Hfa Hok Hr Hp He Htg. unfold push. apply cwp_bind. eapply cwp_mono; [apply (map_pages_cwp (area_pages a))| |].
  - apply Hok.
  - done.
  - intros p Hin. apply Hok. unfold ms_frames. rewrite elem_of_app. auto.
  - done.
  - by apply NoDup_area_pages.
  - intros v Hv%elem_of_area_pages; [|done]. split; [by eapply in_area_vpn|auto].
  - intros [Hfr Hfree]. split; [|pose proof (length_area_pages a Hr); lia].
    intros v Hv%elem_of_area_pages; [|done]. destruct (in_area_vpn a v) as [Hv1 Hv2]; [done..|].
    apply (mo_unmapped _ _ Hok); [done..|]. eauto.
  - intros [a' t'] s' (Hn&new&M). cwp_steps. pose proof (unmapped_fresh _ _ _ Hok Hr Hn) as Hfr. split; [done|].
    exists new, a'. by apply push_post_of_map.
Qed.

Lemma push_spec s ms a :
  fa_wf (km_fa s) → ms_ok s ms → new_area_ok ms a → 3 * n_pages a <= fa_free (km_fa s) →
  wp (push ms a None) s (λ ms' s', ∃ new a', push_post s ms a new s' ms' a').
Proof.
  intros Hfa Hok [Hr Hp He Htg Hfr] Hfree. eapply wp_mono; [by eapply cwp_wp; [apply push_cwp|]|]. by intros ms' s' [_ ?].
Qed.

(** ** [copy_data] *)

(** The byte at virtual address [va] of an area. *)
Definition area_byte (m : mem) (a : MapArea) (va : Z) : option Z :=
  ppn ← area_target a (va / 4096); Some (m (ppn * 4096 + va mod 4096)).

Lemma translate_ppn_spec s t a v :
  is_perm (map_perm a) → page_ok (km_mem s) t a v →
  ∃ ppn, area_target a v = Some ppn ∧ is_ppn ppn ∧ translate_ppn t v s = Done (ppn, s).
Proof.
  intros Hp (ppn&Ht&Hr&Hl). exists ppn. split; [done|]. split; [done|].
  pose proof (pt_translate_spec (km_mem s) t v) as Htr. destruct (pte_make_spec ppn (map_perm a)) as [Hv Hpp]; [done..|].
  unfold translate_ppn, mbind, K_bind, kget. rewrite Hl in Htr.
  destruct (pt_translate (km_mem s) t v) as [e|]; [|done]; simpl.
  destruct (pte_valid e); [|done]. injection Htr as <-. by rewrite Hpp.
Qed.

(** An area whose pages are mapped and whose frames are no page tables. *)
Record framed_in (m : mem) (t : T) (a : MapArea) : Prop := {
  fi_type : map_type a = Framed;
  fi_ok : area_ok a;
  fi_inj : frames_inj a;
  fi_nt : ∀ p, p ∈ area_frames a → p ∉ pt_frames t;
  fi_pt : pt_ok m t;
  fi_map : ∀ v, in_area a v → page_ok m t a v;
}.

Lemma framed_in_ext m m' t a :
  framed_in m t a → same_outside (λ p, p ∈ area_frames a) m m' → framed_in m' t a.
Proof.
  intros [Hty Hao Hinj Hnt Hpt Hmap] Hm.
  destruct (pt_frame m m' t Hpt) as [Hpt' Hl].
  { intros x Hx. apply Hm. intros Ha. by eapply Hnt. }
  split; try done. intros v Hv. destruct (Hmap v Hv) as (ppn&?&?&?). exists ppn.
  rewrite Hl; [done|]. by eapply in_area_vpn; [apply Hao|].
Qed.

Lemma framed_target m t a v :
  framed_in m t a → in_area a v →
  ∃ ppn, area_target a v = Some ppn ∧ is_ppn ppn ∧ ppn ∈ area_frames a.
Proof.
  intros F Hv. destruct (fi_map _ _ _ F v Hv) as (ppn&Ht&Hp&_). exists ppn.
  split; [done|]. split; [done|]. apply elem_of_area_frames. exists v.
  unfold area_target in Ht. by rewrite (fi_type _ _ _ F) in Ht.
Qed.

(** Writing [src] at the start of page [v]. *)
Lemma write_page_bytes m t a v ppn src :
  framed_in m t a → area_target a v = Some ppn → is_ppn ppn → (length src <= 4096)%nat →
  same_outside (λ p, p ∈ area_frames a) m (store_bytes m (bytes_array_addr ppn) src) ∧
  ∀ va, in_area a (va / 4096) →
    area_byte (store_bytes m (bytes_array_addr ppn) src) a va =
    if decide (va / 4096 = v ∧ va mod 4096 < length src)
    then src !! Z.to_nat (va mod 4096) else area_byte m a va.
Proof.
  intros F Ht Hp Hlen. rewrite bytes_array_addr_eq by done. split.
  - intros x Hx. apply store_bytes_out.
    assert (x / 4096 ≠ ppn); [|zdiv_lia]. intros E. apply Hx. rewrite E.
    apply elem_of_area_frames. exists v. unfold area_target in Ht. by rewrite (fi_type _ _ _ F) in Ht.
  - intros va Hva. destruct (framed_target _ _ _ _ F Hva) as (q&Hq&Hqr&_).
    unfold area_byte. rewrite Hq; simpl. case_decide as Hd.
    + destruct Hd as [<- Hlt]. rewrite Ht in Hq. injection Hq as <-.
      destruct (lookup_lt_is_Some_2 src (Z.to_nat (va mod 4096))) as [b Hb]; [zdiv_lia|].
      rewrite Hb. f_equal. rewrite <- (store_bytes_in m (ppn * 4096) src _ b Hb). f_equal. zdiv_lia.
    + f_equal. apply store_bytes_out. assert (q = ppn → va / 4096 = v).
      { intros ->. unfold area_target in *. rewrite (fi_type _ _ _ F) in *.
        by eapply (fi_inj _ _ _ F). }
      destruct (decide (q = ppn)) as [->|]; [|zdiv_lia].
      assert (va / 4096 = v) by auto. zdiv_lia.
Qed.

(** After [copy_data] from byte [start] on. *)
Definition copy_result (a : MapArea) (data : list Z) (start : Z) (s s' : KMem) : Prop :=
  let base := get_start (vpn_range a) * 4096 in
  km_fa s' = km_fa s ∧ same_outside (λ p, p ∈ area_frames a) (km_mem s) (km_mem s') ∧
  ∀ va, in_area a (va / 4096) →
    area_byte (km_mem s') a va =
    if decide (base + start <= va < base + length data) then data !! Z.to_nat (va - base)
    else area_byte (km_mem s) a va.

(** One iteration: the page at offset [start] receives its part of [data]. *)
Lemma copy_page_step s t a (data : list Z) start src v :
  framed_in (km_mem s) t a → v = get_start (vpn_range a) + start / 4096 → start mod 4096 = 0 →
  0 <= start <= length data → in_area a v →
  slice data start (Z.min (length data) (start + 4096)) = Done src →
  wp (ppn ← translate_ppn t v; write_page ppn src) s (λ _ s',
    framed_in (km_mem s') t a ∧
    km_fa s' = km_fa s ∧ same_outside (λ p, p ∈ area_frames a) (km_mem s) (km_mem s') ∧
    ∀ va, in_area a (va / 4096) →
      area_byte (km_mem s') a va =
      let base := get_start (vpn_range a) * 4096 in
      if decide (base + start <= va < base + Z.min (length data) (start + 4096))
      then data !! Z.to_nat (va - base) else area_byte (km_mem s) a va).
Proof.
  intros F -> Hmod Hst Hin Hsl. destruct (slice_spec data start (Z.min (length data) (start + 4096)))
    as (src'&Hsl'&Hlen&Hlook); [lia..|]. rewrite Hsl in Hsl'. injection Hsl' as <-.
  destruct (translate_ppn_spec s t a _ (ao_perm _ (fi_ok _ _ _ F)) (fi_map _ _ _ F _ Hin)) as (ppn&Ht&Hp&Htr).
  wp_steps. eapply wp_run; [done|]. unfold write_page. wp_steps.
  apply wp_assert; [apply Z.leb_le; unfold PAGE_SIZE; lia|]. wp_steps. simpl.
  destruct (write_page_bytes (km_mem s) t a _ ppn src F Ht Hp) as [Hout Hb]; [lia|].
  split; [by eapply framed_in_ext|]. split; [done|]. split; [done|].
  intros va Hva. rewrite Hb by done. clear Hb Hout Hsl Htr. simpl.
  case_decide as D1; case_decide as D2; try done.
  - destruct D1 as [D1 D3]. rewrite Hlook by zdiv_lia. f_equal. zdiv_lia.
  - exfalso. apply D2. zdiv_lia.
  - exfalso. apply D1. zdiv_lia.
Qed.

Lemma copy_data_loop_spec t a (data : list Z) (fuel : nat) : ∀ s start v,
  framed_in (km_mem s) t a → v = get_start (vpn_range a) + start / 4096 → start mod 4096 = 0 →
  0 <= start <= length data → length data - start < fuel →
  (start = 0 ∨ start < length data) → 0 < n_pages a → length data <= n_pages a * 4096 →
  wp (copy_data_loop fuel t data start v) s (λ _ s', copy_result a data start s s').
Proof.
  induction fuel as [|fuel IH]; intros s start v F Hv Hmod Hst Hfuel Hlt Hn Hfit; [simpl in *; lia|].
  assert (Hin : in_area a v) by (unfold in_area, n_pages in *; zdiv_lia).
  destruct (slice_spec data start (Z.min (length data) (start + 4096))) as (src&Hsl&_); [lia..|].
  pose proof (ao_range _ (fi_ok _ _ _ F)) as [Hr0 Hr1 Hr2]. unfold TRAMP_VPN in Hr2.
  simpl. wp_steps. eapply wp_lift; [exact Hsl|]. 
  pose proof (copy_page_step s t a data start src v F Hv Hmod Hst Hin Hsl) as Hstep.
  unfold wp, mbind, K_bind in Hstep |- *.
  destruct (translate_ppn t v s) as [[ppn s0]|]; [|done].
  destruct (write_page ppn src s0) as [[[] s1]|]; [|done].
  destruct Hstep as (F1&Hfa1&Ho1&Hb1). destruct (Z.leb_spec (length data) (start + PAGE_SIZE)) as [Hle|Hgt].
  - simpl. split; [done|]. split; [done|]. unfold PAGE_SIZE in Hle.
    intros va Hva. rewrite Hb1 by done. simpl. by rewrite Z.min_l by lia.
  - unfold PAGE_SIZE in *. fold (wp (copy_data_loop fuel t data (start + 0x1000) (step_by_one v)) s1
      (λ _ s', copy_result a data start s s')).
    assert (Hsv : step_by_one v = get_start (vpn_range a) + (start + 0x1000) / 4096).
    { unfold step_by_one. unfold in_area in Hin. rewrite wadd_small by lia. zdiv_lia. }
    eapply wp_mono; [apply IH; try done; try zdiv_lia; rewrite Zplus_mod, Hmod; done|].
    intros [] s2 (Hfa2&Ho2&Hb2). split; [congruence|]. split; [by eapply same_outside_trans|].
    intros va Hva. rewrite Hb2, Hb1 by done. simpl. rewrite Z.min_r by lia.
    repeat case_decide; try done; lia.
Qed.

Lemma copy_data_spec s t a data :
  framed_in (km_mem s) t a → 0 < n_pages a → length data <= n_pages a * 4096 →
  wp (copy_data a t data) s (λ _ s', copy_result a data 0 s s').
Proof.
  intros F Hn Hfit. unfold copy_data. wp_steps.
  apply wp_assert; [by apply bool_decide_eq_true, (fi_type _ _ _ F)|].
  apply copy_data_loop_spec; try done; try lia. zdiv_lia.
Qed.
End ms.
