(* ===== verification/MemorySetOps.v ===== *)
(** * Address spaces: loading, unmapping, heap, [mmap] and [fork] *)

From S2P Require Import Prelude Address PhysMem IdAlloc FrameAlloc PageTable MemorySet MapAreaSpec MemorySetSpec.

Section ops_spec.
Context {T : Type} `{!PageTable T}.
Implicit Types ms : MemorySet T.

(** ** Frames of an area *)

Lemma nodup_frames_inj a : NoDup (area_frames a) → frames_inj a.
Proof.
  intros Hnd v1 v2 p H1 H2. destruct (decide (v1 = v2)) as [|Hne]; [done|exfalso].
  unfold area_frames in Hnd. rewrite <- (map_to_list_delete _ v1 p) in Hnd by done.
  simpl in Hnd. apply NoDup_cons in Hnd as [Hn _]. apply Hn, list_elem_of_fmap.
  exists (v2, p). split; [done|]. apply elem_of_map_to_list. by rewrite lookup_delete_ne.
Qed.

Lemma ms_area_nodup s ms a : ms_ok s ms → a ∈ areas ms → NoDup (area_frames a).
Proof.
  intros Hok [l1 [l2 E]]%list_elem_of_split. pose proof (mo_nodup _ _ Hok) as Hnd.
  unfold ms_frames in Hnd. rewrite E, areas_frames_app in Hnd.
  change (areas_frames (a :: l2)) with (area_frames a ++ areas_frames l2) in Hnd.
  apply NoDup_app in Hnd as (_&_&Hnd). apply NoDup_app in Hnd as (_&_&Hnd).
  by apply NoDup_app in Hnd as (Hnd&_&_).
Qed.

Lemma ms_area_frame s ms a p :
  ms_ok s ms → a ∈ areas ms → p ∈ area_frames a →
  p ∉ pt_frames (page_table ms) ∧ fa_owned (km_fa s) p.
Proof.
  intros Hok Ha Hp. assert (Hin : p ∈ areas_frames (areas ms)) by (apply elem_of_areas_frames; eauto).
  split.
  - intros Ht. pose proof (mo_nodup _ _ Hok) as Hnd. apply NoDup_app in Hnd as (_&Hd&_). by eapply Hd.
  - apply (mo_owned _ _ Hok). apply elem_of_app. auto.
Qed.

Lemma ms_framed_in s ms a :
  ms_ok s ms → a ∈ areas ms → map_type a = Framed → framed_in (km_mem s) (page_table ms) a.
Proof.
  intros Hok Ha Hty. split.
  - done.
  - by apply Hok.
  - by eapply nodup_frames_inj, ms_area_nodup.
  - intros p Hp. by eapply ms_area_frame.
  - apply Hok.
  - intros v Hv. by apply Hok.
Qed.

(** Writing data frames preserves the invariant. *)
Lemma ms_ok_write s ms s' :
  ms_ok s ms → km_fa s' = km_fa s →
  same_outside (λ p, p ∈ areas_frames (areas ms)) (km_mem s) (km_mem s') → ms_ok s' ms.
Proof.
  intros Hok Hfa Hm. eapply ms_ok_frame; [done| |].
  - intros p Hp. rewrite Hfa. by apply Hok.
  - intros x Hx. apply Hm. intros Hin. pose proof (mo_nodup _ _ Hok) as Hnd.
    apply NoDup_app in Hnd as (_&Hd&_). by eapply Hd.
Qed.

(** ** [push] with data *)

(** Writing the frames of the area just pushed. *)
Lemma push_post_write s ms a new s1 ms1 a' s2 :
  push_post s ms a new s1 ms1 a' → map_type a = Framed → km_fa s2 = km_fa s1 →
  same_outside (λ p, p ∈ area_frames a') (km_mem s1) (km_mem s2) →
  ms_grow s ms new s2 ms1 ∧ ms_ok s2 ms1.
Proof.
  intros [G Hok1 Har _ (HR&HY&_) _ Hz _] Hty Hfa Ho.
  assert (Ha : a' ∈ areas ms1) by (rewrite Har; apply elem_of_app; right; left).
  split.
  - destruct G as [G1 G2 G3 G4 G5 G6]. split; try done; [by eapply grows_mem| |].
    + eapply same_outside_trans; [done|done|done|].
      intros p [v Hv]%elem_of_area_frames. right.
      assert (map_type a' = Framed ∧ in_area a' v) as [_ Hin]
        by (apply (fi_ok _ _ _ (ms_framed_in _ _ _ Hok1 Ha ltac:(congruence))); eauto).
      destruct (Hz Hty v) as (q&Hq&Hqn&_); [|congruence]. unfold in_area in *. by rewrite HR in Hin.
    + rewrite <- G6. apply (pt_frame (km_mem s1)); [apply Hok1| |unfold is_vpn, TRAMP_VPN; lia].
      intros x Hx. apply Ho. intros Hin. by apply (ms_area_frame _ _ _ _ Hok1 Ha) in Hin as [? _].
  - eapply ms_ok_write; [done|done|]. eapply same_outside_mono; [done|]. intros p Hp.
    apply elem_of_areas_frames. eauto.
Qed.

Lemma push_data_spec s ms a data :
  fa_wf (km_fa s) → ms_ok s ms → new_area_ok ms a → 3 * n_pages a <= fa_free (km_fa s) →
  map_type a = Framed → 0 < n_pages a → length data <= n_pages a * 4096 →
  wp (push ms a (Some data)) s (λ ms' s', ∃ new a',
    ms_grow s ms new s' ms' ∧ ms_ok s' ms' ∧ areas ms' = areas ms ++ [a'] ∧ same_attrs a a' ∧
    length new <= 3 * n_pages a ∧
    (∀ va, in_area a (va / 4096) → area_byte (km_mem s') a' va =
       let i := va - get_start (vpn_range a) * 4096 in
       if decide (i < length data) then data !! Z.to_nat i else Some 0)).
Proof.
  intros Hfa Hok Hna Hfree Hty Hn Hfit.
  pose proof (push_spec s ms a Hfa Hok Hna Hfree) as Hpush.
  unfold push in *. unfold wp, mbind, K_bind in Hpush |- *.
  destruct (area_map a (page_table ms) s) as [[[a1 t1] s1]|]; [|done].
  destruct Hpush as (new&a'&P). pose proof P as P'. destruct P as [G Hok1 Har Hb Hat Hl Hz _].
  simpl in Har. unfold vec_push in Har. apply app_inj_2 in Har as [_ Har]; [|done]. injection Har as ->.
  destruct Hat as (HR&HY&HP).
  assert (Ha1 : a' ∈ areas (with_pt ms t1 (vec_push (areas ms) a'))) by (simpl; apply elem_of_app; right; left).
  assert (F : framed_in (km_mem s1) t1 a') by (eapply (ms_framed_in _ _ _ Hok1); [done|congruence]).
  assert (En : n_pages a' = n_pages a) by (unfold n_pages; by rewrite HR).
  pose proof (copy_data_spec s1 t1 a' data F) as Hc. rewrite En in Hc. specialize (Hc Hn Hfit).
  unfold wp in Hc. destruct (copy_data a' t1 data s1) as [[[] s2]|]; [|done].
  destruct Hc as (Hfa2&Ho2&Hb2). exists new, a'.
  destruct (push_post_write _ _ _ _ _ _ _ s2 P' Hty Hfa2 Ho2) as [G2 Hok2].
  do 5 (split; [done|]).
  intros va Hva. rewrite Hb2 by (unfold in_area in *; by rewrite HR). rewrite HR. simpl.
  rewrite Z.add_0_r. destruct (Hz Hty _ Hva) as (ppn&Hd&_&Hzero).
  unfold in_area in Hva.
  case_decide; case_decide; try (exfalso; zdiv_lia); [done|].
  unfold area_byte, area_target. rewrite HY, Hty, Hd. simpl. f_equal. apply Hzero. zdiv_lia.
Qed.

(** ** Removing an area *)

Lemma disjoint_delete l idx : disjoint_areas l → disjoint_areas (delete idx l).
Proof.
  intros Hd i j a b v. rewrite !list_lookup_delete. intros Hi Hj Ha Hb.
  pose proof (Hd _ _ _ _ _ Hi Hj Ha Hb). repeat case_decide; lia.
Qed.

Lemma elem_of_delete (l : list MapArea) idx b :
  b ∈ delete idx l → ∃ j, j ≠ idx ∧ l !! j = Some b.
Proof.
  intros [i Hi]%list_elem_of_lookup. rewrite list_lookup_delete in Hi.
  case_decide; eexists; (split; [|done]); lia.
Qed.

Lemma elem_of_delete_2 (l : list MapArea) (idx j : nat) b :
  l !! j = Some b → j ≠ idx → b ∈ delete idx l.
Proof.
  intros Hj Hne. apply list_elem_of_lookup. destruct (decide (j < idx)%nat).
  - exists j. by rewrite list_lookup_delete_lt.
  - exists (pred j). rewrite list_lookup_delete_ge by lia. by replace (S (pred j)) with j by lia.
Qed.

Lemma areas_frames_delete l idx a :
  l !! idx = Some a → areas_frames l ≡ₚ area_frames a ++ areas_frames (delete idx l).
Proof.
  intros Ha. change (area_frames a ++ _) with (areas_frames (a :: delete idx l)).
  unfold areas_frames. f_equiv. by apply delete_Permutation.
Qed.

(** What unmapping and removing area [a] does. *)
Record remove_post (s : KMem) ms (idx : nat) (a : MapArea) (s' : KMem) (ms' : MemorySet T) : Prop := {
  rp_ok : ms_ok s' ms';
  rp_fa : fa_wf (km_fa s');
  rp_areas : areas ms' = delete idx (areas ms);
  rp_table : page_table ms' = page_table ms;
  rp_brk : brk ms' = brk ms ∧ heap_start ms' = heap_start ms;
  rp_owned : ∀ p, fa_owned (km_fa s') p ↔ fa_owned (km_fa s) p ∧ p ∉ area_frames a;
  rp_free : fa_free (km_fa s') = fa_free (km_fa s) + length (area_frames a);
  rp_same : same_outside (λ p, p ∈ pt_frames (page_table ms)) (km_mem s) (km_mem s');
  rp_gone : ∀ v, in_area a v → pt_lookup (km_mem s') (page_table ms') v = None;
  rp_other : ∀ v, is_vpn v → ¬ in_area a v →
    pt_lookup (km_mem s') (page_table ms') v = pt_lookup (km_mem s) (page_table ms) v;
}.

Lemma released_all a p :
  area_ok a → released a (area_pages a) p ↔ p ∈ area_frames a.
Proof.
  intros Hao. rewrite elem_of_area_frames. unfold released. split.
  - intros (_&v&_&Hv). eauto.
  - intros [v Hv]. assert (map_type a = Framed ∧ in_area a v) as [Hty Hin] by (apply Hao; eauto).
    split; [done|]. exists v. split; [|done]. apply elem_of_area_pages; [apply Hao|done].
Qed.

Lemma area_frames_length a :
  area_ok a → Z.of_nat (length (area_frames a)) =
    if decide (map_type a = Framed) then Z.of_nat (length (area_pages a)) else 0.
Proof.
  intros Hao. unfold area_frames. rewrite length_fmap, length_map_to_list. case_decide as Hty.
  - rewrite <- size_dom. replace (dom (data_frames a)) with (list_to_set (area_pages a) : gset Z).
    + rewrite size_list_to_set; [done|]. apply NoDup_area_pages, Hao.
    + apply set_eq. intros v. rewrite elem_of_list_to_set, elem_of_dom, (ao_dom _ Hao).
      rewrite elem_of_area_pages by apply Hao. tauto.
  - replace (data_frames a) with (∅ : gmap Z Z); [done|]. symmetry. apply map_empty. intros v.
    destruct (data_frames a !! v) eqn:E; [|done].
    assert (map_type a = Framed ∧ in_area a v) as [? _] by (apply (ao_dom _ Hao); eauto). done.
Qed.

(** Nothing is left to drop once every page is unmapped. *)
Lemma unmap_post_empty s t a s' a' :
  area_ok a → unmap_post s t a (area_pages a) s' a' → data_frames a' = ∅.
Proof.
  intros Hao U. apply map_empty. intros v. rewrite (up_frames _ _ _ _ _ _ U).
  case_decide as Hd; [done|]. destruct (data_frames a !! v) eqn:E; [|done].
  assert (map_type a = Framed ∧ in_area a v) as [Hty Hin] by (apply Hao; eauto).
  destruct Hd. split; [|done]. by apply elem_of_area_pages; [apply Hao|].
Qed.

Lemma remove_post_of_unmap s ms idx a s' a' :
  ms_ok s ms → areas ms !! idx = Some a →
  unmap_post s (page_table ms) a (area_pages a) s' a' →
  remove_post s ms idx a s' (with_pt ms (page_table ms) (delete idx (areas ms))).
Proof.
  intros Hok Hidx U. assert (Ha : a ∈ areas ms) by by eapply list_elem_of_lookup_2.
  pose proof (mo_areas _ _ Hok a Ha) as Hao. pose proof (ao_range _ Hao) as Hr.
  destruct U as [_ Hfa Hpt Hsame _ Hown Hfree Hgone Hoth].
  assert (Hown' : ∀ p, fa_owned (km_fa s') p ↔ fa_owned (km_fa s) p ∧ p ∉ area_frames a)
    by (intros p; by rewrite Hown, released_all).
  assert (Hperm : ms_frames ms ≡ₚ area_frames a ++ ms_frames (with_pt ms (page_table ms) (delete idx (areas ms)))).
  { unfold ms_frames; simpl. rewrite (areas_frames_delete _ _ _ Hidx). solve_Permutation. }
  pose proof (mo_nodup _ _ Hok) as Hnd. rewrite Hperm in Hnd. apply NoDup_app in Hnd as (_&Hd&Hnd).
  assert (Hoth' : ∀ v, is_vpn v → ¬ in_area a v →
    pt_lookup (km_mem s') (page_table ms) v = pt_lookup (km_mem s) (page_table ms) v)
    by (intros v Hv Hn; apply Hoth; [done|]; by rewrite elem_of_area_pages).
  split; try done.
  - split; simpl; try done.
    + intros p Hp. apply Hown'. split; [|intros Hin; by eapply Hd].
      apply (mo_owned _ _ Hok). rewrite Hperm. apply elem_of_app. auto.
    + intros b (j&_&Hj)%elem_of_delete. apply Hok. by eapply list_elem_of_lookup_2.
    + apply disjoint_delete, Hok.
    + intros b v (j&Hne&Hj)%elem_of_delete Hin. pose proof (list_elem_of_lookup_2 _ _ _ Hj) as Hb.
      destruct (mo_mapped _ _ Hok b v Hb Hin) as (ppn&?&?&?). exists ppn. rewrite Hoth'; [done| |].
      * by eapply in_area_vpn; [apply Hok|].
      * intros Hia. apply Hne. by eapply (mo_disj _ _ Hok).
    + intros v Hv Ht Hn. destruct (decide (in_area a v)) as [Hin|Hin].
      * apply Hgone. by apply elem_of_area_pages.
      * rewrite Hoth' by done. apply (mo_unmapped _ _ Hok); [done..|]. intros b Hb Hib.
        apply list_elem_of_lookup in Hb as [j Hj]. assert (j ≠ idx) by (intros ->; congruence).
        apply (Hn b); [|done]. by eapply elem_of_delete_2.
  - rewrite Hfree, area_frames_length by done. done.
  - intros v Hv. apply Hgone. by apply elem_of_area_pages.
Qed.

Lemma unmap_area_at_spec s ms idx a :
  fa_wf (km_fa s) → ms_ok s ms → areas ms !! idx = Some a →
  wp (unmap_area_at ms idx a) s (λ ms' s', remove_post s ms idx a s' ms').
Proof.
  intros Hfa Hok Hidx. assert (Ha : a ∈ areas ms) by by eapply list_elem_of_lookup_2.
  pose proof (mo_areas _ _ Hok a Ha) as Hao. pose proof (ao_range _ Hao) as Hr.
  unfold unmap_area_at. wp_next. eapply wp_mono.
  { apply (unmap_pages_spec (area_pages a)); [apply Hok|done|by apply NoDup_area_pages| |].
    - by eapply nodup_frames_inj, ms_area_nodup.
    - intros v Hv%elem_of_area_pages; [|done]. split; [by eapply in_area_vpn|].
      destruct (mo_mapped _ _ Hok a v Ha Hv) as (ppn&Ht&_&->). split; [done|]. intros Hty.
      unfold area_target in Ht. rewrite Hty in Ht. exists ppn. split; [done|].
      eapply (ms_area_frame _ _ a); [done..|]. apply elem_of_area_frames. eauto. }
  intros a' s' U. wp_steps. unfold drop_area, frames_in_order.
  rewrite (unmap_post_empty _ _ _ _ _ Hao U), map_to_list_empty. simpl. wp_steps.
  eapply remove_post_of_unmap; [done..|exact U].
Qed.

(** ** [munmap] *)

Definition area_is (sv ev : Z) (a : MapArea) : Prop :=
  get_start (vpn_range a) = sv ∧ get_end (vpn_range a) = ev.

(** The arguments [munmap] accepts, for an area it removes. *)
Definition munmap_target ms (start len : Z) (idx : nat) (a : MapArea) : Prop :=
  len ≠ 0 ∧ va_aligned (va_from_usize start) = true ∧ start + len < 2 ^ 64 ∧
  va_floor (va_from_usize start) < va_ceil (va_from_usize (start + len)) ∧
  areas ms !! idx = Some a ∧
  area_is (va_floor (va_from_usize start)) (va_ceil (va_from_usize (start + len))) a.

Lemma munmap_wp s ms start len :
  fa_wf (km_fa s) → ms_ok s ms →
  wp (munmap ms start len) s (λ '(ms', r) s',
    match r with
    | Ok _ => ∃ idx a, munmap_target ms start len idx a ∧ remove_post s ms idx a s' ms'
    | Err e => e = -1 ∧ ms' = ms ∧ s' = s ∧ ∀ idx a, ¬ munmap_target ms start len idx a
    end).
Proof.
  intros Hfa Hok. unfold munmap, munmap_target.
  destruct (Z.eqb_spec len 0) as [|Hlen]; [wp_steps; naive_solver|].
  destruct (va_aligned _) eqn:Hal; simpl; [|wp_steps; naive_solver].
  unfold checked_add. destruct (Z.ltb_spec (start + len) (2 ^ 64)) as [Hlt|]; [|wp_steps; naive_solver lia].
  destruct (Z.leb_spec (va_ceil (va_from_usize (start + len))) (va_floor (va_from_usize start)));
    [wp_steps; naive_solver lia|].
  destruct (list_find _ (areas ms)) as [[idx a]|] eqn:Hf.
  - apply list_find_Some in Hf as (Hidx&Ha&_). wp_steps.
    eapply wp_mono; [by apply unmap_area_at_spec|]. intros ms' s' R. wp_steps.
    exists idx, a. split; [|exact R]. done.
  - wp_steps. apply list_find_None in Hf. rewrite Forall_forall in Hf. split_and!; try done.
    intros idx a (_&_&_&_&Hidx&Ha). eapply Hf; [|exact Ha]. by eapply list_elem_of_lookup_2.
Qed.

(** ** [recycle_data_pages] *)

Lemma drop_areas_spec l : ∀ s,
  fa_wf (km_fa s) → NoDup (areas_frames l) → owns s (areas_frames l) →
  wp (kfor l drop_area) s (λ _ s',
    fa_wf (km_fa s') ∧ km_mem s' = km_mem s ∧
    (∀ p, fa_owned (km_fa s') p ↔ fa_owned (km_fa s) p ∧ p ∉ areas_frames l) ∧
    fa_free (km_fa s') = fa_free (km_fa s) + length (areas_frames l)).
Proof.
  induction l as [|a l IH]; intros s Hfa Hnd Ho; simpl.
  { wp_steps. split; [done|]. split; [done|]. split; [|simpl; lia].
    intros p. unfold areas_frames. simpl. rewrite elem_of_nil. tauto. }
  change (areas_frames (a :: l)) with (area_frames a ++ areas_frames l) in *.
  apply NoDup_app in Hnd as (Hnd1&Hdis&Hnd2). wp_steps.
  eapply wp_mono; [apply drop_area_spec; [done..|]|].
  { intros p Hp. apply Ho, elem_of_app. auto. }
  intros [] s1 (W1&M1&O1&F1). eapply wp_mono; [apply IH; try done|].
  - intros p Hp. apply O1. split; [apply Ho, elem_of_app; auto|]. intros Hin. by eapply Hdis.
  - intros [] s2 (W2&M2&O2&F2). split; [done|]. split; [congruence|]. split.
    + intros p. rewrite O2, O1, elem_of_app. tauto.
    + rewrite F2, F1, length_app. lia.
Qed.

Lemma recycle_wp s ms :
  fa_wf (km_fa s) → ms_ok s ms →
  wp (recycle_data_pages ms) s (λ ms' s',
    areas ms' = [] ∧ page_table ms' = page_table ms ∧ fa_wf (km_fa s') ∧ km_mem s' = km_mem s ∧
    (∀ p, fa_owned (km_fa s') p ↔ fa_owned (km_fa s) p ∧ p ∉ areas_frames (areas ms)) ∧
    fa_free (km_fa s') = fa_free (km_fa s) + length (areas_frames (areas ms))).
Proof.
  intros Hfa Hok. unfold recycle_data_pages. wp_steps. eapply wp_mono; [apply drop_areas_spec|].
  - done.
  - pose proof (mo_nodup _ _ Hok) as Hnd. by apply NoDup_app in Hnd as (_&_&?).
  - intros p Hp. apply (mo_owned _ _ Hok), elem_of_app. auto.
  - intros [] s' (?&?&?&?). wp_steps. done.
Qed.

(** ** A new address space with the trampoline *)

Definition tramp_ok (strampoline : Z) : Prop :=
  0 <= strampoline < 2 ^ 56 ∧ strampoline mod 4096 = 0.

Definition tramp_pte (strampoline : Z) : Z := pte_make (strampoline / 4096) (Z.lor PERM_R PERM_X).

Record bare_post (s : KMem) (strampoline : Z) (s' : KMem) ms : Prop := {
  bp_fa : fa_wf (km_fa s');
  bp_ok : ms_ok s' ms;
  bp_areas : areas ms = [];
  bp_brk : brk ms = 0;
  bp_grows : grows s (ms_frames ms) s';
  bp_len : (length (ms_frames ms) <= 3)%nat;
  bp_same : same_outside (λ p, p ∈ ms_frames ms) (km_mem s) (km_mem s');
  bp_tramp : pt_lookup (km_mem s') (page_table ms) TRAMP_VPN = Some (tramp_pte strampoline);
}.

Lemma tramp_ppn_eq st : tramp_ok st → ppn_from_pa (pa_from_usize st) = Done (st / 4096) ∧ is_ppn (st / 4096).
Proof.
  intros [Hr Hm]. unfold ppn_from_pa. rewrite pa_from_usize_mod, Z.mod_small by lia.
  rewrite pa_page_offset_mod, Hm. split; [done|]. unfold is_ppn. zdiv_lia.
Qed.

Lemma bare_trampoline_wp st s :
  fa_wf (km_fa s) → tramp_ok st → 3 <= fa_free (km_fa s) →
  wp new_bare s (λ ms s1, wp (map_trampoline st ms) s1 (λ ms' s', bare_post s st s' ms')).
Proof.
  intros Hfa Hst Hfree. destruct (tramp_ppn_eq st Hst) as [Hppn Hp].
  unfold new_bare. wp_steps. eapply wp_mono; [apply pt_new_spec; [done|lia]|].
  intros t s1 (G1&Hok1&Hl1&Hs1&Hn1). wp_steps. unfold map_trampoline. wp_steps.
  eapply wp_lift; [done|]. wp_steps. eapply wp_lift; [exact Hppn|]. wp_steps. simpl.
  pose proof (gr_free _ _ _ G1) as Hf1. eapply wp_mono.
  { eapply cwp_wp; [apply pt_map_spec; try done; [apply G1|]|split; [by apply Hn1|lia]].
    intros p Hp'. apply (gr_owned _ _ _ G1). auto. }
  intros t' s2 (_&new&G2&Hl2&Hf2&_&Hok2&Hs2&Hlook2). wp_steps.
  assert (HF : ms_frames (with_pt (mkMS t [] 0 0) t' []) = pt_frames t ++ new).
  { unfold ms_frames; simpl. by rewrite app_nil_r, Hf2. }
  pose proof (grows_trans _ _ _ _ _ G1 G2) as G. change (va_floor (va_from_usize TRAMPOLINE)) with TRAMP_VPN in *.
  split; try rewrite HF; try done.
  - apply G2.
  - split; simpl; try set_solver; try done.
    + rewrite HF. intros p Hp'. apply (gr_owned _ _ _ G). auto.
    + rewrite HF. apply G.
    + intros v Hv Ht _. rewrite Hlook2, decide_False by done. auto.
  - rewrite length_app. lia.
  - rewrite Hf2 in Hs2. eapply same_outside_trans; [done|done|set_solver|done].
  - simpl. rewrite Hlook2, decide_True by done. done.
Qed.
End ops_spec.
