(* ===== verification/Mmap.v ===== *)
(** * [find_free_area], [mmap] and [expand_heap] *)

From S2P Require Import Prelude Address PhysMem IdAlloc FrameAlloc PageTable MemorySet MapAreaSpec MemorySetSpec MemorySetOps.

(** ** Overlap *)

Lemma check_overlapping_None a sv ev :
  check_overlapping a sv ev = None ↔ ev < get_start (vpn_range a) ∨ get_end (vpn_range a) < sv.
Proof.
  unfold check_overlapping.
  destruct (Z.ltb_spec ev (get_start (vpn_range a))), (Z.ltb_spec (get_end (vpn_range a)) sv); simpl;
    split; try done; intros; lia.
Qed.

Definition no_conflict (l : list MapArea) (sv ev : Z) : Prop :=
  ∀ a, a ∈ l → ev < get_start (vpn_range a) ∨ get_end (vpn_range a) < sv.

Lemma existsb_conflict l sv ev :
  existsb (λ a, bool_decide (is_Some (check_overlapping a sv ev))) l = false ↔ no_conflict l sv ev.
Proof.
  unfold no_conflict. induction l as [|a l IH]; simpl; [split; [set_solver|done]|].
  rewrite orb_false_iff, IH, bool_decide_eq_false, <- eq_None_not_Some, check_overlapping_None.
  setoid_rewrite elem_of_cons. naive_solver.
Qed.

(** ** [find_free_area] terminates *)

(** Every area lies below page [B] or from page [H] on, as the program, heap and
    mappings do on one side and the stacks and trap contexts on the other. *)
Definition split_at (l : list MapArea) (B H : Z) : Prop :=
  ∀ a, a ∈ l → range_ok a ∧ (get_end (vpn_range a) <= B ∨ H <= get_start (vpn_range a)).

Lemma va_of_vpn v : 0 <= v < 2 ^ 26 → va_to_usize (va_from_vpn v) = v * 4096.
Proof. intros. rewrite va_from_vpn_eq by lia. apply va_to_usize_low. lia. Qed.

Lemma va_of_vpn_high v : 2 ^ 26 <= v < 2 ^ 27 → va_to_usize (va_from_vpn v) = v * 4096 + (2 ^ 64 - 2 ^ 39).
Proof. intros. rewrite va_from_vpn_eq by lia. apply va_to_usize_high. lia. Qed.

Lemma va_from_usize_id v : 0 <= v < 2 ^ 39 → va_from_usize v = v.
Proof. intros. rewrite va_from_usize_mod. by apply Z.mod_small. Qed.

(** The limit the search stays below. *)
Definition search_limit (b B : Z) : Z := Z.max b ((B + 2) * 4096).

Section find_free.
Context (l : list MapArea) (B H b len : Z).
Context (Hsplit : split_at l B H) (HB : 0 <= B) (HH : H <= 2 ^ 27).
Context (Hb : 0 <= b) (Hlen : 0 <= len).
Context (Hroom : search_limit b B + len + 4096 <= H * 4096).
Context (Hlow : search_limit b B + len + 4096 <= 2 ^ 38).

Lemma find_free_range addr :
  b <= addr <= search_limit b B →
  va_floor (va_from_usize addr) = addr / 4096 ∧
  va_ceil (va_from_usize (addr +w len)) = (addr + len + 4095) / 4096.
Proof using Hb Hlen Hlow.
  intros Ha. rewrite wadd_small, !va_from_usize_id by lia. split; [done|].
  rewrite va_ceil_eq by lia. done.
Qed.

Lemma find_free_step_ok addr :
  b <= addr <= search_limit b B →
  match find_free_step l len addr with
  | inl addr' => b <= addr' <= search_limit b B ∧ addr < addr'
  | inr r => r = addr ∧ no_conflict l (addr / 4096) ((addr + len + 4095) / 4096)
  end.
Proof using All.
  intros Ha. unfold find_free_step. destruct (find_free_range addr Ha) as [-> ->].
  destruct (existsb _ l) eqn:Hc; simpl; [|split; [done|]; by apply existsb_conflict].
  assert (HaB : addr / 4096 <= B).
  { apply not_false_iff_true in Hc. destruct (decide (addr / 4096 <= B)) as [|Hgt]; [done|].
    destruct Hc. apply existsb_conflict. intros a Hin. destruct (Hsplit a Hin) as [_ [?|?]]; [lia|].
    left. unfold search_limit in *. zdiv_lia. }
  destruct (list_find _ l) as [[i a]|] eqn:Hf.
  - apply list_find_Some in Hf as (Hi&[Ha1 Ha2]&_). apply list_elem_of_lookup_2 in Hi.
    destruct (Hsplit a Hi) as [[R0 R1 R2] Hs]. unfold TRAMP_VPN in R2.
    assert (Hend : get_end (vpn_range a) <= B).
    { destruct Hs as [?|Hs]; [done|]. exfalso. unfold search_limit in *.
      destruct (decide (get_start (vpn_range a) < 2 ^ 26)).
      - rewrite va_of_vpn in Ha1 by lia. zdiv_lia.
      - rewrite va_of_vpn_high in Ha1 by lia. zdiv_lia. }
    unfold search_limit in *. rewrite va_of_vpn in Ha2 |- * by lia. split; [lia|done].
  - unfold search_limit in *. rewrite wadd_small by (unfold PAGE_SIZE; zdiv_lia).
    unfold PAGE_SIZE. zdiv_lia.
Qed.

Lemma find_free_total :
  ∃ addr, iterate (2 ^ 53) (find_free_step l len) b = inr addr ∧ b <= addr <= search_limit b B ∧
          no_conflict l (addr / 4096) ((addr + len + 4095) / 4096).
Proof using All.
  destruct (iterate_total (find_free_step l len) (λ a, b <= a <= search_limit b B)
    (λ r, b <= r <= search_limit b B ∧ no_conflict l (r / 4096) ((r + len + 4095) / 4096))
    (λ a, search_limit b B - a)) with (p := (2 ^ 53)%positive) (a := b) as (r&?&?&?).
  - intros a Ha. pose proof (find_free_step_ok a Ha) as Hs.
    destruct (find_free_step l len a) as [a'|r]; [lia|]. destruct Hs as [-> ?]. done.
  - unfold search_limit. lia.
  - unfold search_limit in *. lia.
  - eauto.
Qed.
End find_free.

Section mmap_spec.
Context {T : Type} `{!PageTable T}.
Implicit Types ms : MemorySet T.

Lemma round_page_up len :
  0 <= len < 2 ^ 64 - 4096 →
  Z.land (len +w PAGE_SIZE -w 1) (wnot (PAGE_SIZE - 1)) = (len + 4095) / 4096 * 4096.
Proof. intros. apply (align_up_page len). unfold PAGE_SIZE. lia. Qed.

Lemma find_free_area_eq ms len B H :
  split_at (areas ms) B H → 0 <= B → H <= 2 ^ 27 → 0 <= brk ms → 0 <= len →
  search_limit (brk ms) B + len + 8192 <= H * 4096 →
  search_limit (brk ms) B + len + 8192 <= 2 ^ 38 →
  ∃ addr, brk ms <= addr <= search_limit (brk ms) B ∧
    no_conflict (areas ms) (addr / 4096) ((addr + (len + 4095) / 4096 * 4096 + 4095) / 4096) ∧
    find_free_area ms len =
      Some (addr, mkMS (page_table ms) (areas ms) (addr + (len + 4095) / 4096 * 4096) (heap_start ms)).
Proof.
  intros Hs HB HH Hb Hl Hr1 Hr2. unfold find_free_area. unfold search_limit in *.
  rewrite round_page_up by lia.
  destruct (find_free_total (areas ms) B H (brk ms) ((len + 4095) / 4096 * 4096))
    as (addr&->&Ha&Hn); try done; try (unfold search_limit; zdiv_lia).
  exists addr. unfold search_limit in *. rewrite wadd_small by zdiv_lia. done.
Qed.

(** ** Inserting a framed area *)

Definition area_spec (a : MapArea) (sv ev perm : Z) : Prop :=
  vpn_range a = mkRange sv ev ∧ map_type a = Framed ∧ map_perm a = perm.

Lemma insert_framed_wp s ms start_va end_va perm :
  fa_wf (km_fa s) → ms_ok s ms → is_perm perm →
  0 <= va_floor start_va <= va_ceil end_va → va_ceil end_va <= TRAMP_VPN →
  (∀ a v, a ∈ areas ms → va_floor start_va <= v < va_ceil end_va → ¬ in_area a v) →
  3 * (va_ceil end_va - va_floor start_va) <= fa_free (km_fa s) →
  wp (insert_framed_area ms start_va end_va perm) s (λ ms' s', ∃ a new a',
    area_spec a (va_floor start_va) (va_ceil end_va) perm ∧ push_post s ms a new s' ms' a').
Proof.
  intros Hfa Hok Hp Hr1 Hr2 Hfr Hfree. unfold insert_framed_area. wp_steps.
  set (a := mkArea (mkRange (va_floor start_va) (va_ceil end_va)) ∅ Framed perm).
  apply wp_lift with a.
  { unfold area_new, range_new. by rewrite (proj2 (Z.leb_le _ _)) by lia. }
  eapply wp_mono; [apply push_spec; try done|].
  - split; try done.
    split; simpl; lia.
  - intros ms' s' (new&a'&Hpost). by exists a, new, a'.
Qed.

(** ** [expand_heap] *)

Lemma expand_heap_wp s ms new_brk :
  fa_wf (km_fa s) → ms_ok s ms → 0 <= brk ms → 0 <= new_brk < 2 ^ 38 - 4096 → brk ms < 2 ^ 38 - 4096 →
  (∀ a v, a ∈ areas ms → (brk ms + 4095) / 4096 <= v < (new_brk + 4095) / 4096 → ¬ in_area a v) →
  3 * ((new_brk + 4095) / 4096 - (brk ms + 4095) / 4096) <= fa_free (km_fa s) →
  wp (expand_heap ms new_brk) s (λ '(ms', r) s', r = Ok () ∧
    if decide ((brk ms + 4095) / 4096 < (new_brk + 4095) / 4096) then
      ∃ a new a', area_spec a ((brk ms + 4095) / 4096) ((new_brk + 4095) / 4096)
                    (Z.lor (Z.lor PERM_R PERM_W) PERM_U) ∧ push_post s ms a new s' ms' a'
    else ms' = ms ∧ s' = s).
Proof.
  intros Hfa Hok Hb Hn Hb2 Hfr Hfree. unfold expand_heap.
  rewrite !align_up_page by (unfold PAGE_SIZE; lia).
  rewrite !va_from_usize_id by zdiv_lia.
  destruct (Z.ltb_spec ((brk ms + 4095) / 4096 * 4096) ((new_brk + 4095) / 4096 * 4096)) as [Hlt|Hge].
  - wp_steps.
    assert (Hfl : va_floor ((brk ms + 4095) / 4096 * 4096) = (brk ms + 4095) / 4096)
      by (unfold va_floor, PAGE_SIZE; zdiv_lia).
    assert (Hce : va_ceil ((new_brk + 4095) / 4096 * 4096) = (new_brk + 4095) / 4096)
      by (rewrite va_ceil_eq by zdiv_lia; zdiv_lia).
    rewrite <- Hfl, <- Hce in Hfr, Hfree.
    eapply wp_mono; [apply insert_framed_wp; try done|].
    + rewrite Hfl, Hce. zdiv_lia.
    + rewrite Hce. unfold TRAMP_VPN. zdiv_lia.
    + intros ms' s' (a&new&a'&Hs&Hp). wp_steps. split; [done|]. rewrite decide_True by lia.
      exists a, new, a'. by rewrite <- Hfl, <- Hce.
  - wp_steps. by rewrite decide_False by lia.
Qed.

(** ** [mmap] *)

#[global] Instance no_conflict_dec l sv ev : Decision (no_conflict l sv ev).
Proof.
  destruct (existsb (λ a, bool_decide (is_Some (check_overlapping a sv ev))) l) eqn:E.
  - right. rewrite <- existsb_conflict, E. done.
  - left. by apply existsb_conflict.
Defined.

Definition mmap_perm (prot : Z) : Z :=
  default (Z.lor (Z.lor PERM_R PERM_W) PERM_U) (perm_from_bits (prot mod 256)).

Lemma mmap_perm_ok prot : is_perm (mmap_perm prot).
Proof.
  unfold mmap_perm. destruct (perm_from_bits (prot mod 256)) as [p|] eqn:E; [|done]. simpl.
  unfold is_perm. unfold perm_from_bits in E |- *. destruct (Z.eqb_spec (Z.land (prot mod 256) PERM_ALL) (prot mod 256)) as [Hp|]; [|done].
  injection E as <-. by rewrite (proj2 (Z.eqb_eq _ _)).
Qed.

Definition end_page (va len : Z) : Z := (va + len + 4095) / 4096.

(** An anonymous mapping of the pages of [va, va + len) was added. *)
Definition mapped_at (s : KMem) ms (va len prot : Z) (s' : KMem) (ms' : MemorySet T) : Prop :=
  ∃ a new a', area_spec a (va / 4096) (end_page va len) (mmap_perm prot) ∧ push_post s ms a new s' ms' a'.

Lemma mmap_at_wp s ms va len prot off :
  fa_wf (km_fa s) → ms_ok s ms → 0 <= va → 0 < len → va + len + 4096 <= 2 ^ 38 →
  3 * (end_page va len - va / 4096) <= fa_free (km_fa s) →
  wp (mmap_at ms va len prot None off) s (λ '(ms', r) s',
    if decide (no_conflict (areas ms) (va / 4096) (end_page va len))
    then r = Ok va ∧ mapped_at s ms va len prot s' ms'
    else r = Err (-1) ∧ ms' = ms ∧ s' = s).
Proof.
  intros Hfa Hok Hva Hlen Hr Hfree. unfold mmap_at. rewrite va_to_usize_low by lia.
  unfold checked_add. rewrite (proj2 (Z.ltb_lt _ _)) by lia. rewrite va_from_usize_id by lia.
  unfold end_page in *. rewrite va_ceil_eq by lia. unfold va_floor at 1. change PAGE_SIZE with 4096 at 1.
  destruct (existsb _ (areas ms)) eqn:Hc.
  - wp_steps. rewrite decide_False; [done|]. intros Hn. apply not_false_iff_true in Hc.
    by apply Hc, existsb_conflict.
  - apply existsb_conflict in Hc. fold (mmap_perm prot).
    assert (Hf : va_floor va = va / 4096) by done.
    assert (Hce : va_ceil (va + len) = (va + len + 4095) / 4096) by (apply va_ceil_eq; lia).
    wp_steps. eapply wp_lift.
    { unfold area_new, range_new. rewrite (proj2 (Z.leb_le _ _)) by (rewrite Hf, Hce; zdiv_lia). done. }
    wp_steps. eapply wp_mono; [apply insert_framed_wp; rewrite ?Hf, ?Hce; try done|].
    + apply mmap_perm_ok.
    + zdiv_lia.
    + unfold TRAMP_VPN. zdiv_lia.
    + intros a v Ha Hv Hin. unfold in_area in Hin. destruct (Hc a Ha); lia.
    + rewrite Hf, Hce. intros ms' s' (a&new&a'&Hs&Hp). wp_steps.
      rewrite decide_True by done. split; [done|]. by exists a, new, a'.
Qed.

Lemma ms_ok_brk s ms b h : ms_ok s ms → ms_ok s (mkMS (page_table ms) (areas ms) b h).
Proof. intros [???????]. by split. Qed.

Lemma mmap_fixed_wp s ms start len prot flags off :
  fa_wf (km_fa s) → ms_ok s ms → 0 < start → start mod 4096 = 0 → 0 < len →
  start + len + 4096 <= 2 ^ 38 → 3 * (end_page start len - start / 4096) <= fa_free (km_fa s) →
  wp (mmap ms start len prot flags None off) s (λ '(ms', r) s',
    if decide (no_conflict (areas ms) (start / 4096) (end_page start len))
    then r = Ok start ∧ mapped_at s ms start len prot s' ms'
    else r = Err (-1) ∧ ms' = ms ∧ s' = s).
Proof.
  intros Hfa Hok Hst Hal Hlen Hr Hfree. unfold mmap.
  rewrite (proj2 (Z.eqb_neq len 0)), (proj2 (Z.eqb_neq start 0)) by lia.
  rewrite va_from_usize_id by lia. unfold va_aligned. rewrite va_page_offset_mod, Hal. simpl.
  apply mmap_at_wp; try done; lia.
Qed.

Lemma mmap_anywhere_wp s ms len prot flags off B H :
  fa_wf (km_fa s) → ms_ok s ms → split_at (areas ms) B H → 0 <= B → H <= 2 ^ 27 →
  0 <= brk ms → 0 < len →
  search_limit (brk ms) B + len + 8192 <= H * 4096 →
  search_limit (brk ms) B + len + 8192 <= 2 ^ 38 →
  3 * (len / 4096 + 2) <= fa_free (km_fa s) →
  wp (mmap ms 0 len prot flags None off) s (λ '(ms', r) s', ∃ addr ms0,
    r = Ok addr ∧ brk ms <= addr ∧ brk ms0 = addr + (len + 4095) / 4096 * 4096 ∧
    areas ms0 = areas ms ∧ page_table ms0 = page_table ms ∧
    mapped_at s ms0 addr len prot s' ms').
Proof.
  intros Hfa Hok Hs HB HH Hb Hlen Hr1 Hr2 Hfree. unfold mmap.
  rewrite (proj2 (Z.eqb_neq len 0)) by lia. change (0 =? 0) with true. cbv iota.
  destruct (find_free_area_eq ms len B H) as (addr&Ha&Hn&->); try done; try lia.
  wp_steps. rewrite va_from_usize_id by lia. eapply wp_mono.
  { apply mmap_at_wp; try done; try lia; [by apply ms_ok_brk|]. unfold end_page. zdiv_lia. }
  intros [ms' r] s'. simpl. rewrite decide_True.
  - intros [-> Hm]. exists addr, (mkMS (page_table ms) (areas ms) (addr + (len + 4095) / 4096 * 4096) (heap_start ms)).
    split_and!; try done; lia.
  - intros a Hin. unfold end_page. destruct (Hn a Hin) as [?|?]; [left|by right]. zdiv_lia.
Qed.

(** A fixed mapping that would wrap around the 39-bit address space panics. *)
Lemma mmap_wrap_panics s ms start len prot flags off :
  start mod 4096 = 0 → 0 < start < 2 ^ 38 → 2 ^ 39 <= start + len < 2 ^ 39 + start →
  no_conflict (areas ms) (start / 4096) (end_page (start - 2 ^ 39) len) →
  end_page (start - 2 ^ 39) len < start / 4096 →
  mmap ms start len prot flags None off s = Panic.
Proof.
  intros Hal Hst Hl Hn Hlt. unfold mmap, mmap_at.
  rewrite (proj2 (Z.eqb_neq len 0)), (proj2 (Z.eqb_neq start 0)) by lia.
  rewrite va_from_usize_id by lia. unfold va_aligned. rewrite va_page_offset_mod, Hal. simpl.
  rewrite va_to_usize_low by lia. unfold checked_add. rewrite (proj2 (Z.ltb_lt _ _)) by lia.
  rewrite va_from_usize_mod. replace ((start + len) mod 2 ^ 39) with (start - 2 ^ 39 + len) by zdiv_lia.
  rewrite va_ceil_eq by lia. apply existsb_conflict in Hn. unfold end_page in Hn, Hlt. 
  unfold va_floor. change PAGE_SIZE with 4096. rewrite Hn.
  unfold mbind, K_bind, klift, area_new, range_new, va_floor. rewrite va_ceil_eq by lia.
  change PAGE_SIZE with 4096. by rewrite (proj2 (Z.leb_gt _ _)) by lia.
Qed.
(** A length beyond the 39-bit address space counts modulo its size: [mmap]
    succeeds and maps fewer pages than it was asked for. *)
Lemma mmap_len_wraps s ms start len prot flags off :
  0 < start < 2 ^ 38 → 0 < len → start + len + 2 ^ 39 < 2 ^ 64 →
  mmap ms start (len + 2 ^ 39) prot flags None off s = mmap ms start len prot flags None off s.
Proof.
  intros Hst Hlen Hr. unfold mmap, mmap_at.
  rewrite (proj2 (Z.eqb_neq (len + 2 ^ 39) 0)), (proj2 (Z.eqb_neq len 0)), (proj2 (Z.eqb_neq start 0)) by lia.
  rewrite va_from_usize_id by lia. destruct (va_aligned start); [|done]. cbn [negb].
  rewrite va_to_usize_low by lia. unfold checked_add. rewrite !(proj2 (Z.ltb_lt _ _)) by lia.
  assert (E : va_from_usize (start + (len + 2 ^ 39)) = va_from_usize (start + len)) by (rewrite !va_from_usize_mod; zdiv_lia).
  by rewrite E.
Qed.

(** ** Any arguments *)

(** What the calls that add memory can do to a space. *)
Definition ms_adds (s : KMem) ms (s' : KMem) ms' : Prop :=
  (page_table ms' = page_table ms ∧ areas ms' = areas ms ∧ s' = s) ∨
  ∃ new a, ms_grow s ms new s' ms' ∧ ms_ok s' ms' ∧ areas ms' = areas ms ++ [a] ∧ map_type a = Framed.

Lemma ms_adds_brk s ms s' ms' b h b' h' :
  ms_adds s (mkMS (page_table ms) (areas ms) b h) s' ms' → ms_adds s ms s' (mkMS (page_table ms') (areas ms') b' h').
Proof.
  intros [(H1&H2&H3)|(new&a&[G1 G2 G3 G4 G5 G6]&Hok&Ha&Hty)]; [by left|]. right. exists new, a.
  split; [by split|]. split; [by apply ms_ok_brk|done].
Qed.

Lemma push_adds s ms a new s' ms' a' : push_post s ms a new s' ms' a' → map_type a = Framed → ms_adds s ms s' ms'.
Proof.
  intros P Hty. right. exists new, a'. split; [apply P|]. split; [apply P|]. split; [apply P|].
  by destruct (pp_attrs _ _ _ _ _ _ _ P) as (_&->&_).
Qed.

Section any.
Context (s : KMem) (ms : MemorySet T) (e : Z) (Hfa : fa_wf (km_fa s)) (Hok : ms_ok s ms).
Context (Htr : pt_lookup (km_mem s) (page_table ms) TRAMP_VPN = Some e).

(** An area that takes the last page is refused: the trampoline is there. *)
Lemma push_tramp_panics start perm :
  0 <= start <= TRAMP_VPN → is_perm perm → push ms (mkArea (mkRange start (TRAMP_VPN + 1)) ∅ Framed perm) None s = Panic.
Proof using All.
  intros Hs Hperm. unfold push, area_map, mbind, K_bind. set (a := mkArea _ _ _ _). unfold TRAMP_VPN in *. cbn [vpn_range a].
  rewrite range_elems_seqZ by lia.
  pose proof (map_pages_cwp (seqZ start (2 ^ 27 - 1 + 1 - start)) s (page_table ms) a (mo_pt _ _ Hok) Hfa) as Hc.
  unfold cwp in Hc. destruct (kfold _ _ _ _) as [[[a1 t1] m1]|]; [exfalso|done]. destruct Hc as [Hn _].
  - intros p Hp. apply (mo_owned _ _ Hok), elem_of_app. by left.
  - done.
  - apply NoDup_seqZ.
  - intros v Hv%elem_of_seqZ. split; [unfold is_vpn; lia|done].
  - rewrite Hn in Htr; [done|]. apply elem_of_seqZ. unfold TRAMP_VPN. lia.
Qed.

Lemma insert_framed_any start_va end_va perm :
  is_perm perm → 0 <= start_va < 2 ^ 39 → 0 <= end_va < 2 ^ 39 →
  wlp (insert_framed_area ms start_va end_va perm) s (λ ms' s', ms_adds s ms s' ms').
Proof using All.
  intros Hperm Hs He. unfold insert_framed_area. apply wlp_bind, wlp_intro. intros a s1. unfold klift, area_new, range_new.
  assert (Hf : 0 <= va_floor start_va < 2 ^ 27) by (unfold va_floor, PAGE_SIZE; zdiv_lia).
  assert (Hc : 0 <= va_ceil end_va <= 2 ^ 27) by (rewrite va_ceil_eq by lia; zdiv_lia).
  destruct (Z.leb_spec (va_floor start_va) (va_ceil end_va)) as [Hle|]; [|done].
  cbn [mbind outcome_bind mret outcome_ret]. intros [= <- <-]. destruct (decide (va_ceil end_va <= TRAMP_VPN)) as [Ht|Ht].
  - eapply wlp_mono; [eapply cwp_wlp, push_cwp; try done; split; simpl; lia|].
    intros ms' s' (_&new&a'&P). by eapply push_adds.
  - assert (Hct : va_ceil end_va = TRAMP_VPN + 1) by (unfold TRAMP_VPN in *; lia). unfold wlp.
    pose proof (push_tramp_panics (va_floor start_va) perm ltac:(unfold TRAMP_VPN; lia) Hperm) as Hp.
    rewrite <- Hct in Hp. by rewrite Hp.
Qed.

Lemma va_from_usize_range z : 0 <= va_from_usize z < 2 ^ 39.
Proof using. rewrite va_from_usize_mod. apply Z.mod_pos_bound. lia. Qed.

Lemma expand_heap_any new_brk :
  wlp (expand_heap ms new_brk) s (λ '(ms', r) s', r = Ok () ∧ ms_adds s ms s' ms').
Proof using All.
  unfold expand_heap. wlp_next. destruct (_ <? _).
  - eapply wlp_mono; [apply insert_framed_any; [done|apply va_from_usize_range..]|]. intros ms' s' H. by wlp_steps.
  - wlp_steps. split; [done|]. by left.
Qed.

Lemma munmap_any start len :
  wp (munmap ms start len) s (λ '(ms', r) s',
    match r with
    | Ok _ => ∃ idx a, areas ms !! idx = Some a ∧ remove_post s ms idx a s' ms'
    | Err e => ms' = ms ∧ s' = s
    end).
Proof using Hfa Hok.
  eapply wp_mono; [by apply munmap_wp|]. intros [ms' [u|err]] s'.
  - intros (idx&a&(_&_&_&_&Hi&_)&R). by exists idx, a.
  - by intros (_&->&->&_).
Qed.
End any.

Lemma mmap_at_any s ms e va len prot off :
  fa_wf (km_fa s) → ms_ok s ms → pt_lookup (km_mem s) (page_table ms) TRAMP_VPN = Some e → 0 <= va < 2 ^ 39 →
  wlp (mmap_at ms va len prot None off) s (λ '(ms', r) s', ms_adds s ms s' ms').
Proof.
  intros Hfa Hok Htr Hva. unfold mmap_at. destruct (checked_add _ _) as [stop|]; [|by wlp_steps; left].
  destruct (existsb _ _); [by wlp_steps; left|]. fold (mmap_perm prot). apply wlp_bind, wlp_intro. intros a s1 E.
  assert (s1 = s) as -> by (unfold klift in E; destruct (area_new _ _ _ _); [|done]; by injection E as _ <-).
  wlp_next. eapply wlp_mono; [by eapply insert_framed_any; [..|apply mmap_perm_ok|done|apply va_from_usize_range]|].
  intros ms' s' H. by wlp_steps.
Qed.

Lemma find_free_area_space ms len va ms0 :
  find_free_area ms len = Some (va, ms0) → page_table ms0 = page_table ms ∧ areas ms0 = areas ms.
Proof. unfold find_free_area. destruct (iterate (2 ^ 53) _ _) as [x|addr]; intros E; [discriminate E|]. injection E as _ <-. split; reflexivity. Qed.

Lemma mmap_any s ms e start len prot flags off :
  fa_wf (km_fa s) → ms_ok s ms → pt_lookup (km_mem s) (page_table ms) TRAMP_VPN = Some e →
  wlp (mmap ms start len prot flags None off) s (λ '(ms', r) s', ms_adds s ms s' ms').
Proof.
  intros Hfa Hok Htr. unfold mmap. destruct (len =? 0); [by wlp_steps; left|]. destruct (start =? 0).
  - apply wlp_bind, wlp_unwrap. intros [va ms0] [Hp Ha]%find_free_area_space. destruct ms0 as [t0 l0 b0 h0]. cbn in Hp, Ha. subst t0 l0.
    eapply wlp_mono; [eapply mmap_at_any; [exact Hfa|by apply ms_ok_brk|exact Htr|apply va_from_usize_range]|].
    intros [[t1 l1 b1 h1] r] s' H. exact (ms_adds_brk _ _ _ (mkMS t1 l1 b1 h1) _ _ _ _ H).
  - destruct (negb _); [by wlp_steps; left|]. eapply mmap_at_any; [done..|apply va_from_usize_range].
Qed.
End mmap_spec.
