(* ===== verification/Fork.v ===== *)
(** * [from_existed_user]: copying an address space

    The child has the parent's areas, with the same permissions and the same
    contents, in frames nobody owned before; the parent is unchanged. *)

From S2P Require Import Prelude Address PhysMem IdAlloc FrameAlloc PageTable MemorySet MapAreaSpec MemorySetSpec MemorySetOps.

(** Area [c] is a copy of [a]. *)
Definition copied (m : mem) (a c : MapArea) : Prop :=
  same_attrs a c ∧ ∀ va, in_area a (va / 4096) → area_byte m c va = area_byte m a va.

Section fork.
Context {T : Type} `{!PageTable T}.
Implicit Types ms us : MemorySet T.

Lemma area_byte_ext m m' a va :
  map_type a = Framed → (∀ p, p ∈ area_frames a → ∀ x, x / 4096 = p → m' x = m x) →
  area_byte m' a va = area_byte m a va.
Proof.
  intros Hty Hm. unfold area_byte, area_target. rewrite Hty.
  destruct (data_frames a !! (va / 4096)) as [p|] eqn:E; [|done]. simpl. f_equal.
  apply (Hm p); [apply elem_of_area_frames; eauto|]. zdiv_lia.
Qed.

(** ** One page *)

Lemma copy_page_wp s ts tc a c v :
  framed_in (km_mem s) ts a → framed_in (km_mem s) tc c → same_attrs a c →
  (∀ p, p ∈ area_frames a → p ∉ area_frames c) → in_area a v →
  wp (copy_page ts tc v) s (λ _ s',
    km_fa s' = km_fa s ∧ same_outside (λ p, p ∈ area_frames c) (km_mem s) (km_mem s') ∧
    ∀ va, in_area a (va / 4096) → area_byte (km_mem s') c va =
      if decide (va / 4096 = v) then area_byte (km_mem s) a va else area_byte (km_mem s) c va).
Proof.
  intros Fa Fc Hat Hdis Hv. assert (Hvc : in_area c v) by by apply (in_area_attrs a c).
  destruct (translate_ppn_spec s ts a v (ao_perm _ (fi_ok _ _ _ Fa)) (fi_map _ _ _ Fa v Hv)) as (ps&Hs&Hps&Rs).
  destruct (translate_ppn_spec s tc c v (ao_perm _ (fi_ok _ _ _ Fc)) (fi_map _ _ _ Fc v Hvc)) as (pc&Hc&Hpc&Rc).
  destruct (framed_target _ _ _ _ Fa Hv) as (ps'&Es&_&Hins). rewrite Hs in Es. injection Es as <-.
  destruct (framed_target _ _ _ _ Fc Hvc) as (pc'&Ec&_&Hinc). rewrite Hc in Ec. injection Ec as <-.
  assert (Hne : ps ≠ pc) by (intros ->; by eapply Hdis).
  unfold copy_page. wp_steps. eapply wp_run; [exact Rs|]. wp_steps. eapply wp_run; [exact Rc|]. wp_steps.
  simpl. rewrite !bytes_array_addr_eq by done. unfold PAGE_SIZE. split; [done|]. split.
  - intros x Hx. apply copy_bytes_out. assert (x / 4096 ≠ pc) by congruence. zdiv_lia.
  - intros va Hva. unfold area_byte.
    destruct (framed_target _ _ c (va / 4096) Fc) as (q&Eq&_&_); [by apply (in_area_attrs a c)|].
    rewrite Eq; simpl. case_decide as Hd.
    + rewrite Hd in Eq |- *. rewrite Hc in Eq. injection Eq as <-. rewrite Hs; simpl.
      rewrite copy_bytes_in by zdiv_lia. do 2 f_equal. lia.
    + f_equal. apply copy_bytes_out. assert (q ≠ pc); [|zdiv_lia]. intros ->. apply Hd.
      unfold area_target in *. rewrite (fi_type _ _ _ Fc) in *. by eapply (fi_inj _ _ _ Fc).
Qed.

(** ** The pages of an area *)

Lemma copy_pages_wp s ts tc a c :
  framed_in (km_mem s) ts a → framed_in (km_mem s) tc c → same_attrs a c →
  (∀ p, p ∈ area_frames a → p ∉ area_frames c) →
  (∀ p, p ∈ pt_frames ts → p ∉ area_frames c) →
  wp (kfor (area_pages a) (copy_page ts tc)) s (λ _ s',
    km_fa s' = km_fa s ∧ same_outside (λ p, p ∈ area_frames c) (km_mem s) (km_mem s') ∧
    copied (km_mem s') a c).
Proof.
  intros Fa Fc Hat Hdis Hpt. pose proof (ao_range _ (fi_ok _ _ _ Fa)) as Hr.
  assert (Fa' : ∀ m', same_outside (λ p, p ∈ area_frames c) (km_mem s) m' → framed_in m' ts a).
  { intros m' Hm. destruct Fa as [? ? ? ? Hok Hmap]. destruct (pt_frame (km_mem s) m' ts Hok) as [Hok' Hl].
    { intros x Hx. apply Hm. by apply Hpt. }
    split; try done. intros v Hv. destruct (Hmap v Hv) as (q&?&?&?). exists q. rewrite Hl; [done|].
    by eapply in_area_vpn. }
  assert (Ha : ∀ m' va, same_outside (λ p, p ∈ area_frames c) (km_mem s) m' → area_byte m' a va = area_byte (km_mem s) a va).
  { intros m' va Hm. apply area_byte_ext; [by apply Fa|]. intros p Hp x <-. by apply Hm, Hdis. }
  eapply wp_mono.
  - apply (wp_kfor (λ vs s', km_fa s' = km_fa s ∧
      same_outside (λ p, p ∈ area_frames c) (km_mem s) (km_mem s') ∧
      ∀ va, in_area a (va / 4096) → area_byte (km_mem s') c va =
        if decide (va / 4096 ∈ vs) then area_byte (km_mem s) a va else area_byte (km_mem s) c va)) with (done_ := []).
    + intros pre v post s1 Hl (H1&H2&H3). eapply wp_mono.
      { apply copy_page_wp; [by apply Fa'|by eapply framed_in_ext|done|done|].
        apply elem_of_area_pages; [done|]. simpl in Hl. rewrite Hl. apply elem_of_app. right. left. }
      intros [] s2 (G1&G2&G3). split; [congruence|]. split; [by eapply same_outside_trans|].
      intros va Hva. rewrite G3, H3, Ha by done.
      destruct (decide (va / 4096 = v)) as [->|].
      * rewrite decide_True; [done|]. apply elem_of_app. right. left.
      * apply decide_ext. rewrite elem_of_app, list_elem_of_singleton. tauto.
    + done.
  - intros [] s' (H1&H2&H3). split; [done|]. split; [done|]. split; [done|].
    intros va Hva. rewrite (Ha (km_mem s')) by done. rewrite H3 by done.
    rewrite decide_True; [done|]. by apply elem_of_area_pages.
Qed.

(** ** The areas *)

(** The child [ms] built so far, from the areas [pre] of the parent [us];
    [s0] is the state at the start. *)
Record fork_inv (s0 : KMem) us (pre : list MapArea) (s : KMem) ms : Prop := {
  fk_fa : fa_wf (km_fa s);
  fk_parent : ms_ok s us;
  fk_child : ms_ok s ms;
  fk_new : grows s0 (ms_frames ms) s;
  fk_same : same_outside (λ p, p ∈ ms_frames ms) (km_mem s0) (km_mem s);
  fk_copied : Forall2 (copied (km_mem s)) pre (areas ms);
  fk_free : fa_free (km_fa s0) - fa_free (km_fa s) <= 3 + 3 * length (pre ≫= area_pages);
}.

Lemma frames_apart s0 us pre s ms p :
  fork_inv s0 us pre s ms → ms_ok s0 us → p ∈ ms_frames us → p ∉ ms_frames ms.
Proof. intros F Hok Hp Hc. apply (gr_fresh _ _ _ (fk_new _ _ _ _ _ F) p Hc). by apply Hok. Qed.

(** Enlarging the child leaves the parent alone. *)
Lemma parent_kept s us s' new :
  ms_ok s us → grows s new s' → (∀ x, x / 4096 ∈ pt_frames (page_table us) → km_mem s' x = km_mem s x) →
  ms_ok s' us.
Proof.
  intros Hok G Hm. eapply ms_ok_frame; [done| |done].
  intros p Hp. apply (gr_owned _ _ _ G). right. by apply Hok.
Qed.

Lemma elem_areas_frames a l p : a ∈ l → p ∈ area_frames a → p ∈ areas_frames l.
Proof. intros. apply elem_of_areas_frames. eauto. Qed.

Lemma ms_frames_area us a p : a ∈ areas us → p ∈ area_frames a → p ∈ ms_frames us.
Proof. intros. apply elem_of_app. right. by eapply elem_areas_frames. Qed.

Lemma ms_frames_pt us p : p ∈ pt_frames (page_table us) → p ∈ ms_frames us.
Proof. intros. apply elem_of_app. by left. Qed.

Lemma copied_ext m m' a c :
  map_type a = Framed → map_type c = Framed →
  (∀ p, p ∈ area_frames a → ∀ x, x / 4096 = p → m' x = m x) →
  (∀ p, p ∈ area_frames c → ∀ x, x / 4096 = p → m' x = m x) →
  copied m a c → copied m' a c.
Proof.
  intros Ha Hc Hma Hmc [Hat Hb]. split; [done|]. intros va Hva.
  rewrite (area_byte_ext m m' a), (area_byte_ext m m' c) by done. auto.
Qed.

Lemma fresh_copy us pre a post ms m :
  areas us = pre ++ a :: post → disjoint_areas (areas us) → Forall2 (copied m) pre (areas ms) →
  ∀ na, same_attrs a na → fresh_area (areas ms) na.
Proof.
  intros Hl Hd HF na Hat b v [i Hi]%list_elem_of_lookup Hna Hb.
  destruct (Forall2_lookup_r _ _ _ _ _ HF Hi) as (b'&Hb'&[Hat' _]).
  assert (Hin : in_area b' v) by by apply (in_area_attrs b' b).
  assert (Ha : in_area a v) by by apply (in_area_attrs a na).
  pose proof (lookup_lt_Some _ _ _ Hb') as Hlt.
  assert (i = length pre); [|lia]. eapply (Hd i (length pre) b' a v); [| |done..].
  - rewrite Hl, lookup_app_l by done. done.
  - rewrite Hl. by apply list_lookup_middle.
Qed.

(** The new area is pushed: everything but the contents is in place. *)
Lemma fork_push s0 us pre a post s ms na :
  fork_inv s0 us pre s ms → ms_ok s0 us → (∀ b, b ∈ areas us → map_type b = Framed) →
  areas us = pre ++ a :: post → 3 * n_pages a <= fa_free (km_fa s) →
  same_attrs a na → data_frames na = ∅ →
  wp (push ms na None) s (λ ms' s', ∃ new c,
    push_post s ms na new s' ms' c ∧ same_attrs a c ∧ ms_ok s' us ∧ grows s0 (ms_frames ms') s' ∧
    framed_in (km_mem s') (page_table us) a ∧ framed_in (km_mem s') (page_table ms') c ∧
    ∀ p, p ∈ ms_frames us → p ∉ ms_frames ms').
Proof.
  intros F Hok0 Hfr Hl Hfree Hat He. assert (Ha : a ∈ areas us) by (rewrite Hl; apply elem_of_app; right; left).
  pose proof (mo_areas _ _ Hok0 a Ha) as Hao. pose proof Hat as (HR&HY&HP).
  eapply wp_mono; [apply push_spec|].
  - apply F.
  - apply F.
  - split; [by eapply range_ok_attrs; [|apply Hao]|rewrite HP; apply Hao|done| |].
    + intros v _. unfold target_ok. by rewrite HY, (Hfr a Ha), He.
    + eapply fresh_copy; [done|apply Hok0|apply F|done].
  - unfold n_pages in *. by rewrite HR.
  - intros ms' s' (new&c&P). exists new, c.
    assert (G : grows s0 (ms_frames ms') s').
    { eapply grows_perm; [symmetry; apply P|]. eapply grows_trans; [apply F|apply P]. }
    assert (Hapart : ∀ p, p ∈ ms_frames us → p ∉ ms_frames ms').
    { intros p Hp Hn. apply (gr_fresh _ _ _ G p Hn). by apply Hok0. }
    assert (Hpar : ms_ok s' us).
    { eapply parent_kept; [apply F|apply P|]. intros x Hx. apply P.
      intros Hin. apply (Hapart (x / 4096)); [by apply ms_frames_pt|].
      rewrite (mg_frames _ _ _ _ _ (pp_grow _ _ _ _ _ _ _ P)). apply elem_of_app.
      destruct Hin as [?|?]; [left; by apply ms_frames_pt|by right]. }
    assert (Hatc : same_attrs a c) by (eapply same_attrs_trans; [done|apply P]).
    split; [done|]. split; [done|]. split; [done|]. split; [done|]. split; [|split; [|done]].
    + eapply ms_framed_in; [done|done|by apply Hfr].
    + eapply ms_framed_in; [apply P| |].
      * rewrite (pp_areas _ _ _ _ _ _ _ P). apply elem_of_app. right. left.
      * destruct Hatc as (_&->&_). by apply Hfr.
Qed.

(** Old copies survive the new one. *)
Lemma fork_old_copies s0 us pre s ms new s1 ms1 na c s2 b d :
  fork_inv s0 us pre s ms → ms_ok s0 us → push_post s ms na new s1 ms1 c →
  same_outside (λ p, p ∈ area_frames c) (km_mem s1) (km_mem s2) →
  (∀ p, p ∈ ms_frames us → p ∉ ms_frames ms1) →
  b ∈ areas us → d ∈ areas ms → map_type b = Framed → map_type d = Framed →
  copied (km_mem s) b d → copied (km_mem s2) b d.
Proof.
  intros F Hok0 P Hm2 Hap Hb Hd Hbf Hdf. pose proof (mg_frames _ _ _ _ _ (pp_grow _ _ _ _ _ _ _ P)) as Hfr.
  assert (Hc : ∀ p, p ∈ area_frames c → p ∈ ms_frames ms1).
  { intros p. apply ms_frames_area. rewrite (pp_areas _ _ _ _ _ _ _ P). apply elem_of_app. right. left. }
  assert (Hkeep : ∀ p, p ∉ pt_frames (page_table ms) → p ∉ new → p ∉ area_frames c →
            ∀ x, x / 4096 = p → km_mem s2 x = km_mem s x).
  { intros p H1 H2 H3 x Hx. rewrite Hm2 by congruence. apply P. rewrite Hx. tauto. }
  apply copied_ext; [done..| |].
  - intros p Hp. pose proof (Hap p (ms_frames_area _ _ _ Hb Hp)) as Hn. apply Hkeep; [| |by intros ?%Hc];
      intros Hin; apply Hn; rewrite Hfr; apply elem_of_app; [left; by apply ms_frames_pt|by right].
  - intros p Hp. destruct (ms_area_frame _ _ _ _ (fk_child _ _ _ _ _ F) Hd Hp) as [Hnt Hown].
    assert (Hnn : p ∉ new) by (intros Hn; by apply (gr_fresh _ _ _ (mg_grows _ _ _ _ _ (pp_grow _ _ _ _ _ _ _ P)) p Hn)).
    apply Hkeep; [done|done|]. intros Hpc.
    pose proof (mo_nodup _ _ (pp_ok _ _ _ _ _ _ _ P)) as Hnd. unfold ms_frames in Hnd.
    rewrite (pp_areas _ _ _ _ _ _ _ P), areas_frames_app, areas_frames_one in Hnd.
    apply NoDup_app in Hnd as (_&_&Hnd). apply NoDup_app in Hnd as (_&Hdis&_).
    eapply Hdis; [|done]. by eapply elem_areas_frames.
Qed.

Lemma copy_area_wp s0 us pre a post s ms :
  fork_inv s0 us pre s ms → ms_ok s0 us → (∀ b, b ∈ areas us → map_type b = Framed) →
  areas us = pre ++ a :: post → 3 * n_pages a <= fa_free (km_fa s) →
  wp (copy_area us ms a) s (λ ms' s', fork_inv s0 us (pre ++ [a]) s' ms').
Proof.
  intros F Hok0 Hfr Hl Hfree. assert (Ha : a ∈ areas us) by (rewrite Hl; apply elem_of_app; right; left).
  pose proof (ao_range _ (mo_areas _ _ Hok0 a Ha)) as Hr. unfold copy_area. wp_steps.
  eapply wp_lift.
  { unfold area_from_another, range_new. rewrite (proj2 (Z.leb_le _ _)) by apply Hr. simpl. done. }
  wp_steps. eapply wp_mono.
  { eapply (fork_push s0 us pre a post); try done. split_and!; try done. by destruct (vpn_range a). }
  intros ms1 s1 (new&c&P&Hat&Hpar&G&Fa&Fc&Hap). wp_steps.
  pose proof (pp_areas _ _ _ _ _ _ _ P) as Har.
  assert (Hcin : c ∈ areas ms1) by (rewrite Har; apply elem_of_app; right; left).
  eapply wp_mono; [apply copy_pages_wp; try done|].
  { intros p Hp Hc. by eapply Hap; eapply ms_frames_area. }
  { intros p Hp Hc. eapply Hap; [by apply ms_frames_pt|by eapply ms_frames_area]. }
  intros [] s2 (Hfa2&Hs2&Hcop). wp_steps.
  assert (Hs2' : same_outside (λ p, p ∈ areas_frames (areas ms1)) (km_mem s1) (km_mem s2)).
  { eapply same_outside_mono; [done|]. intros p. by apply elem_areas_frames. }
  assert (HFr : ms_frames ms1 ≡ₚ ms_frames ms ++ new) by apply P.
  split.
  - rewrite Hfa2. apply G.
  - eapply (ms_ok_frame s1); [done|unfold owns; rewrite Hfa2; apply Hpar|].
    intros x Hx. apply Hs2. intros Hc. eapply Hap; [by apply ms_frames_pt|by eapply ms_frames_area].
  - eapply ms_ok_write; [apply P|done..].
  - by eapply grows_mem.
  - eapply (same_outside_trans (λ p, p ∈ ms_frames ms ∨ p ∈ new)); [|exact Hs2| |].
    + eapply same_outside_trans; [apply F|apply P|by left|].
      intros p [Hp|Hp]; [left; by apply ms_frames_pt|by right].
    + intros p Hp. rewrite HFr, elem_of_app. exact Hp.
    + intros p Hp. by eapply ms_frames_area.
  - rewrite Har. apply Forall2_app; [|by constructor].
    apply Forall2_same_length_lookup. split; [by eapply Forall2_length; apply F|].
    intros i b d Hb Hd. pose proof (Forall2_lookup_lr _ _ _ _ _ _ (fk_copied _ _ _ _ _ F) Hb Hd) as Hbd.
    assert (Hbu : b ∈ areas us) by (rewrite Hl; apply elem_of_app; left; by eapply list_elem_of_lookup_2).
    eapply fork_old_copies; try done; [by eapply list_elem_of_lookup_2|by apply Hfr|].
    destruct Hbd as [(_&->&_) _]. by apply Hfr.
  - rewrite Hfa2. pose proof (fk_free _ _ _ _ _ F). rewrite bind_app, length_app.
    rewrite (gr_free _ _ _ (mg_grows _ _ _ _ _ (pp_grow _ _ _ _ _ _ _ P))).
    pose proof (pp_len _ _ _ _ _ _ _ P) as Hlen. pose proof (length_area_pages a Hr). unfold n_pages in *.
    simpl in *. rewrite app_nil_r. lia.
Qed.

Lemma copy_areas_wp s0 us post : ∀ pre s ms,
  fork_inv s0 us pre s ms → ms_ok s0 us → (∀ b, b ∈ areas us → map_type b = Framed) →
  areas us = pre ++ post → 3 + 3 * length (areas us ≫= area_pages) <= fa_free (km_fa s0) →
  wp (kfold post (copy_area us) ms) s (λ ms' s', fork_inv s0 us (areas us) s' ms').
Proof.
  induction post as [|a post IH]; intros pre s ms F Hok0 Hfr Hl Hfree; simpl.
  { wp_steps. by rewrite Hl, app_nil_r. }
  wp_steps. eapply wp_mono; [eapply copy_area_wp; try done|].
  - pose proof (fk_free _ _ _ _ _ F). rewrite Hl, bind_app, length_app in Hfree.
    assert (Hr : range_ok a) by (apply (mo_areas _ _ Hok0); rewrite Hl; apply elem_of_app; right; left).
    pose proof (length_area_pages a Hr). simpl in Hfree. rewrite length_app in Hfree. lia.
  - intros ms1 s1 F1. eapply IH; [exact F1|done|done| |done]. by rewrite Hl, <- app_assoc.
Qed.

Lemma from_existed_user_wp st us s :
  fa_wf (km_fa s) → ms_ok s us → (∀ b, b ∈ areas us → map_type b = Framed) → tramp_ok st →
  3 + 3 * length (areas us ≫= area_pages) <= fa_free (km_fa s) →
  wp (from_existed_user st us) s (λ ms s', fork_inv s us (areas us) s' ms).
Proof.
  intros Hfa Hok Hfr Hst Hfree. unfold from_existed_user. wp_steps.
  eapply wp_mono; [by apply (bare_trampoline_wp st); [..|lia]|].
  intros ms0 s0 Hb. wp_steps. eapply wp_mono; [exact Hb|]. intros ms s1 [Hfa1 Hok1 Har _ Hg Hl Hs _].
  wp_steps. eapply (copy_areas_wp s us (areas us) []); try done.
  assert (Hpar : ms_ok s1 us).
  { eapply parent_kept; [done|done|]. intros x Hx. apply Hs. intros Hin.
    apply (gr_fresh _ _ _ Hg _ Hin). by apply Hok, ms_frames_pt. }
  split; try done; [rewrite Har; constructor|]. rewrite (gr_free _ _ _ Hg). simpl. lia.
Qed.
End fork.
