(* ===== verification/Elf.v ===== *)
(** * [from_elf]: loading a program

    For a parsed file whose loadable segments are page aligned, lie in the lower
    half of the address space and do not share pages, the address space holds
    each segment's file contents followed by zeros, with the segment's
    permissions; the heap starts after the last segment. *)

From S2P Require Import Prelude Address PhysMem IdAlloc FrameAlloc PageTable MemorySet MapAreaSpec MemorySetSpec MemorySetOps Mmap Fork.

(** ** Segments *)

Definition seg_start (ph : ProgramHeader) : Z := ph_virtual_addr ph / 4096.
Definition seg_end (ph : ProgramHeader) : Z := (ph_virtual_addr ph + ph_mem_size ph + 4095) / 4096.
Definition seg_pages (ph : ProgramHeader) : Z := seg_end ph - seg_start ph.

(** The checks a loadable segment passes; [input] is the file. *)
Record seg_ok (input : list Z) (ph : ProgramHeader) : Prop := {
  so_load : ph_is_load ph = Some true;
  so_va : 0 <= ph_virtual_addr ph;
  so_size : 0 < ph_mem_size ph;
  so_low : ph_virtual_addr ph + ph_mem_size ph + 4096 <= 2 ^ 38;
  so_file : 0 <= ph_file_size ph <= ph_mem_size ph;
  so_off : 0 <= ph_offset ph;
  so_in : ph_offset ph + ph_file_size ph <= length input;
  so_len : Z.of_nat (length input) < 2 ^ 63;
}.

Definition seg_disjoint (p q : ProgramHeader) : Prop :=
  seg_end p <= seg_start q ∨ seg_end q <= seg_start p.

Lemma ph_perm_ok ph : is_perm (ph_perm ph).
Proof. unfold ph_perm. by destruct (ph_read ph), (ph_write ph), (ph_execute ph). Qed.

(** Area [a] holds segment [ph]: its file contents from the first byte of its
    first page on, then zeros. *)
Definition loaded (m : mem) (input : list Z) (ph : ProgramHeader) (a : MapArea) : Prop :=
  area_spec a (seg_start ph) (seg_end ph) (ph_perm ph) ∧
  ∀ va, in_area a (va / 4096) → area_byte m a va =
    let i := va - seg_start ph * 4096 in
    if decide (i < ph_file_size ph) then input !! Z.to_nat (ph_offset ph + i) else Some 0.

Section elf.
Context {T : Type} `{!PageTable T}.
Implicit Types ms : MemorySet T.
Context (input : list Z).

(** Everything that happened between [s0] and [s] is that [ms] was made: the
    frames taken are those of [ms], and no other frame was written. *)
Record built (s0 : KMem) ms (s : KMem) : Prop := {
  bu_grows : grows s0 (ms_frames ms) s;
  bu_same : same_outside (λ p, p ∈ ms_frames ms) (km_mem s0) (km_mem s);
}.

Lemma built_grow s0 ms s new s' ms' : built s0 ms s → ms_grow s ms new s' ms' → built s0 ms' s'.
Proof.
  intros [G M] G'. pose proof (mg_frames _ _ _ _ _ G') as HF. split.
  - eapply grows_perm; [symmetry; exact HF|]. eapply grows_trans; [done|apply G'].
  - eapply same_outside_trans; [exact M|apply G'| |]; intros p; rewrite HF, elem_of_app; [auto|].
    intros [?|?]; [left; by apply ms_frames_pt|by right].
Qed.

(** A space that existed before is not affected. *)
Lemma built_keeps s0 ms s us : built s0 ms s → ms_ok s0 us → ms_ok s us.
Proof.
  intros [G M] Hok. eapply parent_kept; [done|done|]. intros x Hx. apply M. intros Hin.
  apply (gr_fresh _ _ _ G _ Hin). apply (mo_owned _ _ Hok). by apply ms_frames_pt.
Qed.

(** The areas of [ms] hold the segments [phs]; [hi] is the end of the last page. *)
Record load_inv (te : option Z) (s0 : KMem) (phs : list ProgramHeader) (s : KMem) ms (hi : Z) : Prop := {
  li_fa : fa_wf (km_fa s);
  li_ok : ms_ok s ms;
  li_built : built s0 ms s;
  li_loaded : Forall2 (loaded (km_mem s) input) phs (areas ms);
  li_free : fa_free (km_fa s0) - fa_free (km_fa s) <= 3 + 3 * foldr (λ ph n, seg_pages ph + n) 0 phs;
  li_hi : hi = foldl (λ h ph, Z.max h (seg_end ph)) 0 phs;
  li_tramp : pt_lookup (km_mem s) (page_table ms) TRAMP_VPN = te;
}.

Lemma foldr_snoc_sum {A} (f : A → Z) l x :
  foldr (λ p n, f p + n) 0 (l ++ [x]) = foldr (λ p n, f p + n) 0 l + f x.
Proof using. induction l as [|p l IH]; simpl; lia. Qed.

Lemma ms_grow_keep_bytes s ms new s' ms' a va :
  ms_ok s ms → ms_grow s ms new s' ms' → a ∈ areas ms → map_type a = Framed →
  area_byte (km_mem s') a va = area_byte (km_mem s) a va.
Proof.
  intros Hok G Ha Hty. apply area_byte_ext; [done|]. intros p Hp x Hx. apply (mg_same _ _ _ _ _ G).
  rewrite Hx. destruct (ms_area_frame _ _ _ _ Hok Ha Hp) as [Hnt Hown]. intros [?|Hn]; [done|].
  by apply (gr_fresh _ _ _ (mg_grows _ _ _ _ _ G) p Hn).
Qed.

Lemma loaded_keep s ms new s' ms' ph a :
  ms_ok s ms → ms_grow s ms new s' ms' → a ∈ areas ms →
  loaded (km_mem s) input ph a → loaded (km_mem s') input ph a.
Proof.
  intros Hok G Ha [Hs Hb]. split; [done|]. intros va Hva. destruct Hs as (_&Hty&_).
  rewrite (ms_grow_keep_bytes s ms new s' ms') by done. auto.
Qed.

Lemma seg_vpns ph :
  seg_ok input ph →
  va_floor (va_from_usize (ph_virtual_addr ph)) = seg_start ph ∧
  va_ceil (va_from_usize (ph_virtual_addr ph +w ph_mem_size ph)) = seg_end ph ∧
  0 <= seg_start ph < seg_end ph ∧ seg_end ph < 2 ^ 26.
Proof.
  intros [_ ? ? ? _ _ _ _]. unfold seg_start, seg_end. rewrite wadd_small, !va_from_usize_id by lia.
  rewrite va_ceil_eq by lia. split; [done|]. split; [done|]. zdiv_lia.
Qed.

Lemma seg_slice ph :
  seg_ok input ph → ∃ data,
    slice input (ph_offset ph) (ph_offset ph +w ph_file_size ph) = Done data ∧
    Z.of_nat (length data) = ph_file_size ph ∧
    ∀ i, 0 <= i < ph_file_size ph → data !! Z.to_nat i = input !! Z.to_nat (ph_offset ph + i).
Proof.
  intros [_ _ _ _ ? ? ? ?]. rewrite wadd_small by lia.
  destruct (slice_spec input (ph_offset ph) (ph_offset ph + ph_file_size ph)) as (d&?&?&?); [lia..|].
  exists d. split; [done|]. split; [lia|]. intros i Hi. auto with lia.
Qed.

Lemma load_segment_wp te s0 phs s ms hi ph :
  load_inv te s0 phs s ms hi → seg_ok input ph → (∀ q, q ∈ phs → seg_disjoint ph q) →
  3 * seg_pages ph <= fa_free (km_fa s) →
  wp (load_segment input ms hi ph) s (λ '(ms', hi') s', load_inv te s0 (phs ++ [ph]) s' ms' hi').
Proof.
  intros L Hso Hdis Hfree. destruct (seg_vpns ph Hso) as (Hst&Hen&Hrange&Hlow).
  destruct (seg_slice ph Hso) as (data&Hsl&Hlen&Hdata).
  unfold load_segment. rewrite (so_load _ _ Hso). wp_steps.
  set (a := mkArea (mkRange (seg_start ph) (seg_end ph)) ∅ Framed (ph_perm ph)).
  apply wp_lift with a.
  { unfold area_new, range_new. rewrite Hst, Hen, (proj2 (Z.leb_le _ _)) by lia. done. }
  wp_steps. eapply wp_lift; [exact Hsl|]. wp_steps.
  assert (Hro : range_ok a) by (split; simpl; unfold TRAMP_VPN; lia).
  assert (Hna : new_area_ok ms a).
  { split; try done; [apply ph_perm_ok|]. intros b v [i Hb]%list_elem_of_lookup Hva Hvb.
    destruct (Forall2_lookup_r _ _ _ _ _ (li_loaded _ _ _ _ _ _ L) Hb) as (q&Hq&(Hr&_&_)&_).
    apply list_elem_of_lookup_2 in Hq. destruct (Hdis q Hq); unfold in_area in *; rewrite Hr in Hvb; simpl in *; lia. }
  eapply wp_mono; [apply push_data_spec; try done; try apply L; unfold n_pages, seg_pages in *; simpl; try lia|].
  { destruct Hso. unfold seg_end, seg_start in *. zdiv_lia. }
  intros ms' s' (new&a'&G&Hok'&Har&Hat&Hl&Hb). wp_steps. split.
  - apply G.
  - done.
  - by eapply built_grow; [apply L|].
  - rewrite Har. apply Forall2_app.
    + apply Forall2_same_length_lookup. split; [by eapply Forall2_length; apply L|].
      intros i q b Hq Hb'. eapply loaded_keep; [apply L|done|by eapply list_elem_of_lookup_2|].
      by eapply Forall2_lookup_lr; [apply L|..].
    + constructor; [|constructor]. destruct Hat as (HR&HY&HP). split; [done|].
      intros va Hva. unfold in_area in Hva. rewrite HR in Hva. rewrite Hb by done. simpl in Hva |- *. rewrite Hlen.
      case_decide; [|done]. apply Hdata. zdiv_lia.
  - rewrite foldr_snoc_sum, (gr_free _ _ _ (mg_grows _ _ _ _ _ G)). pose proof (li_free _ _ _ _ _ _ L).
    unfold n_pages in Hl. simpl in Hl. unfold seg_pages at 2. lia.
  - rewrite foldl_snoc, <- (li_hi _ _ _ _ _ _ L). done.
  - rewrite (mg_tramp _ _ _ _ _ G). apply L.
Qed.

(** ** The loop over the program headers *)

Definition is_load (ph : ProgramHeader) : bool := bool_decide (ph_is_load ph = Some true).
Definition loads (phs : list ProgramHeader) : list ProgramHeader := filter (λ ph, is_load ph = true) phs.

Record phs_ok (phs : list ProgramHeader) : Prop := {
  po_type : ∀ ph, ph ∈ phs → is_Some (ph_is_load ph);
  po_seg : ∀ ph, ph ∈ loads phs → seg_ok input ph;
  po_disj : ∀ i j p q, loads phs !! i = Some p → loads phs !! j = Some q → i ≠ j → seg_disjoint p q;
}.

Definition total_pages (phs : list ProgramHeader) : Z := foldr (λ ph n, seg_pages ph + n) 0 phs.
Definition last_page (phs : list ProgramHeader) : Z := foldl (λ h ph, Z.max h (seg_end ph)) 0 phs.

Lemma total_pages_app (l l' : list ProgramHeader) : total_pages (l ++ l') = total_pages l + total_pages l'.
Proof. unfold total_pages. induction l as [|p l IH]; cbn [app foldr]; [done|]. rewrite IH. lia. Qed.

Lemma total_pages_nonneg phs : (∀ ph, ph ∈ phs → seg_ok input ph) → 0 <= total_pages phs.
Proof.
  unfold total_pages. induction phs as [|p phs IH]; simpl; intros H; [lia|].
  assert (0 <= foldr (λ ph n, seg_pages ph + n) 0 phs) by (apply IH; intros; apply H; by right).
  destruct (seg_vpns p) as (_&_&?&_); [apply H; left|].
  assert (0 <= seg_pages p) by (unfold seg_pages; lia). lia.
Qed.

Lemma last_page_bound phs : (∀ ph, ph ∈ phs → seg_ok input ph) → 0 <= last_page phs < 2 ^ 26.
Proof.
  unfold last_page. induction phs as [|ph phs IH] using rev_ind; intros H; [simpl; lia|].
  rewrite foldl_snoc. assert (0 <= last_page phs < 2 ^ 26) by (apply IH; intros; apply H, elem_of_app; auto).
  unfold last_page in *. destruct (seg_vpns ph) as (_&_&?&?); [apply H, elem_of_app; right; left|]. lia.
Qed.

Lemma loads_app l l' : loads (l ++ l') = loads l ++ loads l'.
Proof. apply filter_app. Qed.

Lemma load_loop_wp te s0 elf (body := λ '(ms, hi) i,
    ph ← kunwrap (elf_program_header elf i); load_segment (T := T) input ms hi ph) post : ∀ pre s ms hi,
  load_inv te s0 (loads pre) s ms hi → phs_ok (pre ++ post) →
  (∀ i ph, (pre ++ post) !! i = Some ph → elf_program_header elf (Z.of_nat i) = Some ph) →
  3 + 3 * total_pages (loads (pre ++ post)) <= fa_free (km_fa s0) →
  wp (kfold (seqZ (length pre) (length post)) body (ms, hi)) s
    (λ '(ms', hi') s', load_inv te s0 (loads (pre ++ post)) s' ms' hi').
Proof.
  induction post as [|ph post IH]; intros pre s ms hi L Hok Hel Hfree.
  { simpl. wp_steps. by rewrite app_nil_r. }
  rewrite seqZ_cons by (simpl; lia). cbn [kfold]. wp_next.
  unfold body at 1. cbn beta iota. wp_steps.
  rewrite (Hel (length pre) ph) by apply list_lookup_middle, eq_refl. wp_steps.
  assert (Hin : ph ∈ pre ++ ph :: post) by (apply elem_of_app; right; left).
  assert (Hstep : wp (load_segment input ms hi ph) s
            (λ '(ms', hi') s', load_inv te s0 (loads (pre ++ [ph])) s' ms' hi')).
  { rewrite loads_app. unfold loads at 2, filter, list_filter. case_decide as Hld; simpl.
    - unfold is_load in Hld. apply bool_decide_eq_true in Hld.
      assert (Hph : loads (pre ++ ph :: post) = loads pre ++ ph :: loads post).
      { rewrite loads_app. unfold loads at 2. rewrite filter_cons_True; [done|]. by apply bool_decide_eq_true. }
      apply load_segment_wp; [done| | |].
      + apply (po_seg _ Hok). rewrite Hph. apply elem_of_app. right. left.
      + intros q [i Hq]%list_elem_of_lookup.
        pose proof (lookup_lt_Some _ _ _ Hq). eapply (po_disj _ Hok (length (loads pre)) i).
        * rewrite Hph. by apply list_lookup_middle.
        * rewrite Hph. by rewrite lookup_app_l.
        * lia.
      + pose proof (li_free _ _ _ _ _ _ L) as Hf. fold (total_pages (loads pre)) in Hf.
        rewrite Hph, total_pages_app in Hfree.
        assert (0 <= total_pages (loads post)).
        { apply total_pages_nonneg. intros q Hq. apply (po_seg _ Hok). rewrite Hph. apply elem_of_app. right. by right. }
        change (total_pages (ph :: loads post)) with (seg_pages ph + total_pages (loads post)) in Hfree. lia.
    - rewrite app_nil_r. destruct (po_type _ Hok ph Hin) as [b Hb]. unfold load_segment. rewrite Hb. wp_steps.
      destruct b; [|done]. destruct Hld. unfold is_load. rewrite Hb. done. }
  eapply wp_mono; [exact Hstep|]. intros [ms1 hi1] s1 L1.
  replace (pre ++ ph :: post) with ((pre ++ [ph]) ++ post) in * by (by rewrite <- app_assoc).
  replace (Z.succ (length pre)) with (Z.of_nat (length (pre ++ [ph]))) by (rewrite length_app; simpl; lia).
  replace (Z.pred (length (ph :: post))) with (Z.of_nat (length post)) by (simpl; lia).
  by apply IH.
Qed.

(** What the parser reports of the file. *)
Record elf_ok (elf : ElfFile) (phs : list ProgramHeader) : Prop := {
  eo_magic : elf_magic elf = [0x7f; 0x45; 0x4c; 0x46];
  eo_count : elf_ph_count elf = length phs;
  eo_header : ∀ i ph, phs !! i = Some ph → elf_program_header elf (Z.of_nat i) = Some ph;
}.

Record elf_post (st : Z) (elf : ElfFile) (phs : list ProgramHeader) (s : KMem) ms (entry : Z) (s' : KMem) : Prop := {
  ep_fa : fa_wf (km_fa s');
  ep_ok : ms_ok s' ms;
  ep_built : built s ms s';
  ep_loaded : Forall2 (loaded (km_mem s') input) (loads phs) (areas ms);
  ep_heap : heap_start ms = last_page (loads phs) * 4096;
  ep_brk : brk ms = heap_start ms;
  ep_entry : entry = elf_entry_point elf;
  ep_free : fa_free (km_fa s) - fa_free (km_fa s') <= 3 + 3 * total_pages (loads phs);
  ep_tramp : pt_lookup (km_mem s') (page_table ms) TRAMP_VPN = Some (tramp_pte (T := T) st);
}.

Lemma from_elf_wp elf_new st s elf phs :
  fa_wf (km_fa s) → tramp_ok st → elf_new input = Some elf → elf_ok elf phs → phs_ok phs →
  3 + 3 * total_pages (loads phs) <= fa_free (km_fa s) →
  wp (from_elf elf_new st input) s (λ '(ms, entry) s', elf_post st elf phs s ms entry s').
Proof.
  intros Hfa Hst Hnew [Hm Hc Hh] Hphs Hfree. unfold from_elf. wp_steps.
  pose proof (total_pages_nonneg _ (po_seg _ Hphs)).
  eapply wp_mono; [by apply (bare_trampoline_wp st); [..|lia]|].
  intros ms0 s0 Hb. wp_steps. eapply wp_mono; [exact Hb|]. intros ms s1 [Hfa1 Hok1 Har _ Hg Hl Hs Hte].
  wp_steps. rewrite Hnew. wp_steps. apply wp_assert; [by apply bool_decide_eq_true|]. wp_steps.
  rewrite Hc. eapply wp_mono; [apply (load_loop_wp (Some (tramp_pte (T := T) st)) s elf phs [])|].
  - split; try done; [rewrite Har; constructor|]. rewrite (gr_free _ _ _ Hg). simpl. lia.
  - done.
  - done.
  - done.
  - intros [ms' hi] s' L. wp_steps. simpl in L. destruct L as [L1 L2 [L5 L6] L3 L7 L4 L8].
    pose proof (last_page_bound _ (po_seg _ Hphs)) as Hlast. unfold last_page in *. rewrite <- L4 in *.
    rewrite va_of_vpn by lia. rewrite align_up_page by (unfold PAGE_SIZE; lia).
    split; simpl; try done; [by destruct L2|unfold last_page; rewrite <- L4; zdiv_lia].
Qed.
End elf.
