(* ===== verification/UserCopy.v ===== *)
(** * Copying to and from the memory of a process

    [copy_to_user] and [copy_from_user] on an address space that satisfies the
    invariant: they touch exactly the bytes of the user range, through the page
    table named by the process's token. *)

From S2P Require Import Prelude Address PhysMem IdAlloc FrameAlloc PageTable Sv39 UserMem MemorySet MapAreaSpec MemorySetSpec MemorySetOps Mmap Fork.

Section user_copy.
Context (s : KMem) (ms : MemorySet SV39PageTable) (a : MapArea).
Context (Hok : ms_ok s ms) (Ha : a ∈ areas ms) (Hty : map_type a = Framed).

Notation pt := (page_table ms).
Notation upt := (sv39_from_token (token ms)).

Lemma token_root : root_ppn upt = root_ppn pt.
Proof using Hok.
  apply sv39_token_root. destruct (mo_pt _ _ Hok) as [T (Hwf&_)].
  eapply wt_range; [done|]. by eapply wt_root.
Qed.

Lemma token_lookup m v : sv39_lookup m upt v = sv39_lookup m pt v.
Proof using Hok. unfold sv39_lookup. by rewrite token_root. Qed.

Lemma token_phys m va : phys m upt va = phys m pt va.
Proof using Hok. unfold phys. by rewrite token_lookup. Qed.

(** A memory that agrees with the current one on the page tables. *)
Definition tables_same (m : mem) : Prop := same_outside (λ p, p ∈ area_frames a) (km_mem s) m.

Lemma phys_area m va :
  tables_same m → in_area a (va / 4096) →
  ∃ ppn, data_frames a !! (va / 4096) = Some ppn ∧ phys m upt va = ppn * 4096 + va mod 4096 ∧
         is_Some (sv39_lookup m upt (va / 4096)).
Proof using Hok Ha Hty.
  intros Hm Hva. pose proof (framed_in_ext _ m _ _ (ms_framed_in _ _ _ Hok Ha Hty) Hm) as F.
  destruct (fi_map _ _ _ F _ Hva) as (ppn&Ht&Hp&Hl). exists ppn.
  unfold area_target in Ht. rewrite Hty in Ht. split; [done|].
  rewrite token_phys, token_lookup. unfold phys. change (pt_lookup m pt) with (sv39_lookup m pt) in Hl. rewrite Hl.
  split; [|done]. f_equal. f_equal. by apply perm_pte; [|apply (fi_ok _ _ _ F)].
Qed.

Lemma phys_stable m va : tables_same m → in_area a (va / 4096) → phys m upt va = phys (km_mem s) upt va.
Proof using Hok Ha Hty.
  intros Hm Hva. destruct (phys_area m va Hm Hva) as (p&Hp&->&_).
  destruct (phys_area (km_mem s) va) as (q&Hq&->&_); [apply same_outside_refl|done|]. congruence.
Qed.

(** The user range [lo, lo + n). *)
Context (lo n : Z) (Hlo : 0 <= lo) (Hn : 0 < n) (Hlim : lo + n < 2 ^ 38).
Context (Hin : ∀ va, lo <= va < lo + n → in_area a (va / 4096)).

Definition range_addrs : list Z := phys (km_mem s) upt <$> seqZ lo n.

Lemma range_user m : tables_same m → user_range m upt lo (lo + n).
Proof using Hok Ha Hty Hlo Hlim Hin.
  intros Hm. split; [done|lia|]. intros va Hva. by destruct (phys_area m va Hm (Hin va Hva)) as (?&_&_&?).
Qed.

Lemma range_addrs_eq m : tables_same m → phys m upt <$> seqZ lo n = range_addrs.
Proof using Hok Ha Hty Hin.
  intros Hm. apply list_fmap_ext. intros i va Hva. apply lookup_seqZ in Hva as [-> ?].
  apply phys_stable; [done|]. apply Hin. lia.
Qed.

Lemma range_lookup (j : nat) :
  Z.of_nat j < n → range_addrs !! j = Some (phys (km_mem s) upt (lo + j)).
Proof. intros. unfold range_addrs. rewrite list_lookup_fmap, lookup_seqZ_lt by lia. done. Qed.

Lemma range_addrs_length : Z.of_nat (length range_addrs) = n.
Proof using Hn. unfold range_addrs. rewrite length_fmap, length_seqZ. lia. Qed.

Lemma range_addrs_nodup : NoDup range_addrs.
Proof using Hok Ha Hty Hin.
  apply NoDup_fmap_2_strong; [|apply NoDup_seqZ].
  intros x y Hx%elem_of_seqZ Hy%elem_of_seqZ Heq.
  destruct (phys_area (km_mem s) x) as (p&Hp&Ep&_); [apply same_outside_refl|by apply Hin|].
  destruct (phys_area (km_mem s) y) as (q&Hq&Eq&_); [apply same_outside_refl|by apply Hin|].
  rewrite Ep, Eq in Heq. assert (p = q) as -> by zdiv_lia.
  assert (x / 4096 = y / 4096) by (eapply (nodup_frames_inj a); [by eapply ms_area_nodup|done..]). zdiv_lia.
Qed.

Lemma range_addrs_frames x : x ∈ range_addrs → x / 4096 ∈ area_frames a.
Proof using Hok Ha Hty Hin.
  intros (va&->&Hva%elem_of_seqZ)%list_elem_of_fmap.
  destruct (phys_area (km_mem s) va) as (p&Hp&->&_); [apply same_outside_refl|by apply Hin|].
  apply elem_of_area_frames. exists (va / 4096). rewrite Hp. f_equal. zdiv_lia.
Qed.

Lemma written_tables_same m src off l h :
  written (km_mem s) m range_addrs src off l h → tables_same m.
Proof using Hok Ha Hty Hin.
  intros [Hout _] x Hx. apply Hout. intros Hr. by apply Hx, range_addrs_frames.
Qed.

Lemma same_page_range :
  va_floor (va_from_usize lo) = va_floor (va_from_usize (lo +w n -w 1)) ↔ lo / 4096 = (lo + n - 1) / 4096.
Proof using Hlo Hn Hlim.
  rewrite wadd_wsub. unfold wrap64. rewrite (Z.mod_small (lo + n - 1)) by lia.
  rewrite !va_from_usize_mod, !Z.mod_small by lia. done.
Qed.

Lemma translated_ref_range m :
  tables_same m → translated_ref m (token ms) lo = Done (phys m upt lo).
Proof using Hok Ha Hty Hlo Hn Hlim Hin.
  intros Hm. destruct (range_user m Hm) as [_ _ Hmap]. destruct (Hmap lo) as [e He]; [lia|].
  rewrite (translated_ref_lookup _ _ _ e) by (done || lia). unfold phys. by rewrite He.
Qed.

(** In one page the range is contiguous. *)
Lemma range_contiguous :
  lo / 4096 = (lo + n - 1) / 4096 → range_addrs = seqZ (phys (km_mem s) upt lo) n.
Proof using Hok Ha Hty Hlo Hn Hlim Hin.
  intros Hp. unfold range_addrs. rewrite phys_page by done.
  destruct (range_user (km_mem s) (same_outside_refl _ _)) as [_ _ Hmap].
  destruct (Hmap lo) as [e He]; [lia|]. by rewrite He.
Qed.

Lemma copy_to_user_ok bytes :
  Z.of_nat (length bytes) = n →
  ∃ m', copy_to_user (token ms) bytes lo (km_mem s) = Done m' ∧
        written (km_mem s) m' range_addrs bytes 0 0 n.
Proof using Hok Ha Hty Hlo Hn Hlim Hin.
  intros Hlen. unfold copy_to_user. rewrite Hlen.
  pose proof (same_outside_refl (λ p, p ∈ area_frames a) (km_mem s)) as Hm.
  destruct (Z.eqb_spec (va_floor (va_from_usize lo)) (va_floor (va_from_usize (lo +w n -w 1)))) as [Hp|_].
  - apply same_page_range in Hp. change (translated_refmut (km_mem s)) with (translated_ref (km_mem s)).
    rewrite translated_ref_range by done. eexists. split; [done|].
    rewrite (range_contiguous Hp). pose proof (range_contiguous Hp) as Hc.
    pose proof range_addrs_nodup as Hnd. rewrite Hc in Hnd.
    replace (phys (km_mem s) upt lo) with (phys (km_mem s) upt lo + (0 - Z.of_nat (length (@nil Z)))) at 1 by (simpl; lia).
    pose proof (store_slice_written (km_mem s) [] (phys (km_mem s) upt lo, n) [] bytes bytes 0 0 n) as Hw.
    simpl in Hw. rewrite app_nil_r in Hw. apply Hw; try done; lia.
  - destruct (tbb_ok (km_mem s) (token ms) lo n) as (b&->&Hb&Hall); [by apply range_user|lia|lia|].
    cbn [mbind outcome_bind]. assert (Hb' : uaddrs b = range_addrs) by done.
    change (ub_write_buffer b None bytes (km_mem s)) with (ub_write_buffer b (Some 0) bytes (km_mem s)).
    destruct (ub_write_ok b 0 bytes (km_mem s)) as (k&m'&->&Hk&Hw).
    + eapply Forall_impl; [done|]. intros x. simpl. lia.
    + lia.
    + rewrite Hb'. apply range_addrs_nodup.
    + eexists. split; [done|]. rewrite Hb' in *. rewrite range_addrs_length in Hk.
      unfold copied_upto in Hk. replace (0 + k) with n in Hw by lia. done.
Qed.

Lemma copy_from_user_ok m dst :
  tables_same m → Z.of_nat (length dst) = n →
  copy_from_user (token ms) lo dst m = Done (bytes_at m range_addrs).
Proof using Hok Ha Hty Hlo Hn Hlim Hin.
  intros Hm Hlen. unfold copy_from_user. rewrite Hlen.
  destruct (Z.eqb_spec (va_floor (va_from_usize lo)) (va_floor (va_from_usize (lo +w n -w 1)))) as [Hp|_].
  - apply same_page_range in Hp. rewrite translated_ref_range by done. cbn [mbind outcome_bind].
    do 2 f_equal. rewrite (range_contiguous Hp), (phys_stable m) by (done || (apply Hin; lia)).
    apply list_eq. intros i. unfold bytes_at. rewrite list_lookup_fmap.
    destruct (decide (i < n)).
    + rewrite lookup_load_bytes, lookup_seqZ_lt by lia. done.
    + rewrite lookup_seqZ_ge by lia. apply lookup_ge_None. rewrite length_load_bytes. lia.
  - destruct (tbb_ok m (token ms) lo n) as (b&->&Hb&Hall); [by apply range_user|lia|lia|].
    cbn [mbind outcome_bind]. rewrite range_addrs_eq in Hb by done.
    change (ub_read m b None dst) with (ub_read m b (Some 0) dst).
    destruct (ub_read_ok m b 0 dst) as (k&d&->&Hd&Hk&Hl); [|lia|].
    { eapply Forall_impl; [done|]. intros x. simpl. lia. }
    cbn [mbind outcome_bind]. do 2 f_equal. unfold ub_bytes in Hl. rewrite Hb in *.
    rewrite range_addrs_length in Hk. unfold copied_upto in Hk.
    apply list_eq. intros i. rewrite Hl. case_decide; [f_equal; lia|].
    rewrite !(lookup_ge_None_2); [done| |lia].
    unfold bytes_at. rewrite length_fmap. pose proof range_addrs_length. lia.
Qed.

Lemma copy_roundtrip bytes :
  Z.of_nat (length bytes) = n →
  ∃ m', copy_to_user (token ms) bytes lo (km_mem s) = Done m' ∧
    tables_same m' ∧ (∀ x, x ∉ range_addrs → m' x = km_mem s x) ∧
    ∀ dst, length dst = length bytes → copy_from_user (token ms) lo dst m' = Done bytes.
Proof using Hok Ha Hty Hlo Hn Hlim Hin.
  intros Hlen. destruct (copy_to_user_ok bytes Hlen) as (m'&->&Hw). exists m'.
  pose proof (written_tables_same _ _ _ _ _ Hw) as Hm. destruct Hw as [Hout Hval].
  split; [done|]. split; [done|]. split; [done|]. intros dst Hd.
  rewrite copy_from_user_ok by (done || lia). f_equal. apply list_eq. intros i. unfold bytes_at.
  rewrite list_lookup_fmap. destruct (decide (i < n)).
  - rewrite range_lookup by done. simpl. rewrite (Hval i) by by apply range_lookup.
    rewrite decide_True by lia. replace (Z.to_nat (i - 0)) with i by lia.
    destruct (lookup_lt_is_Some_2 bytes i) as [b ->]; [lia|done].
  - rewrite !(lookup_ge_None_2); [done|lia|]. pose proof range_addrs_length. lia.
Qed.
End user_copy.
