(* ===== verification/TrapCx.v ===== *)
(** * Saved contexts ([os/src/hal/arch/riscv/trap/context.rs], [os/src/task/context.rs])

    The trap context of a thread lies at the start of a frame of its own; the
    kernel reaches it through the number of that frame.  Both it and the task
    context are [repr(C)] records of machine words. *)

From S2P Require Import Prelude Address PhysMem.

(** ** [GeneralRegs]: the 32 words in the order of the declaration *)

Definition GeneralRegs : Type := list Z.
Definition regs_default : GeneralRegs := replicate 32 0.

Definition r_sp : nat := 2.
Definition r_a0 : nat := 10.
Definition r_a1 : nat := 11.
Definition r_a2 : nat := 12.
Definition r_a3 : nat := 13.
Definition r_a4 : nat := 14.
Definition r_a5 : nat := 15.
Definition r_a7 : nat := 17.

Definition get_reg (g : list Z) (r : nat) : Z := default 0 (g !! r).
Definition set_reg (g : list Z) (r : nat) (v : Z) : GeneralRegs := <[r := v]> g.

(** ** [TrapContext] *)

Record TrapContext := mkTC {
  general_regs : GeneralRegs;
  sstatus : Z;
  sepc : Z;
  kernel_satp : Z;
  kernel_sp : Z;
  trap_handler_addr : Z;
}.

Definition with_regs (cx : TrapContext) (g : GeneralRegs) : TrapContext :=
  mkTC g (sstatus cx) (sepc cx) (kernel_satp cx) (kernel_sp cx) (trap_handler_addr cx).

Definition set_sp (cx : TrapContext) (sp : Z) : TrapContext := with_regs cx (set_reg (general_regs cx) r_sp sp).

(** [set_spp(SPP::User)]: the previous privilege is bit 8 of the register. *)
Definition set_spp_user (sst : Z) : Z := Z.clearbit sst 8.

(** [sst] is the value of the register [sstatus]. *)
Definition app_init_context (sst entry sp kernel_satp kernel_sp trap_handler : Z) : TrapContext :=
  set_sp (mkTC regs_default (set_spp_user sst) entry kernel_satp kernel_sp trap_handler) sp.

(** ** In memory *)

Definition tc_words (cx : TrapContext) : list Z :=
  general_regs cx ++ [sstatus cx; sepc cx; kernel_satp cx; kernel_sp cx; trap_handler_addr cx].

Definition word_bytes (l : list Z) : list Z := l ≫= Z_to_little_endian 8 8.

(** [*trap_cx_ppn.get_mut() = cx] *)
Definition put_trap_cx (m : mem) (ppn : Z) (cx : TrapContext) : mem :=
  store_bytes m (pa_from_ppn ppn) (word_bytes (tc_words cx)).

Definition get_trap_cx (m : mem) (ppn : Z) : TrapContext :=
  let w i := load64 m (pa_from_ppn ppn + 8 * i) in
  mkTC (w <$> seqZ 0 32) (w 32) (w 33) (w 34) (w 35) (w 36).

(** [trap_cx_ppn.get_mut().general_regs.r = v] *)
Definition put_reg (m : mem) (ppn : Z) (r : nat) (v : Z) : mem :=
  store64 m (pa_from_ppn ppn + 8 * r) v.

(** [trap_cx_ppn.get_mut().kernel_sp = v] *)
Definition put_kernel_sp (m : mem) (ppn v : Z) : mem := store64 m (pa_from_ppn ppn + 8 * 35) v.

(** ** [TaskContext]; [trap_return] is the address of the function of that name *)

Record TaskContext := mkTaskCx { cx_ra : Z; cx_sp : Z; cx_s : list Z }.

Definition zero_init : TaskContext := mkTaskCx 0 0 (replicate 12 0).
Definition goto_trap_return (trap_return kstack_ptr : Z) : TaskContext :=
  mkTaskCx trap_return kstack_ptr (replicate 12 0).

(** ** Reading back *)

Record tc_ok (cx : TrapContext) : Prop := {
  tk_len : length (general_regs cx) = 32%nat;
  tk_words : Forall is_usize (tc_words cx);
}.

Lemma store_bytes_app m a b1 b2 y :
  store_bytes m a (b1 ++ b2) y = store_bytes (store_bytes m a b1) (a + length b1) b2 y.
Proof.
  unfold store_bytes. rewrite length_app. destruct (Z.leb_spec (a + length b1) y) as [Hy|Hy].
  - rewrite (proj2 (Z.leb_le a y)), lookup_app_r by lia.
    replace (Z.to_nat (y - a) - length b1)%nat with (Z.to_nat (y - (a + length b1))) by lia.
    rewrite (proj2 (Z.ltb_ge y (a + length b1))) by lia.
    replace (a + (length b1 + length b2)%nat) with (a + length b1 + length b2) by lia. by destruct (_ <? _).
  - destruct (Z.leb_spec a y); simpl; [|done]. rewrite !(proj2 (Z.ltb_lt y _)) by lia. by rewrite lookup_app_l by lia.
Qed.

Lemma length_word_bytes l : length (word_bytes l) = (8 * length l)%nat.
Proof.
  unfold word_bytes. induction l as [|x l IH]; [done|]. cbn [mbind list_bind]. rewrite length_app, IH.
  pose proof (length_Z_to_little_endian 8 8 x ltac:(lia)). simpl. lia.
Qed.

Lemma load_words l : ∀ m a (i : nat) v,
  Forall is_usize l → l !! i = Some v → load64 (store_bytes m a (word_bytes l)) (a + 8 * i) = v.
Proof.
  induction l as [|x l IH]; intros m a i v Hl Hi; [done|]. apply Forall_cons in Hl as [Hx Hl].
  assert (Hw : Z.of_nat (length (Z_to_little_endian 8 8 x)) = 8) by (by rewrite length_Z_to_little_endian).
  rewrite (load64_ext _ (store_bytes (store64 m a x) (a + 8) (word_bytes l))).
  2: { intros y _. change (word_bytes (x :: l)) with (Z_to_little_endian 8 8 x ++ word_bytes l).
       rewrite store_bytes_app, Hw. done. }
  destruct i as [|i]; simpl in Hi.
  - injection Hi as ->. rewrite Z.mul_0_r, Z.add_0_r.
    rewrite (load64_ext _ (store64 m a v)); [by apply load64_store64_eq|].
    intros y Hy. apply store_bytes_out. lia.
  - replace (a + 8 * S i) with (a + 8 + 8 * i) by lia. by apply IH.
Qed.

Lemma words_roundtrip m a l n :
  Forall is_usize l → length l = Z.to_nat n → 0 <= n →
  (λ i, load64 (store_bytes m a (word_bytes l)) (a + 8 * i)) <$> seqZ 0 n = l.
Proof.
  intros Hl Hn H0. apply list_eq. intros i. rewrite list_lookup_fmap.
  destruct (decide (i < n)) as [Hi|Hi].
  - rewrite lookup_seqZ_lt by lia. simpl. destruct (lookup_lt_is_Some_2 l i) as [v Hv]; [lia|].
    rewrite Hv. f_equal. by apply load_words.
  - rewrite lookup_seqZ_ge by lia. symmetry. apply lookup_ge_None. lia.
Qed.

(** The words of a context read from memory. *)
Lemma get_trap_cx_words m ppn :
  tc_words (get_trap_cx m ppn) = (λ i, load64 m (pa_from_ppn ppn + 8 * i)) <$> seqZ 0 37.
Proof. done. Qed.

Lemma tc_words_inj cx cx' :
  length (general_regs cx) = length (general_regs cx') → tc_words cx = tc_words cx' → cx = cx'.
Proof.
  destruct cx, cx'. unfold tc_words. simpl. intros Hl H. apply app_inj_1 in H as [-> H]; [|done].
  by injection H as -> -> -> -> ->.
Qed.

Lemma get_put_trap_cx m ppn cx : tc_ok cx → get_trap_cx (put_trap_cx m ppn cx) ppn = cx.
Proof.
  intros [Hl Hw]. apply tc_words_inj; [by rewrite Hl|]. rewrite get_trap_cx_words.
  apply words_roundtrip; [done| |lia]. unfold tc_words. rewrite length_app, Hl. done.
Qed.

Lemma get_trap_cx_ext m m' ppn ppn' :
  (∀ i, 0 <= i < 296 → m (pa_from_ppn ppn + i) = m' (pa_from_ppn ppn' + i)) →
  get_trap_cx m ppn = get_trap_cx m' ppn'.
Proof.
  intros H. apply tc_words_inj; [done|]. rewrite !get_trap_cx_words. apply list_fmap_ext.
  intros j i [-> Hi]%lookup_seqZ. unfold load64. f_equal. unfold load_bytes. apply list_fmap_ext.
  intros k x [-> Hx]%lookup_seqZ. rewrite <- !Z.add_assoc. apply H. lia.
Qed.

Lemma get_trap_cx_kept m m' ppn :
  is_ppn ppn → (∀ x, x / 4096 = ppn → m' x = m x) → get_trap_cx m' ppn = get_trap_cx m ppn.
Proof.
  intros Hp Hm. apply get_trap_cx_ext. intros i Hi. apply Hm. unfold is_ppn in Hp. rewrite pa_from_ppn_eq by lia. zdiv_lia.
Qed.

(** One word of the context replaced. *)
Lemma put_word_words m ppn (k : nat) v :
  is_usize v → (k < 37)%nat →
  tc_words (get_trap_cx (store64 m (pa_from_ppn ppn + 8 * k) v) ppn) = <[k := v]> (tc_words (get_trap_cx m ppn)).
Proof.
  intros Hv Hk. rewrite !get_trap_cx_words. apply list_eq. intros i.
  destruct (decide (i = k)) as [->|Hne].
  - rewrite list_lookup_insert_eq by (rewrite length_fmap, length_seqZ; lia).
    rewrite list_lookup_fmap, lookup_seqZ_lt by lia. simpl. f_equal. by apply load64_store64_eq.
  - rewrite list_lookup_insert_ne by done. rewrite !list_lookup_fmap.
    destruct (decide (i < 37)%nat); [|by rewrite !lookup_seqZ_ge by lia].
    rewrite lookup_seqZ_lt by lia. simpl. f_equal. apply load64_store64_ne. lia.
Qed.

Lemma get_put_reg m ppn r v :
  is_usize v → (r < 32)%nat →
  get_trap_cx (put_reg m ppn r v) ppn =
    with_regs (get_trap_cx m ppn) (set_reg (general_regs (get_trap_cx m ppn)) r v).
Proof.
  intros Hv Hr. apply tc_words_inj; [unfold with_regs, set_reg; cbn [general_regs]; by rewrite length_insert|]. unfold put_reg.
  rewrite put_word_words by (done || lia). unfold tc_words at 1. by rewrite insert_app_l.
Qed.

Lemma get_put_kernel_sp m ppn v :
  is_usize v →
  get_trap_cx (put_kernel_sp m ppn v) ppn =
    let cx := get_trap_cx m ppn in mkTC (general_regs cx) (sstatus cx) (sepc cx) (kernel_satp cx) v (trap_handler_addr cx).
Proof. intros Hv. apply tc_words_inj; [done|]. unfold put_kernel_sp. apply (put_word_words m ppn 35); [done|lia]. Qed.

Lemma app_init_ok sst entry sp ks kp th :
  is_usize sst → is_usize entry → is_usize sp → is_usize ks → is_usize kp → is_usize th →
  tc_ok (app_init_context sst entry sp ks kp th).
Proof.
  intros Hs ?????. split; [done|].
  assert (is_usize (set_spp_user sst)).
  { unfold is_usize, set_spp_user in *. rewrite Z.clearbit_spec'.
    assert (0 <= Z.ldiff sst (2 ^ 8)) by (apply Z.ldiff_nonneg; lia). split; [done|].
    apply Z.bounded_iff_bits_nonneg; [lia..|]. intros l Hl. rewrite Z.ldiff_spec.
    by rewrite (proj1 (Z.bounded_iff_bits_nonneg 64 sst ltac:(lia) ltac:(lia))) by lia. }
  assert (is_usize 0) by done.
  unfold tc_words, app_init_context, set_sp, set_reg; simpl. repeat (apply Forall_cons; split; [done|]). apply Forall_nil_2.
Qed.

(** A context does not leave its frame. *)
Lemma put_trap_cx_frame m ppn cx x : is_ppn ppn → tc_ok cx → x / 4096 ≠ ppn → put_trap_cx m ppn cx x = m x.
Proof.
  intros Hp [Hl _] Hx. apply store_bytes_out. rewrite length_word_bytes. unfold tc_words. rewrite length_app, Hl.
  unfold is_ppn in Hp. rewrite pa_from_ppn_eq by lia. simpl. zdiv_lia.
Qed.

Lemma put_word_frame m ppn k v x : is_ppn ppn → 0 <= k < 37 → x / 4096 ≠ ppn → store64 m (pa_from_ppn ppn + 8 * k) v x = m x.
Proof. intros Hp Hk Hx. unfold is_ppn in Hp. apply store64_out. rewrite pa_from_ppn_eq by lia. zdiv_lia. Qed.
