(* ===== verification/UserRes.v ===== *)
(** * Stacks and thread resources
    ([os/src/hal/arch/riscv/kernel_stack.rs], [os/src/task/task.rs])

    A kernel stack is an area of the kernel address space, named by an
    identifier; the user stack and the trap context of a thread are areas of
    the address space of its process, named by the thread id.  Both are
    computed from the identifier, taken from a [RecycleAllocator], inserted
    when the owner is made and removed when it is dropped. *)

From S2P Require Import Prelude Address PhysMem IdAlloc FrameAlloc PageTable MemorySet MapAreaSpec MemorySetSpec.
From S2P Require Import MemorySetOps Mmap.

(** ** Layout *)

Definition USER_STACK_SIZE : Z := PAGE_SIZE * 2.
Definition KERNEL_STACK_SIZE : Z := PAGE_SIZE * 2.
Definition UserStackBase : Z := TRAP_CONTEXT_BASE - 8 * (PAGE_SIZE + USER_STACK_SIZE).

Definition kernel_stack_position (kstack_id : Z) : Z * Z :=
  let top := TRAMPOLINE -w kstack_id *w (KERNEL_STACK_SIZE + PAGE_SIZE) in
  let bottom := top -w KERNEL_STACK_SIZE in
  (bottom, top).

Definition trap_cx_bottom_from_tid (tid : Z) : Z := TRAP_CONTEXT_BASE -w tid *w PAGE_SIZE.

Definition ustack_bottom_from_tid (tid : Z) : Z := UserStackBase +w tid *w (PAGE_SIZE + USER_STACK_SIZE).

(** ** An address space with the allocator of its identifiers

    For kernel stacks: [KERNEL_SPACE] and [KSTACK_ALLOCATOR].  For threads: the
    [memory_set] and the [task_res_allocator] of a process. *)

Record Spaced (T : Type) := mkSp { sp_mem : KMem; sp_space : MemorySet T; sp_ids : RecycleAllocator }.
Arguments mkSp {T} _ _ _.
Arguments sp_mem {T} _.
Arguments sp_space {T} _.
Arguments sp_ids {T} _.

Section spaced.
Context {T : Type} `{!PageTable T}.

Definition with_space (f : MemorySet T → K KMem (MemorySet T)) : K (Spaced T) unit := λ s,
  match f (sp_space s) (sp_mem s) with
  | Done (ms, m) => Done ((), mkSp m ms (sp_ids s))
  | Panic => Panic
  end.

Definition with_ids (f : RecycleAllocator → outcome (Z * RecycleAllocator)) : K (Spaced T) Z := λ s,
  match f (sp_ids s) with
  | Done (r, a) => Done (r, mkSp (sp_mem s) (sp_space s) a)
  | Panic => Panic
  end.

Definition insert_framed (start_va end_va perm : Z) : K (Spaced T) unit :=
  with_space (λ ms, insert_framed_area ms start_va end_va perm).

(** ** Kernel stacks *)

Definition kstack_alloc : K (Spaced T) Z :=
  kstack_id ← with_ids (λ a, Done (kstack_ra_alloc a));
  let '(kstack_bottom, kstack_top) := kernel_stack_position kstack_id in
  insert_framed (va_from_usize kstack_bottom) (va_from_usize kstack_top) (Z.lor PERM_R PERM_W) ;;
  mret kstack_id.

Definition get_top (kstack_id : Z) : Z := (kernel_stack_position kstack_id).2.

(** [Drop for KernelStack] *)
Definition kstack_drop (kstack_id : Z) : K (Spaced T) unit :=
  let '(kernel_stack_bottom, _) := kernel_stack_position kstack_id in
  vpn ← klift (vpn_from_va (va_from_usize kernel_stack_bottom));
  with_space (λ ms, remove_area_with_start_vpn ms vpn) ;;
  with_ids (λ a, a' ← kstack_ra_dealloc a kstack_id; Done (kstack_id, a')) ;;
  mret ().

(** ** [TaskUserRes]: a value is the thread id *)

Definition alloc_tid : K (Spaced T) Z := with_ids (λ a, Done (ra_alloc a)).
Definition dealloc_tid (tid : Z) : K (Spaced T) unit :=
  with_ids (λ a, a' ← ra_dealloc a tid; Done (tid, a')) ;; mret ().

Definition alloc_user_res (tid : Z) : K (Spaced T) unit :=
  let ustack_bottom := ustack_bottom_from_tid tid in
  let ustack_top := ustack_bottom +w USER_STACK_SIZE in
  insert_framed (va_from_usize ustack_bottom) (va_from_usize ustack_top) (Z.lor (Z.lor PERM_R PERM_W) PERM_U) ;;
  let trap_cx_bottom := trap_cx_bottom_from_tid tid in
  let trap_cx_top := trap_cx_bottom +w PAGE_SIZE in
  insert_framed (va_from_usize trap_cx_bottom) (va_from_usize trap_cx_top) (Z.lor PERM_R PERM_W).

Definition task_user_res_new (alloc : bool) : K (Spaced T) Z :=
  tid ← alloc_tid;
  (if alloc then alloc_user_res tid else mret ()) ;;
  mret tid.

Definition dealloc_user_res (tid : Z) : K (Spaced T) unit :=
  uvpn ← klift (vpn_from_va (va_from_usize (ustack_bottom_from_tid tid)));
  with_space (λ ms, remove_area_with_start_vpn ms uvpn) ;;
  cvpn ← klift (vpn_from_va (va_from_usize (trap_cx_bottom_from_tid tid)));
  with_space (λ ms, remove_area_with_start_vpn ms cvpn).

(** [Drop for TaskUserRes] *)
Definition task_user_res_drop (tid : Z) : K (Spaced T) unit :=
  dealloc_tid tid ;;
  dealloc_user_res tid.

Definition trap_cx_user_va (tid : Z) : Z := trap_cx_bottom_from_tid tid.

Definition trap_cx_ppn (tid : Z) : K (Spaced T) Z :=
  vpn ← klift (vpn_from_va (va_from_usize (trap_cx_bottom_from_tid tid)));
  s ← kget;
  pte ← kunwrap (translate (km_mem (sp_mem s)) (sp_space s) vpn);
  mret (pte_ppn pte).

Definition ustack_top (tid : Z) : Z := ustack_bottom_from_tid tid +w USER_STACK_SIZE.
End spaced.

(** ** Areas at computed places

    A slot is the place and the permissions of an area: first page, end,
    permissions.  [slots_in lim P ms]: beyond page [lim] the areas of [ms] are
    exactly the slots of [P]. *)

Notation slot := (Z * Z * Z)%type.

Definition is_slot (a : MapArea) (sl : slot) : Prop := area_spec a sl.1.1 sl.1.2 sl.2.

Definition slots_in {T} (lim : Z) (P : slot → Prop) (ms : MemorySet T) : Prop :=
  (∀ a, a ∈ areas ms → get_end (vpn_range a) <= lim ∨ ∃ sl, P sl ∧ is_slot a sl) ∧
  (∀ sl, P sl → ∃ a, a ∈ areas ms ∧ is_slot a sl).

Definition slot_page (sl : slot) (v : Z) : Prop := sl.1.1 <= v < sl.1.2.

(** A slot that can be inserted beside those of [P]. *)
Record slot_free (lim : Z) (P : slot → Prop) (sl : slot) : Prop := {
  sf_lim : lim < sl.1.1;
  sf_pages : sl.1.1 < sl.1.2 <= TRAMP_VPN;
  sf_perm : is_perm sl.2;
  sf_disj : ∀ sl' v, P sl' → slot_page sl v → slot_page sl' v → False;
}.

Section slots.
Context {T : Type} `{!PageTable T}.
Implicit Types s : Spaced T.

Definition sp_ok s : Prop := fa_wf (km_fa (sp_mem s)) ∧ ms_ok (sp_mem s) (sp_space s).
Definition sp_lookup s (v : Z) : option Z := pt_lookup (km_mem (sp_mem s)) (page_table (sp_space s)) v.
Definition sp_free s : Z := fa_free (km_fa (sp_mem s)).

Lemma wp_with_space f s (Q : unit → Spaced T → Prop) :
  wp (f (sp_space s)) (sp_mem s) (λ ms m, Q () (mkSp m ms (sp_ids s))) → wp (with_space f) s Q.
Proof. unfold wp, with_space. by destruct (f (sp_space s) (sp_mem s)) as [[ms m]|]. Qed.

Lemma wp_with_ids f r a s (Q : Z → Spaced T → Prop) :
  f (sp_ids s) = Done (r, a) → Q r (mkSp (sp_mem s) (sp_space s) a) → wp (with_ids f) s Q.
Proof. intros E HQ. unfold wp, with_ids. by rewrite E. Qed.

Lemma is_slot_page a sl v : is_slot a sl → in_area a v ↔ slot_page sl v.
Proof. intros (Hr&_&_). unfold in_area, slot_page. by rewrite Hr. Qed.

(** What inserting slot [sl] does to the rest. *)
Record slot_added (sl : slot) s s' : Prop := {
  sa_ok : sp_ok s';
  sa_ids : sp_ids s' = sp_ids s;
  sa_free : sp_free s - 3 * (sl.1.2 - sl.1.1) <= sp_free s';
  sa_pages : ∀ v, slot_page sl v → ∃ ppn,
    sp_lookup s' v = Some (pte_make ppn sl.2) ∧ is_ppn ppn ∧ ¬ fa_owned (km_fa (sp_mem s)) ppn ∧
    ∀ x, x / 4096 = ppn → km_mem (sp_mem s') x = 0;
  sa_other : ∀ v, is_vpn v → ¬ slot_page sl v → sp_lookup s' v = sp_lookup s v;
  sa_area : ∃ new a, ms_grow (sp_mem s) (sp_space s) new (sp_mem s') (sp_space s') ∧
    areas (sp_space s') = areas (sp_space s) ++ [a] ∧ is_slot a sl;
  sa_heap : brk (sp_space s') = brk (sp_space s) ∧ heap_start (sp_space s') = heap_start (sp_space s);
}.

Lemma insert_slot lim P sl s start_va end_va :
  sp_ok s → slots_in lim P (sp_space s) → slot_free lim P sl →
  0 <= lim → va_floor start_va = sl.1.1 → va_ceil end_va = sl.1.2 →
  3 * (sl.1.2 - sl.1.1) <= sp_free s →
  wp (insert_framed start_va end_va sl.2) s (λ _ s',
    slot_added sl s s' ∧ slots_in lim (λ x, x = sl ∨ P x) (sp_space s')).
Proof.
  intros [Hfa Hok] [Hin1 Hin2] [Hlim Hpg Hperm Hdis] Hl0 Hsv Hev Hfree. apply wp_with_space. eapply wp_mono.
  { apply insert_framed_wp; try done; rewrite ?Hsv, ?Hev; try lia; [|unfold sp_free in Hfree; lia].
    intros a v Ha Hv Hav. destruct (Hin1 a Ha) as [Hle|(sl'&HP&Hs)]; [unfold in_area in Hav; lia|].
    apply (Hdis sl' v HP Hv). by apply (is_slot_page a). }
  intros ms' m' (a&new&a'&Hspec&Hp). rewrite Hsv, Hev in Hspec. pose proof Hspec as (Hr&Hty&Hpm).
  assert (Hspec' : is_slot a' sl). { destruct (pp_attrs _ _ _ _ _ _ _ Hp) as (E1&E2&E3). unfold is_slot, area_spec. by rewrite E1, E2, E3. }
  pose proof (mg_grows _ _ _ _ _ (pp_grow _ _ _ _ _ _ _ Hp)) as G.
  split; [split|split]; simpl.
  - split; [apply G|apply Hp].
  - done.
  - unfold sp_free. simpl. rewrite (gr_free _ _ _ G). pose proof (pp_len _ _ _ _ _ _ _ Hp) as Hlen.
    unfold n_pages in Hlen. rewrite Hr in Hlen. simpl in Hlen. lia.
  - intros v Hv. assert (Hav : in_area a v) by by apply (is_slot_page a sl).
    destruct (pp_zero _ _ _ _ _ _ _ Hp Hty v Hav) as (ppn&Hd&Hn&Hz). exists ppn.
    assert (Ha' : a' ∈ areas ms') by (rewrite (pp_areas _ _ _ _ _ _ _ Hp); apply elem_of_app; right; by left).
    assert (Hav' : in_area a' v) by by apply (is_slot_page a' sl).
    destruct (mo_mapped _ _ (pp_ok _ _ _ _ _ _ _ Hp) a' v Ha' Hav') as (q&Ht&Hq&Hlk).
    destruct Hspec' as (E1&E2&E3). unfold area_target in Ht. rewrite E2, Hd in Ht. injection Ht as <-.
    rewrite <- E3. split; [done|]. split; [done|]. split; [by apply (gr_fresh _ _ _ G)|done].
  - intros v Hv Hn. apply (pp_other _ _ _ _ _ _ _ Hp); [done|]. by rewrite (is_slot_page a sl).
  - exists new, a'. split; [apply Hp|]. split; [apply Hp|done].
  - apply Hp.
  - intros b. rewrite (pp_areas _ _ _ _ _ _ _ Hp). intros [Hb|Hb]%elem_of_app.
    + destruct (Hin1 b Hb) as [?|(sl'&?&?)]; [by left|right; exists sl'; auto].
    + apply list_elem_of_singleton in Hb as ->. right. exists sl. auto.
  - intros sl' Hsl'. rewrite (pp_areas _ _ _ _ _ _ _ Hp). setoid_rewrite elem_of_app. destruct Hsl' as [->|HP].
    + exists a'. split; [right; by left|done].
    + destruct (Hin2 sl' HP) as (b&?&?). eauto.
Qed.

Record slot_removed (sl : slot) s s' : Prop := {
  sr_ok : sp_ok s';
  sr_ids : sp_ids s' = sp_ids s;
  sr_free : sp_free s' = sp_free s + (sl.1.2 - sl.1.1);
  sr_gone : ∀ v, slot_page sl v → sp_lookup s' v = None;
  sr_other : ∀ v, is_vpn v → ¬ slot_page sl v → sp_lookup s' v = sp_lookup s v;
}.

Lemma remove_slot lim P sl s :
  sp_ok s → slots_in lim P (sp_space s) → P sl → lim < sl.1.1 < sl.1.2 →
  (∀ sl', P sl' → sl'.1.1 = sl.1.1 → sl' = sl) →
  (∀ sl' v, P sl' → slot_page sl v → slot_page sl' v → sl' = sl) →
  wp (with_space (λ ms, remove_area_with_start_vpn ms sl.1.1)) s (λ _ s',
    slot_removed sl s s' ∧ slots_in lim (λ x, P x ∧ x ≠ sl) (sp_space s')).
Proof.
  intros [Hfa Hok] [Hin1 Hin2] HP Hlim Huniq Hdis. apply wp_with_space. unfold remove_area_with_start_vpn.
  destruct (Hin2 sl HP) as (a0&Ha0&Hs0). apply list_elem_of_lookup in Ha0 as [i0 Hi0].
  destruct (list_find _ (areas (sp_space s))) as [[i a]|] eqn:Ef.
  2: { apply list_find_None in Ef. rewrite Forall_forall in Ef. destruct (Ef a0); [by eapply list_elem_of_lookup_2|].
       destruct Hs0 as (->&_). done. }
  apply list_find_Some in Ef as (Hi&Hst&_). pose proof (list_elem_of_lookup_2 _ _ _ Hi) as Ha.
  assert (Hs : is_slot a sl).
  { destruct (Hin1 a Ha) as [Hle|(sl'&HP'&Hs')].
    - pose proof (ro_le _ (ao_range _ (mo_areas _ _ Hok a Ha))). lia.
    - rewrite <- (Huniq sl' HP'); [done|]. destruct Hs' as (E&_). rewrite E in Hst. done. }
  eapply wp_mono; [by apply unmap_area_at_spec|]. intros ms' m' Hp.
  pose proof Hs as (Er&Ety&_). pose proof (mo_areas _ _ Hok a Ha) as Hao.
  assert (Hnd : ∀ b, b ∈ delete i (areas (sp_space s)) → b ∈ areas (sp_space s) ∧ ¬ is_slot b sl).
  { intros b (j&Hne&Hj)%elem_of_delete. split; [by eapply list_elem_of_lookup_2|]. intros Hb.
    apply Hne, (mo_disj _ _ Hok j i b a sl.1.1 Hj Hi).
    - apply (is_slot_page b sl _ Hb). unfold slot_page. lia.
    - apply (is_slot_page a sl _ Hs). unfold slot_page. lia. }
  split; [split|split]; simpl.
  - split; apply Hp.
  - done.
  - unfold sp_free. simpl. rewrite (rp_free _ _ _ _ _ _ Hp), area_frames_length, decide_True by done.
    rewrite length_area_pages by apply Hao. unfold n_pages. rewrite Er. done.
  - intros v Hv. apply (rp_gone _ _ _ _ _ _ Hp). by apply (is_slot_page a sl).
  - intros v Hv Hn. apply (rp_other _ _ _ _ _ _ Hp); [done|]. by rewrite (is_slot_page a sl).
  - intros b. rewrite (rp_areas _ _ _ _ _ _ Hp). intros [Hb Hnb]%Hnd.
    destruct (Hin1 b Hb) as [?|(sl'&?&?)]; [by left|right]. exists sl'. split; [|done]. split; [done|]. by intros ->.
  - intros sl' [HP' Hne]. rewrite (rp_areas _ _ _ _ _ _ Hp). destruct (Hin2 sl' HP') as (b&Hb&Hsb). exists b. split; [|done].
    apply list_elem_of_lookup in Hb as [j Hj]. apply (elem_of_delete_2 _ i j); [done|]. intros ->.
    assert (b = a) as -> by congruence. apply Hne, (Hdis sl' sl.1.1); [done| |].
    + unfold slot_page. lia.
    + apply (is_slot_page a sl' _ Hsb), (is_slot_page a sl _ Hs). unfold slot_page. lia.
Qed.
End slots.
