(* ===== verification/StackProps.v ===== *)
(** * Kernel stacks and thread resources: correctness

    Kernel stacks are mapped, apart, and separated by unmapped guard pages; so
    are the user stacks and trap contexts of up to six threads.  The seventh
    thread does not fit: its stack and its trap context share a page. *)

From S2P Require Import Prelude Address PhysMem IdAlloc FrameAlloc PageTable MemorySet MapAreaSpec MemorySetSpec.
From S2P Require Import MemorySetOps Mmap UserRes.

Definition RW : Z := Z.lor PERM_R PERM_W.
Definition RWU : Z := Z.lor (Z.lor PERM_R PERM_W) PERM_U.

(** ** Where the slots are *)

Definition kst (id : Z) : slot := (TRAMP_VPN - 3 * id - 2, TRAMP_VPN - 3 * id, RW).

Lemma va_page_high n : 0 <= n <= TRAMP_VPN →
  let va := va_from_usize (TRAMPOLINE - n * 4096) in
  va_floor va = TRAMP_VPN - n ∧ va_ceil va = TRAMP_VPN - n ∧ vpn_from_va va = Done (TRAMP_VPN - n).
Proof.
  intros Hn va. unfold TRAMP_VPN in *.
  assert (Hva : va = (2 ^ 27 - 1 - n) * 4096).
  { unfold va. rewrite va_from_usize_mod. replace (TRAMPOLINE - n * 4096) with ((2 ^ 27 - 1 - n) * 4096 + (2 ^ 25 - 1) * 2 ^ 39).
    - rewrite Z.mod_add by lia. apply Z.mod_small. lia.
    - unfold TRAMPOLINE, PAGE_SIZE. lia. }
  rewrite Hva. assert (Hf : va_floor ((2 ^ 27 - 1 - n) * 4096) = 2 ^ 27 - 1 - n) by (unfold va_floor, PAGE_SIZE; zdiv_lia).
  split; [done|]. split; [rewrite va_ceil_eq by lia; zdiv_lia|].
  unfold vpn_from_va. rewrite va_page_offset_mod, Z.mod_mul by lia. by rewrite Hf.
Qed.

Lemma kst_position id : 0 <= id → 3 * id + 2 <= TRAMP_VPN →
  kernel_stack_position id = (TRAMPOLINE - (3 * id + 2) * 4096, TRAMPOLINE - 3 * id * 4096).
Proof.
  unfold TRAMP_VPN, kernel_stack_position, KERNEL_STACK_SIZE, TRAMPOLINE, PAGE_SIZE. intros H1 H2. wsmall. f_equal; lia.
Qed.

(** User stack and trap context of a thread. *)
Definition ust (tid : Z) : slot := (TRAMP_VPN - 25 + 3 * tid, TRAMP_VPN - 23 + 3 * tid, RWU).
Definition tcx (tid : Z) : slot := (TRAMP_VPN - 1 - tid, TRAMP_VPN - tid, RW).

Lemma ust_position tid : 0 <= tid < 8 →
  ustack_bottom_from_tid tid = TRAMPOLINE - (25 - 3 * tid) * 4096 ∧
  ustack_bottom_from_tid tid +w USER_STACK_SIZE = TRAMPOLINE - (23 - 3 * tid) * 4096.
Proof.
  unfold ustack_bottom_from_tid, UserStackBase, USER_STACK_SIZE, TRAP_CONTEXT_BASE, TRAMPOLINE, PAGE_SIZE. intros H.
  split; wsmall; lia.
Qed.

Lemma tcx_position tid : 0 <= tid < 1000 →
  trap_cx_bottom_from_tid tid = TRAMPOLINE - (1 + tid) * 4096 ∧
  trap_cx_bottom_from_tid tid +w PAGE_SIZE = TRAMPOLINE - tid * 4096.
Proof.
  unfold trap_cx_bottom_from_tid, TRAP_CONTEXT_BASE, TRAMPOLINE, PAGE_SIZE. intros H. destruct (decide (tid = 0)) as [->|].
  - done.
  - split; wsmall; lia.
Qed.

Lemma ra_alloc_current a id a' :
  ra_wf a → ra_room a → ra_alloc a = (id, a') → 0 <= id < ra_current a' ∧ ra_current a' <= ra_current a + 1.
Proof.
  intros Hwf Hr Ea. destruct (ra_alloc_fresh _ _ _ Hwf Hr Ea) as (_&_&Hlive). split; [apply (Hlive id); by left|].
  destruct Hwf as (_&_&Hc). unfold ra_room in Hr. revert Ea. unfold ra_alloc.
  destruct (vec_pop _) as [[x r]|]; intros [= <- <-]; simpl; [lia|]. rewrite wadd_small by lia. lia.
Qed.

Lemma ra_dealloc_current a id a' : ra_dealloc a id = Done a' → ra_current a' = ra_current a.
Proof. unfold ra_dealloc. repeat case_match; try done. by intros [= <-]. Qed.

Section stacks.
Context {T : Type} `{!PageTable T}.
Implicit Types s : Spaced T.

Definition live_slots (f : Z → slot → Prop) s (sl : slot) : Prop := ∃ id, ra_live (sp_ids s) id ∧ f id sl.

(** ** Kernel stacks *)

Record kst_inv (lim : Z) s : Prop := {
  ki_ok : sp_ok s;
  ki_ids : ra_wf (sp_ids s);
  ki_lim : 0 <= lim < TRAMP_VPN - 3 * ra_current (sp_ids s);
  ki_slots : slots_in lim (live_slots (λ id sl, sl = kst id) s) (sp_space s);
}.

Lemma slots_in_ext lim (P P' : slot → Prop) (ms : MemorySet T) :
  (∀ sl, P sl ↔ P' sl) → slots_in lim P ms → slots_in lim P' ms.
Proof.
  intros E [H1 H2]. split; [|intros sl Hsl; by apply H2, E].
  intros a Ha. destruct (H1 a Ha) as [?|(sl&?%E&?)]; [by left|right; by exists sl].
Qed.

Lemma kst_disjoint i j v : 0 <= i → 0 <= j → slot_page (kst i) v → slot_page (kst j) v → i = j.
Proof. unfold slot_page. simpl. lia. Qed.

Lemma live_range s id : ra_live (sp_ids s) id → 0 <= id < ra_current (sp_ids s).
Proof. by intros [? _]. Qed.

Lemma kstack_alloc_wp lim s :
  kst_inv lim s → lim < TRAMP_VPN - 3 * (ra_current (sp_ids s) + 1) → 6 <= sp_free s →
  wp kstack_alloc s (λ id s', kst_inv lim s' ∧ ¬ ra_live (sp_ids s) id ∧
    (∀ x, ra_live (sp_ids s') x ↔ x = id ∨ ra_live (sp_ids s) x) ∧
    (∀ v, slot_page (kst id) v → ∃ ppn, sp_lookup s' v = Some (pte_make ppn RW) ∧
       ¬ fa_owned (km_fa (sp_mem s)) ppn ∧ ∀ x, x / 4096 = ppn → km_mem (sp_mem s') x = 0) ∧
    (∀ v, is_vpn v → ¬ slot_page (kst id) v → sp_lookup s' v = sp_lookup s v) ∧
    (∃ new, ms_grow (sp_mem s) (sp_space s) new (sp_mem s') (sp_space s')) ∧ 0 <= id <= ra_current (sp_ids s) ∧
    sp_free s - 6 <= sp_free s' ∧ ra_current (sp_ids s') <= ra_current (sp_ids s) + 1).
Proof.
  intros [Hok Hids Hlim Hsl] Hroom Hfree. unfold kstack_alloc. wp_next. unfold TRAMP_VPN in *.
  assert (Hcur : 0 <= ra_current (sp_ids s)) by apply Hids.
  destruct (ra_alloc (sp_ids s)) as [id a'] eqn:Ea.
  destruct (ra_alloc_fresh _ _ _ Hids ltac:(unfold ra_room; lia) Ea) as (Hwf'&Hfresh&Hlive).
  destruct (ra_alloc_current _ _ _ Hids ltac:(unfold ra_room; lia) Ea) as [Hid Hle].
  eapply wp_with_ids; [by rewrite <- Ea|]. rewrite kst_position by (unfold TRAMP_VPN; lia). wp_next.
  destruct (va_page_high (3 * id + 2)) as (Hf&_&_); [unfold TRAMP_VPN; lia|].
  destruct (va_page_high (3 * id)) as (_&Hc&_); [unfold TRAMP_VPN; lia|].
  eapply wp_mono.
  { apply (insert_slot lim (live_slots (λ id sl, sl = kst id) s) (kst id)); try done; simpl; unfold TRAMP_VPN in *; try lia;
      [|unfold sp_free in *; simpl; lia].
    split; simpl; unfold TRAMP_VPN; try lia; [done|]. intros sl' v (j&Hj&->) Hv Hv'.
    apply live_range in Hj as Hj'. assert (id = j) by (eapply kst_disjoint; [..|exact Hv|exact Hv']; lia). by subst j. }
  intros [] s' [Hadd Hin]. wp_steps. pose proof (sa_ids _ _ _ Hadd) as Eids. simpl in Eids.
  split; [split|split; [done|split; [|split; [|split; [|split; [|split; [|split; [|by rewrite Eids]]]]]]]].
  - apply Hadd.
  - by rewrite Eids.
  - rewrite Eids. unfold TRAMP_VPN. lia.
  - eapply slots_in_ext; [|exact Hin]. intros sl. unfold live_slots. rewrite Eids. setoid_rewrite Hlive. split.
    + intros [->|(j&?&->)]; [exists id; auto|exists j; auto].
    + intros (j&[->|?]&->); [by left|right; by exists j].
  - intros x. by rewrite Eids.
  - intros v Hv. destruct (sa_pages _ _ _ Hadd v Hv) as (ppn&?&?&?&?). by exists ppn.
  - apply (sa_other _ _ _ Hadd).
  - destruct (sa_area _ _ _ Hadd) as (new&a&G&_). by exists new.
  - lia.
  - pose proof (sa_free _ _ _ Hadd) as Hfr. unfold sp_free in *. simpl in Hfr. lia.
Qed.

Lemma kstack_drop_wp lim s id :
  kst_inv lim s → ra_live (sp_ids s) id →
  wp (kstack_drop id) s (λ _ s', kst_inv lim s' ∧
    (∀ x, ra_live (sp_ids s') x ↔ x ≠ id ∧ ra_live (sp_ids s) x) ∧ sp_free s' = sp_free s + 2 ∧
    (∀ v, slot_page (kst id) v → sp_lookup s' v = None) ∧
    (∀ v, is_vpn v → ¬ slot_page (kst id) v → sp_lookup s' v = sp_lookup s v)).
Proof.
  intros [Hok Hids Hlim Hsl] Hid. apply live_range in Hid as Hr. unfold TRAMP_VPN in *. unfold kstack_drop.
  rewrite kst_position by (unfold TRAMP_VPN; lia). wp_next.
  destruct (va_page_high (3 * id + 2)) as (_&_&Hv); [unfold TRAMP_VPN; lia|]. eapply wp_lift; [exact Hv|]. wp_next.
  change (2 ^ 27 - 1 - (3 * id + 2)) with (TRAMP_VPN - (3 * id + 2)).
  replace (TRAMP_VPN - (3 * id + 2)) with (kst id).1.1 by (simpl; lia).
  eapply wp_mono.
  { apply (remove_slot lim (live_slots (λ id sl, sl = kst id) s) (kst id)); try done; simpl; unfold TRAMP_VPN; try lia.
    - by exists id.
    - intros sl' (j&Hj&->). simpl. intros. f_equal. unfold TRAMP_VPN in *. assert (j = id) as -> by lia. done.
    - intros sl' v (j&Hj&->) Hv1 Hv2. apply live_range in Hj. f_equal. symmetry. eapply kst_disjoint; [..|exact Hv1|exact Hv2]; lia. }
  intros [] s' [Hrem Hin]. pose proof (sr_ids _ _ _ Hrem) as Eids. wp_next.
  destruct (ra_dealloc_live _ _ Hids Hid) as (a&Ha&Hwf'&Hlive). 
  pose proof (ra_dealloc_current _ _ _ Ha) as Hcur.
  eapply wp_with_ids; [rewrite Eids; change kstack_ra_dealloc with ra_dealloc; by rewrite Ha|]. wp_steps.
  split; [split|split; [done|split; [|split]]]; simpl.
  - apply (sr_ok _ _ _ Hrem).
  - done.
  - unfold TRAMP_VPN. lia.
  - eapply slots_in_ext; [|exact Hin]. intros sl. unfold live_slots. simpl. setoid_rewrite Hlive. split.
    + intros ((j&?&->)&Hne). exists j. split; [split; [|done]|done]. by intros ->.
    + intros (j&[Hne ?]&->). split; [by exists j|]. intros E. apply Hne. injection E as E1 E2. lia.
  - pose proof (sr_free _ _ _ Hrem) as Hf. unfold sp_free in *. simpl in *. lia.
  - apply (sr_gone _ _ _ Hrem).
  - apply (sr_other _ _ _ Hrem).
Qed.

(** ** Threads *)

(** The slots of the live threads; at most six threads at a time. *)
Definition thread_slots s : slot → Prop := live_slots (λ tid sl, sl = ust tid ∨ sl = tcx tid) s.

Record thr_inv (lim : Z) s : Prop := {
  ti_ok : sp_ok s;
  ti_ids : ra_wf (sp_ids s);
  ti_lim : 0 <= lim < TRAMP_VPN - 25;
  ti_max : ra_current (sp_ids s) <= 6;
  ti_slots : slots_in lim (thread_slots s) (sp_space s);
}.

(** Among six threads no two slots share a page. *)
Lemma thread_slots_apart i j sl sl' v :
  0 <= i < 6 → 0 <= j < 6 → (sl = ust i ∨ sl = tcx i) → (sl' = ust j ∨ sl' = tcx j) →
  slot_page sl v → slot_page sl' v → i = j ∧ sl = sl'.
Proof.
  intros Hi Hj [-> | ->] [-> | ->]; unfold slot_page, ust, tcx; simpl; intros H1 H2.
  - assert (i = j) as -> by lia. done.
  - lia.
  - lia.
  - assert (i = j) as -> by lia. done.
Qed.

Lemma alloc_user_res_wp lim (P : slot → Prop) s tid :
  sp_ok s → slots_in lim P (sp_space s) → 0 <= lim < TRAMP_VPN - 25 → 0 <= tid < 6 → 9 <= sp_free s →
  (∀ sl v, P sl → slot_page sl v → ¬ slot_page (ust tid) v ∧ ¬ slot_page (tcx tid) v) →
  wp (alloc_user_res tid) s (λ _ s', sp_ok s' ∧ sp_ids s' = sp_ids s ∧ sp_free s - 9 <= sp_free s' ∧
    slots_in lim (λ sl, sl = tcx tid ∨ sl = ust tid ∨ P sl) (sp_space s') ∧
    (∀ v, slot_page (ust tid) v → ∃ ppn, sp_lookup s' v = Some (pte_make ppn RWU) ∧ is_ppn ppn) ∧
    (∀ v, slot_page (tcx tid) v → ∃ ppn, sp_lookup s' v = Some (pte_make ppn RW) ∧ is_ppn ppn) ∧
    (∀ v, is_vpn v → ¬ slot_page (ust tid) v → ¬ slot_page (tcx tid) v → sp_lookup s' v = sp_lookup s v) ∧
    ∃ new au ac, ms_grow (sp_mem s) (sp_space s) new (sp_mem s') (sp_space s') ∧
      areas (sp_space s') = areas (sp_space s) ++ [au; ac] ∧ is_slot au (ust tid) ∧ is_slot ac (tcx tid) ∧
      brk (sp_space s') = brk (sp_space s) ∧ heap_start (sp_space s') = heap_start (sp_space s)).
Proof.
  intros Hok Hsl Hlim Htid Hfree Hdis. unfold alloc_user_res. unfold TRAMP_VPN in *.
  destruct (ust_position tid) as [-> ->]; [lia|]. destruct (tcx_position tid) as [-> ->]; [lia|].
  destruct (va_page_high (25 - 3 * tid)) as (Hf1&_&_); [unfold TRAMP_VPN; lia|].
  destruct (va_page_high (23 - 3 * tid)) as (_&Hc1&_); [unfold TRAMP_VPN; lia|].
  destruct (va_page_high (1 + tid)) as (Hf2&_&_); [unfold TRAMP_VPN; lia|].
  destruct (va_page_high tid) as (_&Hc2&_); [unfold TRAMP_VPN; lia|]. wp_next. eapply wp_mono.
  { apply (insert_slot lim P (ust tid)); try done; simpl; unfold TRAMP_VPN in *; try lia.
    split; simpl; unfold TRAMP_VPN; try lia; [done|]. intros sl v HP H1 H2. by destruct (Hdis sl v HP H2). }
  intros [] s1 [Hadd1 Hin1]. eapply wp_mono.
  { apply (insert_slot lim (λ x, x = ust tid ∨ P x) (tcx tid)); try done; simpl; unfold TRAMP_VPN in *; try lia.
    - apply Hadd1.
    - split; simpl; unfold TRAMP_VPN; try lia; [done|]. intros sl v [->|HP] H1 H2; [|by destruct (Hdis sl v HP H2)].
      unfold slot_page, ust, tcx in *. simpl in *. lia.
    - pose proof (sa_free _ _ _ Hadd1) as Hf. simpl in Hf. lia. }
  intros [] s2 [Hadd2 Hin2].
  pose proof (sa_free _ _ _ Hadd1) as Hfr1. pose proof (sa_free _ _ _ Hadd2) as Hfr2. simpl in *.
  split; [apply Hadd2|]. split; [by rewrite (sa_ids _ _ _ Hadd2), (sa_ids _ _ _ Hadd1)|]. split; [lia|]. split; [done|].
  split; [|split; [|split]].
  - intros v Hv. destruct (sa_pages _ _ _ Hadd1 v Hv) as (ppn&Hl&Hp&_). exists ppn. split; [|done]. change RWU with (ust tid).2. rewrite <- Hl.
    apply (sa_other _ _ _ Hadd2); unfold is_vpn, slot_page, ust, tcx, TRAMP_VPN in *; simpl in *; lia.
  - intros v Hv. destruct (sa_pages _ _ _ Hadd2 v Hv) as (ppn&Hl&Hp&_). by exists ppn.
  - intros v Hv H1 H2. by rewrite (sa_other _ _ _ Hadd2), (sa_other _ _ _ Hadd1).
  - destruct (sa_area _ _ _ Hadd1) as (n1&au&G1&A1&?), (sa_area _ _ _ Hadd2) as (n2&ac&G2&A2&?).
    destruct (sa_heap _ _ _ Hadd1) as [B1 H1], (sa_heap _ _ _ Hadd2) as [B2 H2].
    exists (n1 ++ n2), au, ac. split; [by eapply ms_grow_trans|]. by rewrite A2, A1, <- app_assoc, B2, B1, H2, H1.
Qed.

Lemma task_user_res_new_wp lim s :
  thr_inv lim s → ra_current (sp_ids s) < 6 → 9 <= sp_free s →
  wp (task_user_res_new true) s (λ tid s', thr_inv lim s' ∧ ¬ ra_live (sp_ids s) tid ∧ 0 <= tid < 6 ∧
    (∀ x, ra_live (sp_ids s') x ↔ x = tid ∨ ra_live (sp_ids s) x) ∧
    (∀ v, slot_page (ust tid) v → ∃ ppn, sp_lookup s' v = Some (pte_make ppn RWU) ∧ is_ppn ppn) ∧
    (∀ v, slot_page (tcx tid) v → ∃ ppn, sp_lookup s' v = Some (pte_make ppn RW) ∧ is_ppn ppn) ∧
    (∀ v, is_vpn v → ¬ slot_page (ust tid) v → ¬ slot_page (tcx tid) v → sp_lookup s' v = sp_lookup s v) ∧
    sp_free s - 9 <= sp_free s' ∧ ra_alloc (sp_ids s) = (tid, sp_ids s') ∧
    ∃ new au ac, ms_grow (sp_mem s) (sp_space s) new (sp_mem s') (sp_space s') ∧
      areas (sp_space s') = areas (sp_space s) ++ [au; ac] ∧ is_slot au (ust tid) ∧ is_slot ac (tcx tid)).
Proof.
  intros [Hok Hids Hlim Hmax Hsl] Hroom Hfree. unfold task_user_res_new, alloc_tid. wp_next.
  assert (Hcur : 0 <= ra_current (sp_ids s)) by apply Hids.
  destruct (ra_alloc (sp_ids s)) as [tid a'] eqn:Ea.
  destruct (ra_alloc_fresh _ _ _ Hids ltac:(unfold ra_room; lia) Ea) as (Hwf'&Hfresh&Hlive).
  destruct (ra_alloc_current _ _ _ Hids ltac:(unfold ra_room; lia) Ea) as [Hid Hle].
  eapply wp_with_ids; [by rewrite Ea|]. wp_next. eapply wp_mono.
  { apply (alloc_user_res_wp lim (thread_slots s)); try done; [lia|]. intros sl v (j&Hj&Hsl') Hv. apply live_range in Hj as Hj'.
    split; intros Hv';
      [destruct (thread_slots_apart tid j (ust tid) sl v ltac:(lia) ltac:(lia) ltac:(auto) Hsl' Hv' Hv) as [-> _]
      |destruct (thread_slots_apart tid j (tcx tid) sl v ltac:(lia) ltac:(lia) ltac:(auto) Hsl' Hv' Hv) as [-> _]]; done. }
  intros [] s' (Hok'&Eids&Hfr&Hin&H1&H2&H3&new&au&ac&G&Har&Hu&Hc&_). simpl in Eids. wp_steps. unfold sp_lookup in H3. simpl in H3.
  split; [split|split; [done|split; [lia|split; [by rewrite Eids|]]]].
  - done.
  - by rewrite Eids.
  - done.
  - rewrite Eids. lia.
  - eapply slots_in_ext; [|exact Hin]. intros sl. unfold thread_slots, live_slots. rewrite Eids. setoid_rewrite Hlive. split.
    + intros [->|[->|(j&?&?)]]; [exists tid; auto|exists tid; auto|exists j; auto].
    + intros (j&[->|?]&Hs); [naive_solver|right; right; by exists j].
  - split; [done|]. split; [done|]. split; [done|]. split; [done|]. split; [by rewrite Eids|]. by exists new, au, ac.
Qed.

Lemma task_user_res_drop_wp lim s tid :
  thr_inv lim s → ra_live (sp_ids s) tid →
  wp (task_user_res_drop tid) s (λ _ s', thr_inv lim s' ∧
    (∀ x, ra_live (sp_ids s') x ↔ x ≠ tid ∧ ra_live (sp_ids s) x) ∧ sp_free s' = sp_free s + 3 ∧
    (∀ v, slot_page (ust tid) v ∨ slot_page (tcx tid) v → sp_lookup s' v = None) ∧
    (∀ v, is_vpn v → ¬ slot_page (ust tid) v → ¬ slot_page (tcx tid) v → sp_lookup s' v = sp_lookup s v)).
Proof.
  intros [Hok Hids Hlim Hmax Hsl] Hid. apply live_range in Hid as Hr. unfold task_user_res_drop, dealloc_tid, dealloc_user_res.
  unfold TRAMP_VPN in *. destruct (ust_position tid) as [-> _]; [lia|]. destruct (tcx_position tid) as [-> _]; [lia|].
  destruct (va_page_high (25 - 3 * tid)) as (_&_&Hv1); [unfold TRAMP_VPN; lia|].
  destruct (va_page_high (1 + tid)) as (_&_&Hv2); [unfold TRAMP_VPN; lia|].
  destruct (ra_dealloc_live _ _ Hids Hid) as (a&Ha&Hwf'&Hlive).
  pose proof (ra_dealloc_current _ _ _ Ha) as Hcur.
  wp_next. wp_next. eapply wp_with_ids; [by rewrite Ha|]. wp_steps. eapply wp_lift; [exact Hv1|]. wp_next.
  replace (TRAMP_VPN - (25 - 3 * tid)) with (ust tid).1.1 by (simpl; lia).
  assert (Hap : ∀ sl sl' v, (sl = ust tid ∨ sl = tcx tid) → thread_slots s sl' → slot_page sl v → slot_page sl' v → sl' = sl).
  { intros sl sl' v Hs (j&Hj&Hs') H1 H2. apply live_range in Hj.
    by destruct (thread_slots_apart tid j sl sl' v ltac:(lia) ltac:(lia) Hs Hs' H1 H2). }
  assert (Hst : ∀ sl sl', (sl = ust tid ∨ sl = tcx tid) → thread_slots s sl' → sl'.1.1 = sl.1.1 → sl' = sl).
  { intros sl sl' Hs Hs' E. apply (Hap sl sl' sl.1.1 Hs Hs'); [|rewrite <- E]; [|destruct Hs' as (j&_&[-> | ->])];
      [destruct Hs as [-> | ->]| |]; unfold slot_page; simpl; lia. }
  eapply wp_mono.
  { apply (remove_slot lim (thread_slots s) (ust tid)); try done; simpl; unfold TRAMP_VPN; try lia.
    - exists tid. auto.
    - intros sl' ??. eapply Hst; auto.
    - intros sl' v ???. eapply Hap; [by left|..]; done. }
  intros [] s1 [Hrem1 Hin1]. wp_next. eapply wp_lift; [exact Hv2|].
  replace (TRAMP_VPN - (1 + tid)) with (tcx tid).1.1 by (simpl; lia). eapply wp_mono.
  { apply (remove_slot lim (λ x, thread_slots s x ∧ x ≠ ust tid) (tcx tid)); try done; simpl; unfold TRAMP_VPN; try lia.
    - apply (sr_ok _ _ _ Hrem1).
    - split; [exists tid; auto|done].
    - intros sl' [? _] ?. eapply Hst; auto.
    - intros sl' v [? _] ??. eapply Hap; [by right|..]; done. }
  intros [] s2 [Hrem2 Hin2].
  pose proof (sr_free _ _ _ Hrem1) as Hf1. pose proof (sr_free _ _ _ Hrem2) as Hf2.
  pose proof (sr_ids _ _ _ Hrem2) as E2. rewrite (sr_ids _ _ _ Hrem1) in E2. simpl in E2.
  split; [split|split; [by rewrite E2|split; [|split]]].
  - apply (sr_ok _ _ _ Hrem2).
  - by rewrite E2.
  - done.
  - rewrite E2. lia.
  - eapply slots_in_ext; [|exact Hin2]. intros sl. unfold thread_slots, live_slots. rewrite E2. setoid_rewrite Hlive. split.
    + intros [[(j&?&Hs) ?] ?]. exists j. split; [split; [|done]|done]. intros ->. naive_solver.
    + intros (j&[Hne Hj]&Hs). assert (H0 : ∀ sl', (sl' = ust tid ∨ sl' = tcx tid) → sl ≠ sl').
      { intros sl' Hs' ->. apply live_range in Hj. apply Hne.
        destruct (thread_slots_apart j tid sl' sl' sl'.1.1 ltac:(lia) ltac:(lia) Hs Hs') as [-> _]; [..|done];
          destruct Hs' as [-> | ->]; unfold slot_page; simpl; lia. }
      split; [split; [by exists j|]|]; apply H0; auto.
  - unfold sp_free in *. simpl in *. lia.
  - intros v [Hv|Hv]; [|by apply (sr_gone _ _ _ Hrem2)]. destruct (decide (slot_page (tcx tid) v)) as [Hc|Hc]; [by apply (sr_gone _ _ _ Hrem2)|].
    rewrite (sr_other _ _ _ Hrem2); [by apply (sr_gone _ _ _ Hrem1)| |done].
    unfold is_vpn, slot_page, ust, TRAMP_VPN in *. simpl in *. lia.
  - intros v Hv H1 H2. rewrite (sr_other _ _ _ Hrem2), (sr_other _ _ _ Hrem1) by done. done.
Qed.
End stacks.
