(* ===== verification/Exec.v ===== *)
(** * Replacing the program of a process
    ([ProcessControlBlock::exec] of [os/src/task/process.rs], [sys_execve] of
    [os/src/syscall/process.rs])

    The new address space is built, the old one dropped, the main thread gets
    its stack and trap context again, the arguments go to the top of the stack
    and the trap context is set to enter the program.  Strings are lists of
    characters; [as_bytes] is their representation. *)

From S2P Require Import Prelude Address PhysMem IdAlloc FrameAlloc PageTable Sv39 UserMem MemorySet MapAreaSpec.
From S2P Require Import MemorySetSpec MemorySetOps Mmap Fork Elf UserCopy UserRes StackProps TrapCx.

(** ** Strings *)

(** UTF-8. *)
Definition utf8_char (c : Z) : list Z :=
  if c <? 0x80 then [c]
  else if c <? 0x800 then [0xC0 + c / 64; 0x80 + c mod 64]
  else if c <? 0x10000 then [0xE0 + c / 4096; 0x80 + c / 64 mod 64; 0x80 + c mod 64]
  else [0xF0 + c / 262144; 0x80 + c / 4096 mod 64; 0x80 + c / 64 mod 64; 0x80 + c mod 64].

Definition as_bytes (s : list Z) : list Z := s ≫= utf8_char.

(** ** The arguments on the user stack *)

(** The bytes of a string one by one, and the zero after them. *)
Fixpoint put_cstr (token : Z) (bs : list Z) (p : Z) (m : mem) : outcome mem :=
  match bs with
  | [] => a ← translated_refmut m token p; mret (store_bytes m a [0])
  | c :: bs' => a ← translated_refmut m token p; put_cstr token bs' (p +w 1) (store_bytes m a [c])
  end.

(** [argv] are the references to the pointers, [i] is the index of the first of [args]. *)
Fixpoint push_strings (token : Z) (argv : list Z) (args : list (list Z)) (i : nat) (user_sp : Z) (m : mem)
  : outcome (Z * mem) :=
  match args with
  | [] => mret (user_sp, m)
  | s :: args' =>
      let bs := as_bytes s in
      let user_sp := user_sp -w (length bs + 1) in
      a ← unwrap (argv !! i);
      m ← put_cstr token bs user_sp (store64 m a user_sp);
      push_strings token argv args' (S i) user_sp m
  end.

(** The final stack pointer, the address of the pointers and the memory. *)
Definition push_args (token : Z) (args : list (list Z)) (user_sp : Z) (m : mem) : outcome (Z * Z * mem) :=
  let user_sp := user_sp -w (length args + 1) *w 8 in
  let argv_base := user_sp in
  argv ← mapM (λ arg, translated_refmut m token (argv_base +w arg *w 8)) (seqZ 0 (length args + 1));
  a ← unwrap (argv !! length args);
  '(user_sp, m) ← push_strings token argv args 0 user_sp (store64 m a 0);
  mret (user_sp -w user_sp mod 8, argv_base, m).

(** ** [exec] *)

(** [Drop for MemorySet]: the frames of the page table, then those of the areas. *)
Definition drop_memory_set {T} `{!PageTable T} (ms : MemorySet T) : K KMem unit :=
  kfor (pt_frames (page_table ms)) frame_dealloc ;;
  kfor (areas ms) drop_area.

Definition on_mem {T A} (f : K KMem A) : K (Spaced T) A := λ s,
  match f (sp_mem s) with
  | Done (a, m) => Done (a, mkSp m (sp_space s) (sp_ids s))
  | Panic => Panic
  end.

(** What a trap context gets from the kernel: [sstatus], the token of the kernel
    space, the top of the kernel stack of the thread, the address of
    [trap_handler]. *)
Record KernelCx := mkKCx { k_sstatus : Z; k_satp : Z; k_stack_top : Z; k_handler : Z }.

(** [tid] is that of the main thread; the result is its new [trap_cx_ppn]. *)
Definition exec (elf_new : list Z → option ElfFile) (strampoline : Z) (k : KernelCx)
    (thread_count tid : Z) (elf_data : list Z) (args : list (list Z)) : K (Spaced SV39PageTable) Z :=
  kassert (thread_count =? 1) ;;
  '(memory_set, entry_point) ← on_mem (from_elf elf_new strampoline elf_data);
  let new_token := token memory_set in
  with_space (λ old, drop_memory_set old ;; mret memory_set) ;;
  alloc_user_res tid ;;
  cx_ppn ← trap_cx_ppn tid;
  s ← kget;
  '(user_sp, argv_base, m) ← klift (push_args new_token args (ustack_top tid) (km_mem (sp_mem s)));
  let trap_cx := app_init_context (k_sstatus k) entry_point user_sp (k_satp k) (k_stack_top k) (k_handler k) in
  let trap_cx := with_regs trap_cx (set_reg (general_regs trap_cx) r_a0 (length args)) in
  let trap_cx := with_regs trap_cx (set_reg (general_regs trap_cx) r_a1 argv_base) in
  kput (mkSp (with_mem (λ _, put_trap_cx m cx_ppn trap_cx) (sp_mem s)) (sp_space s) (sp_ids s)) ;;
  mret cx_ppn.

(** ** Reading a vector of strings: the loops of [sys_execve] *)

(** [fuel] bounds the number of strings and their lengths. *)
Fixpoint read_argv_loop (fuel sfuel : nat) (m : mem) (token argv : Z) : outcome (list (list Z)) :=
  match fuel with
  | O => Panic
  | S fuel' =>
      a ← translated_ref m token argv;
      let arg_str_ptr := load64 m a in
      if arg_str_ptr =? 0 then mret []
      else
        s ← translated_str sfuel m token arg_str_ptr;
        rest ← read_argv_loop fuel' sfuel m token (argv +w 8);
        mret (s :: rest)
  end.

Definition read_argv (fuel : nat) (m : mem) (token argv : Z) : outcome (list (list Z)) :=
  if argv =? 0 then mret [] else read_argv_loop fuel fuel m token argv.

(** ** Writing through a window of user memory

    Addresses [lo, hi) of a user space, translated by [ph] in every memory that
    satisfies [P]; writing through the window keeps [P]. *)

Class Window (token : Z) (P : mem → Prop) (ph : Z → Z) (lo hi : Z) : Prop := {
  w_usize : 0 <= lo ∧ hi < 2 ^ 64;
  w_ref m va : P m → lo <= va < hi → translated_ref m token va = Done (ph va);
  w_word va k : lo <= va → va + 8 <= hi → va mod 8 = 0 → 0 <= k < 8 → ph (va + k) = ph va + k;
  w_inj va va' : lo <= va < hi → lo <= va' < hi → ph va = ph va' → va = va';
  w_write m m' : P m → (∀ x, (∀ va, lo <= va < hi → x ≠ ph va) → m' x = m x) → P m';
}.

Section window.
Context {token : Z} {P : mem → Prop} {ph : Z → Z} {lo hi : Z} `{W : !Window token P ph lo hi}.

(** Only the bytes of the window at addresses in [D] change. *)
Definition changed (D : Z → Prop) (m m' : mem) : Prop :=
  ∀ x, (∀ va, lo <= va < hi → D va → x ≠ ph va) → m' x = m x.

Lemma changed_trans (D D' D'' : Z → Prop) m m' m'' :
  changed D m m' → changed D' m' m'' → (∀ va, D va → D'' va) → (∀ va, D' va → D'' va) → changed D'' m m''.
Proof. intros H1 H2 Hs Hs' x Hx. rewrite H2, H1; [done|naive_solver..]. Qed.

Lemma changed_mono (D D' : Z → Prop) m m' : changed D m m' → (∀ va, D va → D' va) → changed D' m m'.
Proof. intros H HD x Hx. apply H. auto. Qed.

Lemma changed_keeps (D : Z → Prop) m m' va :
  changed D m m' → lo <= va < hi → ¬ D va → m' (ph va) = m (ph va).
Proof using W. intros H Hva HD. apply H. intros va' Hva' HD' E. apply w_inj in E; [|done..]. by subst. Qed.

Lemma changed_P (D : Z → Prop) m m' : P m → changed D m m' → P m'.
Proof using W. intros HP H. eapply w_write; [done|]. intros x Hx. apply H. auto. Qed.

Lemma changed_word (D : Z → Prop) m m' va :
  changed D m m' → lo <= va → va + 8 <= hi → va mod 8 = 0 → (∀ k, 0 <= k < 8 → ¬ D (va + k)) →
  load64 m' (ph va) = load64 m (ph va).
Proof using W.
  intros H ??? HD. apply load64_ext. intros x Hx. replace x with (ph va + (x - ph va)) by lia.
  rewrite <- w_word by lia. eapply changed_keeps; [done|lia|]. apply HD. lia.
Qed.

Lemma put_byte m va c : lo <= va < hi → changed (λ va', va' = va) m (store_bytes m (ph va) [c]).
Proof.
  intros Hva x Hx. apply store_bytes_out. simpl. pose proof (Hx va Hva eq_refl). lia.
Qed.

Lemma put_byte_eq m va c : store_bytes m (ph va) [c] (ph va) = c.
Proof. replace (ph va) with (ph va + 0%nat) at 2 by lia. by apply store_bytes_in. Qed.

Lemma put_word m va v :
  lo <= va → va + 8 <= hi → va mod 8 = 0 → changed (λ va', va <= va' < va + 8) m (store64 m (ph va) v).
Proof using W.
  intros Hl Hh Ha x Hx. apply store64_out.
  destruct (decide (ph va <= x < ph va + 8)); [|lia]. exfalso.
  apply (Hx (va + (x - ph va))); [lia|lia|]. rewrite w_word by lia. lia.
Qed.

(** The string [bs] with its final zero lies at [p]. *)
Definition cstr_at (m : mem) (p : Z) (bs : list Z) : Prop :=
  ∀ (j : nat) b, (bs ++ [0]) !! j = Some b → m (ph (p + j)) = b.

Lemma cstr_at_keep (D : Z → Prop) m m' p bs :
  changed D m m' → lo <= p → p + length bs + 1 <= hi → (∀ va, p <= va <= p + length bs → ¬ D va) →
  cstr_at m p bs → cstr_at m' p bs.
Proof using W.
  intros H Hl Hh HD Hc j b Hj. apply lookup_lt_Some in Hj as Hlt. rewrite length_app in Hlt. simpl in Hlt.
  rewrite <- (Hc j b Hj). eapply changed_keeps; [done|lia|apply HD; lia].
Qed.

Lemma put_cstr_ok bs : ∀ m p,
  P m → lo <= p → p + length bs + 1 <= hi →
  ∃ m', put_cstr token bs p m = Done m' ∧ P m' ∧ changed (λ va, p <= va <= p + length bs) m m' ∧ cstr_at m' p bs.
Proof using W.
  destruct (w_usize (Window := W)) as [H0 H64].
  induction bs as [|c bs IH]; intros m p HP Hl Hh; cbn [put_cstr length] in *;
    change (translated_refmut m) with (translated_ref m); rewrite w_ref by (done || lia); cbn [mbind outcome_bind].
  - pose proof (put_byte m p 0 ltac:(lia)) as Hc. eexists. split; [done|]. split; [by eapply changed_P|]. split.
    + eapply changed_mono; [exact Hc|]. simpl. lia.
    + intros [|j] b Hj; [|done]. injection Hj as <-. rewrite Z.add_0_r. apply put_byte_eq.
  - pose proof (put_byte m p c ltac:(lia)) as Hc. rewrite wadd_small by lia.
    destruct (IH (store_bytes m (ph p) [c]) (p + 1)) as (m'&->&HP'&Hc'&Hs); [by eapply changed_P|lia..|].
    exists m'. split; [done|]. split; [done|]. split.
    + eapply changed_trans; [exact Hc|exact Hc'| |]; simpl; lia.
    + intros [|j] b Hj.
      * injection Hj as <-. rewrite Z.add_0_r. rewrite <- (put_byte_eq m p c). eapply changed_keeps; [exact Hc'|lia|simpl; lia].
      * replace (p + S j) with (p + 1 + j) by lia. by apply Hs.
Qed.

(** Bytes the strings of [args] take. *)
Definition args_size (args : list (list Z)) : Z := foldr (λ s n, length (as_bytes s) + 1 + n) 0 args.

Lemma args_size_nonneg args : 0 <= args_size args.
Proof. unfold args_size. induction args; simpl; lia. Qed.

(** Where string [k] of [args] goes when [sp] is the stack pointer before. *)
Definition arg_ptr (sp : Z) (args : list (list Z)) (k : nat) : Z := sp - args_size (take (S k) args).

(** The strings [args] lie below [sp], their pointers from [base] on. *)
Definition args_at (m : mem) (base sp : Z) (args : list (list Z)) : Prop :=
  ∀ (k : nat) s, args !! k = Some s →
    load64 m (ph (base + 8 * k)) = arg_ptr sp args k ∧ cstr_at m (arg_ptr sp args k) (as_bytes s).

Lemma arg_ptr_range sp args k s :
  args !! k = Some s → sp - args_size args <= arg_ptr sp args k ∧ arg_ptr sp args k + length (as_bytes s) + 1 <= sp.
Proof.
  unfold arg_ptr. revert k sp. induction args as [|s' args IH]; intros k sp Hk; [done|].
  destruct k as [|k]; simpl in Hk.
  - injection Hk as ->. pose proof (args_size_nonneg args). unfold args_size in *. simpl. lia.
  - pose proof (IH k (sp - (length (as_bytes s') + 1)) Hk) as []. rewrite firstn_cons. unfold args_size in *. simpl in *. lia.
Qed.

Lemma push_strings_ok argv args : ∀ base (i : nat) m sp,
  P m → base mod 8 = 0 → sp <= base → lo <= sp - args_size args → base + 8 * (i + length args) <= hi →
  (∀ k : nat, (k < length args)%nat → argv !! (i + k)%nat = Some (ph (base + 8 * (i + k)))) →
  ∃ m', push_strings token argv args i sp m = Done (sp - args_size args, m') ∧ P m' ∧
    changed (λ va, sp - args_size args <= va < sp ∨ base + 8 * i <= va < base + 8 * (i + length args)) m m' ∧
    args_at m' (base + 8 * i) sp args.
Proof using W.
  destruct (w_usize (Window := W)) as [H0 H64].
  induction args as [|s args IH]; intros base i m sp HP Hb Hsp Hlo Hhi Hargv; cbn [push_strings length] in *.
  { exists m. simpl. rewrite Z.sub_0_r. split; [done|]. split; [done|]. split; [intros x _; done|done]. }
  set (bs := as_bytes s) in *. pose proof (args_size_nonneg args) as Hn.
  change (args_size (s :: args)) with (length bs + 1 + args_size args) in *.
  rewrite wsub_small by lia. pose proof (Hargv 0%nat ltac:(lia)) as Ha. rewrite Nat.add_0_r in Ha. rewrite Ha.
  cbn [unwrap mbind outcome_bind]. replace (base + 8 * (i + 0%nat)) with (base + 8 * i) by lia.
  pose proof (put_word m (base + 8 * i) (sp - (length bs + 1)) ltac:(lia) ltac:(lia) ltac:(zdiv_lia)) as C1.
  destruct (put_cstr_ok bs (store64 m (ph (base + 8 * i)) (sp - (length bs + 1))) (sp - (length bs + 1)))
    as (m2&->&P2&C2&S2); [by eapply changed_P|lia|lia|]. cbn [mbind outcome_bind].
  destruct (IH base (S i) m2 (sp - (length bs + 1))) as (m3&E&P3&C3&A3); try done; try lia.
  { intros k Hk. replace (S i + k)%nat with (i + S k)%nat by lia. rewrite (Hargv (S k)) by lia. do 2 f_equal. lia. }
  exists m3. rewrite E. split; [do 2 f_equal; lia|]. split; [done|]. split.
  { eapply changed_trans; [exact C1| |simpl; lia|].
    - apply (changed_trans _ _ (λ va, sp - (length bs + 1 + args_size args) <= va < sp ∨ base + 8 * S i <= va < base + 8 * (S i + length args)) _ _ _ C2 C3); simpl; lia.
    - simpl. lia. }
  intros [|k] s' Hk; simpl in Hk.
  - injection Hk as <-. unfold arg_ptr. rewrite firstn_cons, firstn_O. cbn [args_size foldr]. fold bs.
    replace (sp - (length bs + 1 + 0)) with (sp - (length bs + 1)) by lia. rewrite Z.mul_0_r, Z.add_0_r. split.
    + rewrite (changed_word _ m2 m3 _ C3), (changed_word _ _ m2 _ C2) by (simpl; zdiv_lia || lia).
      apply load64_store64_eq. lia.
    + eapply cstr_at_keep; [exact C3|lia|lia| |exact S2]. simpl. lia.
  - destruct (A3 k s' Hk) as [A4 A5].
    replace (base + 8 * S i + 8 * k) with (base + 8 * i + 8 * S k) in A4 by lia.
    replace (arg_ptr sp (s :: args) (S k)) with (arg_ptr (sp - (length bs + 1)) args k); [done|].
    unfold arg_ptr. rewrite (firstn_cons (S k)). cbn [args_size foldr]. fold bs. fold (args_size (take (S k) args)). lia.
Qed.

Lemma mapM_refs base n m : ∀ i, P m → lo <= base → base + 8 * (i + n) <= hi → 0 <= i → 0 <= n →
  mapM (λ arg, translated_refmut m token (base +w arg *w 8)) (seqZ i n) = Done ((λ k, ph (base + 8 * k)) <$> seqZ i n).
Proof using W.
  destruct (w_usize (Window := W)) as [H0 H64]. intros i HP Hb Hh Hi Hn.
  remember (Z.to_nat n) as nn eqn:En. revert i n HP Hb Hh Hi Hn En.
  induction nn as [|nn IH]; intros i n HP Hb Hh Hi Hn En.
  { by rewrite seqZ_nil by lia. }
  rewrite seqZ_cons by lia. cbn [mapM]. change (translated_refmut m) with (translated_ref m).
  rewrite (wmul_small i), wadd_small, w_ref by (done || lia). cbn [mbind outcome_bind].
  replace (i * 8) with (8 * i) by lia. destruct (decide (n = 1)) as [->|].
  - by rewrite seqZ_nil by lia.
  - by rewrite IH by (done || lia).
Qed.

(** Where [exec] leaves the pointers and the stack pointer. *)
Definition argv_addr (top : Z) (args : list (list Z)) : Z := top - 8 * (length args + 1).
Definition start_sp (top : Z) (args : list (list Z)) : Z :=
  let sp := argv_addr top args - args_size args in sp - sp mod 8.

Lemma push_args_ok args m :
  P m → hi mod 8 = 0 → lo <= argv_addr hi args - args_size args →
  ∃ m', push_args token args hi m = Done (start_sp hi args, argv_addr hi args, m') ∧ P m' ∧
    changed (λ va, argv_addr hi args - args_size args <= va) m m' ∧
    args_at m' (argv_addr hi args) (argv_addr hi args) args ∧
    load64 m' (ph (argv_addr hi args + 8 * length args)) = 0.
Proof using W.
  destruct (w_usize (Window := W)) as [H0 H64]. intros HP Hal Hfit. unfold push_args.
  pose proof (args_size_nonneg args) as Hn.
  rewrite wmul_small, wsub_small by (unfold argv_addr in *; lia).
  replace (hi - (length args + 1) * 8) with (argv_addr hi args) by (unfold argv_addr; lia).
  set (base := argv_addr hi args) in *.
  assert (Hbase : base + 8 * (length args + 1) = hi /\ base mod 8 = 0) by (unfold base, argv_addr; zdiv_lia).
  destruct Hbase as [Hbase Hb8].
  rewrite mapM_refs by (done || lia). cbn [mbind outcome_bind].
  assert (Hl : ∀ k : nat, (k <= length args)%nat →
    ((λ k, ph (base + 8 * k)) <$> seqZ 0 (length args + 1)) !! k = Some (ph (base + 8 * k))).
  { intros k Hk. rewrite list_lookup_fmap, lookup_seqZ_lt by lia. done. }
  rewrite Hl by lia. cbn [unwrap mbind outcome_bind].
  pose proof (put_word m (base + 8 * length args) 0 ltac:(lia) ltac:(lia) ltac:(zdiv_lia)) as C1.
  destruct (push_strings_ok ((λ k, ph (base + 8 * k)) <$> seqZ 0 (length args + 1)) args base 0
    (store64 m (ph (base + 8 * length args)) 0) base) as (m'&->&HP'&C2&A); try done; try lia; [by eapply changed_P| |].
  { intros k Hk. simpl. by rewrite Hl by lia. }
  cbn [mbind outcome_bind mret outcome_ret]. exists m'.
  rewrite wsub_small by zdiv_lia. split; [done|]. split; [done|]. split; [|split].
  - apply (changed_trans _ _ _ _ _ _ C1 C2); simpl; lia.
  - by replace (base + 8 * 0%nat) with base in A by lia.
  - rewrite (changed_word _ _ m' _ C2) by (simpl; zdiv_lia || lia). by apply load64_store64_eq.
Qed.

(** ** Reading the arguments back *)

Lemma args_at_agree args m m' base sp :
  (∀ va, lo <= va < hi → m' (ph va) = m (ph va)) →
  base mod 8 = 0 → lo <= sp - args_size args → sp <= base → base + 8 * length args <= hi →
  args_at m base sp args → args_at m' base sp args.
Proof using W.
  intros Hm Hb Hlo Hsp Hhi Hat k s Hk. destruct (Hat k s Hk) as [H1 H2].
  pose proof (arg_ptr_range sp args k s Hk) as []. apply lookup_lt_Some in Hk as Hlt. pose proof (args_size_nonneg args). split.
  - rewrite <- H1. apply load64_ext. intros x Hx. replace x with (ph (base + 8 * k) + (x - ph (base + 8 * k))) by lia.
    rewrite <- w_word by (zdiv_lia || lia). apply Hm. lia.
  - intros j b Hj. apply lookup_lt_Some in Hj as Hj'. rewrite length_app in Hj'. simpl in Hj'. rewrite Hm by lia. by apply H2.
Qed.

Lemma translated_str_ok bs : ∀ (fuel : nat) m p,
  P m → lo <= p → p + length bs + 1 <= hi → cstr_at m p bs → 0 ∉ bs → (length bs < fuel)%nat →
  translated_str fuel m token p = Done bs.
Proof using W.
  destruct (w_usize (Window := W)) as [H0 H64]. unfold translated_str.
  induction bs as [|c bs IH]; intros [|fuel] m p HP Hl Hh Hc Hz Hf; simpl in Hf, Hh; try lia; cbn [translated_str_loop].
  all: assert (Hr : translated_ref m token p = Done (ph p)) by (apply w_ref; [done|lia]);
    unfold translated_ref in Hr; rewrite Hr; cbn [mbind outcome_bind].
  all: pose proof (Hc 0%nat) as Hhd; rewrite Z.add_0_r in Hhd; rewrite (Hhd _ eq_refl).
  - done.
  - apply not_elem_of_cons in Hz as [Hc0 Hz]. destruct (Z.eqb_spec c 0); [congruence|].
    rewrite wadd_small by lia. rewrite IH; try done; try lia.
    intros j b Hj. replace (p + 1 + j) with (p + S j) by lia. by apply Hc.
Qed.

Lemma read_argv_ok args : ∀ (fuel sfuel : nat) m base sp,
  P m → 0 < lo → base mod 8 = 0 → lo <= sp - args_size args → sp <= base → base + 8 * (length args + 1) <= hi →
  args_at m base sp args → load64 m (ph (base + 8 * length args)) = 0 →
  (∀ s, s ∈ args → 0 ∉ as_bytes s) → (length args < fuel)%nat → args_size args <= sfuel →
  read_argv_loop fuel sfuel m token base = Done (as_bytes <$> args).
Proof using W.
  destruct (w_usize (Window := W)) as [H0 H64].
  induction args as [|s args IH]; intros [|fuel] sfuel m base sp HP Hpos Hb8 Hlo Hsp Hhi Hat Hend Hz Hf Hsf;
    assert (lo <= sp) by (match type of Hlo with _ <= _ - args_size ?l => pose proof (args_size_nonneg l) end; lia);
    simpl in Hf, Hhi; try lia; cbn [read_argv_loop];
    rewrite w_ref by (done || lia); cbn [mbind outcome_bind].
  - simpl in Hend. rewrite Z.add_0_r in Hend. by rewrite Hend.
  - pose proof (args_size_nonneg args) as Hn.
    assert (Esz : args_size (s :: args) = length (as_bytes s) + 1 + args_size args) by done.
    assert (Ept : arg_ptr sp (s :: args) 0 = sp - (length (as_bytes s) + 1)) by (unfold arg_ptr; simpl; lia).
    destruct (Hat 0%nat s eq_refl) as [Hp Hc]. rewrite Z.mul_0_r, Z.add_0_r, Ept in Hp. rewrite Ept in Hc. rewrite Hp.
    destruct (Z.eqb_spec (sp - (length (as_bytes s) + 1)) 0); [lia|].
    rewrite (translated_str_ok (as_bytes s)); try done; try lia; [|apply Hz; left]. cbn [mbind outcome_bind].
    rewrite wadd_small by lia.
    rewrite (IH fuel sfuel m (base + 8) (sp - (length (as_bytes s) + 1))); try done; try lia; try zdiv_lia.
    + intros k s' Hk. destruct (Hat (S k) s' Hk) as [E1 E2]. replace (base + 8 + 8 * k) with (base + 8 * S k) by lia.
      replace (arg_ptr (sp - (length (as_bytes s) + 1)) args k) with (arg_ptr sp (s :: args) (S k)); [done|].
      unfold arg_ptr. rewrite (firstn_cons (S k)). unfold args_size. simpl. lia.
    + rewrite <- Hend. do 2 f_equal. simpl. lia.
    + intros s' Hs'. apply Hz. by right.
Qed.
End window.

(** ** Areas as windows *)

Section area_window.
Context (s : KMem) (ms : MemorySet SV39PageTable) (a : MapArea).
Context (Hok : ms_ok s ms) (Ha : a ∈ areas ms) (Hty : map_type a = Framed).

(** A memory in which at most data frames of [ms] have been written. *)
Definition data_only (m : mem) : Prop := same_outside (λ p, p ∈ areas_frames (areas ms)) (km_mem s) m.

(** The physical address of a user address, in either half of the address space. *)
Definition uphys (va : Z) : Z := phys (km_mem s) (sv39_from_token (token ms)) (va mod 2 ^ 39).

Lemma data_only_ok m : data_only m → ms_ok (with_mem (λ _, m) s) ms.
Proof using Hok. intros Hm. by eapply ms_ok_write. Qed.

Lemma uphys_area m va :
  data_only m → in_area a (va mod 2 ^ 39 / 4096) →
  ∃ ppn, data_frames a !! (va mod 2 ^ 39 / 4096) = Some ppn ∧
    phys m (sv39_from_token (token ms)) (va mod 2 ^ 39) = ppn * 4096 + va mod 2 ^ 39 mod 4096 ∧
    is_Some (sv39_lookup m (sv39_from_token (token ms)) (va mod 2 ^ 39 / 4096)).
Proof using Hok Ha Hty.
  intros Hm Hin. exact (phys_area _ ms a (data_only_ok m Hm) Ha Hty m _ (same_outside_refl _ _) Hin).
Qed.

Lemma uphys_eq va :
  in_area a (va mod 2 ^ 39 / 4096) →
  ∃ ppn, data_frames a !! (va mod 2 ^ 39 / 4096) = Some ppn ∧ uphys va = ppn * 4096 + va mod 2 ^ 39 mod 4096.
Proof using Hok Ha Hty.
  intros Hin. destruct (uphys_area (km_mem s) va (same_outside_refl _ _) Hin) as (p&?&?&_). by exists p.
Qed.

Lemma uphys_frame va : in_area a (va mod 2 ^ 39 / 4096) → uphys va / 4096 ∈ area_frames a.
Proof using Hok Ha Hty.
  intros (p&Hp&->)%uphys_eq. apply elem_of_area_frames. exists (va mod 2 ^ 39 / 4096). rewrite Hp. f_equal. zdiv_lia.
Qed.

Lemma translated_ref_area m va :
  data_only m → 0 <= va → in_area a (va mod 2 ^ 39 / 4096) →
  translated_ref m (token ms) va = Done (uphys va).
Proof using Hok Ha Hty.
  intros Hm Hva Hin. destruct (uphys_eq va Hin) as (q&Hq&->).
  destruct (uphys_area m va Hm Hin) as (ppn&Hd&Hph&e&He). assert (q = ppn) as -> by congruence.
  unfold translated_ref, sv39_translate_va. rewrite va_from_usize_mod.
  change (va_floor (va mod 2 ^ 39)) with (va mod 2 ^ 39 / 4096).
  apply sv39_find_pte_valid in He as Hf. destruct Hf as (x&->&Hx&_).
  cbn [fmap option_fmap option_map unwrap]. rewrite Hx, <- Hph. unfold phys. rewrite He.
  pose proof (lookup_ppn_range _ _ _ _ He) as Hp. unfold is_ppn in Hp.
  rewrite pa_from_ppn_eq, va_page_offset_mod by lia.
  rewrite wadd_small by zdiv_lia. rewrite pa_from_usize_mod, Z.mod_small by zdiv_lia. done.
Qed.

Lemma area_window lo hi :
  0 <= lo → hi < 2 ^ 64 → hi - lo <= 2 ^ 39 → (∀ va, lo <= va < hi → in_area a (va mod 2 ^ 39 / 4096)) →
  Window (token ms) data_only uphys lo hi.
Proof using Hok Ha Hty.
  intros Hlo Hhi Hsz Hin. split.
  - lia.
  - intros m va Hm Hva. apply translated_ref_area; [done|lia|by apply Hin].
  - intros va k Hl Hh H8 Hk. destruct (uphys_eq va) as (p&Hp&->); [by apply Hin; lia|].
    destruct (uphys_eq (va + k)) as (q&Hq&->); [by apply Hin; lia|].
    assert (E : (va + k) mod 2 ^ 39 = va mod 2 ^ 39 + k) by zdiv_lia. rewrite E in *.
    replace ((va mod 2 ^ 39 + k) / 4096) with (va mod 2 ^ 39 / 4096) in Hq by zdiv_lia.
    assert (p = q) as -> by congruence. zdiv_lia.
  - intros va va' Hva Hva' Heq. destruct (uphys_eq va (Hin _ Hva)) as (p&Hp&Ep), (uphys_eq va' (Hin _ Hva')) as (q&Hq&Eq).
    rewrite Ep, Eq in Heq. assert (p = q) as -> by zdiv_lia.
    assert (va mod 2 ^ 39 / 4096 = va' mod 2 ^ 39 / 4096)
      by (eapply (nodup_frames_inj a); [by eapply ms_area_nodup|done..]). zdiv_lia.
  - intros m m' Hm Hw x Hx. rewrite Hw; [by apply Hm|]. intros va Hva ->. apply Hx.
    apply elem_of_areas_frames. exists a. split; [done|]. by apply uphys_frame, Hin.
Qed.
End area_window.
