(* ===== verification/SpaceProps.v ===== *)
(** * Properties of address spaces over Sv39 page tables

    The theorems of the memory subsystem, each with an instance on a concrete
    kernel state: [demo], a process with two mapped pages. *)

From S2P Require Import Prelude Address PhysMem IdAlloc FrameAlloc PageTable Sv39 UserMem MemorySet MapAreaSpec MemorySetSpec MemorySetOps Mmap Fork UserCopy Elf.

(** ** A concrete address space *)

Definition demo_st : Z := 0x80200000.
Definition demo_s0 : KMem := mkKMem (λ _, 0) (mkFA 0x80400 0x80500 []).

(** A new address space with one area of two pages at [0x10000]. *)
Definition demo_prog : K KMem (MemorySet SV39PageTable) :=
  ms ← new_bare;
  ms ← map_trampoline demo_st ms;
  insert_framed_area ms 0x10000 0x12000 (Z.lor (Z.lor PERM_R PERM_W) PERM_U).

Definition demo : MemorySet SV39PageTable * KMem :=
  match demo_prog demo_s0 with Done r => r | Panic => (mkMS (mkSV39 0 []) [] 0 0, demo_s0) end.

Lemma demo_fa0 : fa_wf (km_fa demo_s0).
Proof. split_and!; simpl; try constructor; lia. Qed.

Lemma demo_tramp : tramp_ok demo_st.
Proof. split; vm_compute; split_and?; done. Qed.

Definition demo_area (a : MapArea) : Prop := area_spec a 0x10 0x12 (Z.lor (Z.lor PERM_R PERM_W) PERM_U).

Lemma demo_built :
  (fa_wf (km_fa demo.2) ∧ ms_ok demo.2 demo.1 ∧ brk demo.1 = 0 ∧ fa_free (km_fa demo.2) >= 200 ∧
   ∃ a, areas demo.1 = [a] ∧ demo_area a) ∧
  pt_lookup (km_mem demo.2) (page_table demo.1) TRAMP_VPN = Some (tramp_pte (T := SV39PageTable) demo_st).
Proof.
  assert (wp demo_prog demo_s0 (λ ms s, (fa_wf (km_fa s) ∧ ms_ok s ms ∧ brk ms = 0 ∧ fa_free (km_fa s) >= 200 ∧
    ∃ a, areas ms = [a] ∧ demo_area a) ∧ pt_lookup (km_mem s) (page_table ms) TRAMP_VPN = Some (tramp_pte (T := SV39PageTable) demo_st))) as Hwp.
  { unfold demo_prog. wp_steps. pose proof demo_fa0. pose proof demo_tramp.
    eapply wp_mono; [apply (bare_trampoline_wp demo_st); [done|done|vm_compute; done]|].
    intros ms0 s0 Hb. wp_steps. eapply wp_mono; [exact Hb|]. intros ms s1 [Hfa1 Hok1 Har Hbrk Hg Hl Hs Hte]. wp_steps.
    pose proof (gr_free _ _ _ Hg) as Hf. change (fa_free (km_fa demo_s0)) with 256 in Hf.
    eapply wp_mono; [apply insert_framed_wp; try done|].
    - rewrite Har. set_solver.
    - change (3 * _) with 6. lia.
    - intros ms2 s2 (a&new&a'&Hsp&P). destruct P as [G Hok Har' [Hb' _] Hat Hlen _ _].
      destruct Hsp as (HR&HY&HP), Hat as (HR'&HY'&HP'). unfold n_pages in Hlen. rewrite HR in Hlen.
      change (3 * _) with 6 in Hlen.
      split; [|rewrite (mg_tramp _ _ _ _ _ G); exact Hte]. split; [apply G|]. split; [done|]. split; [congruence|]. split.
      + rewrite (gr_free _ _ _ (mg_grows _ _ _ _ _ G)). lia.
      + exists a'. rewrite Har', Har. split; [done|]. split; [by rewrite HR', HR|]. split; congruence. }
  unfold wp, demo in *. by destruct (demo_prog demo_s0) as [[ms s]|].
Qed.

Lemma demo_facts :
  fa_wf (km_fa demo.2) ∧ ms_ok demo.2 demo.1 ∧ brk demo.1 = 0 ∧ fa_free (km_fa demo.2) >= 200 ∧
  ∃ a, areas demo.1 = [a] ∧ demo_area a.
Proof. apply demo_built. Qed.

#[global] Opaque demo.

Lemma token_usize (ms : MemorySet SV39PageTable) s : ms_ok s ms → is_usize (token ms).
Proof.
  intros Hok. destruct (mo_pt _ _ Hok) as [T (Hwf&_)].
  assert (Hr : is_ppn (root_ppn (page_table ms))) by (eapply wt_range; [done|]; by eapply wt_root).
  change (is_usize (Z.lor (Z.shiftl 1 63) (root_ppn (page_table ms)))). unfold is_ppn in Hr.
  rewrite lor_shiftl_add by lia. unfold is_usize. lia.
Qed.

(** ** Sv39 page tables *)

(** Mapping a page that has no entry makes exactly that page translate to
    the given frame with the given permissions, leaves every other page as it
    was, keeps the tables well formed, and writes only page-table frames. *)
Theorem sv39_map_correct s pt v ppn perm :
  sv39_ok (km_mem s) pt → fa_wf (km_fa s) → frames_owned s pt →
  is_vpn v → is_ppn ppn → is_perm perm →
  sv39_lookup (km_mem s) pt v = None → 2 <= fa_free (km_fa s) →
  wp (sv39_map pt v ppn perm) s (λ pt' s',
    sv39_ok (km_mem s') pt' ∧ frames_owned s' pt' ∧ fa_wf (km_fa s') ∧
    sv39_token pt' = sv39_token pt ∧
    same_outside (λ p, p ∈ sv_frames pt') (km_mem s) (km_mem s') ∧
    (∃ e, sv39_translate (km_mem s') pt' v = Some e ∧ sv39_pte_is_valid e = true ∧
          sv39_pte_ppn e = ppn ∧ sv39_pte_flags e = Z.lor perm PTE_V) ∧
    (∀ v', is_vpn v' → v' ≠ v → sv39_lookup (km_mem s') pt' v' = sv39_lookup (km_mem s) pt v')).
Proof.
  intros Hok Hfa Hown Hv Hp Hperm Hn Hfree. eapply wp_mono; [by eapply cwp_wp; [apply sv39_map_ok|]|].
  intros pt' s' (_&new&G&_&Hfr&Hroot&Hok'&Hsame&Hlook).
  split; [done|]. split.
  { intros p Hin. apply (gr_owned _ _ _ G). rewrite Hfr in Hin. apply elem_of_app in Hin as [?|?]; auto. }
  split; [apply G|]. split; [unfold sv39_token; by rewrite Hroot|]. split; [done|]. split.
  - pose proof (Hlook v Hv) as Hl. rewrite decide_True in Hl by done.
    apply sv39_find_pte_valid in Hl as (a&Ha&He&Hval). destruct (perm_pte ppn perm Hp Hperm) as (_&_&Hppn).
    eexists. split; [unfold sv39_translate; rewrite Ha; simpl; by rewrite He|].
    split; [done|]. split; [done|].
    destruct (perm_lor_V perm Hperm) as (->&?&?). apply sv39_pte_new_flags; [done|lia].
  - intros v' Hv' Hne. by rewrite Hlook, decide_False.
Qed.

Lemma sv39_map_correct_witness :
  let r := sv39_new demo_s0 in
  match r with
  | Done (pt, s) => wp (sv39_map pt 5 0x80450 PERM_R) s (λ pt' s', sv39_ok (km_mem s') pt')
  | Panic => False
  end.
Proof.
  pose proof (sv39_new_ok demo_s0 demo_fa0 ltac:(vm_compute; done)) as H.
  change sv39_new with sv39_new_kernel. unfold wp in H at 1.
  destruct (sv39_new_kernel demo_s0) as [[pt s]|] eqn:E; [|done]. simpl.
  destruct H as (G&Hok&Hlen&_&Hn). eapply wp_mono.
  - apply (sv39_map_correct s pt 5 0x80450 PERM_R).
    + exact Hok.
    + apply G.
    + intros p Hp. apply (gr_owned _ _ _ G). auto.
    + unfold is_vpn. lia.
    + unfold is_ppn. lia.
    + reflexivity.
    + apply Hn. unfold is_vpn. lia.
    + pose proof (gr_free _ _ _ G) as Hf. rewrite Hlen in Hf. change (fa_free (km_fa demo_s0)) with 256 in Hf. lia.
  - intros pt' s' H. apply H.
Defined.

(** Unmapping a mapped page removes exactly its translation, gives no frame
    back and writes only page-table frames; unmapping a page without a valid
    entry panics. *)
Theorem sv39_unmap_correct s pt v :
  sv39_ok (km_mem s) pt → is_vpn v →
  match sv39_lookup (km_mem s) pt v with
  | None => sv39_unmap pt v s = Panic
  | Some _ => wp (sv39_unmap pt v) s (λ _ s',
      km_fa s' = km_fa s ∧ sv39_ok (km_mem s') pt ∧
      same_outside (λ p, p ∈ sv_frames pt) (km_mem s) (km_mem s') ∧
      sv39_lookup (km_mem s') pt v = None ∧
      (∀ v', is_vpn v' → v' ≠ v → sv39_lookup (km_mem s') pt v' = sv39_lookup (km_mem s) pt v'))
  end.
Proof.
  intros Hok Hv. destruct (sv39_lookup (km_mem s) pt v) as [e|] eqn:E; [|by apply sv39_unmap_panic].
  eapply wp_mono; [by eapply sv39_unmap_ok|]. intros [] s' (Hfa&Hok'&Hsame&Hl).
  split; [done|]. split; [done|]. split; [done|]. split.
  - rewrite Hl, decide_True by done. done.
  - intros v' Hv' Hne. rewrite Hl, decide_False by done. done.
Qed.

Lemma sv39_unmap_correct_witness :
  wp (sv39_unmap (page_table demo.1) 0x10) demo.2 (λ _ s', sv39_lookup (km_mem s') (page_table demo.1) 0x10 = None).
Proof.
  destruct demo_facts as (_&Hok&_&_&a&Ha&HR&_&_).
  assert (Hin : in_area a 0x10) by (unfold in_area; rewrite HR; simpl; lia).
  destruct (mo_mapped _ _ Hok a 0x10) as (ppn&_&_&Hl); [rewrite Ha; left|done|].
  pose proof (sv39_unmap_correct demo.2 (page_table demo.1) 0x10 (mo_pt _ _ Hok) ltac:(unfold is_vpn; lia)) as H.
  change (pt_lookup (km_mem demo.2) (page_table demo.1) 0x10) with (sv39_lookup (km_mem demo.2) (page_table demo.1) 0x10) in Hl.
  rewrite Hl in H. eapply wp_mono; [exact H|]. intros [] s' H'. apply H'.
Defined.

(** A page table entry gives back the frame and the flags it was made of. *)
Theorem sv39_pte_roundtrip ppn flags :
  is_ppn ppn → 0 <= flags < 256 →
  sv39_pte_ppn (sv39_pte_new ppn flags) = ppn ∧ sv39_pte_flags (sv39_pte_new ppn flags) = flags ∧
  is_usize (sv39_pte_new ppn flags).
Proof.
  intros Hp Hf. split; [apply sv39_pte_new_ppn; [done|lia]|].
  split; [by apply sv39_pte_new_flags|]. apply sv39_pte_new_range; [done|lia].
Qed.

Lemma sv39_pte_roundtrip_witness : sv39_pte_ppn (sv39_pte_new 0x80400 0x1f) = 0x80400.
Proof. apply (sv39_pte_roundtrip 0x80400 0x1f); [unfold is_ppn|]; lia. Defined.

(** Reading a page table back from the [satp] value it is activated with
    gives a table with the same translations. *)
Theorem sv39_token_roundtrip m pt v :
  is_ppn (root_ppn pt) →
  sv39_translate m (sv39_from_token (sv39_token pt)) v = sv39_translate m pt v.
Proof.
  intros Hr. unfold sv39_translate, sv39_find_pte. by rewrite sv39_token_root.
Qed.

Lemma sv39_token_roundtrip_witness :
  sv39_translate (λ _, 0) (sv39_from_token (sv39_token (mkSV39 0x80400 [0x80400]))) 7 =
  sv39_translate (λ _, 0) (mkSV39 0x80400 [0x80400]) 7.
Proof. apply (sv39_token_roundtrip (λ _, 0) (mkSV39 0x80400 [0x80400]) 7). unfold is_ppn. simpl. lia. Defined.

(** ** Address spaces *)



(** C21: [munmap] succeeds exactly for the page-aligned range of one existing
    area; then the area's pages lose their translation, its frames go back to
    the allocator, everything else stays, and the invariant holds again.  In
    every other case it returns [-1] and changes nothing. *)
Theorem munmap_correct s (ms : MemorySet SV39PageTable) start len :
  fa_wf (km_fa s) → ms_ok s ms →
  wp (munmap ms start len) s (λ '(ms', r) s',
    match r with
    | Ok _ => ∃ idx a, munmap_target ms start len idx a ∧ areas ms' = delete idx (areas ms) ∧
        fa_wf (km_fa s') ∧ ms_ok s' ms' ∧
        (∀ v, in_area a v → ms_view ms' v = None) ∧
        (∀ p, fa_owned (km_fa s') p ↔ fa_owned (km_fa s) p ∧ p ∉ area_frames a) ∧
        fa_free (km_fa s') = fa_free (km_fa s) + length (area_frames a)
    | Err e => e = -1 ∧ ms' = ms ∧ s' = s ∧ ∀ idx a, ¬ munmap_target ms start len idx a
    end).
Proof.
  intros Hfa Hok. eapply wp_mono; [by apply munmap_wp|]. intros [ms' [|e]] s'; [|done].
  intros (idx&a'&Ht&R). exists idx, a'. split; [done|]. split; [apply R|]. split; [apply R|].
  split; [apply R|]. split; [|split; apply R]. intros v Hv.
  pose proof (rp_ok _ _ _ _ _ _ R) as Hok'.
  assert (Ha : a' ∈ areas ms) by (eapply list_elem_of_lookup_2; apply Ht).
  destruct (in_area_vpn a' v) as [Hvpn Hnt]; [apply Hok, Ha|done|].
  pose proof (ms_view_lookup _ _ _ Hok' Hvpn Hnt) as Hl. rewrite (rp_gone _ _ _ _ _ _ R v Hv) in Hl.
  by destruct (ms_view ms' v).
Qed.

Lemma munmap_correct_witness :
  wp (munmap demo.1 0x10000 0x2000) demo.2 (λ '(ms', r) s', r = Ok () ∧ areas ms' = []).
Proof.
  destruct demo_facts as (Hfa&Hok&_&_&a&Ha&HR&_&_).
  eapply wp_mono; [apply (munmap_correct demo.2 demo.1 0x10000 0x2000 Hfa Hok)|].
  intros [ms' [u|e]] s'.
  - intros (idx&b&Ht&Hd&_). destruct u. split; [reflexivity|]. destruct Ht as (_&_&_&_&Hidx&_).
    rewrite Hd, Ha in *. destruct idx as [|idx]; [reflexivity|]. discriminate Hidx.
  - intros (_&_&_&Hno). exfalso. apply (Hno 0%nat a). unfold munmap_target, area_is. rewrite HR, Ha.
    repeat split; vm_compute; congruence.
Defined.

(** C20: [mmap] at a fixed page-aligned address in the lower half either finds a
    conflict and returns [-1] without changing anything, or maps exactly the
    requested pages, zero-filled and with the requested permissions, in frames
    nobody used before, and keeps every other translation. *)
Theorem mmap_fixed_correct s (ms : MemorySet SV39PageTable) start len prot flags off :
  fa_wf (km_fa s) → ms_ok s ms → 0 < start → start mod 4096 = 0 → 0 < len →
  start + len + 4096 <= 2 ^ 38 → 3 * (end_page start len - start / 4096) <= fa_free (km_fa s) →
  wp (mmap ms start len prot flags None off) s (λ '(ms', r) s',
    if decide (no_conflict (areas ms) (start / 4096) (end_page start len)) then
      r = Ok start ∧ fa_wf (km_fa s') ∧ ms_ok s' ms' ∧
      ∃ a new, areas ms' = areas ms ++ [a] ∧
        area_spec a (start / 4096) (end_page start len) (mmap_perm prot) ∧
        grows s new s' ∧
        (∀ v, in_area a v → zero_page (km_mem s') new a v) ∧
        (∀ v, is_vpn v → ¬ in_area a v →
           sv39_lookup (km_mem s') (page_table ms') v = sv39_lookup (km_mem s) (page_table ms) v)
    else r = Err (-1) ∧ ms' = ms ∧ s' = s).
Proof.
  intros. eapply wp_mono; [by apply mmap_fixed_wp|]. intros [ms' r] s'. case_decide; [|done].
  intros [-> (a&new&a'&(HR&HY&HP)&P)]. destruct (pp_attrs _ _ _ _ _ _ _ P) as (HR'&HY'&HP').
  split; [done|]. split; [apply P|]. split; [apply P|]. exists a', new.
  assert (Hin : ∀ v, in_area a' v ↔ in_area a v) by (intros v; unfold in_area; by rewrite HR').
  split; [apply P|]. split; [split_and!; congruence|]. split; [apply P|]. split.
  - intros v Hv%Hin. by apply (pp_zero _ _ _ _ _ _ _ P).
  - intros v Hv Hn. apply (pp_other _ _ _ _ _ _ _ P); [done|]. by rewrite <- Hin.
Qed.

Lemma mmap_fixed_correct_witness :
  wp (mmap demo.1 0x40000 0x1800 0x16 0 None 0) demo.2 (λ '(ms', r) s', r = Ok 0x40000 ∧ length (areas ms') = 2%nat) ∧
  wp (mmap demo.1 0x11000 0x1000 0x16 0 None 0) demo.2 (λ '(ms', r) s', r = Err (-1)).
Proof.
  destruct demo_facts as (Hfa&Hok&_&Hfree&a&Ha&HR&_&_).
  split.
  - eapply wp_mono; [apply (mmap_fixed_correct demo.2 demo.1 0x40000 0x1800 0x16 0 0 Hfa Hok); try lia; try reflexivity|].
    + change (3 * _) with 6. lia.
    + intros [ms' r] s'. rewrite decide_True.
      * intros (->&_&_&b&new&->&_). rewrite Ha. split; reflexivity.
      * intros b. rewrite Ha, list_elem_of_singleton. intros ->. right. rewrite HR. vm_compute. reflexivity.
  - eapply wp_mono; [apply (mmap_fixed_correct demo.2 demo.1 0x11000 0x1000 0x16 0 0 Hfa Hok); try lia; try reflexivity|].
    + change (3 * _) with 3. lia.
    + intros [ms' r] s'. rewrite decide_False; [intros (?&_&_); assumption|].
      intros Hn. destruct (Hn a) as [H|H]; [rewrite Ha; left| |]; rewrite HR in H; vm_compute in H; discriminate.
Defined.

(** C22: [mmap] with address [0] terminates with a mapping at or above the heap
    break that overlaps no existing area, when the program's areas lie below
    page [B], the stacks from page [H] on, and the gap is large enough; the
    break moves past the new mapping. *)
Theorem mmap_anywhere_correct s (ms : MemorySet SV39PageTable) len prot flags off B H :
  fa_wf (km_fa s) → ms_ok s ms → split_at (areas ms) B H → 0 <= B → H <= 2 ^ 27 →
  0 <= brk ms → 0 < len →
  search_limit (brk ms) B + len + 8192 <= H * 4096 →
  search_limit (brk ms) B + len + 8192 <= 2 ^ 38 →
  3 * (len / 4096 + 2) <= fa_free (km_fa s) →
  wp (mmap ms 0 len prot flags None off) s (λ '(ms', r) s', ∃ addr a new,
    r = Ok addr ∧ brk ms <= addr ∧ addr + len <= brk ms' ∧ ms_ok s' ms' ∧
    areas ms' = areas ms ++ [a] ∧ grows s new s' ∧
    area_spec a (addr / 4096) (end_page addr len) (mmap_perm prot) ∧
    (∀ b v, b ∈ areas ms → in_area a v → ¬ in_area b v)).
Proof.
  intros Hfa Hok Hs HB HH Hb Hlen Hr1 Hr2 Hfree.
  eapply wp_mono; [by apply (mmap_anywhere_wp s ms len prot flags off B H)|].
  intros [ms' r] s' (addr&ms0&->&Hge&Hb0&Ha0&_&(a&new&a'&(HR&HY&HP)&P)).
  destruct (pp_attrs _ _ _ _ _ _ _ P) as (HR'&HY'&HP'). exists addr, a', new.
  split; [done|]. split; [done|]. split; [rewrite (proj1 (pp_brk _ _ _ _ _ _ _ P)), Hb0; zdiv_lia|].
  split; [apply P|]. split; [rewrite (pp_areas _ _ _ _ _ _ _ P); congruence|].
  split; [apply P|]. split; [split_and!; congruence|]. intros b v [i Hi]%list_elem_of_lookup Hva Hvb.
  pose proof (mo_disj _ _ (pp_ok _ _ _ _ _ _ _ P)) as Hd. rewrite (pp_areas _ _ _ _ _ _ _ P), Ha0 in Hd.
  pose proof (lookup_lt_Some _ _ _ Hi). assert (i = length (areas ms)); [|lia].
  eapply (Hd i (length (areas ms)) b a' v); [by rewrite lookup_app_l|by apply list_lookup_middle|done..].
Qed.

Lemma mmap_anywhere_correct_witness :
  wp (mmap demo.1 0 0x1000 0x16 0 None 0) demo.2 (λ '(ms', r) s', ∃ addr, r = Ok addr ∧ length (areas ms') = 2%nat).
Proof.
  destruct demo_facts as (Hfa&Hok&Hb&Hfree&a&Ha&HR&_&_).
  eapply wp_mono.
  - apply (mmap_anywhere_correct demo.2 demo.1 0x1000 0x16 0 0 0x12 0x1000); try assumption; rewrite ?Hb; try (vm_compute; congruence).
    intros b. rewrite Ha, list_elem_of_singleton. intros ->. split; [split|left]; rewrite HR; vm_compute; congruence.
  - intros [ms' r] s' (addr&b&new&->&_&_&_&->&_). exists addr. rewrite Ha. split; reflexivity.
Defined.

(** C7: copying an address space ([fork]) gives the child areas with the same
    pages, permissions and contents as the parent's, in frames that nobody
    owned before; no byte outside those frames changes, so the parent keeps its
    contents, and both spaces satisfy the invariant. *)
Theorem fork_copies_and_isolates st (us : MemorySet SV39PageTable) s :
  fa_wf (km_fa s) → ms_ok s us → (∀ b, b ∈ areas us → map_type b = Framed) → tramp_ok st →
  3 + 3 * length (areas us ≫= area_pages) <= fa_free (km_fa s) →
  wp (from_existed_user st us) s (λ ms s',
    fa_wf (km_fa s') ∧ ms_ok s' us ∧ ms_ok s' ms ∧
    Forall2 (copied (km_mem s')) (areas us) (areas ms) ∧
    (∀ p, p ∈ ms_frames ms → ¬ fa_owned (km_fa s) p) ∧
    (∀ p, p ∈ ms_frames ms → p ∉ ms_frames us) ∧
    same_outside (λ p, p ∈ ms_frames ms) (km_mem s) (km_mem s')).
Proof.
  intros Hfa Hok Hfr Hst Hfree. eapply wp_mono; [by apply from_existed_user_wp|].
  intros ms s' F. split; [apply F|]. split; [apply F|]. split; [apply F|]. split; [apply F|].
  split; [apply (gr_fresh _ _ _ (fk_new _ _ _ _ _ F))|]. split; [|apply F].
  intros p Hp Hu. exact (frames_apart _ _ _ _ _ p F Hok Hu Hp).
Qed.

Lemma fork_copies_and_isolates_witness :
  wp (from_existed_user demo_st demo.1) demo.2 (λ ms s', length (areas ms) = 1%nat ∧
    ∀ p, p ∈ ms_frames ms → p ∉ ms_frames demo.1).
Proof.
  destruct demo_facts as (Hfa&Hok&_&Hfree&a&Ha&HR&HY&_).
  eapply wp_mono.
  - apply (fork_copies_and_isolates demo_st demo.1 demo.2 Hfa Hok).
    + intros b. rewrite Ha, list_elem_of_singleton. intros ->. exact HY.
    + exact demo_tramp.
    + rewrite Ha. simpl. rewrite app_nil_r. unfold area_pages. rewrite HR.
      change (3 + 3 * _) with 9. lia.
  - intros ms s' (_&_&_&HF&_&Hd&_). apply Forall2_length in HF. rewrite Ha in HF. split; [symmetry; exact HF|exact Hd].
Defined.


(** A file of three bytes with one segment, and a parser that recognises it. *)
Definition demo_ph : ProgramHeader := mkPH (Some true) 0x10000 0x1800 true false true 1 2.
Definition demo_elf : ElfFile := mkElf [0x7f; 0x45; 0x4c; 0x46] 1 (λ i, if i =? 0 then Some demo_ph else None) 0x10004.
Definition demo_parse (input : list Z) : option ElfFile := Some demo_elf.

Lemma demo_phs_facts : elf_ok demo_elf [demo_ph] ∧ phs_ok [7; 8; 9] [demo_ph].
Proof.
  assert (Hl : loads [demo_ph] = [demo_ph]) by reflexivity. split.
  - split; [reflexivity|reflexivity|]. intros [|i] ph H; [exact H|discriminate H].
  - split.
    + intros ph. rewrite list_elem_of_singleton. intros ->. exists true. reflexivity.
    + intros ph. rewrite Hl, list_elem_of_singleton. intros ->.
      split; try reflexivity; try (vm_compute; congruence). split; vm_compute; congruence.
    + intros [|i] [|j] p q; rewrite Hl; simpl; intros Hp Hq Hne; try discriminate. exfalso. apply Hne. reflexivity.
Qed.


(** ** User memory *)

(** [translated_byte_buffer] terminates on a mapped user range and returns
    slices that cover, in order and without gaps, exactly the physical bytes
    the range is mapped to; no slice is empty or crosses a page. *)
Theorem translated_byte_buffer_correct m token ptr len :
  user_range m (sv39_from_token token) ptr (ptr + len) → 0 <= len → ptr + len < 2 ^ 38 →
  ∃ b, translated_byte_buffer m token ptr len = Done b ∧
    uaddrs b = phys m (sv39_from_token token) <$> seqZ ptr len ∧
    Forall (λ s, 0 < s.2 <= 4096) b.
Proof. apply tbb_ok. Qed.

Lemma translated_byte_buffer_correct_witness :
  ∃ b, translated_byte_buffer (km_mem demo.2) (token demo.1) 0x10ff0 0x20 = Done b ∧ length (uaddrs b) = 0x20%nat.
Proof.
  destruct demo_facts as (_&Hok&_&_&a&Ha&HR&HY&_).
  destruct (translated_byte_buffer_correct (km_mem demo.2) (token demo.1) 0x10ff0 0x20) as (b&Hb&Hu&_).
  - apply (range_user demo.2 demo.1 a); try assumption; try lia.
    + rewrite Ha. left.
    + intros va Hva. unfold in_area. rewrite HR. simpl. zdiv_lia.
    + apply same_outside_refl.
  - lia.
  - lia.
  - exists b. split; [exact Hb|]. rewrite Hu, length_fmap, length_seqZ. reflexivity.
Defined.

(** An object written to a mapped user range by [copy_to_user] is read back
    by [copy_from_user], also when it crosses a page boundary; no byte outside
    the range changes, and the address space still satisfies its invariant. *)
Theorem user_copy_roundtrip s (ms : MemorySet SV39PageTable) a lo bytes :
  ms_ok s ms → a ∈ areas ms → map_type a = Framed → 0 <= lo → 0 < Z.of_nat (length bytes) →
  lo + length bytes < 2 ^ 38 → (∀ va, lo <= va < lo + length bytes → in_area a (va / 4096)) →
  ∃ m', copy_to_user (token ms) bytes lo (km_mem s) = Done m' ∧
    ms_ok (with_mem (λ _, m') s) ms ∧
    (∀ x, x ∉ range_addrs s ms lo (length bytes) → m' x = km_mem s x) ∧
    ∀ dst, length dst = length bytes → copy_from_user (token ms) lo dst m' = Done bytes.
Proof.
  intros Hok Ha Hty Hlo Hn Hlim Hin.
  destruct (copy_roundtrip s ms a Hok Ha Hty lo (length bytes) Hlo Hn Hlim Hin bytes eq_refl) as (m'&Hc&Hm&Hout&Hr).
  exists m'. split; [done|]. split; [|done]. eapply ms_ok_write; [done|done|].
  eapply same_outside_mono; [exact Hm|]. intros p. by apply elem_areas_frames.
Qed.

Lemma user_copy_roundtrip_witness :
  ∃ m', copy_to_user (token demo.1) [1; 2; 3; 4] 0x10ffe (km_mem demo.2) = Done m' ∧
        copy_from_user (token demo.1) 0x10ffe [0; 0; 0; 0] m' = Done [1; 2; 3; 4].
Proof.
  destruct demo_facts as (_&Hok&_&_&a&Ha&HR&HY&_).
  destruct (user_copy_roundtrip demo.2 demo.1 a 0x10ffe [1; 2; 3; 4]) as (m'&Hm&_&_&Hr).
  - exact Hok.
  - rewrite Ha. left.
  - exact HY.
  - lia.
  - simpl. lia.
  - simpl. lia.
  - intros va Hva. unfold in_area. rewrite HR. simpl in Hva |- *. zdiv_lia.
  - exists m'. split; [exact Hm|]. apply Hr. reflexivity.
Defined.

(** A page without mapping whose leaf table exists is not rejected:
    [translated_byte_buffer] ignores the valid bit and hands out physical
    memory of frame 0. *)
Theorem unmapped_page_reads_frame0 m tk ptr len a :
  0 <= ptr → 0 < len → ptr / 4096 = (ptr + len - 1) / 4096 → ptr + len < 2 ^ 38 →
  sv39_find_pte m (sv39_from_token tk) (ptr / 4096) = Some a → load64 m a = 0 →
  sv39_lookup m (sv39_from_token tk) (ptr / 4096) = None ∧
  translated_byte_buffer m tk ptr len = Done [(ptr mod 4096, len)].
Proof.
  intros Hp Hl Hpage Hlim Hf Hz. split.
  { rewrite sv39_lookup_find, Hf. simpl. by rewrite Hz. }
  unfold translated_byte_buffer. rewrite wadd_small by lia.
  rewrite Nat.add_comm. cbn [Nat.add tbb_loop]. rewrite (proj2 (Z.ltb_lt _ _)) by lia.
  unfold tbb_step. rewrite !va_from_usize_mod, !Z.mod_small by lia.
  unfold sv39_translate. change (va_floor ptr) with (ptr / 4096). rewrite Hf.
  cbn [fmap option_fmap option_map unwrap mbind outcome_bind]. rewrite Hz.
  unfold step_by_one. rewrite wadd_small by zdiv_lia. rewrite va_from_vpn_eq by zdiv_lia. rewrite !va_page_offset_mod.
  rewrite Z.min_r by zdiv_lia. change (bytes_array_addr (sv39_pte_ppn 0)) with 0.
  unfold PAGE_SIZE. rewrite va_to_usize_low by lia.
  rewrite (proj2 (Z.leb_le _ _)); [|destruct (Z.eqb_spec ((ptr + len) mod 4096) 0); zdiv_lia].
  cbn [mbind outcome_bind]. rewrite (proj2 (Z.ltb_ge _ _)) by lia. cbn [mbind outcome_bind].
  unfold mret, outcome_ret, mbind, outcome_bind. do 2 f_equal. f_equal. destruct (Z.eqb_spec ((ptr + len) mod 4096) 0); zdiv_lia.
Qed.

Lemma unmapped_page_reads_frame0_witness :
  translated_byte_buffer (km_mem demo.2) (token demo.1) 0x13010 8 = Done [(0x10, 8)].
Proof.
  destruct (sv39_find_pte (km_mem demo.2) (sv39_from_token (token demo.1)) (0x13010 / 4096)) as [a|] eqn:E;
    [|vm_compute in E; discriminate E].
  apply (unmapped_page_reads_frame0 (km_mem demo.2) (token demo.1) 0x13010 8 a); try lia; try reflexivity; [exact E|].
  vm_compute in E. injection E as <-. vm_compute. reflexivity.
Defined.
