(* ===== verification/Mmu.v ===== *)
(** * The memory management unit

    The walk of the processor through SV39 tables, after the RISC-V privileged
    architecture, and its agreement with the tables that the kernel builds
    ([os/src/hal/arch/riscv/sv39.rs]): what a program can reach is what the areas
    of its address space say.  The processor sets the accessed and dirty bits
    itself. *)

From S2P Require Import Prelude Address PhysMem IdAlloc FrameAlloc PageTable Sv39 UserMem MemorySet MapAreaSpec.
From S2P Require Import MemorySetSpec MemorySetOps SpaceProps.

(** ** The processor *)

Inductive Access := ARead | AWrite | AExec.

Definition access_bit (acc : Access) : Z := match acc with ARead => 1 | AWrite => 2 | AExec => 3 end.

(** From the table in frame [a] at [level] (2, 1, 0): the page number and the
    entry.  An entry with the bit R or X is a leaf, one with neither points to the
    next table. *)
Fixpoint hw_walk (m : mem) (level : nat) (a vpn : Z) : option (Z * Z) :=
  let e := load64 m (a * 4096 + (vpn / 2 ^ (9 * level)) mod 512 * 8) in
  let ppn := (e / 1024) mod 2 ^ 44 in
  if negb (Z.testbit e 0) || (negb (Z.testbit e 1) && Z.testbit e 2) || negb (e / 2 ^ 54 =? 0) then None
  else if Z.testbit e 1 || Z.testbit e 3 then
    if ppn mod 2 ^ (9 * level) =? 0 then Some (ppn + vpn mod 2 ^ (9 * level), e) else None
  else
    match level with
    | O => None
    | S level' => if Z.testbit e 4 || Z.testbit e 6 || Z.testbit e 7 then None else hw_walk m level' ppn vpn
    end.

(** The upper bits of an address repeat bit 38. *)
Definition canonical (va : Z) : Prop := 0 <= va < 2 ^ 38 ∨ 2 ^ 64 - 2 ^ 38 <= va < 2 ^ 64.

#[global] Instance canonical_dec va : Decision (canonical va).
Proof. unfold canonical. apply _. Defined.

Definition va_vpn (va : Z) : Z := (va / 4096) mod 2 ^ 27.

(** The physical address of an access in user or supervisor mode, with the bits SUM
    and MXR of [sstatus] clear; [None] is a page fault. *)
Definition mmu (m : mem) (satp : Z) (user : bool) (acc : Access) (va : Z) : option Z :=
  if bool_decide (canonical va) && (satp / 2 ^ 60 =? 8) then
    '(ppn, e) ← hw_walk m 2 (satp mod 2 ^ 44) (va_vpn va);
    if eqb (Z.testbit e 4) user && Z.testbit e (access_bit acc) then Some (ppn * 4096 + va mod 4096) else None
  else None.

(** What the permissions of an area allow; writing without reading is reserved. *)
Definition permits (perm : Z) (user : bool) (acc : Access) : bool :=
  eqb (Z.testbit perm 4) user && Z.testbit perm (access_bit acc) && (Z.testbit perm 1 || negb (Z.testbit perm 2)).

(** ** Entries *)

Lemma entry_bits ppn f k : 0 <= f < 1024 → 0 <= k < 10 → Z.testbit (ppn * 1024 + f) k = Z.testbit f k.
Proof.
  intros Hf Hk. rewrite <- (Z.mod_pow2_bits_low (ppn * 1024 + f) 10 k), <- (Z.mod_pow2_bits_low f 10 k) by lia.
  f_equal. change (2 ^ 10) with 1024. rewrite Z.add_comm. apply Z.mod_add. lia.
Qed.

Lemma entry_fields ppn f : is_ppn ppn → 0 <= f < 1024 → (ppn * 1024 + f) / 2 ^ 54 = 0 ∧ ((ppn * 1024 + f) / 1024) mod 2 ^ 44 = ppn.
Proof. unfold is_ppn. intros Hp Hf. split; zdiv_lia. Qed.

(** A step of the walk through an entry that points to a table. *)
Lemma hw_step m (level : nat) a vpn q :
  is_ppn q → load64 m (a * 4096 + (vpn / 2 ^ (9 * S level)) mod 512 * 8) = sv39_pte_new q PTE_V →
  hw_walk m (S level) a vpn = hw_walk m level q vpn.
Proof.
  intros Hq He. cbn [hw_walk]. rewrite He, sv39_pte_new_eq by (done || (vm_compute; split; congruence)).
  change PTE_V with 1. destruct (entry_fields q 1 Hq ltac:(lia)) as [-> ->]. by rewrite !entry_bits by lia.
Qed.

(** A step that ends at an entry that is not valid. *)
Lemma hw_stop m (level : nat) a vpn :
  sv39_pte_is_valid (load64 m (a * 4096 + (vpn / 2 ^ (9 * level)) mod 512 * 8)) = false → hw_walk m level a vpn = None.
Proof.
  intros He. rewrite sv39_is_valid_mod in He. destruct level; cbn [hw_walk]; rewrite Z.bit0_odd, <- Z.negb_even, Zeven_mod;
    unfold Zeq_bool; apply negb_false_iff, Z.eqb_eq in He; rewrite He; done.
Qed.

(** What the processor makes of the entry of a page. *)
Definition hw_leaf (e : Z) : option (Z * Z) :=
  if (negb (Z.testbit e 1) && Z.testbit e 2) || negb (e / 2 ^ 54 =? 0) then None
  else if Z.testbit e 1 || Z.testbit e 3 then Some ((e / 1024) mod 2 ^ 44, e) else None.

Lemma hw_last m a vpn :
  let e := load64 m (a * 4096 + vpn mod 512 * 8) in
  sv39_pte_is_valid e = true → hw_walk m 0 a vpn = hw_leaf e.
Proof.
  intros e He. unfold hw_leaf. cbn [hw_walk]. change (9 * 0%nat) with 0. rewrite Z.pow_0_r, Z.div_1_r, !Z.mod_1_r, Z.add_0_r. fold e.
  assert (Z.testbit e 0 = true) as ->; [|done].
  rewrite sv39_is_valid_mod in He. rewrite Z.bit0_odd, <- Z.negb_even. rewrite Zeven_mod. done.
Qed.

(** The processor finds the entry that the kernel finds. *)
Lemma hw_walk_lookup m pt T vpn :
  wf_tree m (root_ppn pt) T → hw_walk m 2 (root_ppn pt) vpn = (e ← sv39_lookup m pt vpn; hw_leaf e).
Proof.
  intros Hwf. set (i := (vpn / 2 ^ 18) mod 512). set (j := (vpn / 2 ^ 9) mod 512). set (k := vpn mod 512).
  assert (Hi : idx_ok i) by apply idx_mod. assert (Hj : idx_ok j) by apply idx_mod.
  pose proof (wt_root _ _ _ Hwf) as Hr. pose proof (wt_range _ _ _ Hwf _ _ Hr) as Hrp.
  unfold sv39_lookup, leaf, leaf_addr. fold i j k. destruct (child m (root_ppn pt) i) as [p|] eqn:Hp; cbn [mbind option_bind].
  2: { apply hw_stop. change (9 * 2%nat) with 18. fold i. rewrite <- pte_array_addr_eq by done. unfold child in Hp. by destruct (sv39_pte_is_valid _). }
  pose proof (tree_level1 _ _ _ Hwf _ _ Hi Hp) as Hp1. pose proof (wt_range _ _ _ Hwf _ _ Hp1) as Hpp.
  rewrite (hw_step m 1 (root_ppn pt) vpn p Hpp).
  2: { change (9 * S 1) with 18. fold i. rewrite <- pte_array_addr_eq by done. apply (wt_pointer _ _ _ Hwf _ [] i p Hr); [simpl; lia|done|done]. }
  destruct (child m p j) as [q|] eqn:Hq; cbn [mbind option_bind].
  2: { apply hw_stop. change (9 * 1%nat) with 9. fold j. rewrite <- pte_array_addr_eq by done. unfold child in Hq. by destruct (sv39_pte_is_valid _). }
  pose proof (tree_level2 _ _ _ Hwf _ _ _ _ Hi Hj Hp Hq) as Hq1. pose proof (wt_range _ _ _ Hwf _ _ Hq1) as Hqp.
  rewrite (hw_step m 0 p vpn q Hqp).
  2: { change (9 * S 0) with 9. fold j. rewrite <- pte_array_addr_eq by done. apply (wt_pointer _ _ _ Hwf _ [i] j q Hp1); [simpl; lia|done|done]. }
  rewrite pte_array_addr_eq by done. destruct (sv39_pte_is_valid (load64 m (q * 4096 + k * 8))) eqn:Hv; cbn [mbind option_bind]; [by apply hw_last|].
  apply hw_stop. change (9 * 0%nat) with 0. rewrite Z.pow_0_r, Z.div_1_r. done.
Qed.

(** The bits of the entry that the kernel makes of a permission. *)
Lemma hw_leaf_perm ppn perm user acc : is_ppn ppn → is_perm perm →
  (('(p, e) ← hw_leaf (sv39_pte_new ppn (Z.lor perm PTE_V));
    if eqb (Z.testbit e 4) user && Z.testbit e (access_bit acc) then Some p else None) : option Z) =
  if permits perm user acc then Some ppn else None.
Proof.
  intros Hp Hperm. destruct (perm_lor_V perm Hperm) as (->&Hr&_). rewrite sv39_pte_new_eq by (done || lia).
  unfold hw_leaf. destruct (entry_fields ppn (perm + 1) Hp ltac:(lia)) as [-> ->]. rewrite !entry_bits by lia. unfold permits.
  assert (Hlow : ∀ k, 1 <= k <= 4 → Z.testbit (perm + 1) k = Z.testbit perm k).
  { intros k Hk. apply perm_cases in Hperm. revert perm Hperm Hr. refine (forall_in_list _ _ _). repeat constructor; intros _;
      assert (k ∈ [1; 2; 3; 4]) as Hin by (rewrite !elem_of_cons; lia); clear Hk; revert k Hin; refine (forall_in_list _ _ _); repeat constructor. }
  assert (Hall : ∀ k, 1 <= k <= 4 → Z.testbit (ppn * 1024 + (perm + 1)) k = Z.testbit perm k) by (intros k Hk; rewrite entry_bits, Hlow by lia; done).
  rewrite !Hlow by lia. destruct (Z.testbit perm 1) eqn:E1, (Z.testbit perm 2) eqn:E2, (Z.testbit perm 3) eqn:E3; cbn [negb orb andb Z.eqb mbind option_bind];
    rewrite ?andb_false_r, ?andb_true_r; try done; rewrite ?Hall by (destruct acc; simpl; lia); destruct acc; cbn [access_bit];
    rewrite ?E1, ?E2, ?E3, ?andb_false_r, ?andb_true_r; try done.
Qed.

(** ** Address spaces *)

Lemma canonical_vpn va : canonical va → is_vpn (va_vpn va).
Proof. intros _. unfold is_vpn, va_vpn. apply Z.mod_pos_bound. lia. Qed.

Lemma token_fields pt : is_ppn (root_ppn pt) → sv39_token pt / 2 ^ 60 = 8 ∧ sv39_token pt mod 2 ^ 44 = root_ppn pt.
Proof.
  unfold is_ppn. intros Hr. unfold sv39_token. rewrite wshl_small by lia. rewrite <- (Z.shiftl_mul_pow2 8 60) by lia.
  rewrite lor_shiftl_add by lia. split; zdiv_lia.
Qed.

Definition hw_access (e : option Z) (user : bool) (acc : Access) (va : Z) : option Z :=
  '(p, e) ← (e ← e; hw_leaf e);
  if eqb (Z.testbit e 4) user && Z.testbit e (access_bit acc) then Some (p * 4096 + va mod 4096) else None.

Lemma mmu_lookup m (pt : SV39PageTable) user acc va :
  pt_ok m pt → canonical va → mmu m (sv39_token pt) user acc va = hw_access (sv39_lookup m pt (va_vpn va)) user acc va.
Proof.
  intros [T (Hwf&_)] Hc. pose proof (wt_range _ _ _ Hwf _ _ (wt_root _ _ _ Hwf)) as Hr. destruct (token_fields pt Hr) as [Hm Hp].
  unfold mmu. rewrite bool_decide_true, Hm, Hp by done. change (8 =? 8) with true. cbn [andb]. by rewrite (hw_walk_lookup m pt T (va_vpn va) Hwf).
Qed.

(** The access through an entry that the kernel made. *)
Lemma hw_access_perm ppn perm user acc va : is_ppn ppn → is_perm perm →
  hw_access (Some (sv39_pte_new ppn (Z.lor perm PTE_V))) user acc va =
  if permits perm user acc then Some (ppn * 4096 + va mod 4096) else None.
Proof.
  intros Hp Hperm. pose proof (hw_leaf_perm ppn perm user acc Hp Hperm) as Hleaf. unfold hw_access.
  destruct (hw_leaf _) as [[p e]|] eqn:E; cbn [mbind option_bind] in Hleaf |- *; rewrite ?E; cbn [mbind option_bind];
    [|by destruct (permits _ _ _)].
  destruct (_ && _), (permits _ _ _); congruence.
Qed.

(** The view of a page of a framed area. *)
Lemma ms_view_area s (ms : MemorySet SV39PageTable) a v :
  ms_ok s ms → a ∈ areas ms → map_type a = Framed → in_area a v →
  ∃ f, data_frames a !! v = Some f ∧ is_ppn f ∧ f ∉ pt_frames (page_table ms) ∧ ms_view ms v = Some (f, map_perm a).
Proof.
  intros Hok Ha Hty Hin. destruct (mo_mapped _ _ Hok a v Ha Hin) as (f&Ht&Hf&_). pose proof Ht as Hd. unfold area_target in Hd. rewrite Hty in Hd.
  exists f. split; [done|]. split; [done|]. split; [apply (ms_area_frame _ _ _ _ Hok Ha), elem_of_area_frames; eauto|].
  unfold ms_view. destruct (list_find _ (areas ms)) as [[i b]|] eqn:Hl.
  - apply list_find_Some in Hl as (Hb&Hib&_). apply list_elem_of_lookup in Ha as [j Ha].
    assert (i = j) as -> by (eapply (mo_disj _ _ Hok); eassumption). assert (b = a) as -> by congruence. simpl. by rewrite Ht.
  - apply list_find_None in Hl. rewrite Forall_forall in Hl. by destruct (Hl a Ha).
Qed.

Lemma mmu_view s (ms : MemorySet SV39PageTable) user acc va :
  ms_ok s ms → canonical va → va_vpn va ≠ TRAMP_VPN →
  mmu (km_mem s) (token ms) user acc va =
    match ms_view ms (va_vpn va) with
    | Some (ppn, perm) => if permits perm user acc then Some (ppn * 4096 + va mod 4096) else None
    | None => None
    end.
Proof.
  intros Hok Hcan Ht. pose proof (canonical_vpn va Hcan) as Hv. change (token ms) with (sv39_token (page_table ms)).
  rewrite mmu_lookup by (done || apply Hok). pose proof (ms_view_lookup s ms _ Hok Hv Ht) as Hl.
  change (sv39_lookup (km_mem s) (page_table ms) (va_vpn va)) with (pt_lookup (km_mem s) (page_table ms) (va_vpn va)).
  rewrite Hl. destruct (ms_view ms (va_vpn va)) as [[ppn perm]|] eqn:Hview; [|done].
  destruct (ms_view_perm _ _ _ _ _ Hok Hview) as [Hp Hperm]. by apply hw_access_perm.
Qed.

(** C2: with the token of an address space in [satp], the processor lets a program
    reach exactly the bytes that the areas of the space give it: an access to a
    page of an area goes to the frame of the page if the permissions of the area
    allow it in this mode, and faults otherwise, and an access to any other page
    faults.  Where it succeeds, the kernel's own translation for system calls goes
    to the same byte. *)
Theorem mmu_refines_view s (ms : MemorySet SV39PageTable) user acc va :
  ms_ok s ms → canonical va → va_vpn va ≠ TRAMP_VPN →
  mmu (km_mem s) (token ms) user acc va =
    match ms_view ms (va_vpn va) with
    | Some (ppn, perm) => if permits perm user acc then Some (ppn * 4096 + va mod 4096) else None
    | None => None
    end ∧
  (∀ pa, va < 2 ^ 38 → mmu (km_mem s) (token ms) user acc va = Some pa → translated_ref (km_mem s) (token ms) va = Done pa).
Proof.
  intros Hok Hcan Ht. rewrite (mmu_view s ms user acc va Hok Hcan Ht). split; [done|]. intros pa Hlt.
  pose proof (ms_view_lookup s ms _ Hok (canonical_vpn va Hcan) Ht) as Hl.
  destruct (ms_view ms (va_vpn va)) as [[ppn perm]|] eqn:Hview; [|done].
  destruct (ms_view_perm _ _ _ _ _ Hok Hview) as [Hp Hperm]. destruct (permits perm user acc); [|done]. intros [= <-].
  assert (Hroot : is_ppn (root_ppn (page_table ms))) by (destruct (mo_pt _ _ Hok) as [T (Hwf&_)]; exact (wt_range _ _ _ Hwf _ _ (wt_root _ _ _ Hwf))).
  assert (Hvv : va / 4096 = va_vpn va) by (unfold va_vpn; destruct Hcan; zdiv_lia).
  rewrite (translated_ref_lookup _ _ _ (sv39_pte_new ppn (Z.lor perm PTE_V))).
  - destruct (perm_lor_V perm Hperm) as (->&?&_). by rewrite sv39_pte_new_ppn by (done || lia).
  - destruct Hcan; lia.
  - rewrite Hvv. unfold sv39_lookup. change (token ms) with (sv39_token (page_table ms)). rewrite sv39_token_root by done. exact Hl.
Qed.

(** The example process reads and writes its pages; it cannot execute them, and
    the kernel does not reach them by their user addresses. *)
Lemma mmu_refines_view_witness :
  (∃ pa, mmu (km_mem demo.2) (token demo.1) true AWrite 0x11234 = Some pa) ∧
  mmu (km_mem demo.2) (token demo.1) true AExec 0x11234 = None ∧ mmu (km_mem demo.2) (token demo.1) false ARead 0x11234 = None.
Proof.
  destruct demo_facts as (_&Hok&_&_&a&Ha&Hd). destruct Hd as (HR&HY&HP).
  assert (Hc : canonical 0x11234) by (left; lia). assert (Ht : va_vpn 0x11234 ≠ TRAMP_VPN) by (vm_compute; congruence).
  assert (Hin : in_area a 0x11) by (unfold in_area; rewrite HR; simpl; lia).
  destruct (ms_view_area demo.2 demo.1 a 0x11 Hok ltac:(rewrite Ha; left) HY Hin) as (ppn&_&_&_&Hview).
  change 0x11 with (va_vpn 0x11234) in Hview.
  pose proof (proj1 (mmu_refines_view demo.2 demo.1 true AWrite 0x11234 Hok Hc Ht)) as H1.
  pose proof (proj1 (mmu_refines_view demo.2 demo.1 true AExec 0x11234 Hok Hc Ht)) as H2.
  pose proof (proj1 (mmu_refines_view demo.2 demo.1 false ARead 0x11234 Hok Hc Ht)) as H3.
  rewrite Hview, HP in H1, H2, H3. split; [eexists; exact H1|]. split; [exact H2|exact H3].
Defined.
