(* ===== verification/Asm.v ===== *)
(** * The assembly of traps and switches ([os/src/hal/arch/riscv/trap/trap.S],
      [os/src/hal/arch/riscv/switch.S])

    The instructions that the two files use, as the RISC-V manuals define them,
    over registers, control registers and memory behind the memory management
    unit; the four pieces of code; and the functions of [trap/mod.rs] that set the
    control registers around them.  Every instruction of a trap path is fetched
    through the page table that is active when it runs. *)

From S2P Require Import Prelude Address PhysMem IdAlloc FrameAlloc PageTable Sv39 UserMem MemorySet MapAreaSpec.
From S2P Require Import MemorySetSpec MemorySetOps TrapCx SpaceProps Mmu.

(** ** The processor *)

(** [SIER] is the register [sie]. *)
Inductive Csr := SSTATUS | SEPC | SSCRATCH | SATP | STVEC | SIER.

#[global] Instance Csr_eq_dec : EqDecision Csr.
Proof. solve_decision. Defined.

(** [xr]: the general registers; [user]: the privilege level. *)
Record Cpu := mkCpu { xr : nat → Z; cs : Csr → Z; cm : mem; user : bool; pc : Z }.

Definition xreg (c : Cpu) (r : nat) : Z := if decide (r = 0%nat) then 0 else xr c r.
Definition set_x (r : nat) (v : Z) (c : Cpu) : Cpu :=
  mkCpu (λ q, if decide (q = r) then v else xr c q) (cs c) (cm c) (user c) (pc c).
Definition set_csr (k : Csr) (v : Z) (c : Cpu) : Cpu :=
  mkCpu (xr c) (λ q, if decide (q = k) then v else cs c q) (cm c) (user c) (pc c).
Definition set_cm (m : mem) (c : Cpu) : Cpu := mkCpu (xr c) (cs c) m (user c) (pc c).
(** Bit 0 of the target of a jump and of [sepc] reads as 0. *)
Definition even_pc (a : Z) : Z := a - a mod 2.
Definition csr_value (k : Csr) (v : Z) : Z := match k with SEPC => even_pc v | _ => v end.
Definition go (u : bool) (a : Z) (c : Cpu) : Cpu := mkCpu (xr c) (cs c) (cm c) u a.

(** The bits of [sstatus]. *)
Definition SIE : Z := 1.
Definition SPIE : Z := 5.
Definition SPP : Z := 8.
(** The timer bit of [sie]. *)
Definition STIE : Z := 5.
Definition put_bit (k : Z) (b : bool) (z : Z) : Z := if b then Z.setbit z k else Z.clearbit z k.

(** A trap: the privilege and the interrupt enable are saved, interrupts are off. *)
Definition hw_trap (c : Cpu) : Cpu :=
  let s := cs c SSTATUS in
  go false (cs c STVEC)
    (set_csr SEPC (pc c) (set_csr SSTATUS (put_bit SPP (negb (user c)) (put_bit SIE false (put_bit SPIE (Z.testbit s SIE) s))) c)).

Definition hw_sret (c : Cpu) : Cpu :=
  let s := cs c SSTATUS in
  go (negb (Z.testbit s SPP)) (cs c SEPC)
    (set_csr SSTATUS (put_bit SPP false (put_bit SPIE true (put_bit SIE (Z.testbit s SPIE) s))) c).

(** [Jalr]: with the address of the next instruction, which goes into [ra]. *)
Inductive Instr :=
| Csrrw (rd : nat) (k : Csr) (rs : nat)
| Csrr (rd : nat) (k : Csr)
| Csrw (k : Csr) (rs : nat)
| Sd (rs : nat) (off : Z) (base : nat)
| Ld (rd : nat) (off : Z) (base : nat)
| Mv (rd rs : nat)
| Addi (rd rs : nat) (imm : Z)
| SfenceVma
| Jr (rs : nat)
| Jalr (rs : nat) (next : Z)
| Sret.

Definition mem_access (acc : Access) (c : Cpu) (a : Z) : option Z :=
  if a mod 8 =? 0 then mmu (cm c) (cs c SATP) false acc a else None.

(** An instruction that goes on to the next one; [None] is an exception. *)
Definition exec1 (i : Instr) (c : Cpu) : option Cpu :=
  match i with
  | Csrrw rd k rs => Some (set_x rd (cs c k) (set_csr k (csr_value k (xreg c rs)) c))
  | Csrr rd k => Some (set_x rd (cs c k) c)
  | Csrw k rs => Some (set_csr k (csr_value k (xreg c rs)) c)
  | Sd rs off base => pa ← mem_access AWrite c (xreg c base +w off); Some (set_cm (store64 (cm c) pa (xreg c rs)) c)
  | Ld rd off base => pa ← mem_access ARead c (xreg c base +w off); Some (set_x rd (load64 (cm c) pa) c)
  | Mv rd rs => Some (set_x rd (xreg c rs) c)
  | Addi rd rs imm => Some (set_x rd (xreg c rs +w imm) c)
  | SfenceVma => Some c
  | Jr _ | Jalr _ _ | Sret => None
  end.

(** The pages of the code, with their virtual and physical addresses. *)
Definition fetch (pages : list (Z * Z)) (m : mem) (satp : Z) : bool :=
  forallb (λ p, bool_decide (mmu m satp false AExec p.1 = Some p.2)) pages.

(** Supervisor code up to the instruction that leaves it. *)
Fixpoint cpu_run (pages : list (Z * Z)) (code : list Instr) (c : Cpu) : option Cpu :=
  match code with
  | [] => None
  | i :: code' =>
      if fetch pages (cm c) (cs c SATP) then
        match i with
        | Jr rs => Some (go false (even_pc (xreg c rs)) c)
        | Jalr rs next => Some (go false (even_pc (xreg c rs)) (set_x 1 next c))
        | Sret => Some (hw_sret c)
        | _ => c' ← exec1 i c; cpu_run pages code' c'
        end
      else None
  end.

(** ** [trap.S] *)

Definition t0 : nat := 5.
Definition t1 : nat := 6.
Definition t2 : nat := 7.
Definition ra : nat := 1.

Definition SAVE_GP (n : nat) : Instr := Sd n (n * 8) r_sp.
Definition LOAD_GP (n : nat) : Instr := Ld n (n * 8) r_sp.

Definition alltraps : list Instr :=
  [Csrrw r_sp SSCRATCH r_sp;
   Sd 1 (1 * 8) r_sp;
   Sd 3 (3 * 8) r_sp] ++
  (SAVE_GP <$> seq 5 27) ++
  [Csrr t0 SSTATUS;
   Csrr t1 SEPC;
   Sd t0 (32 * 8) r_sp;
   Sd t1 (33 * 8) r_sp;
   Csrr t2 SSCRATCH;
   Sd t2 (2 * 8) r_sp;
   Ld t0 (34 * 8) r_sp;
   Ld t1 (36 * 8) r_sp;
   Ld r_sp (35 * 8) r_sp;
   Csrw SATP t0;
   SfenceVma;
   Jr t1].

Definition restore : list Instr :=
  [Csrw SATP r_a1;
   SfenceVma;
   Csrw SSCRATCH r_a0;
   Mv r_sp r_a0;
   Ld t0 (32 * 8) r_sp;
   Ld t1 (33 * 8) r_sp;
   Csrw SSTATUS t0;
   Csrw SEPC t1;
   Ld 1 (1 * 8) r_sp;
   Ld 3 (3 * 8) r_sp] ++
  (LOAD_GP <$> seq 5 27) ++
  [Ld r_sp (2 * 8) r_sp;
   Sret].

(** [restore_k_va]: the address of [__restore_k], which follows. *)
Definition alltraps_k (restore_k_va : Z) : list Instr :=
  [Addi r_sp r_sp (- (34 * 8));
   Sd 1 (1 * 8) r_sp;
   Sd 3 (3 * 8) r_sp] ++
  (SAVE_GP <$> seq 5 27) ++
  [Csrr t0 SSTATUS;
   Csrr t1 SEPC;
   Sd t0 (32 * 8) r_sp;
   Sd t1 (33 * 8) r_sp;
   Mv r_a0 r_sp;
   Csrr t2 SSCRATCH;
   Jalr t2 restore_k_va].

Definition restore_k : list Instr :=
  [Ld t0 (32 * 8) r_sp;
   Ld t1 (33 * 8) r_sp;
   Csrw SSTATUS t0;
   Csrw SEPC t1;
   Ld 1 (1 * 8) r_sp;
   Ld 3 (3 * 8) r_sp] ++
  (LOAD_GP <$> seq 5 27) ++
  [Addi r_sp r_sp (34 * 8);
   Sret].

(** ** [switch.S] *)

(** The saved registers [s0] to [s11]. *)
Definition sreg (n : nat) : nat := if decide (n < 2)%nat then 8 + n else 16 + n.

Definition SAVE_SN (n : nat) : Instr := Sd (sreg n) ((n + 2) * 8) r_a0.
Definition LOAD_SN (n : nat) : Instr := Ld (sreg n) ((n + 2) * 8) r_a1.

Definition switch : list Instr :=
  [Sd r_sp 8 r_a0; Sd ra 0 r_a0] ++ (SAVE_SN <$> seq 0 12) ++
  [Ld ra 0 r_a1] ++ (LOAD_SN <$> seq 0 12) ++ [Ld r_sp 8 r_a1; Jr ra].

(** ** [trap/mod.rs] *)

(** The link addresses of the code and of the handler. *)
Record TrapSymbols := mkSyms { a_alltraps : Z; a_restore : Z; a_alltraps_k : Z; a_restore_k : Z; a_trap_from_kernel : Z }.

Definition in_trampoline (y : TrapSymbols) (a : Z) : Z := a -w a_alltraps y +w TRAMPOLINE.

Definition set_kernel_trap_entry (y : TrapSymbols) (c : Cpu) : Cpu :=
  set_csr SSCRATCH (a_trap_from_kernel y) (set_csr STVEC (in_trampoline y (a_alltraps_k y)) c).

Definition set_user_trap_entry (c : Cpu) : Cpu := set_csr STVEC TRAMPOLINE c.

Definition enable_timer_interrupt (c : Cpu) : Cpu := set_csr SIER (put_bit STIE true (cs c SIER)) c.
Definition enable_supervisor_interrupt (c : Cpu) : Cpu := set_csr SSTATUS (put_bit SIE true (cs c SSTATUS)) c.
Definition disable_supervisor_interrupt (c : Cpu) : Cpu := set_csr SSTATUS (put_bit SIE false (cs c SSTATUS)) c.

(** [trap_return] of a thread with its context at [cx_va] and the token [user_satp]:
    the jump to [__restore]. *)
Definition cpu_trap_return (y : TrapSymbols) (cx_va user_satp : Z) (c : Cpu) : Cpu :=
  let c := set_user_trap_entry (disable_supervisor_interrupt c) in
  go false (in_trampoline y (a_restore y)) (set_x r_a1 user_satp (set_x r_a0 cx_va c)).

(** ** The trampoline page *)

(** The labels lie in one page that begins with [__alltraps]. *)
Record syms_ok (y : TrapSymbols) : Prop := {
  sy_base : 0 <= a_alltraps y ∧ a_alltraps y + 4096 <= 2 ^ 64;
  sy_page : Forall (λ a, a_alltraps y <= a < a_alltraps y + 4096) [a_restore y; a_alltraps_k y; a_restore_k y];
  sy_distinct : NoDup [a_alltraps y; a_restore y; a_alltraps_k y; a_restore_k y];
}.

Definition tramp_code (y : TrapSymbols) (a : Z) : option (list Instr) :=
  if decide (a = in_trampoline y (a_alltraps y)) then Some alltraps
  else if decide (a = in_trampoline y (a_restore y)) then Some restore
  else if decide (a = in_trampoline y (a_alltraps_k y)) then Some (alltraps_k (in_trampoline y (a_restore_k y)))
  else if decide (a = in_trampoline y (a_restore_k y)) then Some restore_k
  else None.

(** Supervisor code from the label at which the processor is; [st] is the physical
    address of the page. *)
Definition resume (y : TrapSymbols) (st : Z) (c : Cpu) : option Cpu :=
  code ← tramp_code y (pc c); cpu_run [(TRAMPOLINE, st)] code c.

Lemma in_trampoline_eq y a : a_alltraps y <= a < a_alltraps y + 4096 → in_trampoline y a = TRAMPOLINE + (a - a_alltraps y).
Proof.
  intros Ha. unfold in_trampoline, wadd, wsub, wrap64, TRAMPOLINE, PAGE_SIZE. rewrite (Z.mod_small (a - a_alltraps y)) by lia. rewrite Z.mod_small by lia. lia.
Qed.

Lemma resume_alltraps y st c : syms_ok y → pc c = TRAMPOLINE → resume y st c = cpu_run [(TRAMPOLINE, st)] alltraps c.
Proof.
  intros [Hb _ _] Hpc. unfold resume, tramp_code. rewrite Hpc, in_trampoline_eq by lia. by rewrite decide_True by lia.
Qed.

Lemma resume_label y st c :
  syms_ok y →
  (pc c = in_trampoline y (a_restore y) → resume y st c = cpu_run [(TRAMPOLINE, st)] restore c) ∧
  (pc c = in_trampoline y (a_alltraps_k y) → resume y st c = cpu_run [(TRAMPOLINE, st)] (alltraps_k (in_trampoline y (a_restore_k y))) c) ∧
  (pc c = in_trampoline y (a_restore_k y) → resume y st c = cpu_run [(TRAMPOLINE, st)] restore_k c).
Proof.
  intros [Hb Hp Hd]. unfold resume, tramp_code. rewrite !Forall_cons in Hp. destruct Hp as (H1&H2&H3&_).
  rewrite !NoDup_cons, !elem_of_cons in Hd. rewrite !in_trampoline_eq by lia.
  split; [|split]; intros ->; repeat (destruct (decide _) as [?|?]); done || lia.
Qed.
