(* ===== verification/TrapPath.v ===== *)
(** * The trap and switch paths

    What the assembly of [Asm] does with the saved contexts: a trap reg_stores the
    registers of the program in its trap context and returning restores them,
    also for traps of the kernel itself, and [__switch] exchanges the registers of
    two tasks. *)

From S2P Require Import Prelude Address PhysMem IdAlloc FrameAlloc PageTable Sv39 UserMem MemorySet MapAreaSpec.
From S2P Require Import MemorySetSpec MemorySetOps Mmap Fork Elf TrapCx UserRes StackProps SpaceProps Mmu Asm.

(** ** Running code on mapped words *)

(** The code uses the words at the addresses [D]; the tables put them at the
    physical addresses [τ], whatever is stored in them, and keep the code where it
    is. *)
Section words.
Context (pages : list (Z * Z)) (D : Z → Prop) (τ : Z → Z) (m0 : mem).

(** The memory differs from [m0] in the words only. *)
Definition near (m : mem) : Prop := ∀ y, (∀ a, D a → ¬ (τ a <= y < τ a + 8)) → m y = m0 y.

Record words_ok : Prop := {
  wo_aligned : ∀ a, D a → a mod 8 = 0;
  wo_apart : ∀ a b, D a → D b → a ≠ b → τ a + 8 <= τ b ∨ τ b + 8 <= τ a;
}.

Record visible (satp : Z) : Prop := {
  vi_data : ∀ m a acc, near m → D a → acc ≠ AExec → mmu m satp false acc a = Some (τ a);
  vi_code : ∀ m, near m → fetch pages m satp = true;
}.

Hypothesis Hw : words_ok.

Lemma near_start : near m0.
Proof using Type. by intros y _. Qed.

Lemma near_store m a v : near m → D a → near (store64 m (τ a) v).
Proof using Type.
  intros Hm Ha y Hy. rewrite store64_out; [by apply Hm|]. specialize (Hy a Ha). lia.
Qed.

Lemma load_store m a b v :
  D a → D b → is_usize v → load64 (store64 m (τ a) v) (τ b) = if decide (a = b) then v else load64 m (τ b).
Proof using Hw.
  intros Ha Hb Hv. destruct (decide (a = b)) as [->|Hne]; [by apply load64_store64_eq|].
  apply load64_store64_ne. destruct (wo_apart Hw a b Ha Hb Hne); lia.
Qed.

(** The state of a run: the words are near, the tables show them. *)
Record running (c : Cpu) : Prop := {
  rn_near : near (cm c);
  rn_visible : visible (cs c SATP);
}.

Lemma running_eq c c' : running c → cm c' = cm c → cs c' SATP = cs c SATP → running c'.
Proof using Type. intros [H1 H2] Hm Hs. split; [by rewrite Hm|by rewrite Hs]. Qed.

Lemma running_store c a v : running c → D a → running (set_cm (store64 (cm c) (τ a) v) c).
Proof using Type. intros [H1 H2] Ha. split; [by apply near_store|done]. Qed.

Lemma run_step i code c c' : running c → exec1 i c = Some c' → cpu_run pages (i :: code) c = cpu_run pages code c'.
Proof using Type.
  intros [Hn Hv] Hi. cbn [cpu_run]. rewrite (vi_code _ Hv _ Hn). destruct i; try discriminate Hi; by rewrite Hi.
Qed.

Lemma access_word acc c a : running c → D a → acc ≠ AExec → mem_access acc c a = Some (τ a).
Proof using Hw.
  intros [Hn Hv] Ha Hacc. unfold mem_access. rewrite (proj2 (Z.eqb_eq _ _)) by (by apply Hw). by apply (vi_data _ Hv).
Qed.

Lemma run_sd rs off base code c a :
  running c → xreg c base +w off = a → D a →
  cpu_run pages (Sd rs off base :: code) c = cpu_run pages code (set_cm (store64 (cm c) (τ a) (xreg c rs)) c).
Proof using Hw. intros Hc <- Ha. apply run_step; [done|]. cbn [exec1]. by rewrite (access_word _ c _ Hc Ha). Qed.

Lemma run_ld rd off base code c a :
  running c → xreg c base +w off = a → D a →
  cpu_run pages (Ld rd off base :: code) c = cpu_run pages code (set_x rd (load64 (cm c) (τ a)) c).
Proof using Hw. intros Hc <- Ha. apply run_step; [done|]. cbn [exec1]. by rewrite (access_word _ c _ Hc Ha). Qed.

(** A block of stores, and one of loads. *)
Definition reg_stores (f : nat → nat) (g : nat → Z) (c : Cpu) (l : list nat) (m : mem) : mem :=
  foldl (λ m n, store64 m (τ (g n)) (xreg c (f n))) m l.
Definition reg_loads (f : nat → nat) (g : nat → Z) (m : mem) (l : list nat) (c : Cpu) : Cpu :=
  foldl (λ c n, set_x (f n) (load64 m (τ (g n))) c) c l.

Lemma run_reg_stores f g base l code : ∀ c,
  running c → (∀ n, n ∈ l → D (xreg c base +w g n)) →
  let m' := reg_stores f (λ n, xreg c base +w g n) c l (cm c) in
  cpu_run pages (((λ n, Sd (f n) (g n) base) <$> l) ++ code) c = cpu_run pages code (set_cm m' c) ∧ running (set_cm m' c).
Proof using Hw.
  assert (Hgen : ∀ l c0 m, running (set_cm m c0) → (∀ n, n ∈ l → D (xreg c0 base +w g n)) →
    let m' := reg_stores f (λ n, xreg c0 base +w g n) c0 l m in
    cpu_run pages (((λ n, Sd (f n) (g n) base) <$> l) ++ code) (set_cm m c0) = cpu_run pages code (set_cm m' c0) ∧ running (set_cm m' c0)).
  { clear l. induction l as [|n l IH]; intros c0 m Hc Hl; [done|]. cbn [fmap list_fmap app reg_stores foldl].
    assert (Hn : D (xreg c0 base +w g n)) by (apply Hl; left).
    rewrite (run_sd (f n) (g n) base _ (set_cm m c0) (xreg c0 base +w g n) Hc eq_refl Hn).
    apply (IH c0 (store64 m (τ (xreg c0 base +w g n)) (xreg c0 (f n)))); [exact (running_store _ _ _ Hc Hn)|].
    intros k Hk. apply Hl. by right. }
  intros c Hc Hl. assert (E : set_cm (cm c) c = c) by (by destruct c). pose proof (Hgen l c (cm c)) as H. rewrite E in H. by apply H.
Qed.

Lemma reg_stores_load f g c l m b :
  (∀ n, n ∈ l → D (g n)) → D b → (∀ n, is_usize (xreg c n)) → NoDup l → (∀ n k, n ∈ l → k ∈ l → g n = g k → n = k) →
  load64 (reg_stores f g c l m) (τ b) = match list_find (λ n, g n = b) l with Some (_, n) => xreg c (f n) | None => load64 m (τ b) end.
Proof using Hw.
  intros Hl Hb Hu. revert m. induction l as [|n l IH]; intros m Hnd Hinj; [done|]. cbn [reg_stores foldl list_find].
  apply NoDup_cons in Hnd as [Hn Hnd].
  assert (IH' := IH ltac:(intros; apply Hl; by right) (store64 m (τ (g n)) (xreg c (f n))) Hnd ltac:(intros; apply Hinj; [by right|by right|done])).
  unfold reg_stores in IH'. rewrite IH'. destruct (decide (g n = b)) as [E|Hne].
  - destruct (list_find _ l) as [[i k]|] eqn:Hf; simpl.
    + apply list_find_Some in Hf as (Hk&Hg&_). apply list_elem_of_lookup_2 in Hk. destruct Hn.
      by rewrite (Hinj n k ltac:(left) ltac:(by right) ltac:(congruence)).
    + rewrite load_store by (done || (apply Hl; left) || apply Hu). by rewrite decide_True.
  - destruct (list_find _ l) as [[i k]|]; simpl; [done|].
    rewrite load_store by (done || (apply Hl; left) || apply Hu). by rewrite decide_False.
Qed.

Lemma reg_stores_in f g c l m n :
  (∀ k, k ∈ l → D (g k)) → (∀ k, is_usize (xreg c k)) → NoDup l → (∀ i k, i ∈ l → k ∈ l → g i = g k → i = k) → n ∈ l →
  load64 (reg_stores f g c l m) (τ (g n)) = xreg c (f n).
Proof using Hw.
  intros Hl Hu Hnd Hinj Hn. rewrite reg_stores_load by (done || by apply Hl). destruct (list_find _ l) as [[i k]|] eqn:Hf.
  - apply list_find_Some in Hf as (Hk&He&_). apply list_elem_of_lookup_2 in Hk. by rewrite (Hinj k n).
  - apply list_find_None in Hf. rewrite Forall_forall in Hf. by destruct (Hf n Hn).
Qed.

Lemma reg_stores_out f g c l m b :
  (∀ k, k ∈ l → D (g k)) → (∀ k, is_usize (xreg c k)) → NoDup l → (∀ i k, i ∈ l → k ∈ l → g i = g k → i = k) → D b →
  (∀ k, k ∈ l → g k ≠ b) → load64 (reg_stores f g c l m) (τ b) = load64 m (τ b).
Proof using Hw.
  intros Hl Hu Hnd Hinj Hb Hno. rewrite reg_stores_load by done. destruct (list_find _ l) as [[i k]|] eqn:Hf; [|done].
  apply list_find_Some in Hf as (Hk&He&_). apply list_elem_of_lookup_2 in Hk. by destruct (Hno k Hk).
Qed.

Lemma near_reg_stores f g c l : ∀ m, (∀ n, n ∈ l → D (g n)) → near m → near (reg_stores f g c l m).
Proof using Type.
  induction l as [|n l IH]; intros m Hl Hm; [done|]. cbn [reg_stores foldl]. apply IH; [intros; apply Hl; by right|].
  apply near_store; [done|]. apply Hl. left.
Qed.

Lemma reg_loads_frame f g m l : ∀ c,
  cm (reg_loads f g m l c) = cm c ∧ cs (reg_loads f g m l c) = cs c ∧ user (reg_loads f g m l c) = user c ∧
  ∀ r, r ∉ f <$> l → xr (reg_loads f g m l c) r = xr c r.
Proof using Type.
  induction l as [|n l IH]; intros c; [done|]. cbn [reg_loads foldl]. destruct (IH (set_x (f n) (load64 m (τ (g n))) c)) as (H1&H2&H3&H4).
  unfold reg_loads in *. rewrite H1, H2, H3. split; [done|]. split; [done|]. split; [done|]. intros r Hr. cbn [fmap list_fmap] in Hr.
  apply not_elem_of_cons in Hr as [Hn Hr]. rewrite H4 by done. simpl. by rewrite decide_False by done.
Qed.

Lemma reg_loads_reg f g m l : ∀ c n, NoDup (f <$> l) → n ∈ l → xr (reg_loads f g m l c) (f n) = load64 m (τ (g n)).
Proof using Type.
  induction l as [|k l IH]; intros c n Hnd Hn; [by apply elem_of_nil in Hn|]. cbn [fmap list_fmap] in Hnd. apply NoDup_cons in Hnd as [Hk Hnd].
  cbn [reg_loads foldl]. apply elem_of_cons in Hn as [->|Hn]; [|by apply IH].
  destruct (reg_loads_frame f g m l (set_x (f k) (load64 m (τ (g k))) c)) as (_&_&_&H4). unfold reg_loads in H4. rewrite H4 by done.
  simpl. by rewrite decide_True.
Qed.

Lemma run_reg_loads f g base l code : ∀ c,
  running c → base ≠ 0%nat → base ∉ f <$> l → (∀ n, n ∈ l → D (xreg c base +w g n)) →
  let c' := reg_loads f (λ n, xreg c base +w g n) (cm c) l c in
  cpu_run pages (((λ n, Ld (f n) (g n) base) <$> l) ++ code) c = cpu_run pages code c' ∧ running c'.
Proof using Hw.
  induction l as [|n l IH]; intros c Hc H0 Hb Hl; [done|]. cbn [fmap list_fmap app reg_loads foldl].
  assert (Hn : D (xreg c base +w g n)) by (apply Hl; left).
  rewrite (run_ld (f n) (g n) base _ c _ Hc eq_refl Hn). set (c1 := set_x (f n) _ c).
  assert (Hx : xreg c1 base = xreg c base) by (unfold xreg, c1; simpl; rewrite !decide_False; set_solver).
  destruct (IH c1) as [E1 E2]; [exact (running_eq c c1 Hc eq_refl eq_refl)|done|set_solver| |].
  - intros k Hk. rewrite Hx. apply Hl. by right.
  - rewrite Hx in E1, E2. by split.
Qed.
End words.

(** ** Saved registers *)

(** The registers that both trap paths save: all but [x0], [sp] and [tp]. *)
Definition gp_regs : list nat := 1%nat :: 3%nat :: seq 5 27.

(** The [n] words from address [b] on. *)
Definition block (b n a : Z) : Prop := ∃ i, 0 <= i < n ∧ a = b + 8 * i.

Lemma gp_regs_range r : r ∈ gp_regs → (r < 32)%nat ∧ r ≠ 0%nat ∧ r ≠ 2%nat ∧ r ≠ 4%nat.
Proof. unfold gp_regs. rewrite !elem_of_cons, elem_of_seq. lia. Qed.

Lemma gp_regs_all r : (r < 32)%nat → r ≠ 0%nat → r ≠ 2%nat → r ≠ 4%nat → r ∈ gp_regs.
Proof. unfold gp_regs. rewrite !elem_of_cons, elem_of_seq. lia. Qed.

Lemma gp_regs_nodup : NoDup gp_regs.
Proof. apply (bool_decide_unpack _). by vm_compute. Qed.

Section context.
Context (pages : list (Z * Z)) (b n : Z) (τ : Z → Z) (m0 : mem).
Notation D := (block b n).
Notation running := (running pages D τ m0).
Hypothesis Hw : words_ok D τ.
Hypothesis Hb : 0 <= b ∧ b + 8 * n <= 2 ^ 64.
Hypothesis Hn : 34 <= n.

Definition word (m : mem) (i : Z) : Z := load64 m (τ (b + 8 * i)).

Lemma block_word i : 0 <= i < n → D (b + 8 * i).
Proof using Type. intros Hi. by exists i. Qed.

Lemma word_addr i : 0 <= i < n → b +w i * 8 = b + 8 * i.
Proof using Hb. intros Hi. rewrite wadd_small by (split; nia). lia. Qed.

Lemma gp_word (r : nat) : r ∈ gp_regs → 0 <= r < n.
Proof using Hn. intros [? _]%gp_regs_range. lia. Qed.

(** A word stored through [sp], and one loaded. *)
Lemma run_sd_sp rs i code c :
  running c → xreg c r_sp = b → 0 <= i < n →
  cpu_run pages (Sd rs (i * 8) r_sp :: code) c = cpu_run pages code (set_cm (store64 (cm c) (τ (b + 8 * i)) (xreg c rs)) c) ∧
  running (set_cm (store64 (cm c) (τ (b + 8 * i)) (xreg c rs)) c).
Proof using Hw Hb.
  intros Hc Hsp Hi. split; [|by apply running_store, block_word].
  apply (run_sd _ D τ m0 Hw); [done|by rewrite Hsp, word_addr|by apply block_word].
Qed.

Lemma run_ld_sp rd i code c :
  running c → xreg c r_sp = b → 0 <= i < n →
  cpu_run pages (Ld rd (i * 8) r_sp :: code) c = cpu_run pages code (set_x rd (word (cm c) i) c) ∧ running (set_x rd (word (cm c) i) c).
Proof using Hw Hb.
  intros Hc Hsp Hi. split; [|by eapply running_eq].
  apply (run_ld _ D τ m0 Hw); [done|by rewrite Hsp, word_addr|by apply block_word].
Qed.

Lemma word_store m i j v : 0 <= i < n → 0 <= j < n → is_usize v →
  word (store64 m (τ (b + 8 * i)) v) j = if decide (i = j) then v else word m j.
Proof using Hw.
  intros Hi Hj Hv. unfold word. rewrite (load_store D τ Hw) by (done || by apply block_word).
  destruct (decide (i = j)) as [->|Hne]; [by rewrite decide_True|]. by rewrite decide_False by lia.
Qed.

(** The general registers are stored, and loaded. *)
Lemma run_save code c :
  running c → xreg c r_sp = b → (∀ r, is_usize (xreg c r)) →
  ∃ m', cpu_run pages ((SAVE_GP <$> gp_regs) ++ code) c = cpu_run pages code (set_cm m' c) ∧ running (set_cm m' c) ∧
    ∀ i, 0 <= i < n → word m' i = if decide (Z.to_nat i ∈ gp_regs) then xr c (Z.to_nat i) else word (cm c) i.
Proof using Hw Hb Hn.
  intros Hc Hsp Hu. assert (Hg : ∀ r : nat, r ∈ gp_regs → xreg c r_sp +w r * 8 = b + 8 * r) by (intros r Hr; rewrite Hsp; apply word_addr, gp_word; done).
  assert (Hd : ∀ r : nat, r ∈ gp_regs → D (xreg c r_sp +w r * 8)) by (intros r Hr; rewrite Hg by done; apply block_word, gp_word; done).
  destruct (run_reg_stores pages D τ m0 Hw (λ r : nat, r) (λ r : nat, r * 8) r_sp gp_regs code c Hc Hd) as [E Hr].
  eexists. split; [exact E|]. split; [exact Hr|]. intros i Hi. unfold word at 1.
  rewrite (reg_stores_load D τ Hw _ _ c gp_regs (cm c) (b + 8 * i)); [|done|by apply block_word|done|apply gp_regs_nodup|].
  - destruct (list_find _ gp_regs) as [[k r]|] eqn:Hf.
    + apply list_find_Some in Hf as (Hk&He&_). apply list_elem_of_lookup_2 in Hk. rewrite Hg in He by done.
      assert (Z.to_nat i = r) as -> by lia. rewrite decide_True by done. unfold xreg.
      rewrite decide_False by (by apply gp_regs_range in Hk as (_&?&_)). done.
    + rewrite decide_False; [done|]. intros Hin. apply list_find_None in Hf. rewrite Forall_forall in Hf.
      apply (Hf (Z.to_nat i) Hin). rewrite Hg by done. lia.
  - intros r k Hr' Hk He. rewrite !Hg in He by done. lia.
Qed.

Lemma run_load code c :
  running c → xreg c r_sp = b →
  ∃ c', cpu_run pages ((LOAD_GP <$> gp_regs) ++ code) c = cpu_run pages code c' ∧ running c' ∧
    cm c' = cm c ∧ cs c' = cs c ∧ user c' = user c ∧
    ∀ r : nat, xr c' r = if decide (r ∈ gp_regs) then word (cm c) r else xr c r.
Proof using Hw Hb Hn.
  intros Hc Hsp. assert (Hg : ∀ r : nat, r ∈ gp_regs → xreg c r_sp +w r * 8 = b + 8 * r) by (intros r Hr; rewrite Hsp; apply word_addr, gp_word; done).
  assert (Hd : ∀ r : nat, r ∈ gp_regs → D (xreg c r_sp +w r * 8)) by (intros r Hr; rewrite Hg by done; apply block_word, gp_word; done).
  assert (Hnd : NoDup ((λ r : nat, r) <$> gp_regs)) by (rewrite list_fmap_id; apply gp_regs_nodup).
  assert (Hno : r_sp ∉ (λ r : nat, r) <$> gp_regs) by (rewrite list_fmap_id; by intros (_&_&?&_)%gp_regs_range).
  destruct (run_reg_loads pages D τ m0 Hw (λ r : nat, r) (λ r : nat, r * 8) r_sp gp_regs code c Hc ltac:(done) Hno Hd) as [E Hr].
  destruct (reg_loads_frame τ (λ r : nat, r) (λ r : nat, xreg c r_sp +w r * 8) (cm c) gp_regs c) as (F1&F2&F3&F4).
  eexists. split; [exact E|]. split; [exact Hr|]. split; [done|]. split; [done|]. split; [done|]. intros r.
  destruct (decide (r ∈ gp_regs)) as [Hin|Hin]; [|by apply F4; rewrite list_fmap_id].
  rewrite (reg_loads_reg τ (λ r : nat, r) (λ r : nat, xreg c r_sp +w r * 8) (cm c) gp_regs c r Hnd Hin). unfold word. by rewrite Hg.
Qed.

(** *** The code *)

Definition cpu_runs (code : list Instr) (c : Cpu) (Q : Cpu → Prop) : Prop := ∃ c', cpu_run pages code c = Some c' ∧ Q c'.

Lemma cpu_runs_step i code c c' Q : running c → exec1 i c = Some c' → (running c → cpu_runs code c' Q) → cpu_runs (i :: code) c Q.
Proof using Type. intros Hc Hi H. destruct (H Hc) as (d&Hd&HQ). exists d. by rewrite (run_step pages D τ m0 i code c c' Hc Hi). Qed.

Lemma cpu_runs_sd rs i code c Q :
  running c → xreg c r_sp = b → 0 <= i < n →
  (running (set_cm (store64 (cm c) (τ (b + 8 * i)) (xreg c rs)) c) →
   cpu_runs code (set_cm (store64 (cm c) (τ (b + 8 * i)) (xreg c rs)) c) Q) →
  cpu_runs (Sd rs (i * 8) r_sp :: code) c Q.
Proof using Hw Hb. intros Hc Hsp Hi H. destruct (run_sd_sp rs i code c Hc Hsp Hi) as [E Hr]. destruct (H Hr) as (d&Hd&HQ). exists d. by rewrite E. Qed.

Lemma cpu_runs_ld rd i code c Q :
  running c → xreg c r_sp = b → 0 <= i < n →
  (running (set_x rd (word (cm c) i) c) → cpu_runs code (set_x rd (word (cm c) i) c) Q) →
  cpu_runs (Ld rd (i * 8) r_sp :: code) c Q.
Proof using Hw Hb. intros Hc Hsp Hi H. destruct (run_ld_sp rd i code c Hc Hsp Hi) as [E Hr]. destruct (H Hr) as (d&Hd&HQ). exists d. by rewrite E. Qed.

(** The instructions after [satp] was written, and the last one. *)
Lemma cpu_runs_exec i code c c' Q :
  fetch pages (cm c) (cs c SATP) = true → exec1 i c = Some c' → cpu_runs code c' Q → cpu_runs (i :: code) c Q.
Proof using Type. intros Hf Hi (d&Hd&HQ). exists d. split; [|done]. cbn [cpu_run]. rewrite Hf. destruct i; try discriminate Hi; by rewrite Hi. Qed.

Lemma cpu_runs_jr rs code c (Q : Cpu → Prop) :
  fetch pages (cm c) (cs c SATP) = true → Q (go false (even_pc (xreg c rs)) c) → cpu_runs (Jr rs :: code) c Q.
Proof using Type. intros Hf HQ. eexists. cbn [cpu_run]. by rewrite Hf. Qed.

Lemma cpu_runs_jalr rs next code c (Q : Cpu → Prop) :
  fetch pages (cm c) (cs c SATP) = true → Q (go false (even_pc (xreg c rs)) (set_x 1 next c)) → cpu_runs (Jalr rs next :: code) c Q.
Proof using Type. intros Hf HQ. eexists. cbn [cpu_run]. by rewrite Hf. Qed.

Lemma cpu_runs_sret code c (Q : Cpu → Prop) : fetch pages (cm c) (cs c SATP) = true → Q (hw_sret c) → cpu_runs (Sret :: code) c Q.
Proof using Type. intros Hf HQ. eexists. cbn [cpu_run]. by rewrite Hf. Qed.

Lemma running_fetch c : running c → fetch pages (cm c) (cs c SATP) = true.
Proof using Type. intros [Hm Hv]. by apply (vi_code _ _ _ _ _ Hv). Qed.

Lemma cpu_runs_save code c Q :
  running c → xreg c r_sp = b → (∀ r, is_usize (xreg c r)) →
  (∀ m', running (set_cm m' c) →
     (∀ i, 0 <= i < n → word m' i = if decide (Z.to_nat i ∈ gp_regs) then xr c (Z.to_nat i) else word (cm c) i) → cpu_runs code (set_cm m' c) Q) →
  cpu_runs ((SAVE_GP <$> gp_regs) ++ code) c Q.
Proof using Hw Hb Hn.
  intros Hc Hsp Hu H. destruct (run_save code c Hc Hsp Hu) as (m'&E&Hr&Hm). destruct (H m' Hr Hm) as (d&Hd&HQ). exists d. by rewrite E.
Qed.

Lemma cpu_runs_load code c Q :
  running c → xreg c r_sp = b →
  (∀ c', running c' → cm c' = cm c → cs c' = cs c → user c' = user c →
     (∀ r : nat, xr c' r = if decide (r ∈ gp_regs) then word (cm c) r else xr c r) → cpu_runs code c' Q) →
  cpu_runs ((LOAD_GP <$> gp_regs) ++ code) c Q.
Proof using Hw Hb Hn.
  intros Hc Hsp H. destruct (run_load code c Hc Hsp) as (c'&E&Hr&H1&H2&H3&H4). destruct (H c' Hr H1 H2 H3 H4) as (d&Hd&HQ). exists d. by rewrite E.
Qed.

(** The words of the context after [__alltraps]. *)
Definition trap_word (c : Cpu) (i : Z) : Z :=
  if decide (Z.to_nat i ∈ r_sp :: gp_regs) then xr c (Z.to_nat i)
  else if decide (i = 32) then cs c SSTATUS else if decide (i = 33) then cs c SEPC else word (cm c) i.

Ltac now_running := first [eassumption | eapply running_eq; [eassumption|reflexivity|reflexivity]].
Ltac next := eapply cpu_runs_step; [now_running|reflexivity|intros _].
Ltac next_sd i := eapply (cpu_runs_sd _ i); [now_running|assumption|lia|intros ?Hrun].
Ltac next_ld i := eapply (cpu_runs_ld _ i); [now_running|assumption|lia|intros _].

Lemma alltraps_run c :
  37 <= n → running c → cs c SSCRATCH = b → (∀ r, is_usize (xr c r)) → is_usize (cs c SSTATUS) → is_usize (cs c SEPC) →
  (∀ m, near D τ m0 m → fetch pages m (word (cm c) 34) = true) →
  cpu_runs alltraps c (λ c', near D τ m0 (cm c') ∧ user c' = false ∧ pc c' = even_pc (word (cm c) 36) ∧
    xr c' r_sp = word (cm c) 35 ∧ cs c' SATP = word (cm c) 34 ∧ cs c' SSTATUS = cs c SSTATUS ∧ cs c' STVEC = cs c STVEC ∧
    ∀ i, 0 <= i < n → word (cm c') i = trap_word c i).
Proof using Hw Hb Hn.
  intros H37 Hc Hs Hu Hst Hse Hk.
  change alltraps with (Csrrw r_sp SSCRATCH r_sp :: (SAVE_GP <$> gp_regs) ++ drop 30 alltraps).
  eapply cpu_runs_step; [exact Hc|reflexivity|intros _]. set (c1 := set_x r_sp _ _).
  assert (Hu1 : ∀ r, is_usize (xreg c1 r)).
  { intros r. unfold xreg. destruct (decide (r = 0%nat)); [done|]. simpl. destruct (decide (r = r_sp)); [rewrite Hs; split; lia|apply Hu]. }
  apply cpu_runs_save; [exact (running_eq _ _ _ _ c c1 Hc eq_refl eq_refl)|exact Hs|exact Hu1|]. intros m1 Hc1 Hm1.
  change (drop 30 alltraps) with ([Csrr t0 SSTATUS; Csrr t1 SEPC; Sd t0 (32 * 8) r_sp; Sd t1 (33 * 8) r_sp; Csrr t2 SSCRATCH;
    Sd t2 (2 * 8) r_sp; Ld t0 (34 * 8) r_sp; Ld t1 (36 * 8) r_sp; Ld r_sp (35 * 8) r_sp; Csrw SATP t0; SfenceVma; Jr t1]).
  next. next. next_sd 32. next_sd 33. next. next_sd 2. match type of Hrun1 with running (set_cm ?m _) => set (m2 := m) in * end.
  assert (Hm2 : ∀ i, 0 <= i < n → word m2 i = trap_word c i).
  { intros i Hi. unfold m2. cbn [cm set_cm set_x set_csr]. rewrite !word_store by (lia || done || apply Hu). unfold trap_word.
    change (xreg _ t0) with (cs c SSTATUS). change (xreg _ t1) with (cs c SEPC). change (xreg _ t2) with (xr c r_sp).
    rewrite Hm1 by done. destruct (decide (2 = i)) as [<-|]; [by rewrite decide_True by (left)|].
    destruct (decide (33 = i)) as [<-|]; [done|]. destruct (decide (32 = i)) as [<-|]; [done|].
    rewrite !(decide_False (P := i = _)) by lia. destruct (decide (Z.to_nat i ∈ gp_regs)) as [Hg|Hg].
    - rewrite decide_True by (by right). cbn. rewrite decide_False; [done|]. by apply gp_regs_range in Hg as (_&_&?&_).
    - rewrite decide_False; [done|]. rewrite elem_of_cons. unfold r_sp. intros [?|?]; [lia|done]. }
  assert (Hw34 : word m2 34 = word (cm c) 34) by (by rewrite Hm2 by lia).
  assert (Hw35 : word m2 35 = word (cm c) 35) by (by rewrite Hm2 by lia).
  assert (Hw36 : word m2 36 = word (cm c) 36) by (by rewrite Hm2 by lia).
  next_ld 34. next_ld 36. next_ld 35. next. cbn [cm set_cm set_x set_csr go].
  assert (Hf : fetch pages m2 (word m2 34) = true) by (rewrite Hw34; apply Hk, Hrun1).
  eapply cpu_runs_exec; [exact Hf|reflexivity|]. apply cpu_runs_jr; [exact Hf|]. cbn.
  rewrite <- Hw34, <- Hw35, <- Hw36. split; [apply Hrun1|]. split_and!; try done.
Qed.

(** What [sret] makes of a saved [sstatus]. *)
Definition after_sret (s : Z) : Z := put_bit SPP false (put_bit SPIE true (put_bit SIE (Z.testbit s SPIE) s)).

Lemma restore_run c :
  fetch pages (cm c) (cs c SATP) = true → near D τ m0 (cm c) → visible pages D τ m0 (xr c r_a1) → xr c r_a0 = b →
  cpu_runs restore c (λ c', cm c' = cm c ∧ user c' = negb (Z.testbit (word (cm c) 32) SPP) ∧ pc c' = even_pc (word (cm c) 33) ∧
    cs c' SATP = xr c r_a1 ∧ cs c' SSCRATCH = b ∧ cs c' STVEC = cs c STVEC ∧ cs c' SSTATUS = after_sret (word (cm c) 32) ∧
    ∀ r, xr c' r = if decide (r ∈ r_sp :: gp_regs) then word (cm c) r else xr c r).
Proof using Hw Hb Hn.
  intros Hf Hnear Hv Ha0. pose proof (vi_code _ _ _ _ _ Hv _ Hnear) as Hf'.
  eapply cpu_runs_exec; [exact Hf|reflexivity|]. eapply cpu_runs_exec; [exact Hf'|reflexivity|].
  set (c1 := set_csr SATP _ c). assert (Hc1 : running c1) by (by split).
  next. next. next_ld 32. next_ld 33. next. next.
  match goal with |- cpu_runs _ ?c _ => set (c2 := c) end. assert (Hc2 : running c2) by now_running.
  change (cpu_runs ((LOAD_GP <$> gp_regs) ++ [Ld r_sp (2 * 8) r_sp; Sret]) c2 (λ c', cm c' = cm c ∧ user c' = negb (Z.testbit (word (cm c) 32) SPP) ∧
    pc c' = even_pc (word (cm c) 33) ∧
    cs c' SATP = xr c r_a1 ∧ cs c' SSCRATCH = b ∧ cs c' STVEC = cs c STVEC ∧ cs c' SSTATUS = after_sret (word (cm c) 32) ∧
    ∀ r, xr c' r = if decide (r ∈ r_sp :: gp_regs) then word (cm c) r else xr c r)).
  apply cpu_runs_load; [done|exact Ha0|]. intros c3 Hc3 Hm3 Hs3 Hu3 Hx3.
  eapply (cpu_runs_ld _ 2); [done| |lia|intros Hr4].
  { unfold xreg. simpl. rewrite Hx3, decide_False by (by intros (_&_&?&_)%gp_regs_range). exact Ha0. }
  apply cpu_runs_sret; [apply (running_fetch _ Hr4)|]. cbn [cm hw_sret go set_csr set_x user pc cs xr]. rewrite Hm3, Hs3.
  split; [done|]. split; [done|]. split; [done|]. split; [done|]. split; [exact Ha0|]. split; [done|]. split; [done|]. intros r.
  destruct (decide (r = r_sp)) as [->|Hne]; [rewrite decide_True by left; done|]. rewrite Hx3.
  destruct (decide (r ∈ gp_regs)) as [Hg|Hg]; [by rewrite decide_True by (by right)|].
  rewrite decide_False by (rewrite elem_of_cons; tauto). simpl.
  repeat (destruct (decide (_ = _)) as [->|]; [by destruct Hg; apply (bool_decide_unpack _); vm_compute|]). done.
Qed.

Lemma alltraps_k_run rk c :
  running c → xr c r_sp = b + 34 * 8 → (∀ r, is_usize (xr c r)) → is_usize (cs c SSTATUS) → is_usize (cs c SEPC) →
  cpu_runs (alltraps_k rk) c (λ c', near D τ m0 (cm c') ∧ user c' = false ∧ pc c' = even_pc (cs c SSCRATCH) ∧ cs c' = cs c ∧
    xr c' r_sp = b ∧ xr c' r_a0 = b ∧ xr c' ra = rk ∧ xr c' 4%nat = xr c 4%nat ∧
    (∀ r : nat, r ∈ gp_regs → word (cm c') r = xr c r) ∧ word (cm c') 32 = cs c SSTATUS ∧ word (cm c') 33 = cs c SEPC).
Proof using Hw Hb Hn.
  intros Hc Hsp Hu Hst Hse. assert (E0 : xreg c r_sp +w - (34 * 8) = b).
  { change (xreg c r_sp) with (xr c r_sp). rewrite Hsp. rewrite wadd_small; lia. }
  change (alltraps_k rk) with (Addi r_sp r_sp (- (34 * 8)) :: (SAVE_GP <$> gp_regs) ++ drop 30 (alltraps_k rk)).
  eapply cpu_runs_step; [exact Hc|reflexivity|intros _]. rewrite E0. set (c1 := set_x r_sp b c).
  assert (Hu1 : ∀ r, is_usize (xreg c1 r)).
  { intros r. unfold xreg. destruct (decide (r = 0%nat)); [done|]. simpl. destruct (decide (r = r_sp)); [split; lia|apply Hu]. }
  apply cpu_runs_save; [exact (running_eq _ _ _ _ c c1 Hc eq_refl eq_refl)|done|exact Hu1|]. intros m1 Hc1 Hm1.
  change (drop 30 (alltraps_k rk)) with ([Csrr t0 SSTATUS; Csrr t1 SEPC; Sd t0 (32 * 8) r_sp; Sd t1 (33 * 8) r_sp; Mv r_a0 r_sp;
    Csrr t2 SSCRATCH; Jalr t2 rk]).
  assert (Hb1 : xreg c1 r_sp = b) by done.
  next. next. next_sd 32. next_sd 33. match type of Hrun0 with running (set_cm ?m _) => set (m2 := m) in * end.
  next. next. apply cpu_runs_jalr; [apply running_fetch; now_running|]. cbn. split; [apply Hrun0|]. split_and!; try done.
  - intros r Hr. pose proof (gp_word r Hr). pose proof (gp_regs_range r Hr) as (?&_&?&_). unfold m2. cbn [cm set_cm set_x set_csr].
    rewrite !word_store by (lia || done). rewrite !decide_False by lia. rewrite Hm1, Nat2Z.id, decide_True by done. simpl. by rewrite decide_False.
  - unfold m2. cbn [cm set_cm set_x set_csr]. rewrite !word_store by (lia || done). by rewrite decide_False, decide_True by lia.
  - unfold m2. cbn [cm set_cm set_x set_csr]. rewrite !word_store by (lia || done). by rewrite decide_True by lia.
Qed.

Lemma restore_k_run c :
  running c → xr c r_sp = b → b + 34 * 8 < 2 ^ 64 →
  cpu_runs restore_k c (λ c', cm c' = cm c ∧ user c' = negb (Z.testbit (word (cm c) 32) SPP) ∧ pc c' = even_pc (word (cm c) 33) ∧
    cs c' SSTATUS = after_sret (word (cm c) 32) ∧ (∀ k, k ≠ SSTATUS → k ≠ SEPC → cs c' k = cs c k) ∧
    xr c' r_sp = b + 34 * 8 ∧ xr c' 4%nat = xr c 4%nat ∧ ∀ r : nat, r ∈ gp_regs → xr c' r = word (cm c) r).
Proof using Hw Hb Hn.
  intros Hc Hsp Hlim. unfold restore_k. cbn [app].
  next_ld 32. next_ld 33. next. next. match goal with |- cpu_runs _ ?c _ => set (c2 := c) end. assert (Hc2 : running c2) by now_running.
  change (cpu_runs ((LOAD_GP <$> gp_regs) ++ [Addi r_sp r_sp (34 * 8); Sret]) c2 (λ c', cm c' = cm c ∧ user c' = negb (Z.testbit (word (cm c) 32) SPP) ∧
    pc c' = even_pc (word (cm c) 33) ∧
    cs c' SSTATUS = after_sret (word (cm c) 32) ∧ (∀ k, k ≠ SSTATUS → k ≠ SEPC → cs c' k = cs c k) ∧
    xr c' r_sp = b + 34 * 8 ∧ xr c' 4%nat = xr c 4%nat ∧ ∀ r : nat, r ∈ gp_regs → xr c' r = word (cm c) r)).
  apply cpu_runs_load; [done|exact Hsp|]. intros c3 Hc3 Hm3 Hs3 Hu3 Hx3.
  assert (Hsp3 : xr c3 r_sp = b) by (rewrite Hx3, decide_False by (by intros (_&_&?&_)%gp_regs_range); exact Hsp).
  next. apply cpu_runs_sret; [apply running_fetch; now_running|]. cbn [cm hw_sret go set_csr set_x user pc cs xr]. rewrite Hm3, Hs3.
  change (xreg c3 r_sp) with (xr c3 r_sp). rewrite Hsp3, wadd_small by lia.
  split_and!; try done.
  - intros k H1 H2. rewrite decide_False by done. simpl. by rewrite !decide_False by done.
  - rewrite decide_False by done. rewrite Hx3, decide_False by (by intros (_&_&_&?)%gp_regs_range). done.
  - intros r Hr. pose proof (gp_regs_range r Hr) as (_&_&?&_). by rewrite decide_False, Hx3, decide_True by done.
Qed.
End context.

(** ** Traps of a program *)

Definition tramp_pages (st : Z) : list (Z * Z) := [(TRAMPOLINE, st)].

(** The tables that a thread runs with: the trampoline in both spaces, and its trap
    context in frame [f], which the kernel's tables do not use. *)
Record thread_tables (s : KMem) (msu msk : MemorySet SV39PageTable) (tid f st : Z) : Prop := {
  tt_user : ms_ok s msu;
  tt_kernel : ms_ok s msk;
  tt_slot : ∃ a, a ∈ areas msu ∧ is_slot a (tcx tid) ∧ data_frames a !! (TRAMP_VPN - 1 - tid) = Some f;
  tt_tid : 0 <= tid < 1000;
  tt_apart : f ∉ pt_frames (page_table msk);
  tt_st : tramp_ok st;
  tt_utramp : pt_lookup (km_mem s) (page_table msu) TRAMP_VPN = Some (tramp_pte (T := SV39PageTable) st);
  tt_ktramp : pt_lookup (km_mem s) (page_table msk) TRAMP_VPN = Some (tramp_pte (T := SV39PageTable) st);
}.

(** The bytes of the context that address [a] of the program means. *)
Definition cx_phys (tid f a : Z) : Z := f * 4096 + (a - trap_cx_user_va tid).

Lemma cx_va_facts tid : 0 <= tid < 1000 →
  trap_cx_user_va tid = 2 ^ 64 - (2 + tid) * 4096 ∧
  ∀ a, block (trap_cx_user_va tid) 37 a → canonical a ∧ va_vpn a = TRAMP_VPN - 1 - tid ∧ a mod 8 = 0 ∧ a mod 4096 = a - trap_cx_user_va tid.
Proof.
  intros Ht. unfold trap_cx_user_va. destruct (tcx_position tid Ht) as [E _]. rewrite E. unfold TRAMPOLINE, PAGE_SIZE. split; [lia|].
  intros a (i&Hi&->). unfold canonical, va_vpn, TRAMP_VPN. split; [lia|]. split; [|split]; zdiv_lia.
Qed.

Lemma cx_words_ok tid f : 0 <= tid < 1000 → words_ok (block (trap_cx_user_va tid) 37) (cx_phys tid f).
Proof.
  intros Ht. destruct (cx_va_facts tid Ht) as [_ Ha]. split; [intros a Hb; by apply Ha|].
  intros a b (i&Hi&->) (j&Hj&->) Hne. unfold cx_phys. lia.
Qed.

Lemma code_fetch s (ms : MemorySet SV39PageTable) st :
  pt_ok (km_mem s) (page_table ms) → tramp_ok st →
  pt_lookup (km_mem s) (page_table ms) TRAMP_VPN = Some (tramp_pte (T := SV39PageTable) st) →
  fetch (tramp_pages st) (km_mem s) (token ms) = true.
Proof.
  intros Hok Hst Hl. destruct (tramp_ppn_eq st Hst) as [_ Hp]. destruct Hst as [Hr Hal]. unfold fetch, tramp_pages. cbn [forallb fst snd]. rewrite andb_true_r. apply bool_decide_eq_true.
  change (token ms) with (sv39_token (page_table ms)). rewrite mmu_lookup; [|done|right; unfold TRAMPOLINE, PAGE_SIZE; lia].
  change (va_vpn TRAMPOLINE) with TRAMP_VPN.
  change (sv39_lookup (km_mem s) (page_table ms) TRAMP_VPN) with (pt_lookup (km_mem s) (page_table ms) TRAMP_VPN). rewrite Hl.
  change (tramp_pte st) with (sv39_pte_new (st / 4096) (Z.lor (Z.lor PERM_R PERM_X) PTE_V)). rewrite hw_access_perm by (done || by vm_compute).
  change (permits _ _ _) with true. cbn iota. change (TRAMPOLINE mod 4096) with 0. f_equal. zdiv_lia.
Qed.

Section tables.
Context (s : KMem) (msu msk : MemorySet SV39PageTable) (tid f st : Z) (Htt : thread_tables s msu msk tid f st).
Notation D := (block (trap_cx_user_va tid) 37).
Notation τ := (cx_phys tid f).
Notation near := (near D τ (km_mem s)).

Lemma cx_frame : is_ppn f ∧ f ∉ pt_frames (page_table msu) ∧ ms_view msu (TRAMP_VPN - 1 - tid) = Some (f, RW).
Proof using Htt.
  destruct Htt as [Hu Hk (a&Ha&(HR&HY&HP)&Hd) Ht _ _ _ _].
  assert (Hin : in_area a (TRAMP_VPN - 1 - tid)) by (unfold in_area; rewrite HR; simpl; lia).
  destruct (ms_view_area _ _ _ _ Hu Ha HY Hin) as (q&Hq&Hp&Hpt&Hv). assert (q = f) as -> by congruence. by rewrite HP in Hv.
Qed.

Lemma near_frame m y : near m → y / 4096 ≠ f → m y = km_mem s y.
Proof using Htt.
  intros Hm Hy. apply Hm. intros a Ha. destruct (cx_va_facts tid (tt_tid _ _ _ _ _ _ Htt)) as [_ Hc].
  destruct (Hc a Ha) as (_&_&H8&Hmod). unfold cx_phys. rewrite <- Hmod. intros Hr. apply Hy. zdiv_lia.
Qed.

Lemma near_space m (ms : MemorySet SV39PageTable) : near m → ms_ok s ms → f ∉ pt_frames (page_table ms) → ms_ok (with_mem (λ _, m) s) ms.
Proof using Htt.
  intros Hm Hok Hf. apply (ms_ok_frame s); [done|apply Hok|]. intros y Hy. apply near_frame; [done|]. intros E. by rewrite E in Hy.
Qed.

Lemma near_code m (ms : MemorySet SV39PageTable) :
  near m → ms_ok s ms → f ∉ pt_frames (page_table ms) →
  pt_lookup (km_mem s) (page_table ms) TRAMP_VPN = Some (tramp_pte (T := SV39PageTable) st) → fetch (tramp_pages st) m (token ms) = true.
Proof using Htt.
  intros Hm Hok Hf Hl. apply (code_fetch (with_mem (λ _, m) s)); [apply (near_space m ms Hm Hok Hf)|apply Htt|].
  destruct (pt_frame (km_mem s) m (page_table ms) (mo_pt _ _ Hok)) as [_ Hsame].
  - intros y Hy. apply near_frame; [done|]. intros E. by rewrite E in Hy.
  - simpl. rewrite Hsame; [done|]. unfold is_vpn, TRAMP_VPN. lia.
Qed.

Lemma cx_visible : visible (tramp_pages st) D τ (km_mem s) (token msu).
Proof using Htt.
  destruct cx_frame as (Hp&Hno&Hv). split.
  - intros m a acc Hm Ha Hacc. destruct (cx_va_facts tid (tt_tid _ _ _ _ _ _ Htt)) as [_ Hc]. destruct (Hc a Ha) as (Hcan&Hvpn&_&Hmod).
    pose proof (near_space m msu Hm (tt_user _ _ _ _ _ _ Htt) Hno) as Hok.
    assert (Hne : va_vpn a ≠ TRAMP_VPN) by (pose proof (tt_tid _ _ _ _ _ _ Htt); rewrite Hvpn; unfold TRAMP_VPN; lia).
    etransitivity; [exact (mmu_view (with_mem (λ _, m) s) msu false acc a Hok Hcan Hne)|]. rewrite Hvpn, Hv.
    unfold cx_phys. rewrite <- Hmod. by destruct acc.
  - intros m Hm. apply (near_code m msu Hm); [apply Htt|done|apply Htt].
Qed.

Lemma cx_words m : f * 4096 = pa_from_ppn f ∧ ∀ i, 0 <= i < 37 → word (trap_cx_user_va tid) τ m i = load64 m (pa_from_ppn f + 8 * i).
Proof using Htt.
  destruct cx_frame as (Hp&_). unfold is_ppn in Hp. rewrite pa_from_ppn_eq by lia. split; [done|]. intros i Hi. unfold word, cx_phys. f_equal. lia.
Qed.
End tables.

(** ** The status register *)

Lemma put_bit_testbit k v z j : 0 <= k → 0 <= j → Z.testbit (put_bit k v z) j = if decide (j = k) then v else Z.testbit z j.
Proof.
  intros Hk Hj. unfold put_bit. destruct (decide (j = k)) as [->|Hne].
  - destruct v; [by apply Z.setbit_eq|by apply Z.clearbit_eq].
  - destruct v; [by apply Z.setbit_neq|by apply Z.clearbit_neq].
Qed.

Lemma put_bit_usize k v z : 0 <= k < 64 → is_usize z → is_usize (put_bit k v z).
Proof.
  unfold is_usize. intros Hk Hz. assert (H0 : 0 <= put_bit k v z).
  { unfold put_bit. destruct v; [rewrite Z.setbit_spec', Z.lor_nonneg; split; lia|rewrite Z.clearbit_spec', Z.ldiff_nonneg; lia]. }
  split; [done|]. apply Z.bounded_iff_bits_nonneg; [lia..|]. intros l Hl. rewrite put_bit_testbit by lia. rewrite decide_False by lia.
  apply (proj1 (Z.bounded_iff_bits_nonneg 64 z ltac:(lia) ltac:(lia)) ltac:(lia)). lia.
Qed.

(** [sstatus] as a trap leaves it, and as returning from the trap leaves it. *)
Definition trapped (u : bool) (s : Z) : Z := put_bit SPP (negb u) (put_bit SIE false (put_bit SPIE (Z.testbit s SIE) s)).

Lemma trapped_bits u s :
  Z.testbit (trapped u s) SIE = false ∧ Z.testbit (trapped u s) SPP = negb u ∧ Z.testbit (after_sret (trapped u s)) SIE = Z.testbit s SIE.
Proof.
  unfold after_sret, trapped. rewrite !put_bit_testbit by (unfold SIE, SPP, SPIE; lia). done.
Qed.

Lemma trapped_usize u s : is_usize s → is_usize (trapped u s).
Proof. intros Hs. unfold trapped. repeat apply put_bit_usize; try (unfold SIE, SPP, SPIE; lia). done. Qed.

(** ** A trap and the return from it *)

(** The registers of the context after a trap: all but [x0] and [tp] are saved. *)
Definition saved_regs (c : Cpu) (g : GeneralRegs) : GeneralRegs :=
  imap (λ i v, if decide (i = 0%nat ∨ i = 4%nat) then v else xr c i) g.

(** The program of thread [tid] runs: the tables are those of its space, and the
    next trap finds [__alltraps] and the trap context. *)
Record in_user_mode (c : Cpu) (msu msk : MemorySet SV39PageTable) (tid f : Z) : Prop := {
  iu_user : user c = true;
  iu_satp : cs c SATP = token msu;
  iu_stvec : cs c STVEC = TRAMPOLINE;
  iu_sscratch : cs c SSCRATCH = trap_cx_user_va tid;
  iu_kernel : kernel_satp (get_trap_cx (cm c) f) = token msk;
  iu_handler : trap_handler_addr (get_trap_cx (cm c) f) mod 2 = 0;
}.

Lemma trap_word_cx s msu msk tid f st (c : Cpu) m :
  thread_tables s msu msk tid f st → cm c = km_mem s →
  (∀ i, 0 <= i < 37 → word (trap_cx_user_va tid) (cx_phys tid f) m i = trap_word (trap_cx_user_va tid) (cx_phys tid f) c i) →
  get_trap_cx m f = let cx := get_trap_cx (cm c) f in
    mkTC (saved_regs c (general_regs cx)) (cs c SSTATUS) (cs c SEPC) (kernel_satp cx) (kernel_sp cx) (trap_handler_addr cx).
Proof.
  intros Htt Hcm Hm. destruct (cx_words s msu msk tid f st Htt m) as [_ W]. destruct (cx_words s msu msk tid f st Htt (cm c)) as [_ W0].
  assert (Hl : ∀ i, 0 <= i < 37 → load64 m (pa_from_ppn f + 8 * i) = trap_word (trap_cx_user_va tid) (cx_phys tid f) c i)
    by (intros i Hi; by rewrite <- W, Hm).
  unfold get_trap_cx at 1. rewrite !Hl by lia. unfold trap_word at 1 2 3 4 5.
  rewrite !(decide_False (P := _ ∈ r_sp :: gp_regs)) by (rewrite elem_of_cons; unfold r_sp; intros [?|[? _]%gp_regs_range]; lia).
  simpl decide. cbn iota. rewrite !W0 by lia. cbn [general_regs kernel_satp kernel_sp trap_handler_addr get_trap_cx]. f_equal.
  apply list_eq. intros i. unfold saved_regs. rewrite list_lookup_imap, !list_lookup_fmap.
  destruct (decide (i < 32)) as [Hi|Hi]; [|by rewrite !lookup_seqZ_ge by lia]. rewrite !lookup_seqZ_lt by lia. cbn [fmap option_fmap option_map].
  f_equal. rewrite Hl by lia. unfold trap_word. rewrite Z.add_0_l, Nat2Z.id.
  destruct (decide (i = 0%nat ∨ i = 4%nat)) as [Ho|Hno].
  - rewrite decide_False by (rewrite elem_of_cons; unfold r_sp; intros [?|(_&?&_&?)%gp_regs_range]; lia).
    rewrite !decide_False by lia. by apply W0; lia.
  - rewrite decide_True; [done|]. rewrite elem_of_cons. unfold r_sp. destruct (decide (i = 2%nat)); [by left|right]. apply gp_regs_all; lia.
Qed.

(** Entering the kernel. *)
Lemma trap_enters s msu msk tid f st c :
  thread_tables s msu msk tid f st → in_user_mode c msu msk tid f → cm c = km_mem s →
  (∀ r, is_usize (xr c r)) → is_usize (cs c SSTATUS) → is_usize (pc c) →
  let cx := get_trap_cx (km_mem s) f in
  ∃ c1, cpu_run (tramp_pages st) alltraps (hw_trap c) = Some c1 ∧
    (user c1 = false ∧ pc c1 = trap_handler_addr cx ∧ xr c1 r_sp = kernel_sp cx ∧ cs c1 SATP = token msk ∧
     Z.testbit (cs c1 SSTATUS) SIE = false) ∧
    get_trap_cx (cm c1) f = mkTC (saved_regs c (general_regs cx)) (trapped true (cs c SSTATUS)) (pc c)
      (kernel_satp cx) (kernel_sp cx) (trap_handler_addr cx) ∧
    same_outside (λ p, p = f) (km_mem s) (cm c1).
Proof.
  intros Htt Hin Hcm Hu Hst Hpc cx. pose proof Hin as [H1 H2 H3 H4 H5 H6]. pose proof (tt_tid _ _ _ _ _ _ Htt) as Ht.
  destruct (cx_va_facts tid Ht) as [Hva _]. destruct (cx_words s msu msk tid f st Htt (km_mem s)) as [_ W].
  set (c0 := hw_trap c). assert (Hc0 : running (tramp_pages st) (block (trap_cx_user_va tid) 37) (cx_phys tid f) (km_mem s) c0).
  { split; [change (cm c0) with (cm c); rewrite Hcm; apply near_start|]. change (cs c0 SATP) with (cs c SATP). rewrite H2. by eapply cx_visible. }
  assert (Hs0 : cs c0 SSTATUS = trapped true (cs c SSTATUS)) by (unfold trapped; rewrite <- H1; done).
  destruct (alltraps_run (tramp_pages st) (trap_cx_user_va tid) 37 (cx_phys tid f) (km_mem s) (cx_words_ok tid f Ht) ltac:(lia) ltac:(lia) c0)
    as (c1&E&Hnear&R1&R2&R3&R4&R5&R6&R7); try done.
  - rewrite Hs0. by apply trapped_usize.
  - intros m Hm. change (cm c0) with (cm c). rewrite Hcm, W by lia.
    change (load64 (km_mem s) (pa_from_ppn f + 8 * 34)) with (kernel_satp (get_trap_cx (km_mem s) f)). rewrite <- Hcm, H5.
    eapply near_code; [exact Htt|exact Hm|apply Htt|apply Htt|apply Htt].
  - change (cm c0) with (cm c) in R2, R3, R4. rewrite Hcm, !W in R2, R3, R4 by lia. exists c1. split; [done|].
    pose proof (trap_word_cx s msu msk tid f st c0 (cm c1) Htt Hcm R7) as Hcx. change (cm c0) with (cm c) in Hcx. rewrite Hcm in Hcx.
    rewrite Hcm in H5, H6. split; [|split].
    + split; [done|]. split; [rewrite R2; unfold even_pc; change (load64 _ _) with (trap_handler_addr (get_trap_cx (km_mem s) f)); rewrite H6; unfold cx; lia|].
      split; [exact R3|]. split; [by rewrite R4|]. rewrite R5, Hs0. apply trapped_bits.
    + rewrite Hcx, Hs0. done.
    + intros y Hy. by eapply near_frame.
Qed.

(** Leaving it: the program goes on with the registers of its context. *)
Lemma trap_leaves s msu msk tid f st y c :
  thread_tables s msu msk tid f st → cm c = km_mem s → cs c SATP = token msk →
  let cx := get_trap_cx (km_mem s) f in
  ∃ c', cpu_run (tramp_pages st) restore (cpu_trap_return y (trap_cx_user_va tid) (token msu) c) = Some c' ∧
    cm c' = cm c ∧ user c' = negb (Z.testbit (sstatus cx) SPP) ∧ pc c' = even_pc (sepc cx) ∧
    cs c' SATP = token msu ∧ cs c' SSCRATCH = trap_cx_user_va tid ∧ cs c' STVEC = TRAMPOLINE ∧ cs c' SSTATUS = after_sret (sstatus cx) ∧
    (∀ r, (0 < r < 32)%nat → r ≠ 4%nat → xr c' r = get_reg (general_regs cx) r) ∧
    ∀ r, ¬ (0 < r < 32)%nat ∨ r = 4%nat → xr c' r = xr c r.
Proof.
  intros Htt Hcm Hsatp cx. pose proof (tt_tid _ _ _ _ _ _ Htt) as Ht.
  destruct (cx_va_facts tid Ht) as [Hva _]. destruct (cx_words s msu msk tid f st Htt (km_mem s)) as [_ W].
  pose proof (near_start (block (trap_cx_user_va tid) 37) (cx_phys tid f) (km_mem s)) as Hns.
  set (c0 := cpu_trap_return y (trap_cx_user_va tid) (token msu) c). change (cm c) with (cm c0) in Hcm |- *.
  destruct (restore_run (tramp_pages st) (trap_cx_user_va tid) 37 (cx_phys tid f) (km_mem s) (cx_words_ok tid f Ht) ltac:(lia) ltac:(lia) c0)
    as (c'&E&R1&R2&R3&R4&R5&R6&R7&R8).
  - change (cs c0 SATP) with (cs c SATP). rewrite Hcm, Hsatp. eapply near_code; [exact Htt|done|apply Htt|apply Htt|apply Htt].
  - by rewrite Hcm.
  - by eapply cx_visible.
  - done.
  - exists c'. rewrite Hcm, !W in R2, R3, R7 by lia. split_and!; try done; [intros r Hr H4; rewrite R8, decide_True|intros r Hr; rewrite R8, decide_False].
    + rewrite Hcm, W by lia. unfold get_reg, cx, get_trap_cx. cbn [general_regs]. rewrite list_lookup_fmap, lookup_seqZ_lt by lia. done.
    + rewrite elem_of_cons. unfold r_sp. destruct (decide (r = 2%nat)); [by left|right]. apply gp_regs_all; lia.
    + cbn. by rewrite !decide_False by (unfold r_a0, r_a1; lia).
    + rewrite elem_of_cons. unfold r_sp. intros [?|?%gp_regs_range]; lia.
Qed.

(** Registers and status hold 64-bit words. *)
Definition cpu_words (c : Cpu) : Prop := (∀ r, is_usize (xr c r)) ∧ is_usize (cs c SSTATUS).

(** Back from a trap that was taken in state [c], with another [a0] and [sepc]. *)
Lemma trap_back s msu msk tid f st y c cx v next c2 :
  syms_ok y → thread_tables s msu msk tid f st → cm c2 = km_mem s → cs c2 SATP = token msk → length (general_regs cx) = 32%nat →
  kernel_satp cx = token msk → trap_handler_addr cx mod 2 = 0 → next mod 2 = 0 →
  get_trap_cx (km_mem s) f =
    mkTC (set_reg (saved_regs c (general_regs cx)) r_a0 v) (trapped true (cs c SSTATUS)) next (kernel_satp cx) (kernel_sp cx) (trap_handler_addr cx) →
  ∃ c3, resume y st (cpu_trap_return y (trap_cx_user_va tid) (token msu) c2) = Some c3 ∧
    in_user_mode c3 msu msk tid f ∧ cm c3 = cm c2 ∧ pc c3 = next ∧ xr c3 r_a0 = v ∧
    Z.testbit (cs c3 SSTATUS) SIE = Z.testbit (cs c SSTATUS) SIE ∧
    (∀ r, (0 < r < 32)%nat → r ≠ r_a0 → r ≠ 4%nat → xr c3 r = xr c r) ∧
    (cpu_words c → is_usize v → (∀ r, is_usize (xr c2 r)) → cpu_words c3).
Proof.
  intros Hy Htt Hcm Hsatp Hlen H5 H6 Hnext Hcx.
  destruct (trap_leaves s msu msk tid f st y c2 Htt Hcm Hsatp) as (c3&E3&R1&R2&R3&R4&R5&R6&R7&R8&R9). rewrite Hcx in R2, R3, R7, R8.
  cbn [sstatus sepc general_regs] in R2, R3, R7, R8. destruct (trapped_bits true (cs c SSTATUS)) as (_&B1&B2). rewrite B1 in R2.
  assert (Ha0 : xr c3 r_a0 = v).
  { rewrite R8 by (unfold r_a0; lia). unfold get_reg, set_reg. rewrite list_lookup_insert_eq; [done|]. unfold saved_regs. rewrite length_imap. unfold r_a0. lia. }
  assert (Hr : ∀ r, (0 < r < 32)%nat → r ≠ r_a0 → r ≠ 4%nat → xr c3 r = xr c r).
  { intros r Hr Hne H4. rewrite R8 by done. unfold get_reg, set_reg. rewrite list_lookup_insert_ne by done. unfold saved_regs.
    rewrite list_lookup_imap. destruct (lookup_lt_is_Some_2 (general_regs cx) r) as [w ->]; [lia|]. simpl. by rewrite decide_False by lia. }
  exists c3. split; [rewrite (proj1 (resume_label y st _ Hy)); [exact E3|done]|]. split; [|split; [done|]].
  - split; [done|done|done|done|by rewrite R1, Hcm, Hcx|by rewrite R1, Hcm, Hcx].
  - split; [rewrite R3; unfold even_pc; lia|]. split; [done|]. split; [by rewrite R7, B2|]. split; [done|]. intros [Hu Hs] Hv Hu2. split.
    + intros r. destruct (decide (r = r_a0)) as [->|Hne]; [by rewrite Ha0|].
      destruct (decide ((0 < r < 32)%nat ∧ r ≠ 4%nat)) as [[Hr1 Hr2]|Ho]; [by rewrite Hr|rewrite R9 by lia; apply Hu2].
    + rewrite R7. unfold after_sret, SPP, SPIE, SIE. do 3 (apply put_bit_usize; [lia|]). by apply trapped_usize.
Qed.

(** C5: a trap is transparent to the program.  Every register but [x0] and [tp], the
    program counter and the status go into the trap context of the thread, no
    other memory changes, and the handler starts on the kernel stack of the
    thread, in the space of the kernel, with interrupts off.  If the kernel then
    returns with another [a0] and another [sepc] in the context - as after a system
    call - the program goes on there in user mode with its own tables and all its
    other registers unchanged, whatever the kernel did to the address spaces
    meanwhile, and is ready for the next trap. *)
Theorem trap_roundtrip s msu msk tid f st y c :
  syms_ok y → thread_tables s msu msk tid f st → in_user_mode c msu msk tid f → cm c = km_mem s →
  (∀ r, is_usize (xr c r)) → is_usize (cs c SSTATUS) → is_usize (pc c) →
  let cx := get_trap_cx (km_mem s) f in
  ∃ c1, resume y st (hw_trap c) = Some c1 ∧
    (user c1 = false ∧ pc c1 = trap_handler_addr cx ∧ xr c1 r_sp = kernel_sp cx ∧ cs c1 SATP = token msk ∧
     Z.testbit (cs c1 SSTATUS) SIE = false) ∧
    get_trap_cx (cm c1) f = mkTC (saved_regs c (general_regs cx)) (trapped true (cs c SSTATUS)) (pc c)
      (kernel_satp cx) (kernel_sp cx) (trap_handler_addr cx) ∧
    same_outside (λ p, p = f) (km_mem s) (cm c1) ∧
    ∀ c2 s2 msu2 msk2 v next,
      thread_tables s2 msu2 msk2 tid f st → cm c2 = km_mem s2 → cs c2 SATP = token msk2 → token msk2 = token msk → next mod 2 = 0 →
      get_trap_cx (km_mem s2) f =
        mkTC (set_reg (saved_regs c (general_regs cx)) r_a0 v) (trapped true (cs c SSTATUS)) next
          (kernel_satp cx) (kernel_sp cx) (trap_handler_addr cx) →
      ∃ c3, resume y st (cpu_trap_return y (trap_cx_user_va tid) (token msu2) c2) = Some c3 ∧
        in_user_mode c3 msu2 msk2 tid f ∧ cm c3 = cm c2 ∧ pc c3 = next ∧ xr c3 r_a0 = v ∧
        Z.testbit (cs c3 SSTATUS) SIE = Z.testbit (cs c SSTATUS) SIE ∧
        ∀ r, (0 < r < 32)%nat → r ≠ r_a0 → r ≠ 4%nat → xr c3 r = xr c r.
Proof.
  intros Hy Htt Hin Hcm Hu Hst Hpc cx. destruct (trap_enters s msu msk tid f st c Htt Hin Hcm Hu Hst Hpc) as (c1&E1&Hc1&Hcx&Hm1).
  exists c1. split; [rewrite resume_alltraps; [exact E1|done|apply Hin]|]. split; [done|]. split; [done|]. split; [done|].
  intros c2 s2 msu2 msk2 v next Htt2 Hcm2 Hsatp2 Htok Hnext Hcx2. pose proof Hin as [_ _ _ _ H5 H6]. rewrite Hcm in H5, H6.
  destruct (trap_back s2 msu2 msk2 tid f st y c cx v next c2) as (c3&R1&R2&R3&R4&R5&R6&R7&_); try done; [by rewrite Htok|]. by exists c3.
Qed.

(** ** An example *)

(** A thread beside the example space, which stands for the kernel's. *)
Definition demo_thread_prog : K KMem (MemorySet SV39PageTable) :=
  ms ← new_bare;
  ms ← map_trampoline demo_st ms;
  insert_framed_area ms (va_from_usize (trap_cx_user_va 0)) (va_from_usize TRAMPOLINE) RW.

(** It has one area, for the trap context, in frames of its own. *)
Definition demo_process_ok (msu : MemorySet SV39PageTable) (s : KMem) : Prop :=
  (∃ a, areas msu = [a] ∧ is_slot a (tcx 0)) ∧ brk msu = 0 ∧ fa_wf (km_fa s) ∧ 100 <= fa_free (km_fa s) ∧
  ∀ p, p ∈ ms_frames msu → p ∉ ms_frames demo.1.

Lemma demo_process : ∃ msu s f, thread_tables s msu demo.1 0 f demo_st ∧ demo_process_ok msu s.
Proof.
  destruct demo_built as [(Hfa&Hok&_&Hfree&_) Hte].
  assert (W : wp demo_thread_prog demo.2 (λ msu s, ∃ f, thread_tables s msu demo.1 0 f demo_st ∧ demo_process_ok msu s)).
  { unfold demo_thread_prog. wp_steps. eapply wp_mono; [apply (bare_trampoline_wp demo_st); [done|exact demo_tramp|lia]|].
    intros ms0 s0 Hb. wp_steps. eapply wp_mono; [exact Hb|]. intros ms s1 [Hfa1 Hok1 Har Hbrk Hg Hl Hs Hte1]. wp_steps.
    assert (Hb1 : built demo.2 ms s1) by (split; done). pose proof (gr_free _ _ _ Hg) as Hf.
    assert (E1 : va_floor (va_from_usize (trap_cx_user_va 0)) = TRAMP_VPN - 1) by (vm_compute; reflexivity).
    assert (E2 : va_ceil (va_from_usize TRAMPOLINE) = TRAMP_VPN) by (vm_compute; reflexivity).
    eapply wp_mono; [apply insert_framed_wp; [done|done|by vm_compute| | | |]; rewrite ?E1, ?E2|].
    - unfold TRAMP_VPN. lia.
    - lia.
    - rewrite Har. intros ? ? []%elem_of_nil.
    - lia.
    - rewrite E1, E2. intros msu s (a&new&a'&(HR&HY&HP)&P). destruct P as [G Hoku Har' [Hbrk' _] (HR'&HY'&HP') Hlen Hz _].
      pose proof (built_grow _ _ _ _ _ _ Hb1 G) as Hb2. pose proof (gr_free _ _ _ (mg_grows _ _ _ _ _ G)) as Hf2.
      assert (Hn1 : n_pages a = 1) by (unfold n_pages; rewrite HR; simpl; lia).
      destruct (Hz HY (TRAMP_VPN - 1)) as (f&Hd&Hn&_); [unfold in_area; rewrite HR; simpl; lia|].
      assert (Ha' : a' ∈ areas msu) by (rewrite Har'; apply elem_of_app; right; left).
      assert (Hfm : f ∈ ms_frames msu) by (unfold ms_frames; apply elem_of_app; right; apply elem_of_areas_frames; exists a'; split; [done|]; apply elem_of_area_frames; eauto).
      assert (Hap : ∀ p, p ∈ ms_frames msu → p ∉ ms_frames demo.1).
      { intros p Hp1 Hk. by apply (gr_fresh _ _ _ (bu_grows _ _ _ Hb2) p Hp1), (mo_owned _ _ Hok). }
      assert (Hslot : is_slot a' (tcx 0)) by (split; [rewrite HR'; exact HR|]; split; [by rewrite HY'|by rewrite HP']).
      exists f. split; [split|split; [exists a'; split; [by rewrite Har', Har|exact Hslot]|split; [congruence|split; [apply (bu_grows _ _ _ Hb2)|split; [|exact Hap]]]]].
      + done.
      + by apply (built_keeps _ _ _ _ Hb2).
      + exists a'. split; [done|]. split; [exact Hslot|exact Hd].
      + lia.
      + intros Hk. by apply (Hap f Hfm), ms_frames_pt.
      + exact demo_tramp.
      + rewrite (mg_tramp _ _ _ _ _ G). exact Hte1.
      + rewrite <- Hte. apply (pt_frame (km_mem demo.2)); [apply Hok| |unfold is_vpn, TRAMP_VPN; lia].
        intros x Hx. apply (bu_same _ _ _ Hb2). intros Hin.
        by apply (Hap _ Hin), ms_frames_pt.
      + lia. }
  destruct (proj1 (wp_done _ _ _) W) as (msu&s&_&f&Htt&Hd). exists msu, s, f. split; [exact Htt|exact Hd].
Qed.

Lemma demo_thread : ∃ msu s f, thread_tables s msu demo.1 0 f demo_st ∧ is_ppn f.
Proof.
  destruct demo_process as (msu&s&f&Htt&_). exists msu, s, f. split; [exact Htt|]. exact (proj1 (cx_frame _ _ _ _ _ _ Htt)).
Qed.

(** What is written into the frame of the context keeps the tables. *)
Lemma thread_tables_frame s msu msk tid f st m :
  thread_tables s msu msk tid f st → (∀ x, x / 4096 ≠ f → m x = km_mem s x) → thread_tables (with_mem (λ _, m) s) msu msk tid f st.
Proof.
  intros Htt Hm. destruct (cx_frame _ _ _ _ _ _ Htt) as (_&Hu&_). pose proof Htt as [H1 H2 H3 H4 H5 H6 H7 H8].
  assert (Hpt : ∀ (ms : MemorySet SV39PageTable), f ∉ pt_frames (page_table ms) → ∀ x, x / 4096 ∈ pt_frames (page_table ms) → m x = km_mem s x).
  { intros ms Hf x Hx. apply Hm. intros E. by rewrite E in Hx. }
  assert (Hv : is_vpn TRAMP_VPN) by (unfold is_vpn, TRAMP_VPN; lia). split; try done.
  - apply (ms_ok_frame s); [done|apply H1|]. by apply Hpt.
  - apply (ms_ok_frame s); [done|apply H2|]. by apply Hpt.
  - rewrite <- H7. apply (pt_frame (km_mem s)); [apply H1|by apply Hpt|done].
  - rewrite <- H8. apply (pt_frame (km_mem s)); [apply H2|by apply Hpt|done].
Qed.

Lemma thread_tables_write s msu msk tid f st cx :
  thread_tables s msu msk tid f st → tc_ok cx → thread_tables (with_mem (λ m, put_trap_cx m f cx) s) msu msk tid f st.
Proof.
  intros Htt Hcx. apply (thread_tables_frame s); [done|]. intros x Hx. apply put_trap_cx_frame; [apply (cx_frame _ _ _ _ _ _ Htt)|done|done].
Qed.

Definition demo_trap_syms : TrapSymbols := mkSyms 0x80200000 0x80200100 0x80200200 0x80200300 0x80204000.

Lemma demo_trap_syms_ok : syms_ok demo_trap_syms.
Proof. split; [simpl; lia|repeat constructor; simpl; lia|apply (bool_decide_unpack _); by vm_compute]. Qed.

(** A program with 7 in its registers makes a system call that answers 5. *)
Lemma trap_roundtrip_witness :
  ∃ s msu f (c c1 c3 : Cpu), user c = true ∧ pc c = 0x10000 ∧ resume demo_trap_syms demo_st (hw_trap c) = Some c1 ∧
    pc c1 = 0x80202000 ∧ xr c1 r_sp = 0x80300000 ∧ general_regs (get_trap_cx (cm c1) f) !! r_a7 = Some 7 ∧
    resume demo_trap_syms demo_st (cpu_trap_return demo_trap_syms (trap_cx_user_va 0) (token msu)
      (set_cm (put_trap_cx (km_mem s) f (mkTC (set_reg (replicate 32 7) r_a0 5) (trapped true 2) 0x10004 (token demo.1) 0x80300000 0x80202000)) c1)) = Some c3 ∧
    user c3 = true ∧ pc c3 = 0x10004 ∧ xr c3 r_a0 = 5 ∧ xr c3 r_a7 = 7.
Proof.
  destruct demo_thread as (msu&s0&f&Htt0&Hp). destruct demo_facts as (_&Hkok&_).
  assert (Htok : is_usize (token demo.1)) by (by eapply token_usize).
  set (cx0 := mkTC (replicate 32 7) 0 0 (token demo.1) 0x80300000 0x80202000).
  assert (Hw : ∀ g a b, Forall is_usize g → is_usize a → is_usize b →
    Forall is_usize (g ++ [a; b; token demo.1; 0x80300000; 0x80202000])).
  { intros g a b Hg Ha Hb. apply Forall_app. split; [done|]. do 3 (apply Forall_cons; split; [assumption|]).
    repeat (apply Forall_cons; split; [by vm_compute|]). apply Forall_nil_2. }
  assert (Hcx0 : tc_ok cx0) by (split; [done|]; apply Hw; [by apply Forall_replicate|by vm_compute|by vm_compute]).
  set (s := with_mem (λ m, put_trap_cx m f cx0) s0). pose proof (thread_tables_write _ _ _ _ _ _ cx0 Htt0 Hcx0) as Htt. fold s in Htt.
  set (c := mkCpu (λ _, 7) (λ k, match k with SSTATUS => 2 | SEPC => 0 | SSCRATCH => trap_cx_user_va 0 | SATP => token msu | STVEC => TRAMPOLINE | SIER => 32 end)
    (km_mem s) true 0x10000).
  assert (Hcx : get_trap_cx (km_mem s) f = cx0) by (apply get_put_trap_cx; exact Hcx0).
  set (cx2 := mkTC (set_reg (replicate 32 7) r_a0 5) (trapped true 2) 0x10004 (token demo.1) 0x80300000 0x80202000).
  assert (Hcx2 : tc_ok cx2).
  { split; [done|]. apply Hw; [apply Forall_insert; [by apply Forall_replicate|by vm_compute]|by vm_compute|by vm_compute]. }
  destruct (trap_roundtrip s msu demo.1 0 f demo_st demo_trap_syms c) as (c1&E1&(_&Hpc1&Hsp1&Hsatp1&_)&Hg1&_&Hret).
  - exact demo_trap_syms_ok.
  - exact Htt.
  - split; [reflexivity|reflexivity|reflexivity|reflexivity|cbn [cm c]; by rewrite Hcx|cbn [cm c]; by rewrite Hcx].
  - reflexivity.
  - intros r. vm_compute; split; congruence.
  - vm_compute; split; congruence.
  - vm_compute; split; congruence.
  - rewrite Hcx in Hpc1, Hsp1, Hg1, Hret.
    destruct (Hret (set_cm (put_trap_cx (km_mem s) f cx2) c1) (with_mem (λ m, put_trap_cx m f cx2) s) msu demo.1 5 0x10004)
      as (c3&E3&[Hu3 _ _ _ _ _]&_&Hpc3&Ha3&_&Hr3).
    + by apply thread_tables_write.
    + reflexivity.
    + exact Hsatp1.
    + reflexivity.
    + reflexivity.
    + cbn [km_mem with_mem]. rewrite get_put_trap_cx by done. reflexivity.
    + exists s, msu, f, c, c1, c3. split; [reflexivity|]. split; [reflexivity|]. split; [exact E1|]. split; [exact Hpc1|].
      split; [exact Hsp1|]. split; [by rewrite Hg1|]. split; [exact E3|]. split; [exact Hu3|]. split; [exact Hpc3|]. split; [exact Ha3|].
      apply (Hr3 r_a7); unfold r_a7, r_a0; lia.
Defined.
