(* ===== verification/KernelPath.v ===== *)
(** * Interrupts of the kernel and switches between tasks

    The code of [trap.S] that runs when an interrupt comes while the kernel works
    ([__alltraps_k], [__restore_k]) and [__switch] of [switch.S], on stacks and
    contexts in the address space of the kernel. *)

From S2P Require Import Prelude Address PhysMem IdAlloc FrameAlloc PageTable Sv39 UserMem MemorySet MapAreaSpec.
From S2P Require Import MemorySetSpec MemorySetOps Mmap Fork Elf TrapCx UserRes StackProps SpaceProps Mmu Asm TrapPath.

(** ** Words of an address space *)

(** The physical address of [va] in space [ms]. *)
Definition vphys (ms : MemorySet SV39PageTable) (va : Z) : Z :=
  match ms_view ms (va_vpn va) with Some (f, _) => f * 4096 + va mod 4096 | None => 0 end.

Lemma canonical_inj a b : canonical a → canonical b → va_vpn a = va_vpn b → a mod 4096 = b mod 4096 → a = b.
Proof. unfold canonical, va_vpn. intros Ha Hb Hv Hm. destruct Ha, Hb; zdiv_lia. Qed.

(** The supervisor may read and write page [v] of [ms], whose frame holds no table. *)
Definition rw_page (ms : MemorySet SV39PageTable) (v : Z) : Prop :=
  v ≠ TRAMP_VPN ∧ ∃ f perm, ms_view ms v = Some (f, perm) ∧ permits perm false ARead = true ∧ permits perm false AWrite = true ∧
    f ∉ pt_frames (page_table ms).

Record rw_words (ms : MemorySet SV39PageTable) (D : Z → Prop) : Prop := {
  rw_aligned : ∀ a, D a → a mod 8 = 0 ∧ canonical a;
  rw_pages : ∀ a, D a → rw_page ms (va_vpn a);
  rw_inj : ∀ a b f p q, D a → D b → ms_view ms (va_vpn a) = Some (f, p) → ms_view ms (va_vpn b) = Some (f, q) → va_vpn a = va_vpn b;
}.

Section space.
Context (s : KMem) (ms : MemorySet SV39PageTable) (D : Z → Prop) (pages : list (Z * Z)).
Hypothesis Hok : ms_ok s ms.
Hypothesis HD : rw_words ms D.

Lemma vphys_words : words_ok D (vphys ms).
Proof using HD.
  split; [intros a Ha; by apply (rw_aligned _ _ HD)|]. intros a b Ha Hb Hne. destruct (rw_aligned _ _ HD a Ha) as [A1 A2], (rw_aligned _ _ HD b Hb) as [B1 B2].
  destruct (rw_pages _ _ HD a Ha) as (_&fa&pa&Ea&_), (rw_pages _ _ HD b Hb) as (_&fb&pb&Eb&_). unfold vphys. rewrite Ea, Eb.
  destruct (decide (fa = fb)) as [->|Hf].
  - pose proof (rw_inj _ _ HD a b fb pa pb Ha Hb Ea Eb) as Hv. assert (a mod 4096 ≠ b mod 4096) by (intros E; by apply Hne, canonical_inj). clear -A1 B1 H. zdiv_lia.
  - clear -A1 B1 Hf. zdiv_lia.
Qed.

(** The bytes of the words. *)
Definition outside (m : mem) : Prop := near D (vphys ms) (km_mem s) m.

Lemma outside_space m : outside m → ms_ok (with_mem (λ _, m) s) ms ∧
  ∀ v, is_vpn v → pt_lookup m (page_table ms) v = pt_lookup (km_mem s) (page_table ms) v.
Proof using Hok HD.
  intros Hm. assert (Hpt : ∀ x, x / 4096 ∈ pt_frames (page_table ms) → m x = km_mem s x).
  { intros x Hx. apply Hm. intros a Ha Hr. destruct (rw_aligned _ _ HD a Ha) as [A1 _]. destruct (rw_pages _ _ HD a Ha) as (_&f&p&E&_&_&Hf).
    unfold vphys in Hr. rewrite E in Hr. assert (Hxf : x / 4096 = f) by (clear -Hr A1; zdiv_lia). by rewrite Hxf in Hx. }
  split; [apply (ms_ok_frame s); [done|apply Hok|exact Hpt]|]. intros v Hv. by apply (pt_frame (km_mem s)); [apply Hok| |].
Qed.

(** Code pages of the space. *)
Definition code_pages : Prop := ∀ p, p ∈ pages → canonical p.1 ∧ p.2 mod 4096 = 0 ∧ p.1 mod 4096 = 0 ∧
  ∃ perm, is_ppn (p.2 / 4096) ∧ is_perm perm ∧ permits perm false AExec = true ∧
    pt_lookup (km_mem s) (page_table ms) (va_vpn p.1) = Some (sv39_pte_new (p.2 / 4096) (Z.lor perm PTE_V)).

Lemma vphys_visible : code_pages → visible pages D (vphys ms) (km_mem s) (token ms).
Proof using Hok HD.
  intros Hcode. split.
  - intros m a acc Hm Ha Hacc. destruct (outside_space m Hm) as [Hok' _]. destruct (rw_aligned _ _ HD a Ha) as [_ Hc].
    destruct (rw_pages _ _ HD a Ha) as (Ht&f&p&E&Hr&Hw&_).
    etransitivity; [exact (mmu_view (with_mem (λ _, m) s) ms false acc a Hok' Hc Ht)|]. unfold vphys. rewrite E. destruct acc; [by rewrite Hr|by rewrite Hw|done].
  - intros m Hm. destruct (outside_space m Hm) as [Hok' Hl]. unfold fetch. apply forallb_forall. intros p Hp%list_elem_of_In.
    destruct (Hcode p Hp) as (Hc&H2&H1&perm&Hpp&Hpe&Hx&He). apply bool_decide_eq_true. change (token ms) with (sv39_token (page_table ms)).
    rewrite mmu_lookup; [|apply Hok'|done]. change (sv39_lookup m (page_table ms) (va_vpn p.1)) with (pt_lookup m (page_table ms) (va_vpn p.1)).
    rewrite Hl by (apply canonical_vpn; done). rewrite He, hw_access_perm, Hx, H1 by done. f_equal. clear -H2. zdiv_lia.
Qed.
End space.

(** Words in an area of frames, such as a kernel stack. *)
Lemma area_rw_words s ms a (D : Z → Prop) :
  ms_ok s ms → a ∈ areas ms → map_type a = Framed → permits (map_perm a) false ARead = true → permits (map_perm a) false AWrite = true →
  (∀ va, D va → va mod 8 = 0 ∧ canonical va ∧ in_area a (va_vpn va)) → rw_words ms D.
Proof.
  intros Hok Ha Hty Hr Hw HD. split.
  - intros va Hva. by destruct (HD va Hva) as (?&?&_).
  - intros va Hva. destruct (HD va Hva) as (_&_&Hin). destruct (ms_view_area _ _ _ _ Hok Ha Hty Hin) as (f&_&_&Hf&Hv). split; [|by exists f, (map_perm a)].
    pose proof (ro_end _ (ao_range _ (mo_areas _ _ Hok a Ha))). unfold in_area in Hin. lia.
  - intros x y f p q Hx Hy Ex Ey. destruct (HD x Hx) as (_&_&Hix), (HD y Hy) as (_&_&Hiy).
    destruct (ms_view_area _ _ _ _ Hok Ha Hty Hix) as (f1&D1&_&_&V1), (ms_view_area _ _ _ _ Hok Ha Hty Hiy) as (f2&D2&_&_&V2).
    eapply (nodup_frames_inj a); [by eapply ms_area_nodup|exact D1|]. rewrite D2. congruence.
Qed.

(** ** Interrupts *)

(** The kernel runs with its own tables and its trap entry on a stack of [ms] that
    has room for the registers. *)
Record in_kernel (y : TrapSymbols) (st : Z) (s : KMem) (ms : MemorySet SV39PageTable) (c : Cpu) : Prop := {
  ik_mode : user c = false;
  ik_satp : cs c SATP = token ms;
  ik_mem : cm c = km_mem s;
  ik_space : ms_ok s ms;
  ik_code : code_pages s ms [(TRAMPOLINE, st)];
}.

Record stack_room (ms : MemorySet SV39PageTable) (sp : Z) : Prop := {
  sr_range : 34 * 8 <= sp < 2 ^ 64;
  sr_words : rw_words ms (block (sp - 34 * 8) 34);
}.

(** C31: an interrupt of the kernel is transparent to the code it interrupts.  With
    the trap entry of the kernel set, it stores all registers below the stack
    pointer and enters [trap_from_kernel] with interrupts off; when that returns,
    whatever else in memory it changed, the interrupted code goes on where it was
    with every register, the interrupt enable and the trap entry as before. *)
Theorem kernel_trap_roundtrip y st s ms c0 :
  syms_ok y → a_trap_from_kernel y mod 2 = 0 →
  let c := set_kernel_trap_entry y c0 in
  in_kernel y st s ms c → stack_room ms (xr c r_sp) →
  (∀ r, is_usize (xr c r)) → is_usize (cs c SSTATUS) → is_usize (pc c) → pc c mod 2 = 0 →
  let sp' := xr c r_sp - 34 * 8 in
  ∃ c1, resume y st (hw_trap c) = Some c1 ∧
    (user c1 = false ∧ pc c1 = a_trap_from_kernel y ∧ xr c1 r_sp = sp' ∧ xr c1 r_a0 = sp' ∧ Z.testbit (cs c1 SSTATUS) SIE = false) ∧
    near (block sp' 34) (vphys ms) (km_mem s) (cm c1) ∧ (∀ k, k ≠ SSTATUS → k ≠ SEPC → cs c1 k = cs c k) ∧
    ∀ c2 s2, in_kernel y st s2 ms c2 → pc c2 = xr c1 ra → xr c2 r_sp = sp' → xr c2 4%nat = xr c 4%nat →
      (∀ a, block sp' 34 a → load64 (cm c2) (vphys ms a) = load64 (cm c1) (vphys ms a)) →
      ∃ c3, resume y st c2 = Some c3 ∧ user c3 = false ∧ pc c3 = pc c ∧ cm c3 = cm c2 ∧
        Z.testbit (cs c3 SSTATUS) SIE = Z.testbit (cs c SSTATUS) SIE ∧ (∀ k, k ≠ SSTATUS → k ≠ SEPC → cs c3 k = cs c2 k) ∧
        ∀ r, (0 < r < 32)%nat → xr c3 r = xr c r.
Proof.
  intros Hy Heven c Hk [Hr HD] Hu Hst Hpc Hpe sp'. pose proof Hk as [K1 K2 K3 K4 K5].
  pose proof (vphys_words ms _ HD) as Hw. assert (Hb : 0 <= sp' ∧ sp' + 8 * 34 <= 2 ^ 64) by (unfold sp'; lia).
  set (d := hw_trap c). assert (Hrun : running [(TRAMPOLINE, st)] (block sp' 34) (vphys ms) (km_mem s) d).
  { split; [change (cm d) with (cm c); rewrite K3; apply near_start|]. change (cs d SATP) with (cs c SATP). rewrite K2. by apply vphys_visible. }
  assert (Hs0 : cs d SSTATUS = trapped false (cs c SSTATUS)) by (change (cs d SSTATUS) with (trapped (user c) (cs c SSTATUS)); by rewrite K1).
  destruct (alltraps_k_run [(TRAMPOLINE, st)] sp' 34 (vphys ms) (km_mem s) Hw Hb ltac:(lia) (in_trampoline y (a_restore_k y)) d)
    as (c1&E1&R1&R2&R3&R4&R5&R6&R7&R8&R9&R10&R11); [done|unfold sp'; change (xr d r_sp) with (xr c r_sp); lia|done|rewrite Hs0; by apply trapped_usize|done|].
  change (cs d SSCRATCH) with (a_trap_from_kernel y) in R3. destruct (trapped_bits false (cs c SSTATUS)) as (B0&B1&B2).
  exists c1. split; [rewrite (proj1 (proj2 (resume_label y st _ Hy))); [exact E1|done]|].
  split; [split; [done|]; split; [rewrite R3; unfold even_pc; lia|]; split; [done|]; split; [done|]; by rewrite R4, Hs0|].
  split; [done|]. split; [intros k H1 H2; rewrite R4; cbn; by rewrite !decide_False by done|]. intros c2 s2 Hk2 Hpc2 Hsp2 Htp2 Hw2. pose proof Hk2 as [L1 L2 L3 L4 L5].
  assert (Hrun2 : running [(TRAMPOLINE, st)] (block sp' 34) (vphys ms) (km_mem s2) c2).
  { split; [rewrite L3; apply near_start|]. rewrite L2. by apply vphys_visible. }
  destruct (restore_k_run [(TRAMPOLINE, st)] sp' 34 (vphys ms) (km_mem s2) Hw Hb ltac:(lia) c2 Hrun2 Hsp2) as (c3&E3&S1&S2&S3&S4&S5&S6&S7&S8); [unfold sp'; lia|].
  assert (Hword : ∀ i, 0 <= i < 34 → word sp' (vphys ms) (cm c2) i = word sp' (vphys ms) (cm c1) i) by (intros i Hi; apply Hw2; by exists i).
  rewrite Hword, R10, Hs0 in S2, S4 by lia. rewrite Hword, R11 in S3 by lia. rewrite B1 in S2.
  exists c3. split; [rewrite (proj2 (proj2 (resume_label y st _ Hy))); [exact E3|by rewrite Hpc2]|]. split; [done|].
  split; [rewrite S3; change (cs d SEPC) with (pc c); unfold even_pc; lia|]. split; [done|]. split; [by rewrite S4, B2|]. split; [done|].
  intros r Hr32. destruct (decide (r = r_sp)) as [->|H2]; [rewrite S6; unfold sp'; lia|]. destruct (decide (r = 4%nat)) as [->|H4]; [by rewrite S7|].
  assert (Hg : r ∈ gp_regs) by (apply gp_regs_all; unfold r_sp in H2; lia). rewrite S8, Hword, R9 by (done || lia). done.
Qed.

(** ** Switches *)

(** The task context at address [a]: [ra], [sp] and the saved registers. *)
Definition task_cx_at (ms : MemorySet SV39PageTable) (m : mem) (a : Z) : TaskContext :=
  let w (k : Z) := load64 m (vphys ms (a + 8 * k)) in
  mkTaskCx (w 0) (w 1) ((λ n : nat, w (n + 2)) <$> seq 0 12).

Definition cpu_task_cx (c : Cpu) : TaskContext := mkTaskCx (xr c ra) (xr c r_sp) ((λ n, xr c (sreg n)) <$> seq 0 12).

(** The registers that a call preserves. *)
Definition callee_saved : list nat := ra :: r_sp :: (sreg <$> seq 0 12).

(** Two contexts in the space of the kernel. *)
Record switch_words (ms : MemorySet SV39PageTable) (cur next : Z) : Prop := {
  sw_words : rw_words ms (λ a, block cur 14 a ∨ block next 14 a);
  sw_apart : ∀ a, block cur 14 a → ¬ block next 14 a;
  sw_range : 0 <= cur ∧ cur + 8 * 14 <= 2 ^ 64 ∧ 0 <= next ∧ next + 8 * 14 <= 2 ^ 64;
}.

Lemma sreg_facts n : (n < 12)%nat → sreg n ≠ 0%nat ∧ sreg n ≠ r_a0 ∧ sreg n ≠ r_a1 ∧ sreg n ≠ ra ∧ sreg n ≠ r_sp.
Proof. intros Hn. unfold sreg, r_a0, r_a1, ra, r_sp. destruct (decide (n < 2)%nat); lia. Qed.

Lemma sreg_nodup : NoDup (sreg <$> seq 0 12).
Proof. apply (bool_decide_unpack _). by vm_compute. Qed.

Section switch.
Context (pages : list (Z * Z)) (ms : MemorySet SV39PageTable) (cur next : Z) (m0 : mem).
Notation D := (λ a, block cur 14 a ∨ block next 14 a).
Notation τ := (vphys ms).
Notation running := (running pages D τ m0).
Hypothesis Hsw : switch_words ms cur next.

Lemma sw_ok : words_ok D τ.
Proof using Hsw. apply vphys_words, Hsw. Qed.

Lemma cur_word k : 0 <= k < 14 → cur +w k * 8 = cur + 8 * k ∧ D (cur + 8 * k).
Proof using Hsw. intros Hk. destruct (sw_range _ _ _ Hsw) as (?&?&_). split; [rewrite wadd_small by lia; lia|left; by exists k]. Qed.

Lemma next_word k : 0 <= k < 14 → next +w k * 8 = next + 8 * k ∧ D (next + 8 * k).
Proof using Hsw. intros Hk. destruct (sw_range _ _ _ Hsw) as (_&_&?&?). split; [rewrite wadd_small by lia; lia|right; by exists k]. Qed.

Lemma next_not_cur i j : 0 <= i < 14 → 0 <= j < 14 → cur + 8 * i ≠ next + 8 * j.
Proof using Hsw. intros Hi Hj E. apply (sw_apart _ _ _ Hsw (cur + 8 * i)); [by exists i|]. exists j. done. Qed.

(** The first half: the registers of the running task are stored. *)
Lemma switch_saves code c :
  running c → xr c r_a0 = cur → (∀ r, is_usize (xr c r)) →
  ∃ m', cpu_run pages ([Sd r_sp 8 r_a0; Sd ra 0 r_a0] ++ (SAVE_SN <$> seq 0 12) ++ code) c = cpu_run pages code (set_cm m' c) ∧
    running (set_cm m' c) ∧ task_cx_at ms m' cur = cpu_task_cx c ∧ near (block cur 14) τ (cm c) m' ∧
    ∀ k, 0 <= k < 14 → load64 m' (τ (next + 8 * k)) = load64 (cm c) (τ (next + 8 * k)).
Proof using Hsw.
  intros Hc Ha0 Hu. pose proof sw_ok as Hw. assert (Hu' : ∀ r, is_usize (xreg c r)) by (intros r; unfold xreg; destruct (decide _); [done|apply Hu]).
  destruct (cur_word 1 ltac:(lia)) as [E1 D1]. destruct (cur_word 0 ltac:(lia)) as [E0 D0]. cbn [app].
  rewrite (run_sd pages D τ m0 Hw r_sp 8 r_a0 _ c (cur + 8 * 1) Hc) by (done || by rewrite <- E1, <- Ha0).
  pose proof (running_store pages D τ m0 c (cur + 8 * 1) (xreg c r_sp) Hc D1) as Hc1. set (c1 := set_cm _ c) in *.
  rewrite (run_sd pages D τ m0 Hw ra 0 r_a0 _ c1 (cur + 8 * 0) Hc1) by (done || by rewrite <- E0, <- Ha0).
  pose proof (running_store pages D τ m0 c1 (cur + 8 * 0) (xreg c1 ra) Hc1 D0) as Hc2. set (c2 := set_cm _ c1) in *.
  assert (Hg : ∀ n : nat, n ∈ seq 0 12 → xreg c2 r_a0 +w (n + 2) * 8 = cur + 8 * (n + 2)).
  { intros n Hn%elem_of_seq. change (xreg c2 r_a0) with (xr c r_a0). rewrite Ha0. apply (cur_word (n + 2)). lia. }
  assert (Hd : ∀ n : nat, n ∈ seq 0 12 → D (xreg c2 r_a0 +w (n + 2) * 8)).
  { intros n Hn. rewrite Hg by done. apply elem_of_seq in Hn. apply (cur_word (n + 2)). lia. }
  assert (Hinj : ∀ i k : nat, i ∈ seq 0 12 → k ∈ seq 0 12 → xreg c2 r_a0 +w (i + 2) * 8 = xreg c2 r_a0 +w (k + 2) * 8 → i = k).
  { intros i k Hi Hk He. rewrite !Hg in He by done. lia. }
  destruct (run_reg_stores pages D τ m0 Hw sreg (λ n : nat, (n + 2) * 8) r_a0 (seq 0 12) code c2 Hc2 Hd) as [E Hr].
  set (m' := reg_stores _ _ _ _ _ _) in *.
  assert (Hout : ∀ k (b := cur + 8 * k), k = 0 ∨ k = 1 → load64 m' (τ b) = load64 (cm c2) (τ b)).
  { intros k b Hk. unfold m'. apply (reg_stores_out D τ Hw); [done|done|apply NoDup_seq|done|apply cur_word; lia|].
    intros n Hn. rewrite Hg by done. apply elem_of_seq in Hn. unfold b. lia. }
  exists m'. split; [exact E|]. split; [exact Hr|]. split; [|split].
  - unfold task_cx_at, cpu_task_cx. rewrite !Hout by auto. unfold c2, c1. cbn [cm set_cm]. f_equal.
    + rewrite (load_store D τ Hw) by first [exact D0|exact D1|apply Hu'|done]. by rewrite decide_True.
    + rewrite !(load_store D τ Hw) by first [exact D0|exact D1|apply Hu'|done]. rewrite decide_False by lia. by rewrite decide_True.
    + apply list_fmap_ext. intros i n Hn. apply list_elem_of_lookup_2 in Hn. rewrite <- Hg by done. unfold m'.
      rewrite (reg_stores_in D τ Hw sreg (λ n : nat, xreg c2 r_a0 +w (n + 2) * 8) c2) by (done || apply NoDup_seq).
      apply elem_of_seq in Hn. destruct (sreg_facts n ltac:(lia)) as (H0&_). unfold xreg. by rewrite decide_False.
  - apply near_reg_stores; [intros n Hn; rewrite Hg by done; apply elem_of_seq in Hn; exists (n + 2); lia|].
    apply near_store; [|exists 0; lia]. apply near_store; [apply near_start|exists 1; lia].
  - intros k Hk. unfold m'. rewrite (reg_stores_out D τ Hw); [|done|done|apply NoDup_seq|done|by apply next_word|].
    + unfold c2, c1. cbn [cm set_cm]. rewrite !(load_store D τ Hw) by first [exact D0|exact D1|by apply next_word|apply Hu'].
      rewrite !decide_False by (apply next_not_cur; lia). done.
    + intros n Hn. rewrite Hg by done. apply elem_of_seq in Hn. apply next_not_cur; lia.
Qed.

(** The second half: those of the next task are loaded. *)
Lemma switch_loads c :
  running c → xr c r_a1 = next →
  ∃ c', cpu_run pages ([Ld ra 0 r_a1] ++ (LOAD_SN <$> seq 0 12) ++ [Ld r_sp 8 r_a1; Jr ra]) c = Some c' ∧
    cpu_task_cx c' = task_cx_at ms (cm c) next ∧ pc c' = even_pc (cx_ra (task_cx_at ms (cm c) next)) ∧ user c' = false ∧
    cm c' = cm c ∧ cs c' = cs c ∧ ∀ r, r ∉ callee_saved → xr c' r = xr c r.
Proof using Hsw.
  intros Hc Ha1. pose proof sw_ok as Hw. destruct (next_word 1 ltac:(lia)) as [E1 D1]. destruct (next_word 0 ltac:(lia)) as [E0 D0]. cbn [app].
  rewrite (run_ld pages D τ m0 Hw ra 0 r_a1 _ c (next + 8 * 0) Hc) by (done || by rewrite <- E0, <- Ha1).
  set (c1 := set_x ra _ c). assert (Hc1 : running c1) by exact (running_eq _ _ _ _ _ c1 Hc eq_refl eq_refl).
  assert (Hg : ∀ n : nat, n ∈ seq 0 12 → xreg c1 r_a1 +w (n + 2) * 8 = next + 8 * (n + 2)).
  { intros n Hn%elem_of_seq. change (xreg c1 r_a1) with (xr c r_a1). rewrite Ha1. apply (next_word (n + 2)). lia. }
  assert (Hd : ∀ n : nat, n ∈ seq 0 12 → D (xreg c1 r_a1 +w (n + 2) * 8)).
  { intros n Hn. rewrite Hg by done. apply elem_of_seq in Hn. apply (next_word (n + 2)). lia. }
  assert (Hno : ∀ r, r ∈ sreg <$> seq 0 12 → r ≠ r_a1 ∧ r ≠ ra ∧ r ≠ r_sp).
  { intros r (n&->&Hn%elem_of_seq)%list_elem_of_fmap. destruct (sreg_facts n ltac:(lia)) as (_&_&?&?&?). done. }
  destruct (run_reg_loads pages D τ m0 Hw sreg (λ n : nat, (n + 2) * 8) r_a1 (seq 0 12) [Ld r_sp 8 r_a1; Jr ra] c1 Hc1 ltac:(done)
    ltac:(by intros [? _]%Hno) Hd) as [E Hr].
  destruct (reg_loads_frame τ sreg (λ n : nat, xreg c1 r_a1 +w (n + 2) * 8) (cm c1) (seq 0 12) c1) as (F1&F2&F3&F4).
  pose proof (λ n, reg_loads_reg τ sreg (λ n : nat, xreg c1 r_a1 +w (n + 2) * 8) (cm c1) (seq 0 12) c1 n sreg_nodup) as F5.
  unfold LOAD_SN. cbn zeta in E, Hr. rewrite E. set (c2 := reg_loads _ _ _ _ _ c1) in *.
  assert (Hx2 : xr c2 r_a1 = next) by (rewrite F4; [exact Ha1|by intros [? _]%Hno]).
  assert (Hra2 : xr c2 ra = load64 (cm c) (τ (next + 8 * 0))) by (rewrite F4; [done|by intros (_&?&_)%Hno]).
  rewrite (run_ld pages D τ m0 Hw r_sp 8 r_a1 _ c2 (next + 8 * 1) Hr) by (done || by rewrite <- E1, <- Hx2).
  set (c3 := set_x r_sp _ c2). assert (Hc3 : running c3) by exact (running_eq _ _ _ _ _ c3 Hr eq_refl eq_refl).
  cbn [cpu_run]. rewrite (vi_code _ _ _ _ _ (rn_visible _ _ _ _ _ Hc3) _ (rn_near _ _ _ _ _ Hc3)). eexists. split; [reflexivity|].
  unfold cpu_task_cx, task_cx_at. cbn [xr go set_x c3 cm pc user cs cx_ra]. rewrite F1, F2.
  change (xreg c3 ra) with (xr c2 ra). rewrite Hra2.
  split; [f_equal|].
  - apply list_fmap_ext. intros i n Hn. apply list_elem_of_lookup_2 in Hn.
    assert (Hn12 : sreg n ≠ r_sp) by (apply Hno, list_elem_of_fmap; eauto). rewrite decide_False by done. rewrite F5 by done. by rewrite Hg.
  - split; [done|]. split; [done|]. split; [done|]. split; [done|]. intros r Hr'. unfold callee_saved in Hr'.
    apply not_elem_of_cons in Hr' as [H1 [H2 H3]%not_elem_of_cons]. rewrite decide_False by done. rewrite F4 by done. simpl. by rewrite decide_False.
Qed.
End switch.

Lemma switch_run pages s ms c cur next :
  ms_ok s ms → code_pages s ms pages → cs c SATP = token ms → cm c = km_mem s → switch_words ms cur next →
  xr c r_a0 = cur → xr c r_a1 = next → (∀ r, is_usize (xr c r)) →
  ∃ c', cpu_run pages switch c = Some c' ∧
    cpu_task_cx c' = task_cx_at ms (km_mem s) next ∧ pc c' = even_pc (cx_ra (task_cx_at ms (km_mem s) next)) ∧
    task_cx_at ms (cm c') cur = cpu_task_cx c ∧ near (block cur 14) (vphys ms) (km_mem s) (cm c') ∧ cs c' = cs c ∧
    ∀ r, r ∉ callee_saved → xr c' r = xr c r.
Proof.
  intros Hok Hcode Hsatp Hcm Hsw Ha0 Ha1 Hu.
  assert (Hc : running pages (λ a, block cur 14 a ∨ block next 14 a) (vphys ms) (km_mem s) c).
  { split; [rewrite Hcm; apply near_start|]. rewrite Hsatp. apply vphys_visible; [done|apply Hsw|done]. }
  change switch with ([Sd r_sp 8 r_a0; Sd ra 0 r_a0] ++ (SAVE_SN <$> seq 0 12) ++ ([Ld ra 0 r_a1] ++ (LOAD_SN <$> seq 0 12) ++ [Ld r_sp 8 r_a1; Jr ra])).
  destruct (switch_saves pages ms cur next (km_mem s) Hsw ([Ld ra 0 r_a1] ++ (LOAD_SN <$> seq 0 12) ++ [Ld r_sp 8 r_a1; Jr ra]) c Hc Ha0 Hu) as (m'&->&Hc1&Hcx&Hnear&Hnext).
  destruct (switch_loads pages ms cur next (km_mem s) Hsw (set_cm m' c) Hc1 Ha1) as (c'&E&L1&L2&_&L3&L4&L5). cbn [cm set_cm cs xr] in *.
  assert (Hsame : task_cx_at ms m' next = task_cx_at ms (km_mem s) next).
  { unfold task_cx_at. rewrite !Hnext, Hcm by lia. f_equal. apply list_fmap_ext. intros i n Hn%list_elem_of_lookup_2%elem_of_seq. by rewrite Hnext, Hcm by lia. }
  exists c'. rewrite Hsame in L1, L2. rewrite L3. split; [done|]. split; [done|]. split; [done|]. split; [done|]. rewrite <- Hcm. done.
Qed.

(** C6: [__switch] exchanges two tasks.  It stores the return address, the stack
    pointer and the saved registers of the running task in its context, changes
    no other memory, and continues where the context of the next task says with
    the registers found there.  When any task later switches back to the first one,
    whose context nobody changed meanwhile, that call of [__switch] returns to its
    caller with the stack and the saved registers it was called with. *)
Theorem switch_roundtrip pages s ms c cur next :
  ms_ok s ms → code_pages s ms pages → cs c SATP = token ms → cm c = km_mem s → switch_words ms cur next →
  xr c r_a0 = cur → xr c r_a1 = next → (∀ r, is_usize (xr c r)) →
  ∃ c1, cpu_run pages switch c = Some c1 ∧
    cpu_task_cx c1 = task_cx_at ms (km_mem s) next ∧ pc c1 = even_pc (cx_ra (task_cx_at ms (km_mem s) next)) ∧
    task_cx_at ms (cm c1) cur = cpu_task_cx c ∧ near (block cur 14) (vphys ms) (km_mem s) (cm c1) ∧ cs c1 = cs c ∧
    (∀ r, r ∉ callee_saved → xr c1 r = xr c r) ∧
    ∀ s2 ms2 c2 cur2,
      ms_ok s2 ms2 → code_pages s2 ms2 pages → cs c2 SATP = token ms2 → cm c2 = km_mem s2 → switch_words ms2 cur2 cur →
      xr c2 r_a0 = cur2 → xr c2 r_a1 = cur → (∀ r, is_usize (xr c2 r)) →
      task_cx_at ms2 (km_mem s2) cur = task_cx_at ms (cm c1) cur →
      ∃ c3, cpu_run pages switch c2 = Some c3 ∧ pc c3 = even_pc (xr c ra) ∧ cpu_task_cx c3 = cpu_task_cx c.
Proof.
  intros Hok Hcode Hsatp Hcm Hsw Ha0 Ha1 Hu. destruct (switch_run pages s ms c cur next) as (c1&E1&R1&R2&R3&R4&R5&R6); try done.
  exists c1. do 7 (split; [done|]). intros s2 ms2 c2 cur2 Hok2 Hcode2 Hsatp2 Hcm2 Hsw2 Hb0 Hb1 Hu2 Hsame.
  destruct (switch_run pages s2 ms2 c2 cur2 cur) as (c3&E3&S1&S2&_); try done. rewrite Hsame, R3 in S1, S2. by exists c3.
Qed.

(** ** Examples *)

Lemma tramp_code_pages s (ms : MemorySet SV39PageTable) st :
  tramp_ok st → pt_lookup (km_mem s) (page_table ms) TRAMP_VPN = Some (tramp_pte (T := SV39PageTable) st) → code_pages s ms [(TRAMPOLINE, st)].
Proof.
  intros Hst Hl p ->%list_elem_of_singleton. destruct (tramp_ppn_eq st Hst) as [_ Hp]. split; [right; unfold TRAMPOLINE, PAGE_SIZE; simpl; lia|].
  split; [apply Hst|]. split; [done|]. exists (Z.lor PERM_R PERM_X). split; [done|]. split; [by vm_compute|]. split; [done|]. exact Hl.
Qed.

(** The page of the trap context of the example thread as a stack and a heap. *)
Lemma demo_page s msu f (D : Z → Prop) :
  thread_tables s msu demo.1 0 f demo_st → (∀ a, D a → block (trap_cx_user_va 0) 37 a) → rw_words msu D.
Proof.
  intros Htt HD. destruct (tt_slot _ _ _ _ _ _ Htt) as (a&Ha&(HR&HY&HP)&_). destruct (cx_va_facts 0 ltac:(lia)) as [_ Hc].
  apply (area_rw_words s msu a); [exact (tt_user _ _ _ _ _ _ Htt)|done|done|by rewrite HP|by rewrite HP|].
  intros va Hva. destruct (Hc va (HD va Hva)) as (?&Hv&?&_). split; [done|]. split; [done|]. unfold in_area. rewrite HR, Hv. simpl. lia.
Qed.

(** An interrupt of code with 7 in its registers. *)
Lemma kernel_trap_roundtrip_witness :
  ∃ (c c1 c2 c3 : Cpu), pc c = 0x80205000 ∧ resume demo_trap_syms demo_st (hw_trap c) = Some c1 ∧ pc c1 = 0x80204000 ∧
    xr c2 r_a1 = 9 ∧ resume demo_trap_syms demo_st c2 = Some c3 ∧ pc c3 = 0x80205000 ∧ xr c3 r_a1 = 7.
Proof.
  destruct demo_thread as (msu&s&f&Htt&Hp). set (sp := trap_cx_user_va 0 + 34 * 8).
  set (c0 := mkCpu (λ r, if decide (r = r_sp) then sp else 7) (λ k, match k with SATP => token msu | _ => 2 end) (km_mem s) false 0x80205000).
  set (c := set_kernel_trap_entry demo_trap_syms c0).
  assert (Hcode : code_pages s msu [(TRAMPOLINE, demo_st)]) by exact (tramp_code_pages s msu demo_st (tt_st _ _ _ _ _ _ Htt) (tt_utramp _ _ _ _ _ _ Htt)).
  assert (Hsp : xr c r_sp - 34 * 8 = trap_cx_user_va 0) by (vm_compute; reflexivity).
  assert (HD : rw_words msu (block (xr c r_sp - 34 * 8) 34)).
  { rewrite Hsp. apply (demo_page s msu f _ Htt). intros a (i&Hi&->). exists i. split; [lia|done]. }
  destruct (kernel_trap_roundtrip demo_trap_syms demo_st s msu c0) as (c1&E1&(U1&P1&S1&_&_)&N1&C1&Hret).
  - exact demo_trap_syms_ok.
  - reflexivity.
  - split; [reflexivity|reflexivity|reflexivity|exact (tt_user _ _ _ _ _ _ Htt)|exact Hcode].
  - split; [vm_compute; split; congruence|exact HD].
  - intros r. change (is_usize (if decide (r = r_sp) then sp else 7)). destruct (decide _); vm_compute; split; congruence.
  - vm_compute; split; congruence.
  - vm_compute; split; congruence.
  - reflexivity.
  - set (c2 := set_x r_a1 9 (set_x 4 7 (go false (xr c1 ra) c1))).
    destruct (outside_space s msu _ (tt_user _ _ _ _ _ _ Htt) HD (cm c1) N1) as [Hok2 Hl2].
    destruct (Hret c2 (with_mem (λ _, cm c1) s)) as (c3&E3&_&P3&_&_&_&R3).
    + split; [reflexivity|exact (C1 SATP ltac:(done) ltac:(done))|reflexivity|exact Hok2|].
      apply tramp_code_pages; [exact (tt_st _ _ _ _ _ _ Htt)|].
      etransitivity; [apply Hl2; unfold is_vpn, TRAMP_VPN; lia|exact (tt_utramp _ _ _ _ _ _ Htt)].
    + reflexivity.
    + exact S1.
    + reflexivity.
    + reflexivity.
    + exists c, c1, c2, c3. split; [reflexivity|]. split; [exact E1|]. split; [exact P1|]. split; [reflexivity|]. split; [exact E3|].
      split; [exact P3|]. apply (R3 r_a1). unfold r_a1. lia.
Defined.

(** Two tasks with their contexts in the page; the first one is resumed. *)
Lemma switch_roundtrip_witness :
  ∃ (c c1 c2 c3 : Cpu), xr c 8%nat = 7 ∧ cpu_run [(TRAMPOLINE, demo_st)] switch c = Some c1 ∧
    xr c2 8%nat = 9 ∧ cpu_run [(TRAMPOLINE, demo_st)] switch c2 = Some c3 ∧ pc c3 = 0x80205000 ∧ xr c3 8%nat = 7.
Proof.
  destruct demo_thread as (msu&s&f&Htt&Hp). set (a1 := trap_cx_user_va 0). set (a2 := a1 + 8 * 14).
  assert (Hva : a1 = 2 ^ 64 - 8192) by (vm_compute; reflexivity).
  assert (Hcode : code_pages s msu [(TRAMPOLINE, demo_st)]) by exact (tramp_code_pages s msu demo_st (tt_st _ _ _ _ _ _ Htt) (tt_utramp _ _ _ _ _ _ Htt)).
  assert (Hsw : ∀ x y, (x = a1 ∧ y = a2) ∨ (x = a2 ∧ y = a1) → switch_words msu x y).
  { intros x y Hxy. split.
    - apply (demo_page s msu f _ Htt). unfold a2 in Hxy. intros a [(i&Hi&->)|(i&Hi&->)];
        destruct Hxy as [[-> ->]|[-> ->]]; (exists i; unfold a1; lia) || (exists (i + 14); unfold a1; lia).
    - intros a (i&Hi&->) (j&Hj&E). unfold a2 in Hxy. lia.
    - unfold a2 in Hxy. lia. }
  set (regs := λ v x y r, if decide (r = r_a0) then x else if decide (r = r_a1) then y else if decide (r = ra) then 0x80205000 else v).
  assert (Hregs : ∀ v x y r, v = 7 ∨ v = 9 → (x = a1 ∧ y = a2) ∨ (x = a2 ∧ y = a1) → is_usize (regs v x y r)).
  { intros v x y r Hv Hxy. unfold regs, is_usize, a2 in *. repeat destruct (decide _); lia. }
  set (csrs := λ k, match k with SATP => token msu | _ => 2 end).
  set (c := mkCpu (regs 7 a1 a2) csrs (km_mem s) false 0).
  destruct (switch_roundtrip [(TRAMPOLINE, demo_st)] s msu c a1 a2) as (c1&E1&_&_&R1&N1&_&_&Hret); try reflexivity; [exact (tt_user _ _ _ _ _ _ Htt)|exact Hcode|auto|intros r; by apply Hregs; auto|].
  set (c2 := mkCpu (regs 9 a2 a1) csrs (cm c1) false 0).
  assert (HD : rw_words msu (block a1 14)).
  { apply (demo_page s msu f _ Htt). intros a (i&Hi&->). exists i. unfold a1. lia. }
  destruct (outside_space s msu _ (tt_user _ _ _ _ _ _ Htt) HD (cm c1) N1) as [Hok2 Hl2].
  destruct (Hret (with_mem (λ _, cm c1) s) msu c2 a2) as (c3&E3&P3&T3); try reflexivity; [exact Hok2| |auto|intros r; by apply Hregs; auto|].
  - apply tramp_code_pages; [exact (tt_st _ _ _ _ _ _ Htt)|].
      etransitivity; [apply Hl2; unfold is_vpn, TRAMP_VPN; lia|exact (tt_utramp _ _ _ _ _ _ Htt)].
  - exists c, c1, c2, c3. split; [reflexivity|]. split; [exact E1|]. split; [reflexivity|]. split; [exact E3|]. split; [rewrite P3; reflexivity|].
    injection T3 as _ _ E _. exact E.
Defined.
