(* ===== verification/MmapFile.v ===== *)
(** * [mmap] of a file (the second half of [mmap] in [os/src/mm/memory_set.rs])

    The pages are mapped as for an anonymous mapping, then the beginning of the
    file is read and copied into them page by page. *)

From S2P Require Import Prelude Address PhysMem FrameAlloc PageTable Sv39 UserMem MemorySet MapAreaSpec.
From S2P Require Import MemorySetSpec MemorySetOps Mmap Fork SpaceProps.

Section mmap_file.
Context {T : Type} `{!PageTable T}.
Implicit Types ms : MemorySet T.

(** What is copied into the pages from [start_vpn] on. *)
Definition copy_file (ms : MemorySet T) (file : MappedFile) (len off start_vpn : Z) : K KMem unit :=
  let copy_len := Z.min len (mf_size file) in
  buf ← kunwrap (mf_read_at file 0 (replicate (Z.to_nat copy_len) 0));
  mmap_copy_loop (S (length buf)) (page_table ms) buf copy_len off start_vpn.

(** The mapping comes first, the copy second. *)
Lemma mmap_at_file ms va len prot file off s :
  mmap_at ms va len prot (Some file) off s =
  ('(ms', r) ← mmap_at ms va len prot None off;
   match r with
   | Ok a => copy_file ms' file len off (va_floor va) ;; mret (ms', Ok a)
   | Err e => mret (ms', Err e)
   end) s.
Proof.
  unfold mmap_at, copy_file. destruct (checked_add _ _) as [stop|]; [|done]. cbn zeta. destruct (existsb _ _); [done|].
  unfold mbind, K_bind, klift. cbn [mbind outcome_bind].
  destruct (area_new _ _ _ _) as [a|]; [|done]. cbn [outcome_bind mbind].
  destruct (insert_framed_area _ _ _ _ _) as [[ms' s1]|]; [|done]. unfold mret, K_ret. cbn beta iota.
  destruct (kunwrap _ s1) as [[buf s2]|]; [|done]. by destruct (mmap_copy_loop _ _ _ _ _ _ s2) as [[[] s3]|].
Qed.

(** The part of the file from [off] on, as the loop cuts it. *)
Lemma slice_drop (buf : list Z) off start stop :
  0 <= off → 0 <= start → off <= length buf → slice buf (off + start) (off + stop) = slice (drop (Z.to_nat off) buf) start stop.
Proof.
  intros Ho Hs Hl. unfold slice. rewrite length_drop, drop_drop.
  replace (off + stop - (off + start)) with (stop - start) by lia.
  replace (Z.to_nat off + Z.to_nat start)%nat with (Z.to_nat (off + start)) by lia.
  destruct (Z.leb_spec (off + start) (off + stop)), (Z.leb_spec start stop),
    (Z.leb_spec (off + stop) (length buf)), (Z.leb_spec stop (length buf - Z.to_nat off)%nat); try done; lia.
Qed.

Lemma copy_loop_spec t a (buf : list Z) off (fuel : nat) : ∀ s start v,
  let data := drop (Z.to_nat off) buf in
  framed_in (km_mem s) t a → v = get_start (vpn_range a) + start / 4096 → start mod 4096 = 0 →
  0 <= off → 0 <= start → off + start < 2 ^ 62 → length buf < 2 ^ 61 → Z.max 0 (length buf - off - start) < fuel →
  length data <= n_pages a * 4096 →
  wp (mmap_copy_loop fuel t buf (length buf) (off + start) v) s (λ _ s', copy_result a data start s s').
Proof.
  induction fuel as [|fuel IH]; intros s start v data F Hv Hmod Hoff Hst Hsm Hlb Hfuel Hfit; [lia|].
  assert (Hld : Z.of_nat (length data) = Z.max 0 (length buf - off)) by (unfold data; rewrite length_drop; lia).
  cbn [mmap_copy_loop]. destruct (Z.ltb_spec (off + start) (length buf)) as [Hlt|Hge].
  2: { wp_steps. split; [done|]. split; [done|]. intros va _. case_decide; [lia|done]. }
  assert (Hin : in_area a v) by (unfold in_area, n_pages in *; zdiv_lia).
  pose proof (ao_range _ (fi_ok _ _ _ F)) as [Hr0 Hr1 Hr2]. unfold TRAMP_VPN in Hr2.
  destruct (slice_spec data start (Z.min (length data) (start + 4096))) as (src&Hsl&_); [lia..|].
  pose proof (copy_page_step s t a data start src v F Hv Hmod ltac:(lia) Hin Hsl) as Hstep.
  unfold PAGE_SIZE. rewrite wadd_small by lia.
  assert (Hsl' : slice buf (off + start) (Z.min (off + start + 4096) (length buf)) = Done src).
  { rewrite <- Hsl. unfold data at 1. rewrite <- slice_drop by lia. f_equal. lia. }
  unfold wp, mbind, K_bind in Hstep |- *.
  destruct (translate_ppn t v s) as [[ppn s0]|]; [|done].
  unfold klift. rewrite Hsl'. cbn [mbind outcome_bind]. cbn beta iota. destruct (write_page ppn src s0) as [[[] s1]|]; [|done].
  destruct Hstep as (F1&Hfa1&Ho1&Hb1).
  replace (off + start + 4096) with (off + (start + 4096)) by lia.
  fold (wp (mmap_copy_loop fuel t buf (length buf) (off + (start + 4096)) (step_by_one v)) s1
      (λ _ s', copy_result a data start s s')).
  assert (Hsv : step_by_one v = get_start (vpn_range a) + (start + 4096) / 4096).
  { unfold step_by_one. unfold in_area in Hin. rewrite wadd_small by lia. zdiv_lia. }
  eapply wp_mono; [apply IH; try done; try lia; rewrite Zplus_mod, Hmod; done|].
  intros [] s2 (Hfa2&Ho2&Hb2). split; [congruence|]. split; [by eapply same_outside_trans|].
  intros va Hva. rewrite Hb2, Hb1 by done. fold data. simpl. repeat case_decide; try done; lia.
Qed.
(** The copy into a fresh mapping: the bytes of [buf] from [off] on, then zeros. *)
Lemma copy_file_wp s ms va len prot s1 ms1 file buf off :
  mapped_at s ms va len prot s1 ms1 → va mod 4096 = 0 → 0 <= va → 0 < len → va + len + 4096 <= 2 ^ 38 →
  0 <= off < 2 ^ 62 → 0 <= mf_size file →
  mf_read_at file 0 (replicate (Z.to_nat (Z.min len (mf_size file))) 0) = Some buf →
  Z.of_nat (length buf) = Z.min len (mf_size file) →
  wp (copy_file ms1 file len off (va_floor va)) s1 (λ _ s', ∃ a new,
    areas ms1 = areas ms ++ [a] ∧ area_spec a (va / 4096) (end_page va len) (mmap_perm prot) ∧
    ms_ok s' ms1 ∧ km_fa s' = km_fa s1 ∧ ms_grow s ms new s' ms1 ∧
    (∀ i, 0 <= i < len → area_byte (km_mem s') a (va + i) =
       if decide (off + i < length buf) then buf !! Z.to_nat (off + i) else Some 0) ∧
    (∀ v, is_vpn v → ¬ in_area a v →
       pt_lookup (km_mem s') (page_table ms1) v = pt_lookup (km_mem s) (page_table ms) v)).
Proof.
  intros (a&new&a'&(HR&HY&HP)&P) Hal Hva Hlen Hr Hoff Hsz Hrd Hbl.
  destruct (pp_attrs _ _ _ _ _ _ _ P) as (HR'&HY'&HP'). rewrite HR in HR'.
  assert (Ha : a' ∈ areas ms1) by (rewrite (pp_areas _ _ _ _ _ _ _ P); apply elem_of_app; right; left).
  assert (F : framed_in (km_mem s1) (page_table ms1) a')
    by (eapply ms_framed_in; [apply P|done|congruence]).
  unfold copy_file. wp_steps. eapply wp_unwrap; [exact Hrd|]. rewrite <- Hbl.
  pose proof (copy_loop_spec (page_table ms1) a' buf off (S (length buf)) s1 0 (va_floor va)) as Hc.
  rewrite (Z.add_0_r off) in Hc. eapply wp_mono; [apply Hc; try done; try lia|]; clear Hc.
  - rewrite HR'. change (0 / 4096) with 0. by rewrite Z.add_0_r.
  - rewrite length_drop. unfold n_pages. rewrite HR'. unfold end_page. simpl. zdiv_lia.
  - intros [] s2 (Hfa2&Ho2&Hb2). destruct (push_post_write _ _ _ _ _ _ _ s2 P HY Hfa2 Ho2) as [G2 Hok2].
    exists a', new. split; [apply P|]. split; [split_and!; congruence|]. do 3 (split; [done|]). split.
    + intros i Hi. assert (Hin : in_area a' ((va + i) / 4096)).
      { unfold in_area. rewrite HR'. unfold end_page. simpl. zdiv_lia. }
      assert (Hin' : in_area a ((va + i) / 4096)) by (unfold in_area in *; by rewrite HR, <- HR').
      rewrite Hb2 by done. rewrite HR'. unfold get_start. cbn [r_l]. rewrite length_drop, lookup_drop.
      destruct (pp_zero _ _ _ _ _ _ _ P HY _ Hin') as (ppn&Hd&_&Hzero).
      case_decide; case_decide; try (exfalso; zdiv_lia); [f_equal; zdiv_lia|].
      unfold area_byte, area_target. rewrite HY', HY, Hd. simpl. f_equal. apply Hzero. zdiv_lia.
    + intros v Hv Hn. rewrite <- (pp_other _ _ _ _ _ _ _ P v Hv) by (unfold in_area in *; by rewrite HR, <- HR').
      destruct (pt_frame (km_mem s1) (km_mem s2) (page_table ms1)) as [_ ->]; [apply F| |done|done].
      intros x Hx. apply Ho2. intros Hp. by eapply (fi_nt _ _ _ F).
Qed.
End mmap_file.

(** C23: [mmap] of a file at a fixed page-aligned address in the lower half maps
    the requested pages in frames nobody used before, and byte [i] of the
    mapping is byte [off + i] of what [read_at] put into the buffer, as long as
    that is below [min(len, size)], and zero beyond; so a mapping whose offset
    is at least its length shows only zeros.  The other translations are kept,
    and a conflict changes nothing. *)
Theorem mmap_file_correct s (ms : MemorySet SV39PageTable) start len prot flags file buf off :
  fa_wf (km_fa s) → ms_ok s ms → 0 < start → start mod 4096 = 0 → 0 < len →
  start + len + 4096 <= 2 ^ 38 → 3 * (end_page start len - start / 4096) <= fa_free (km_fa s) →
  0 <= off < 2 ^ 62 → 0 <= mf_size file →
  mf_read_at file 0 (replicate (Z.to_nat (Z.min len (mf_size file))) 0) = Some buf →
  Z.of_nat (length buf) = Z.min len (mf_size file) →
  wp (mmap ms start len prot flags (Some file) off) s (λ '(ms', r) s',
    if decide (no_conflict (areas ms) (start / 4096) (end_page start len)) then
      r = Ok start ∧ ms_ok s' ms' ∧
      ∃ a new, areas ms' = areas ms ++ [a] ∧
        area_spec a (start / 4096) (end_page start len) (mmap_perm prot) ∧
        ms_grow s ms new s' ms' ∧
        (∀ i, 0 <= i < len → area_byte (km_mem s') a (start + i) =
           if decide (off + i < Z.min len (mf_size file)) then buf !! Z.to_nat (off + i) else Some 0) ∧
        (∀ v, is_vpn v → ¬ in_area a v →
           sv39_lookup (km_mem s') (page_table ms') v = sv39_lookup (km_mem s) (page_table ms) v)
    else r = Err (-1) ∧ ms' = ms ∧ s' = s).
Proof.
  intros Hfa Hok Hst Hal Hlen Hr Hfree Hoff Hsz Hrd Hbl. unfold mmap.
  rewrite (proj2 (Z.eqb_neq len 0)), (proj2 (Z.eqb_neq start 0)) by lia.
  rewrite va_from_usize_id by lia. unfold va_aligned. rewrite va_page_offset_mod, Hal. simpl.
  unfold wp at 1. rewrite mmap_at_file. apply wp_bind.
  eapply wp_mono; [apply mmap_at_wp; try done; lia|]. intros [ms1 r] s1. case_decide; intros Hm.
  - destruct Hm as [-> Hm]. apply wp_bind. eapply wp_mono; [eapply copy_file_wp; try done; lia|].
    intros [] s2 (a&new&Ha&Hs&Hok2&_&G&Hb&Ho). wp_steps. rewrite <- Hbl. do 2 (split; [done|]). by exists a, new.
  - destruct Hm as (->&->&->). done.
Qed.

(** A file of [0x1800] bytes, each [7]. *)
Definition sevens : MappedFile := mkFile 0x1800 (λ _ b, Some (replicate (length b) 7)).

Lemma mmap_file_correct_witness :
  wp (mmap demo.1 0x40000 0x1000 0x16 0 (Some sevens) 0x10) demo.2 (λ '(ms', r) s',
    r = Ok 0x40000 ∧ ∃ a, areas ms' = areas demo.1 ++ [a] ∧
    area_byte (km_mem s') a 0x40000 = Some 7 ∧ area_byte (km_mem s') a 0x40ff0 = Some 0).
Proof.
  destruct demo_facts as (Hfa&Hok&_&Hfree&a&Ha&HR&_&_).
  eapply wp_mono; [apply (mmap_file_correct demo.2 demo.1 0x40000 0x1000 0x16 0 sevens
    (replicate (Z.to_nat 0x1000) 7) 0x10 Hfa Hok); try lia; try reflexivity|].
  - change (3 * _) with 3. lia.
  - simpl. lia.
  - intros [ms' r] s'. rewrite decide_True.
    + intros (->&_&b&new&Hb&_&_&Hbyte&_). split; [reflexivity|]. exists b. split; [exact Hb|]. split.
      * change 0x40000 with (0x40000 + 0). rewrite Hbyte by lia. reflexivity.
      * change 0x40ff0 with (0x40000 + 0xff0). rewrite Hbyte by lia. reflexivity.
    + intros b. rewrite Ha, list_elem_of_singleton. intros ->. right. rewrite HR. vm_compute. reflexivity.
Defined.
