(* ===== verification/KernelSpace.v ===== *)
(** * The address space of the kernel ([new_kernel] of [os/src/mm/memory_set.rs])

    The kernel maps its sections, the rest of the memory and the devices to
    themselves.  A run of pages needs new tables only where it enters a region
    of 512 pages, so the tables of the whole memory take few frames. *)

From S2P Require Import Prelude Address PhysMem IdAlloc FrameAlloc PageTable Sv39 MemorySet MapAreaSpec MemorySetSpec MemorySetOps.
From S2P Require Import Mmap Fork Elf.

(** ** Regions of a leaf table *)

(** A page beside a mapped page of its region needs no table. *)
Lemma sv39_map_same_region s pt v w ppn perm e t' s' :
  sv39_lookup (km_mem s) pt w = Some e → v / 512 = w / 512 →
  sv39_map pt v ppn perm s = Done (t', s') → km_fa s' = km_fa s.
Proof.
  intros (a&Ha&_)%sv39_find_pte_valid Hr. assert (Hb : ∃ b, sv39_find_pte (km_mem s) pt v = Some b).
  { rewrite find_pte_leaf_addr in Ha |- *. unfold leaf_addr in *.
    replace ((v / 2 ^ 18) mod 512) with ((w / 2 ^ 18) mod 512) by zdiv_lia.
    replace ((v / 2 ^ 9) mod 512) with ((w / 2 ^ 9) mod 512) by zdiv_lia.
    destruct (child _ _ _) as [p|]; [|done]. simpl in *. destruct (child _ _ _) as [q|]; [|done]. eauto. }
  destruct Hb as [b Hb]. unfold sv39_map, mbind, K_bind. rewrite (find_pte_create_existing _ _ _ _ Hb).
  unfold kget, kassert, kunwrap, write_pte, kmodify, mret, K_ret, kpanic. cbn beta iota.
  destruct (negb _); [|done]. destruct (pteflags_from_bits perm); [|done]. by intros [= <- <-].
Qed.

(** The regions that the [n] pages from [v] enter; [warm] says that the region of
    [v] has its table already. *)
Definition entered (v n : Z) (warm : bool) : Z :=
  if n =? 0 then 0 else (v + n - 1) / 512 - v / 512 + (if warm then 0 else 1).

Lemma map_one_ident a (t : SV39PageTable) v :
  map_type a = Identical → map_one a t v = (f ← kunwrap (perm_from_bits (map_perm a)); t' ← pt_map t v v f; mret (a, t')).
Proof. intros Hty. unfold map_one. by rewrite Hty. Qed.

Lemma map_one_region s t a v w e a' t' s' :
  map_type a = Identical → sv39_lookup (km_mem s) t w = Some e → v / 512 = w / 512 →
  map_one (T := SV39PageTable) a t v s = Done ((a', t'), s') → km_fa s' = km_fa s.
Proof.
  intros Hty Hl Hr. rewrite map_one_ident by done. unfold mbind, K_bind, kunwrap.
  destruct (perm_from_bits _) as [f|]; [|done]. unfold mret, K_ret. cbn beta iota.
  change (pt_map t v) with (sv39_map t v). destruct (sv39_map t v v f s) as [[t1 s1]|] eqn:E; [|done].
  intros [= <- <- <-]. by eapply sv39_map_same_region.
Qed.

Lemma map_run_spec (n : nat) : ∀ s (t : SV39PageTable) a v (warm : bool),
  pt_ok (km_mem s) t → fa_wf (km_fa s) → owns s (pt_frames t) → is_perm (map_perm a) →
  map_type a = Identical → 0 <= v → v + n <= 2 ^ 27 →
  (∀ x, v <= x < v + n → pt_lookup (km_mem s) t x = None) →
  (warm = true → v / 512 = (v - 1) / 512 ∧ is_Some (sv39_lookup (km_mem s) t (v - 1))) →
  3 * entered v n warm + 3 <= fa_free (km_fa s) →
  wp (kfold (seqZ v n) (λ '(a, t) vpn, map_one a t vpn) (a, t)) s
    (λ '(a', t') s', ∃ new, map_post s t a (seqZ v n) new s' t' a' ∧ length new <= 3 * entered v n warm).
Proof.
  induction n as [|n IH]; intros s t a v warm Hok Hfa Ho Hperm Hty Hv Hr Hnone Hwarm Hfree.
  { wp_steps. exists []. split; [by apply map_post_nil|]. done. }
  rewrite seqZ_cons by lia. replace (Z.succ v) with (v + 1) by lia. replace (Z.pred (S n)) with (Z.of_nat n) by lia.
  cbn [kfold]. wp_steps. assert (Hvn : is_vpn v) by (unfold is_vpn; lia).
  assert (He : 0 <= entered v (S n) warm) by (unfold entered; destruct warm; case_match; zdiv_lia).
  destruct (proj1 (wp_done _ _ _) (map_one_spec s t a v Hok Hfa Ho Hperm Hvn ltac:(by unfold target_ok; rewrite Hty)
    (Hnone v ltac:(lia)) ltac:(lia))) as ([a1 t1]&s1&E&n1&M1).
  eapply wp_run; [exact E|]. pose proof M1 as [(R1&Y1&P1) G1 L1 F1 D1 T1 O1].
  pose proof (pg_grows _ _ _ _ _ _ _ G1) as GR. pose proof (gr_free _ _ _ GR) as Hf1.
  assert (Hn1 : length n1 <= if warm then 0 else 3).
  { destruct warm; [|simpl in L1; lia]. destruct (Hwarm eq_refl) as [Hreg [e He']].
    pose proof (map_one_region _ _ _ _ _ _ _ _ _ Hty He' Hreg E) as Hfae. rewrite Hfae in Hf1. lia. }
  assert (Hs : is_Some (sv39_lookup (km_mem s1) t1 v)).
  { destruct (T1 v) as (ppn&_&_&Hl&_); [by apply list_elem_of_singleton|]. eexists. exact Hl. }
  set (warm' := bool_decide ((v + 1) / 512 = v / 512)).
  assert (Hb : (if warm then 0 else 3) + 3 * entered (v + 1) n warm' <= 3 * entered v (S n) warm).
  { unfold entered, warm'. rewrite (proj2 (Z.eqb_neq (S n) 0)) by lia. case_bool_decide; destruct (Z.eqb_spec n 0), warm; zdiv_lia. }
  eapply wp_mono; [apply (IH s1 t1 a1 (v + 1) warm')|].
  - apply G1.
  - apply GR.
  - by eapply pt_grow_owns_pt.
  - by rewrite P1.
  - congruence.
  - lia.
  - lia.
  - intros x Hx. rewrite O1; [apply Hnone; lia|unfold is_vpn; lia|]. rewrite list_elem_of_singleton. lia.
  - unfold warm'. replace (v + 1 - 1) with v by lia. intros Hw%bool_decide_eq_true. done.
  - lia.
  - intros [a2 t2] s2 (n2&M2&L2). exists (n1 ++ n2). split; [|rewrite length_app; lia].
    eapply map_post_cons; try done. rewrite elem_of_seqZ. lia.
Qed.

(** ** Segments *)

(** Start address, end address and permissions of a part of the kernel's space. *)
Record kseg := mkSeg { ks_start : Z; ks_end : Z; ks_perm : Z }.

Definition RX : Z := Z.lor PERM_R PERM_X.
Definition KRW : Z := Z.lor PERM_R PERM_W.

(** The parts [new_kernel] maps, in its order. *)
Definition kernel_segs (k : KernelSymbols) (MMIO : list (Z * Z)) : list kseg :=
  [mkSeg (stext k) (etext k) RX; mkSeg (srodata k) (erodata k) PERM_R; mkSeg (sdata k) (edata k) KRW;
   mkSeg (sbss_with_stack k) (ebss k) KRW; mkSeg (ekernel k) MEMORY_END KRW] ++
  ((λ p, mkSeg p.1 (p.1 +w p.2) KRW) <$> MMIO).

Notation KMS := (MemorySet SV39PageTable).

Definition push_seg (ms : KMS) (x : kseg) : K KMem KMS := push_identical ms (ks_start x) (ks_end x) (ks_perm x).

Lemma kfold_fmap {S A B C} (g : A → B) (f : C → B → K S C) l : ∀ c s,
  kfold (g <$> l) f c s = kfold l (λ c x, f c (g x)) c s.
Proof.
  induction l as [|x l IH]; intros c s; [done|]. cbn. unfold mbind, K_bind. destruct (f c (g x) s) as [[c' s']|]; [|done]. apply IH.
Qed.

Lemma bind_ext {S A B} (m : K S A) (f g : A → K S B) s :
  (∀ a s', f a s' = g a s') → (m ≫= f) s = (m ≫= g) s.
Proof. intros H. unfold mbind, K_bind. by destruct (m s) as [[a s']|]. Qed.

Lemma new_kernel_eq k MMIO s :
  new_kernel k MMIO s = (ms ← new_bare; ms ← map_trampoline (strampoline k) ms; kfold (kernel_segs k MMIO) push_seg ms) s.
Proof.
  unfold new_kernel, kernel_segs. cbn [app kfold].
  do 7 (apply bind_ext; intros ? ?). by rewrite kfold_fmap.
Qed.

Definition seg_wf (x : kseg) : Prop :=
  0 <= ks_start x <= ks_end x ∧ ks_end x < 2 ^ 38 ∧ ks_start x mod 4096 = 0 ∧ ks_end x mod 4096 = 0 ∧ is_perm (ks_perm x).

Definition seg_apart (x y : kseg) : Prop := ks_end x <= ks_start y ∨ ks_end y <= ks_start x.

(** Every segment lies apart from those before it. *)
Definition segs_apart (l : list kseg) : Prop := ∀ pre x post, l = pre ++ x :: post → Forall (seg_apart x) pre.

Definition seg_pages_n (x : kseg) : Z := (ks_end x - ks_start x) / 4096.
Definition seg_cost (x : kseg) : Z := 3 * entered (ks_start x / 4096) (seg_pages_n x) false.

Definition segs_cost (l : list kseg) : Z := foldr (λ x n, seg_cost x + n) 0 l.

Definition seg_area (x : kseg) (a : MapArea) : Prop :=
  vpn_range a = mkRange (ks_start x / 4096) (ks_end x / 4096) ∧ map_type a = Identical ∧ map_perm a = ks_perm x.

(** The space after the segments [l]. *)
Record kern_inv (s0 : KMem) (st : Z) (l : list kseg) (s : KMem) (ms : KMS) : Prop := {
  kn_fa : fa_wf (km_fa s);
  kn_ok : ms_ok s ms;
  kn_built : built s0 ms s;
  kn_areas : Forall2 seg_area l (areas ms);
  kn_tramp : pt_lookup (km_mem s) (page_table ms) TRAMP_VPN = Some (tramp_pte st);
  kn_free : fa_free (km_fa s0) - fa_free (km_fa s) <= 3 + segs_cost l;
}.

Lemma seg_new_area x :
  seg_wf x → let a := mkArea (mkRange (ks_start x / 4096) (ks_end x / 4096)) ∅ Identical (ks_perm x) in
  area_new (va_from_usize (ks_start x)) (va_from_usize (ks_end x)) Identical (ks_perm x) = Done a ∧ range_ok a ∧ n_pages a = seg_pages_n x.
Proof.
  intros (H0&H1&H2&H3&_). unfold area_new. rewrite !va_from_usize_id, va_ceil_eq by lia.
  change (va_floor (ks_start x)) with (ks_start x / 4096). unfold range_new.
  replace ((ks_end x + 4095) / 4096) with (ks_end x / 4096) by zdiv_lia.
  rewrite (proj2 (Z.leb_le _ _)) by zdiv_lia. split; [done|]. split; [split; unfold TRAMP_VPN; simpl; zdiv_lia|].
  unfold n_pages, seg_pages_n. simpl. zdiv_lia.
Qed.

Lemma seg_fresh ms l x a :
  Forall2 seg_area l (areas (T := SV39PageTable) ms) → Forall (seg_apart x) l → seg_wf x → Forall seg_wf l →
  vpn_range a = mkRange (ks_start x / 4096) (ks_end x / 4096) → fresh_area (areas ms) a.
Proof.
  intros HF Hap (?&?&?&?&_) Hwf HR b v [i Hi]%list_elem_of_lookup Hv Hb.
  destruct (Forall2_lookup_r _ _ _ _ _ HF Hi) as (y&Hy&(HR'&_&_)).
  rewrite Forall_lookup in Hap. specialize (Hap i y Hy). rewrite Forall_lookup in Hwf. destruct (Hwf i y Hy) as (?&?&?&?&_).
  unfold in_area in *. rewrite HR in Hv. rewrite HR' in Hb. simpl in *. destruct Hap; zdiv_lia.
Qed.

(** [push] of a run of pages. *)
Lemma push_run_wp s (ms : KMS) a :
  fa_wf (km_fa s) → ms_ok s ms → new_area_ok ms a → map_type a = Identical →
  3 * entered (get_start (vpn_range a)) (n_pages a) false + 3 <= fa_free (km_fa s) →
  wp (push ms a None) s (λ ms' s', ∃ new a', push_post s ms a new s' ms' a' ∧
    length new <= 3 * entered (get_start (vpn_range a)) (n_pages a) false).
Proof.
  intros Hfa Hok Hna Hty Hfree. unfold push, area_map. wp_next. pose proof Hna as [Hr Hp He Htg Hfr].
  fold (area_pages a). pose proof (area_pages_eq a Hr) as Hpg. pose proof Hr as [R0 R1 R2]. unfold TRAMP_VPN in R2.
  assert (Hnn : 0 <= n_pages a) by (unfold n_pages; lia).
  destruct (Z_of_nat_complete (n_pages a) Hnn) as [n Hn]. rewrite Hn in *. rewrite Hpg.
  eapply wp_mono; [apply (map_run_spec _ s (page_table ms) a _ false)|].
  - apply Hok.
  - done.
  - intros p Hin. apply Hok. unfold ms_frames. rewrite elem_of_app. auto.
  - done.
  - done.
  - done.
  - unfold n_pages in Hn. lia.
  - intros v Hv. assert (Hin : in_area a v) by (unfold in_area, n_pages in *; lia).
    destruct (in_area_vpn a v) as [Hv1 Hv2]; [done..|]. apply (mo_unmapped _ _ Hok); [done..|]. eauto.
  - done.
  - done.
  - intros [a' t'] s' (new&M&L). wp_steps. exists new, a'. split; [|done]. apply push_post_of_map; [done..|].
    by rewrite <- Hpg in M.
Qed.

Lemma push_seg_wp s0 st l s ms x :
  kern_inv s0 st l s ms → Forall seg_wf l → seg_wf x → Forall (seg_apart x) l → seg_cost x + 3 <= fa_free (km_fa s) →
  wp (push_seg ms x) s (λ ms' s', kern_inv s0 st (l ++ [x]) s' ms').
Proof.
  intros [Hfa Hok Hbu Har Htr Hfr] Hwl Hwf Hap Hfree. destruct (seg_new_area x Hwf) as (Hnew&Hro&Hn).
  unfold push_seg, push_identical. wp_steps. eapply wp_lift; [exact Hnew|]. set (a := mkArea _ _ _ _) in *. cbn beta iota.
  assert (Hcost : 3 * entered (get_start (vpn_range a)) (n_pages a) false = seg_cost x) by (unfold seg_cost; by rewrite Hn).
  eapply wp_mono; [apply push_run_wp; try done|].
  - split; [done|apply Hwf|done|done|by eapply seg_fresh].
  - by rewrite Hcost.
  - intros ms' s' (new&a'&P&Hl). rewrite Hcost in Hl. destruct P as [G Hok' Ha' _ (R'&Y'&P') _ _ Hoth]. split.
    + apply (gr_wf _ _ _ (mg_grows _ _ _ _ _ G)).
    + done.
    + by eapply built_grow.
    + rewrite Ha'. apply Forall2_app; [done|]. constructor; [|constructor]. done.
    + rewrite Hoth; [done|unfold is_vpn, TRAMP_VPN; lia|]. intros Hin. by destruct (in_area_vpn a TRAMP_VPN Hro Hin).
    + unfold segs_cost. rewrite (gr_free _ _ _ (mg_grows _ _ _ _ _ G)), (foldr_snoc_sum seg_cost). unfold segs_cost in Hfr. lia.
Qed.

Lemma entered_nonneg v n b : 0 <= n → 0 <= entered v n b.
Proof. intros. unfold entered. destruct (Z.eqb_spec n 0), b; zdiv_lia. Qed.

Lemma seg_cost_nonneg x : seg_wf x → 0 <= seg_cost x.
Proof. intros (?&_&?&?&_). unfold seg_cost, seg_pages_n. pose proof (entered_nonneg (ks_start x / 4096) ((ks_end x - ks_start x) / 4096) false). zdiv_lia. Qed.

Lemma seg_cost_le x : seg_wf x → seg_cost x <= 3 * ((ks_end x / 4096) / 512 - (ks_start x / 4096) / 512 + 1).
Proof. intros (?&_&?&?&_). unfold seg_cost, seg_pages_n, entered. destruct (Z.eqb_spec ((ks_end x - ks_start x) / 4096) 0); zdiv_lia. Qed.

Lemma segs_cost_app l l' : segs_cost (l ++ l') = segs_cost l + segs_cost l'.
Proof. unfold segs_cost. induction l; simpl; lia. Qed.

Lemma segs_cost_nonneg l : Forall seg_wf l → 0 <= segs_cost l.
Proof. induction 1 as [|x l Hx _ IH]; [done|]. pose proof (seg_cost_nonneg x Hx). unfold segs_cost in *. simpl. lia. Qed.

Lemma push_segs_wp s0 st post : ∀ pre s ms,
  kern_inv s0 st pre s ms → Forall seg_wf (pre ++ post) → segs_apart (pre ++ post) →
  segs_cost (pre ++ post) + 6 <= fa_free (km_fa s0) →
  wp (kfold post push_seg ms) s (λ ms' s', kern_inv s0 st (pre ++ post) s' ms').
Proof.
  induction post as [|x post IH]; intros pre s ms HI Hwf Hap Hfree; cbn [kfold].
  { wp_steps. by rewrite app_nil_r. }
  apply Forall_app in Hwf as Hw. destruct Hw as [Hw1 [Hwx Hw2]%Forall_cons].
  assert (Hx : seg_cost x + 3 <= fa_free (km_fa s)).
  { pose proof (kn_free _ _ _ _ _ HI). pose proof (segs_cost_nonneg _ Hw2).
    rewrite segs_cost_app in Hfree. change (segs_cost (x :: post)) with (seg_cost x + segs_cost post) in Hfree. lia. }
  wp_steps. eapply wp_mono; [apply (push_seg_wp s0 st pre s ms x HI Hw1 Hwx (Hap _ _ _ eq_refl) Hx)|].
  intros ms1 s1 HI1. rewrite cons_middle, app_assoc in Hwf, Hap, Hfree |- *. by apply IH.
Qed.

(** ** The layout *)

(** What the linker script ([hal/arch/riscv/linker.ld]) places where; memory
    remains for the tables. *)
Record layout_ok (k : KernelSymbols) : Prop := {
  ly_base : stext k = 0x80200000;
  ly_text : stext k <= strampoline k ∧ strampoline k + 4096 <= etext k;
  ly_order : etext k = srodata k ∧ srodata k <= erodata k ∧ erodata k = sdata k ∧ sdata k <= edata k ∧
    edata k = sbss_with_stack k ∧ sbss_with_stack k <= ebss k ∧ ebss k = ekernel k;
  ly_aligned : Forall (λ x, x mod 4096 = 0) [etext k; erodata k; edata k; ebss k; strampoline k];
  ly_room : ekernel k + 0x400000 <= MEMORY_END;
}.

(** [MMIO] of [hal/platform/riscv/qemu.rs] *)
Definition MMIO : list (Z * Z) := [(0x10000000, 0x1000); (0x10001000, 0x1000); (0xC000000, 0x400000)].

Section layout.
Context (k : KernelSymbols) (Hk : layout_ok k).

Notation segs := (kernel_segs k MMIO).

Lemma layout_lia (P : Prop) :
  (0x80200000 <= strampoline k → strampoline k + 4096 <= srodata k → srodata k <= sdata k → sdata k <= sbss_with_stack k →
   sbss_with_stack k <= ekernel k → ekernel k <= 0x87C00000 → srodata k mod 4096 = 0 → sdata k mod 4096 = 0 →
   sbss_with_stack k mod 4096 = 0 → ekernel k mod 4096 = 0 → strampoline k mod 4096 = 0 →
   stext k = 0x80200000 → etext k = srodata k → erodata k = sdata k → edata k = sbss_with_stack k → ebss k = ekernel k → P) → P.
Proof using Hk.
  destruct Hk as [H1 [H2 H3] (H4&H5&H6&H7&H8&H9&H10) Ha Hr]. repeat rewrite Forall_cons in Ha.
  destruct Ha as (A1&A2&A3&A4&A5&_). unfold MEMORY_END in Hr. rewrite <- ?H4, <- ?H6, <- ?H8, <- ?H10 in *.
  intros HP. apply HP; first [done|lia|congruence].
Qed.

Lemma segs_wf : Forall seg_wf segs.
Proof using Hk.
  apply layout_lia. intros. unfold kernel_segs, MMIO, MEMORY_END. cbn [app fmap list_fmap].
  repeat (apply Forall_cons; split); try apply Forall_nil_2; unfold seg_wf; cbn [ks_start ks_end ks_perm fst snd];
    rewrite ?wadd_small by lia; split_and!; first [reflexivity|zdiv_lia].
Qed.

Lemma segs_apart_ok : segs_apart segs.
Proof using Hk.
  apply layout_lia. intros. unfold kernel_segs, MMIO, MEMORY_END. cbn [app fmap list_fmap fst snd]. rewrite !wadd_small by lia.
  intros pre x post E. repeat (destruct pre as [|? pre]; [simplify_eq/=; repeat constructor; unfold seg_apart; simpl; lia|]; simplify_eq/=).
Qed.

Lemma segs_cost_le : segs_cost segs <= 219.
Proof using Hk.
  pose proof segs_wf as Hwf. apply layout_lia. intros. revert Hwf. unfold segs_cost, kernel_segs, MMIO, MEMORY_END.
  cbn [app fmap list_fmap fst snd foldr]. rewrite !wadd_small by lia. repeat rewrite Forall_cons.
  intros (W1%seg_cost_le&W2%seg_cost_le&W3%seg_cost_le&W4%seg_cost_le&W5%seg_cost_le&W6%seg_cost_le&W7%seg_cost_le&W8%seg_cost_le&_).
  cbn [ks_start ks_end] in *. zdiv_lia.
Qed.

(** ** What the kernel's tables say *)

(** The entry of a page: the trampoline, or the segment the page lies in. *)
Definition kernel_pte (v : Z) : option Z :=
  if decide (v = TRAMP_VPN) then Some (tramp_pte (T := SV39PageTable) (strampoline k))
  else match list_find (λ x, ks_start x / 4096 <= v < ks_end x / 4096) segs with
       | Some (_, x) => Some (pte_make (T := SV39PageTable) v (ks_perm x))
       | None => None
       end.

Lemma kern_lookup s0 s ms v :
  kern_inv s0 (strampoline k) segs s ms → is_vpn v → sv39_lookup (km_mem s) (page_table ms) v = kernel_pte v.
Proof using.
  intros [_ Hok _ Har Htr _] Hv. unfold kernel_pte. case_decide as Ht; [by subst|].
  destruct (list_find _ segs) as [[i x]|] eqn:Hf.
  - apply list_find_Some in Hf as (Hi&Hin&_). destruct (Forall2_lookup_l _ _ _ _ _ Har Hi) as (a&Ha&HR&HY&HP).
    destruct (mo_mapped _ _ Hok a v) as (ppn&Htg&_&Hl); [by eapply list_elem_of_lookup_2|unfold in_area; by rewrite HR|].
    unfold area_target in Htg. rewrite HY in Htg. injection Htg as <-. by rewrite <- HP.
  - apply list_find_None in Hf. rewrite Forall_lookup in Hf. apply (mo_unmapped _ _ Hok); [done|done|].
    intros a [i Hi]%list_elem_of_lookup Hin. destruct (Forall2_lookup_r _ _ _ _ _ Har Hi) as (x&Hx&HR&_&_).
    apply (Hf i x Hx). unfold in_area in Hin. by rewrite HR in Hin.
Qed.

Lemma seg_perms x : x ∈ segs → ks_perm x ∈ [RX; PERM_R; KRW].
Proof using.
  clear Hk. unfold kernel_segs, MMIO. cbn [app fmap list_fmap]. intros Hx.
  repeat (apply elem_of_cons in Hx as [->|Hx]; [set_solver|]). by apply elem_of_nil in Hx.
Qed.

Lemma segs_end x : x ∈ segs → ks_end x <= MEMORY_END.
Proof using Hk.
  intros Hx. apply layout_lia. intros. revert Hx. unfold kernel_segs, MMIO, MEMORY_END. cbn [app fmap list_fmap fst snd].
  rewrite !wadd_small by lia. intros Hx. repeat (apply elem_of_cons in Hx as [->|Hx]; [simpl; lia|]). by apply elem_of_nil in Hx.
Qed.

(** No page is writable and executable. *)
Lemma kernel_wx v e : is_vpn v → kernel_pte v = Some e → sv39_pte_writable e && sv39_pte_executable e = false.
Proof using Hk.
  assert (Hpte : ∀ p perm, is_ppn p → perm ∈ [RX; PERM_R; KRW] →
    let e := sv39_pte_new p (Z.lor perm PTE_V) in sv39_pte_writable e && sv39_pte_executable e = false).
  { intros p perm Hp Hin. unfold sv39_pte_writable, sv39_pte_executable.
    repeat (apply elem_of_cons in Hin as [->|Hin]; [by rewrite sv39_pte_new_flags by (done || (vm_compute; split; congruence))|]).
    by apply elem_of_nil in Hin. }
  intros Hv. unfold kernel_pte. case_decide; [|destruct (list_find _ segs) as [[i x]|] eqn:Hf; [|done]]; intros [= <-]; apply Hpte.
  - apply layout_lia. intros. unfold is_ppn. zdiv_lia.
  - by left.
  - unfold is_vpn, is_ppn in *. lia.
  - apply list_find_Some in Hf as (Hi&_). apply seg_perms. by eapply list_elem_of_lookup_2.
Qed.

(** The memory behind the image is mapped to itself for reading and writing. *)
Lemma kernel_memory v :
  ekernel k / 4096 <= v < MEMORY_END / 4096 → kernel_pte v = Some (pte_make (T := SV39PageTable) v KRW).
Proof using Hk.
  unfold MEMORY_END. apply layout_lia. intros. unfold kernel_pte, TRAMP_VPN. rewrite decide_False by zdiv_lia.
  unfold kernel_segs, MMIO, MEMORY_END. cbn [app fmap list_fmap fst snd]. rewrite !wadd_small by lia. cbn [list_find ks_start ks_end].
  do 4 (rewrite decide_False by zdiv_lia). by rewrite decide_True by zdiv_lia.
Qed.

Lemma new_kernel_wp s :
  fa_wf (km_fa s) → 225 <= fa_free (km_fa s) →
  wp (new_kernel k MMIO) s (λ ms s', kern_inv s (strampoline k) segs s' ms).
Proof using Hk.
  intros Hfa Hfree. unfold wp. rewrite new_kernel_eq. apply wp_bind.
  assert (Hst : tramp_ok (strampoline k)) by (apply layout_lia; intros; split; lia).
  eapply wp_mono; [apply (bare_trampoline_wp (T := SV39PageTable) (strampoline k)); [done|done|lia]|].
  intros ms s1 Hb. apply wp_bind. eapply wp_mono; [exact Hb|]. clear Hb. intros ms1 s2 [B1 B2 B3 B4 B5 B6 B7 B8].
  apply (push_segs_wp s (strampoline k) segs []); [|apply segs_wf|apply segs_apart_ok|rewrite app_nil_l; pose proof segs_cost_le; lia].
  split; try done; [by rewrite B3|]. rewrite (gr_free _ _ _ B5). unfold segs_cost. simpl. lia.
Qed.
End layout.

(** ** No frame is given back *)

Definition no_free {A} (m : K KMem A) : Prop :=
  ∀ s a s', m s = Done (a, s') → fa_recycled (km_fa s) = [] → fa_recycled (km_fa s') = [].

Lemma no_free_bind {A B} (m : K KMem A) (f : A → K KMem B) : no_free m → (∀ a, no_free (f a)) → no_free (m ≫= f).
Proof. intros Hm Hf s b s'. unfold mbind, K_bind. destruct (m s) as [[a s1]|] eqn:E; [|done]. intros Hb Hr. eapply Hf; [done|]. by eapply Hm. Qed.

Lemma no_free_same {A} (m : K KMem A) : (∀ s a s', m s = Done (a, s') → km_fa s' = km_fa s) → no_free m.
Proof. intros H s a s' E Hr. by rewrite (H _ _ _ E). Qed.

Lemma no_free_alloc : no_free frame_alloc.
Proof.
  intros s o s'. unfold frame_alloc, fa_alloc. intros E Hr. rewrite Hr in E. simpl in E.
  destruct (_ =? _); by injection E as <- <-.
Qed.

Lemma no_free_fold {A B} (f : B → A → K KMem B) l : (∀ b x, no_free (f b x)) → ∀ b, no_free (kfold l f b).
Proof. intros Hf. induction l as [|x l IH]; intros b; cbn [kfold]; [by apply no_free_same; intros ??? [= <- <-]|]. by apply no_free_bind. Qed.

Lemma no_free_unwrap {A} (o : option A) : no_free (kunwrap o).
Proof. destruct o; apply no_free_same; [by intros ??? [= <- <-]|done]. Qed.

Lemma no_free_lift {A} (o : outcome A) : no_free (klift o).
Proof. apply no_free_same. intros s a s'. unfold klift. by destruct o; intros [= <- <-]. Qed.

#[local] Hint Resolve no_free_bind no_free_alloc no_free_fold no_free_unwrap no_free_lift : no_free.
#[local] Hint Extern 2 (no_free (mret _)) => apply no_free_same; intros ??? [= <- <-]; reflexivity : no_free.
#[local] Hint Extern 2 (no_free kget) => apply no_free_same; intros ??? [= <- <-]; reflexivity : no_free.
#[local] Hint Extern 2 (no_free (write_pte _ _)) => apply no_free_same; intros ??? [= <- <-]; reflexivity : no_free.
#[local] Hint Extern 2 (no_free (kassert _)) => apply no_free_same; intros ???; unfold kassert; case_match; [intros [= <- <-]|]; done : no_free.

Lemma no_free_find_create idxs : ∀ i ppn pt, no_free (find_pte_create_loop idxs i ppn pt).
Proof.
  induction idxs as [|idx idxs IH]; intros i ppn pt; cbn [find_pte_create_loop]; [auto with no_free|].
  case_match; [auto with no_free|]. apply no_free_bind; [|auto with no_free]. unfold ensure_table.
  apply no_free_bind; [auto with no_free|]. intros s. case_match; auto with no_free.
Qed.

Lemma no_free_map pt v ppn f : no_free (sv39_map pt v ppn f).
Proof.
  unfold sv39_map, sv39_find_pte_create. apply no_free_bind; [apply no_free_find_create|]. intros [o pt']. auto 8 with no_free.
Qed.

Lemma no_free_run vs : ∀ a (t : SV39PageTable),
  map_type a = Identical → no_free (kfold vs (λ '(a, t) v, map_one a t v) (a, t)).
Proof.
  induction vs as [|v vs IH]; intros a t Hty; cbn [kfold]; [auto with no_free|]. intros s [a' t'] s'.
  unfold mbind at 1, K_bind at 1. rewrite map_one_ident by done. unfold mbind at 1, K_bind at 1.
  destruct (kunwrap _ s) as [[f s0]|] eqn:E0; [|done]. unfold mbind at 1, K_bind at 1. change (pt_map t v) with (sv39_map t v).
  destruct (sv39_map t v v f s0) as [[t1 s1]|] eqn:E; [|done]. unfold mret, K_ret. cbn beta iota. intros Hf Hr.
  eapply IH; [exact Hty|exact Hf|]. eapply no_free_map; [exact E|]. by eapply no_free_unwrap.
Qed.

Lemma no_free_push_seg ms x : no_free (push_seg ms x).
Proof.
  unfold push_seg, push_identical, area_new, range_new. intros s ms' s'. unfold mbind at 1, K_bind at 1, klift.
  destruct (_ <=? _); [|done]. cbn [mbind outcome_bind]. unfold mret, outcome_ret. cbn beta iota.
  intros E Hr. revert E Hr. apply no_free_bind; [by apply no_free_run|]. intros [a t]. auto with no_free.
Qed.

Lemma no_free_new_kernel k l : no_free (new_kernel k l).
Proof.
  intros s ms s'. rewrite new_kernel_eq. apply no_free_bind; [unfold new_bare, pt_new_kernel; simpl; unfold sv39_new_kernel; auto with no_free|].
  intros ms0. apply no_free_bind; [|intros ms1; apply no_free_fold; apply no_free_push_seg].
  unfold map_trampoline. repeat (apply no_free_bind; [auto with no_free; apply no_free_map|intros ?]). auto with no_free.
Qed.

(** ** [mm::init] *)

(** The heap is the external allocator; the result is the kernel's space and the
    value written to [satp]. *)
Definition mm_init (k : KernelSymbols) : K KMem (KMS * Z) :=
  init_frame_allocator (ekernel k) ;;
  ms ← new_kernel k MMIO;
  mret (ms, sv39_activate (page_table ms)).

(** The allocator after [init_frame_allocator]. *)
Definition boot_fa (k : KernelSymbols) : StackFrameAllocator := mkFA (ekernel k / 4096) (MEMORY_END / 4096) [].

Lemma boot_fa_ok k : layout_ok k → fa_wf (boot_fa k) ∧ fa_free (boot_fa k) = (MEMORY_END - ekernel k) / 4096 ∧ 1024 <= fa_free (boot_fa k).
Proof.
  intros Hk. unfold fa_wf, fa_free, MEMORY_END, boot_fa. cbn [fa_recycled fa_current fa_end length]. apply (layout_lia k Hk). intros.
  split_and!; try apply NoDup_nil_2; try apply Forall_nil_2; unfold MEMORY_END; zdiv_lia.
Qed.

Record boot_space (k : KernelSymbols) (s : KMem) (ms : KMS) (s' : KMem) : Prop := {
  bs_inv : kern_inv (mkKMem (km_mem s) (boot_fa k)) (strampoline k) (kernel_segs k MMIO) s' ms;
  bs_free : (MEMORY_END - ekernel k) / 4096 - 222 <= fa_free (km_fa s');
  bs_unused : fa_recycled (km_fa s') = [];
}.

Lemma mm_init_wp k s :
  layout_ok k → km_fa s = fa_new →
  wp (mm_init k) s (λ '(ms, satp) s', boot_space k s ms s' ∧ satp = token ms).
Proof.
  intros Hk Hs. destruct (boot_fa_ok k Hk) as (Hfa&Hfree&Hroom). unfold mm_init, init_frame_allocator. wp_steps.
  assert (E : fa_init (km_fa s) (pa_ceil (pa_from_usize (ekernel k))) (pa_floor (pa_from_usize MEMORY_END)) = boot_fa k).
  { rewrite Hs. unfold fa_init, boot_fa. cbn [fa_recycled fa_new]. apply (layout_lia k Hk). intros. unfold MEMORY_END.
    rewrite !pa_from_usize_mod, !Z.mod_small, pa_ceil_eq by lia. f_equal. zdiv_lia. }
  rewrite E. destruct (proj1 (wp_done _ _ _) (new_kernel_wp k Hk (mkKMem (km_mem s) (boot_fa k)) Hfa ltac:(simpl; lia))) as (ms&s'&En&HI).
  eapply wp_run; [exact En|]. wp_steps. split; [|done].
  split; [done| |by apply (no_free_new_kernel k MMIO _ _ _ En)]. pose proof (kn_free _ _ _ _ _ HI) as H1. pose proof (segs_cost_le k Hk). cbn [km_fa] in H1. lia.
Qed.

(** The frames the allocator has left lie between the image and the end of memory. *)
Lemma boot_frames k s ms s' :
  layout_ok k → boot_space k s ms s' →
  fa_end (km_fa s') = MEMORY_END / 4096 ∧ ∀ p, 0 <= p → ¬ fa_owned (km_fa s') p → ekernel k / 4096 <= p.
Proof.
  intros Hk [[_ _ [G _] _ _ _] _ _]. destruct (boot_fa_ok k Hk) as (Hwf&_). split.
  { by rewrite (grows_end (mkKMem (km_mem s) (boot_fa k)) _ _ Hwf G). }
  intros p Hp Hno. destruct (decide (p < ekernel k / 4096)); [|lia]. destruct Hno. apply (gr_owned _ _ _ G). right.
  split; [simpl; lia|]. simpl. rewrite elem_of_nil. tauto.
Qed.

Lemma boot_memory k s ms s' p :
  layout_ok k → boot_space k s ms s' → ekernel k / 4096 <= p < fa_end (km_fa s') →
  sv39_lookup (km_mem s') (page_table ms) p = Some (sv39_pte_new p (Z.lor KRW PTE_V)).
Proof.
  intros Hk HB Hp. destruct (boot_frames _ _ _ _ Hk HB) as [Hend _]. rewrite Hend in Hp.
  rewrite (kern_lookup k _ _ _ p (bs_inv _ _ _ _ HB)); [by apply (kernel_memory k Hk)|].
  unfold is_vpn, MEMORY_END in *. apply (layout_lia k Hk). intros. zdiv_lia.
Qed.

(** C11: from the layout of the linker script, the start of memory management
    builds the kernel's address space without a panic, with at most 222 frames
    for its tables.  The tables translate every page as [kernel_pte] says: the
    trampoline, code, read-only data, data, the rest of the memory and the
    devices, each to itself with its permissions, and nothing else; no page is
    writable and executable.  Every frame the allocator manages is mapped to
    itself for reading and writing, so the kernel can reach what it hands out,
    and the image of the kernel is left as it was. *)
Theorem kernel_space_correct k s :
  layout_ok k → km_fa s = fa_new →
  wp (mm_init k) s (λ '(ms, satp) s',
    fa_wf (km_fa s') ∧ ms_ok s' ms ∧ satp = token ms ∧
    (∀ v, is_vpn v → sv39_lookup (km_mem s') (page_table ms) v = kernel_pte k v) ∧
    (∀ v e, is_vpn v → sv39_lookup (km_mem s') (page_table ms) v = Some e → sv39_pte_writable e && sv39_pte_executable e = false) ∧
    (∀ p, ekernel k / 4096 <= p < fa_end (km_fa s') →
       sv39_lookup (km_mem s') (page_table ms) p = Some (sv39_pte_new p (Z.lor KRW PTE_V))) ∧
    (∀ p fa, fa_alloc (km_fa s') = Some (p, fa) → ekernel k / 4096 <= p < fa_end (km_fa s')) ∧
    (∀ x, 0 <= x < ekernel k → km_mem s' x = km_mem s x) ∧
    (MEMORY_END - ekernel k) / 4096 - 222 <= fa_free (km_fa s')).
Proof.
  intros Hk Hs. eapply wp_mono; [by apply mm_init_wp|]. intros [ms satp] s' [HB ->].
  pose proof HB as [HI Hfree _]. pose proof HI as [Hfa Hok [G M] _ _ _]. destruct (boot_frames _ _ _ _ Hk HB) as [Hend Hlow].
  assert (Hal : ekernel k mod 4096 = 0) by (apply (layout_lia k Hk); done).
  split; [done|]. split; [done|]. split; [done|]. split; [intros v Hv; by eapply kern_lookup|].
  split; [intros v e Hv; rewrite (kern_lookup k _ _ _ v HI Hv); by apply kernel_wx|].
  split; [by intros p; apply (boot_memory k s)|]. split; [|split; [|done]].
  - intros p fa Ha. destruct (fa_alloc_fresh _ _ _ Hfa Ha) as (Hwf'&Hno&Hown&He&_).
    assert (fa_owned fa p) as [Hp _] by (apply Hown; auto). destruct Hwf' as (_&_&Hcur&_). split; [|lia]. apply Hlow; [lia|done].
  - intros x Hx. apply M. intros Hin. apply (gr_fresh _ _ _ G _ Hin). split; [simpl; zdiv_lia|]. simpl. rewrite elem_of_nil. tauto.
Qed.

(** A kernel image of 2 MB. *)
Definition demo_syms : KernelSymbols :=
  mkSyms 0x80200000 0x80280000 0x80280000 0x802A0000 0x802A0000 0x802C0000 0x802C0000 0x80400000 0x80400000 0x80201000.

Lemma demo_layout : layout_ok demo_syms.
Proof. split; unfold MEMORY_END; simpl; try lia. repeat constructor. Qed.

Lemma kernel_space_correct_witness :
  wp (mm_init demo_syms) (mkKMem (λ _, 0) fa_new) (λ '(ms, satp) s',
    sv39_lookup (km_mem s') (page_table ms) 0x80200 = Some (sv39_pte_new 0x80200 (Z.lor RX PTE_V)) ∧
    sv39_lookup (km_mem s') (page_table ms) 0x10001 = Some (sv39_pte_new 0x10001 (Z.lor KRW PTE_V)) ∧
    sv39_lookup (km_mem s') (page_table ms) 0x10002 = None ∧ 31000 <= fa_free (km_fa s')).
Proof.
  eapply wp_mono; [apply (kernel_space_correct demo_syms (mkKMem (λ _, 0) fa_new) demo_layout eq_refl)|].
  intros [ms satp] s' (_&_&_&Hl&_&_&_&_&Hf). split; [|split; [|split]].
  - rewrite Hl by (unfold is_vpn; lia). reflexivity.
  - rewrite Hl by (unfold is_vpn; lia). reflexivity.
  - rewrite Hl by (unfold is_vpn; lia). reflexivity.
  - change ((MEMORY_END - ekernel demo_syms) / 4096) with 31744 in Hf. lia.
Defined.
