(* ===== verification/Drivers.v ===== *)
(** * The block device driver ([os/src/drivers/block/virtio_blk_mmio.rs])

    What the kernel does for the crate [virtio_drivers], which does the transfers
    and is a parameter: the memory for its queues and the translation of
    addresses. *)

From S2P Require Import Prelude Address PhysMem IdAlloc FrameAlloc AllocProps PageTable Sv39 UserMem MemorySet MapAreaSpec MemorySetSpec MemorySetOps.
From S2P Require Import Mmap Fork Elf UserCopy KernelSpace.

(** The kernel's memory and [QUEUE_FRAMES]. *)
Record DmaState := mkDma { dm_mem : KMem; queue_frames : list Z }.

Definition on_frames {A} (m : K KMem A) : K DmaState A := λ d,
  '(a, s) ← m (dm_mem d); Done (a, mkDma s (queue_frames d)).

Definition dma_alloc (pages : Z) : K DmaState Z :=
  trackers ← on_frames (frame_alloc_more pages);
  v ← kunwrap trackers;
  ppn_base ← kunwrap (last v);
  kmodify (λ d, mkDma (dm_mem d) (queue_frames d ++ v)) ;;
  mret (pa_from_ppn ppn_base).

(** [paddr.into()] makes the address itself a page number. *)
Fixpoint dealloc_run (n : nat) (ppn_base : Z) : K DmaState unit :=
  match n with
  | O => mret ()
  | S n' => on_frames (frame_dealloc ppn_base) ;; dealloc_run n' (step_by_one ppn_base)
  end.

Definition dma_dealloc (paddr pages : Z) : K DmaState Z :=
  dealloc_run (Z.to_nat pages) (ppn_from_usize paddr) ;; mret 0.

Definition phys_to_virt (paddr : Z) : Z := paddr.

Definition virt_to_phys (m : mem) (kernel_token vaddr : Z) : outcome Z :=
  unwrap (sv39_translate_va m (sv39_from_token kernel_token) (va_from_usize vaddr)).

(** [read_block(..).expect(..)]: [dev_read] is the driver crate's. *)
Section virtio_block.
Context {D : Type} (dev_read : D → Z → option (list Z)) (dev_write : D → Z → list Z → option D).

Definition vb_read_block (d : D) (block_id : Z) : outcome (list Z) := unwrap (dev_read d block_id).
Definition vb_write_block (d : D) (block_id : Z) (buf : list Z) : outcome D := unwrap (dev_write d block_id buf).
End virtio_block.

Lemma last_fmap_seqZ (f : Z → Z) n : 0 < n → last (f <$> seqZ 1 n) = Some (f n).
Proof.
  intros Hn. replace n with ((n - 1) + 1) at 1 by lia. rewrite seqZ_app by lia.
  rewrite fmap_app, last_app. change (seqZ (1 + (n - 1)) 1) with [1 + (n - 1)]. simpl. do 2 f_equal. lia.
Qed.

(** Zeroing frames one after the other. *)
Lemma zero_frames_wp l : ∀ s,
  Forall is_ppn l →
  wp (kfor l (λ p, frame_tracker_new p ;; mret ())) s (λ _ s', km_fa s' = km_fa s ∧
    (∀ x, x / 4096 ∈ l → km_mem s' x = 0) ∧ (∀ x, x / 4096 ∉ l → km_mem s' x = km_mem s x)).
Proof.
  induction l as [|p l IH]; intros s Hl; cbn [kfor]; [wp_steps; set_solver|]. apply Forall_cons in Hl as [Hp Hl].
  unfold frame_tracker_new. wp_steps. eapply wp_mono; [by apply IH|]. cbn [km_fa km_mem with_mem].
  intros [] s' (Hfa&Hz&Ho). split; [done|]. split.
  - intros x Hx. destruct (decide (x / 4096 ∈ l)) as [?|Hn]; [auto|]. rewrite Ho by done. apply zero_frame_inside; [done|set_solver].
  - intros x Hx. apply not_elem_of_cons in Hx as [Hne Hx]. rewrite Ho by done. by apply (zero_frame_outside _ p).
Qed.

(** What [dma_alloc] hands to the device: [pages] frames in a row. *)
Record dma_post (s : KMem) (q : list Z) (pages pa : Z) (d : DmaState) : Prop := {
  dp_base : pa = fa_current (km_fa s) * 4096;
  dp_wf : fa_wf (km_fa (dm_mem d));
  dp_end : fa_end (km_fa (dm_mem d)) = fa_end (km_fa s);
  dp_fresh : ∀ p, pa / 4096 <= p < pa / 4096 + pages → ¬ fa_owned (km_fa s) p;
  dp_owned : ∀ p, fa_owned (km_fa (dm_mem d)) p ↔ pa / 4096 <= p < pa / 4096 + pages ∨ fa_owned (km_fa s) p;
  dp_zero : ∀ x, pa <= x < pa + pages * 4096 → km_mem (dm_mem d) x = 0;
  dp_same : ∀ x, ¬ (pa <= x < pa + pages * 4096) → km_mem (dm_mem d) x = km_mem s x;
  dp_queue : ∀ p, p ∈ queue_frames d ↔ p ∈ q ∨ pa / 4096 <= p < pa / 4096 + pages;
}.

Lemma dma_alloc_wp s q pages :
  fa_wf (km_fa s) → 0 < pages → fa_current (km_fa s) + pages < fa_end (km_fa s) →
  wp (dma_alloc pages) (mkDma s q) (λ pa d, dma_post s q pages pa d).
Proof.
  intros Hfa Hn Hroom. pose proof Hfa as (_&_&Hc&He). pose proof (alloc_more_eq _ _ Hfa Hn Hroom) as Ha.
  set (l := (λ x, fa_current (km_fa s) + pages - x) <$> seqZ 1 pages) in *.
  destruct (alloc_more_fresh _ pages _ _ Hfa ltac:(lia) Ha) as (_&_&Hwf&Hin&Hfr&Hown).
  assert (Hl : Forall is_ppn l) by (apply Forall_forall; intros p Hp%Hin; unfold is_ppn; lia).
  destruct (proj1 (wp_done _ _ _) (zero_frames_wp l (mkKMem (km_mem s) (mkFA (fa_current (km_fa s) + pages) (fa_end (km_fa s)) (fa_recycled (km_fa s)))) Hl))
    as ([]&s'&E&Hfa'&Hz&Ho). cbn [km_fa km_mem] in Hfa', Ho.
  assert (Hm : frame_alloc_more pages s = Done (Some l, s')).
  { unfold frame_alloc_more. rewrite Ha. unfold mbind, K_bind in E |- *. by rewrite E. }
  unfold dma_alloc, on_frames. wp_steps. eapply (wp_run _ _ (Some l) (mkDma s' q)).
  { cbn [dm_mem queue_frames]. by rewrite Hm. }
  wp_steps. unfold l at 1. rewrite last_fmap_seqZ by lia. wp_steps. cbn [dm_mem queue_frames].
  replace (fa_current (km_fa s) + pages - pages) with (fa_current (km_fa s)) by lia. rewrite pa_from_ppn_eq by lia.
  split; cbn [dm_mem queue_frames]; rewrite ?Hfa', ?Z.div_mul by lia; try done.
  - intros p Hp. apply Hfr, Hin. lia.
  - intros p. rewrite Hown, Hin. done.
  - intros x Hx. apply Hz, Hin. zdiv_lia.
  - intros x Hx. apply Ho. rewrite Hin. zdiv_lia.
  - intros p. rewrite elem_of_app, Hin. done.
Qed.

(** After the start of memory management [dma_alloc] gives the block driver
    a page-aligned run of zero-filled frames between the image of the kernel
    and the end of memory that nobody used; nothing else in memory changes, the
    kernel's address space is intact, and every address of the run is its own
    physical address, so what the driver writes is what the device reads. *)
Theorem dma_alloc_correct k s0 ms s q pages :
  layout_ok k → boot_space k s0 ms s → 0 < pages < fa_free (km_fa s) →
  wp (dma_alloc pages) (mkDma s q) (λ pa d, let m := km_mem (dm_mem d) in
    pa mod 4096 = 0 ∧ ekernel k <= pa ∧ pa + pages * 4096 <= MEMORY_END ∧
    fa_wf (km_fa (dm_mem d)) ∧ ms_ok (dm_mem d) ms ∧
    (∀ p, pa / 4096 <= p < pa / 4096 + pages → ¬ fa_owned (km_fa s) p ∧ fa_owned (km_fa (dm_mem d)) p ∧ p ∈ queue_frames d) ∧
    (∀ x, pa <= x < pa + pages * 4096 → m x = 0 ∧ virt_to_phys m (token ms) (phys_to_virt x) = Done x) ∧
    (∀ x, ¬ (pa <= x < pa + pages * 4096) → m x = km_mem s x)).
Proof.
  intros Hk HB [Hn Hroom]. pose proof HB as [[Hfa Hok _ _ _ _] _ Hun]. pose proof Hfa as (_&_&Hc&_).
  unfold fa_free in Hroom. rewrite Hun in Hroom. simpl in Hroom.
  destruct (boot_frames _ _ _ _ Hk HB) as [Hend Hlow].
  assert (Hal : ekernel k mod 4096 = 0) by (apply (layout_lia k Hk); done).
  eapply wp_mono; [apply dma_alloc_wp; [done|done|lia]|]. intros pa d [-> Hwf _ Hfr Hown Hz Hs Hq]. cbn zeta. rewrite Z.div_mul in * by lia.
  set (c := fa_current (km_fa s)) in *. assert (Hge : ekernel k / 4096 <= c) by (apply Hlow; [lia|apply Hfr; lia]).
  assert (Htab : ∀ x, x / 4096 ∈ pt_frames (page_table ms) → km_mem (dm_mem d) x = km_mem s x).
  { intros x Hx. apply Hs. intros Hr. apply (Hfr (x / 4096)); [zdiv_lia|]. apply (mo_owned _ _ Hok). by apply ms_frames_pt. }
  assert (Hok' : ms_ok (dm_mem d) ms) by (apply (ms_ok_frame s); [done|intros p Hp; apply Hown; right; by apply Hok|done]).
  split; [zdiv_lia|]. split; [zdiv_lia|]. split; [unfold MEMORY_END in *; zdiv_lia|]. split; [done|]. split; [done|].
  split; [intros p Hp; rewrite Hown, Hq; auto|]. split; [|done]. intros x Hx. split; [by apply Hz|].
  destruct (pt_frame (km_mem s) (km_mem (dm_mem d)) (page_table ms)) as [_ Hl]; [apply Hok|done|].
  assert (Hp : is_vpn (x / 4096) ∧ is_ppn (x / 4096) ∧ ekernel k / 4096 <= x / 4096 < fa_end (km_fa s)).
  { unfold is_vpn, is_ppn, MEMORY_END in *. zdiv_lia. }
  destruct Hp as (Hv&Hpp&Hr). pose proof (boot_memory _ _ _ _ _ Hk HB Hr) as Hm. change (sv39_lookup (km_mem s)) with (pt_lookup (km_mem s)) in Hm. rewrite <- (Hl _ Hv) in Hm.
  change (virt_to_phys (km_mem (dm_mem d)) (token ms) (phys_to_virt x)) with (translated_ref (km_mem (dm_mem d)) (token ms) x).
  rewrite (translated_ref_lookup _ _ _ (sv39_pte_new (x / 4096) (Z.lor KRW PTE_V))).
  - destruct (perm_pte (x / 4096) KRW Hpp eq_refl) as (_&_&->). f_equal. zdiv_lia.
  - unfold is_vpn in Hv. zdiv_lia.
  - rewrite <- Hm. by apply (token_lookup s).
Qed.

(** Giving the memory back panics: the address is taken for a page number, which
    lies beyond every frame the allocator has. *)
Lemma dma_dealloc_panics d paddr pages :
  0 < pages → 0 <= paddr < 2 ^ 44 → fa_current (km_fa (dm_mem d)) <= paddr → dma_dealloc paddr pages d = Panic.
Proof.
  intros Hn Hp Hc. unfold dma_dealloc. destruct (Z.to_nat pages) as [|n] eqn:E; [lia|]. cbn [dealloc_run].
  unfold mbind, K_bind, on_frames, frame_dealloc, fa_dealloc. rewrite ppn_from_usize_id by lia.
  by rewrite (proj2 (Z.leb_le _ _)) by lia.
Qed.

Lemma dma_not_returned k s0 ms s q pages :
  layout_ok k → boot_space k s0 ms s → 0 < pages < fa_free (km_fa s) →
  wp (dma_alloc pages) (mkDma s q) (λ pa d, dma_dealloc pa pages d = Panic).
Proof.
  intros Hk HB [Hn Hroom]. pose proof HB as [[Hfa _ _ _ _ _] _ Hun]. pose proof Hfa as (_&_&Hc&_).
  unfold fa_free in Hroom. rewrite Hun in Hroom. simpl in Hroom. destruct (boot_frames _ _ _ _ Hk HB) as [Hend Hlow].
  eapply wp_mono; [apply dma_alloc_wp; [done|done|lia]|]. intros pa d [-> (_&_&Hc'&_) He Hfr _ _ _ _]. rewrite Z.div_mul in * by lia.
  assert (Hge : ekernel k / 4096 <= fa_current (km_fa s)) by (apply Hlow; [lia|apply Hfr; lia]).
  unfold MEMORY_END in *. apply dma_dealloc_panics; [done|zdiv_lia|]. apply (layout_lia k Hk). intros. zdiv_lia.
Qed.

Lemma dma_alloc_correct_witness :
  ∃ s ms, wp (dma_alloc 2) (mkDma s []) (λ pa d, 0x80400000 <= pa ∧ km_mem (dm_mem d) (pa + 5000) = 0 ∧
    virt_to_phys (km_mem (dm_mem d)) (token ms) (pa + 5000) = Done (pa + 5000)).
Proof.
  destruct (proj1 (wp_done _ _ _) (mm_init_wp demo_syms (mkKMem (λ _, 0) fa_new) demo_layout eq_refl)) as ([ms satp]&s&_&HB&_).
  exists s, ms. pose proof (bs_free _ _ _ _ HB) as Hf. change ((MEMORY_END - ekernel demo_syms) / 4096) with 31744 in Hf.
  eapply wp_mono; [apply (dma_alloc_correct demo_syms _ ms s [] 2 demo_layout HB); lia|].
  intros pa d (_&Hpa&_&_&_&_&Hx&_). split; [exact Hpa|]. apply Hx. lia.
Defined.
