(* ===== verification/ResProps.v ===== *)
(** * Theorems about stacks and thread resources *)

From S2P Require Import Prelude Address PhysMem IdAlloc FrameAlloc PageTable Sv39 MemorySet MapAreaSpec MemorySetSpec.
From S2P Require Import MemorySetOps Mmap UserRes StackProps SpaceProps.

Section res.
Context {T : Type} `{!PageTable T}.
Implicit Types s : Spaced T.

(** ** Kernel stacks *)

(** A kernel address space without stacks, whose areas end at page [lim]. *)
Definition kst_start (lim : Z) s : Prop :=
  sp_ok s ∧ sp_ids s = ra_new ∧ 0 <= lim < TRAMP_VPN ∧ ∀ a, a ∈ areas (sp_space s) → get_end (vpn_range a) <= lim.

(** Room for one more stack, and the frames it may take. *)
Definition kst_room (lim : Z) s : Prop := lim < TRAMP_VPN - 3 * (ra_current (sp_ids s) + 1) ∧ 6 <= sp_free s.

Inductive kst_step (lim : Z) s s' : Prop :=
| kst_alloc_step id : kst_room lim s → kstack_alloc s = Done (id, s') → kst_step lim s s'
| kst_drop_step id : ra_live (sp_ids s) id → kstack_drop id s = Done ((), s') → kst_step lim s s'.

Lemma kst_start_inv lim s : kst_start lim s → kst_inv lim s.
Proof.
  intros (Hok&Hids&Hlim&Ha). split; rewrite ?Hids; simpl; [done|apply ra_new_wf|lia|].
  split; [auto|]. intros sl (id&[? _]&_). rewrite Hids in *. simpl in *. lia.
Qed.

Lemma kst_reach_inv lim s0 s : kst_start lim s0 → rtc (kst_step lim) s0 s → kst_inv lim s.
Proof.
  intros H0%kst_start_inv Hr. induction Hr as [|s1 s2 s3 Hstep _ IH]; [done|]. apply IH.
  destruct Hstep as [id [Hr1 Hr2] Hrun|id Hl Hrun].
  - destruct (proj1 (wp_done _ _ _) (kstack_alloc_wp lim s1 H0 Hr1 Hr2)) as (?&?&E&HI&_). congruence.
  - destruct (proj1 (wp_done _ _ _) (kstack_drop_wp lim s1 id H0 Hl)) as (?&?&E&HI&_). congruence.
Qed.

(** A page outside the slots and beyond [lim] is not mapped. *)
Lemma unmapped_beyond lim (P : slot → Prop) s v :
  sp_ok s → slots_in lim P (sp_space s) → 0 <= lim <= v → v < TRAMP_VPN → (∀ sl, P sl → ¬ slot_page sl v) → sp_lookup s v = None.
Proof.
  intros [_ Hok] [Hin _] Hv1 Hv2 Hn. apply (mo_unmapped _ _ Hok); [unfold is_vpn, TRAMP_VPN in *; lia|lia|].
  intros a Ha Hav. destruct (Hin a Ha) as [Hle|(sl&HP&Hs)]; [unfold in_area in Hav; lia|].
  apply (Hn sl HP). by apply (is_slot_page a sl).
Qed.

Lemma mapped_slot lim (P : slot → Prop) s sl v :
  sp_ok s → slots_in lim P (sp_space s) → P sl → slot_page sl v → ∃ ppn, sp_lookup s v = Some (pte_make ppn sl.2) ∧ is_ppn ppn.
Proof.
  intros [_ Hok] [_ Hin] HP Hv. destruct (Hin sl HP) as (a&Ha&Hs).
  destruct (mo_mapped _ _ Hok a v Ha) as (ppn&_&Hp&Hl); [by apply (is_slot_page a sl)|]. exists ppn.
  destruct Hs as (_&_&<-). done.
Qed.

(** C34: whatever kernel stacks are made and dropped, each stack in use is mapped
    for reading and writing, the page below it is a guard page (and so is the
    page above it, but for the first stack, which lies under the trampoline),
    and making or dropping a stack does not panic while frames and addresses
    last. *)
Theorem kernel_stacks_isolated lim s0 s :
  kst_start lim s0 → rtc (kst_step lim) s0 s →
  (∀ id, ra_live (sp_ids s) id →
     let '(lo, hi) := ((kst id).1.1, (kst id).1.2) in
     (∀ v, lo <= v < hi → ∃ ppn, sp_lookup s v = Some (pte_make ppn RW) ∧ is_ppn ppn) ∧
     sp_lookup s (lo - 1) = None ∧ (id ≠ 0 → sp_lookup s hi = None) ∧
     get_top id = TRAMPOLINE - (TRAMP_VPN - hi) * 4096) ∧
  (∀ id id' v, ra_live (sp_ids s) id → ra_live (sp_ids s) id' → slot_page (kst id) v → slot_page (kst id') v → id = id') ∧
  (kst_room lim s → kstack_alloc s ≠ Panic) ∧ (∀ id, ra_live (sp_ids s) id → kstack_drop id s ≠ Panic).
Proof.
  intros H0 Hr. pose proof (kst_reach_inv _ _ _ H0 Hr) as HI. pose proof HI as [Hok Hids Hlim Hsl]. split; [|split; [|split]].
  - intros id Hid. apply live_range in Hid as Hrange. unfold TRAMP_VPN in Hlim. split; [|split; [|split]].
    + intros v Hv. apply (mapped_slot lim _ s (kst id) v Hok Hsl); [by exists id|done].
    + apply (unmapped_beyond lim _ s _ Hok Hsl); unfold TRAMP_VPN; simpl; try (unfold TRAMP_VPN; lia).
      intros sl (j&Hj&->) Hv. apply live_range in Hj. unfold slot_page in Hv. simpl in Hv. unfold TRAMP_VPN in Hv. lia.
    + intros Hne. apply (unmapped_beyond lim _ s _ Hok Hsl); unfold TRAMP_VPN; simpl; try (unfold TRAMP_VPN; lia).
      intros sl (j&Hj&->) Hv. apply live_range in Hj. unfold slot_page in Hv. simpl in Hv. unfold TRAMP_VPN in Hv. lia.
    + unfold get_top. rewrite kst_position by (unfold TRAMP_VPN; lia). simpl. lia.
  - intros id id' v Hid Hid'. apply live_range in Hid, Hid'. apply kst_disjoint; lia.
  - intros [Hr1 Hr2]. destruct (proj1 (wp_done _ _ _) (kstack_alloc_wp lim s HI Hr1 Hr2)) as (?&?&->&_). done.
  - intros id Hid. destruct (proj1 (wp_done _ _ _) (kstack_drop_wp lim s id HI Hid)) as (?&?&->&_). done.
Qed.

(** ** Threads *)

(** An address space before its first thread, whose areas end at page [lim]. *)
Definition thr_start (lim : Z) s : Prop :=
  sp_ok s ∧ sp_ids s = ra_new ∧ 0 <= lim < TRAMP_VPN - 25 ∧
  ∀ a, a ∈ areas (sp_space s) → get_end (vpn_range a) <= lim.

Inductive thr_step s s' : Prop :=
| thr_new_step tid : ra_current (sp_ids s) < 6 → 9 <= sp_free s → task_user_res_new true s = Done (tid, s') → thr_step s s'
| thr_drop_step tid : ra_live (sp_ids s) tid → task_user_res_drop tid s = Done ((), s') → thr_step s s'.

Lemma thr_reach_inv lim s0 s : thr_start lim s0 → rtc thr_step s0 s → thr_inv lim s.
Proof.
  intros (Hok&Hids&Hlim&Ha) Hr.
  assert (H0 : thr_inv lim s0).
  { split; rewrite ?Hids; simpl; [done|apply ra_new_wf|lia|lia|].
    split; [auto|]. intros sl (id&[? _]&_). rewrite Hids in *. simpl in *. lia. }
  clear Hok Hids Hlim Ha. induction Hr as [|s1 s2 s3 Hstep _ IH]; [done|]. apply IH.
  destruct Hstep as [tid Hc Hf Hrun|tid Hl Hrun].
  - destruct (proj1 (wp_done _ _ _) (task_user_res_new_wp lim s1 H0 Hc Hf)) as (?&?&E&HI&_). congruence.
  - destruct (proj1 (wp_done _ _ _) (task_user_res_drop_wp lim s1 tid H0 Hl)) as (?&?&E&HI&_). congruence.
Qed.

Lemma trap_cx_ppn_wp lim s tid :
  thr_inv lim s → ra_live (sp_ids s) tid →
  wp (trap_cx_ppn tid) s (λ ppn s', s' = s ∧ sp_lookup s (tcx tid).1.1 = Some (pte_make ppn RW) ∧ is_ppn ppn).
Proof.
  intros [Hok Hids Hlim Hmax Hsl] Hid. apply live_range in Hid as Hr. unfold trap_cx_ppn.
  destruct (tcx_position tid) as [-> _]; [lia|]. destruct (va_page_high (1 + tid)) as (_&_&Hv); [unfold TRAMP_VPN in *; lia|].
  wp_next. eapply wp_lift; [exact Hv|]. wp_steps.
  destruct (mapped_slot lim _ s (tcx tid) (TRAMP_VPN - 1 - tid) Hok Hsl) as (ppn&Hl&Hp); [exists tid; auto|unfold slot_page; simpl; lia|].
  replace (TRAMP_VPN - (1 + tid)) with (TRAMP_VPN - 1 - tid) by lia. unfold translate, sp_lookup in *.
  pose proof (pt_translate_spec (km_mem (sp_mem s)) (page_table (sp_space s)) (TRAMP_VPN - 1 - tid)) as Ht.
  destruct (pt_translate _ _ _) as [e|]; [|congruence]. destruct (pte_valid e); [|congruence]. wp_steps.
  assert (e = pte_make ppn (tcx tid).2) as -> by congruence.
  destruct (pte_make_spec ppn (tcx tid).2 Hp ltac:(done)) as [_ ->]. done.
Qed.

(** Whatever threads of a process start and end, with no more than six ids
    in play, the user stack of each is mapped for the user with an unmapped
    page below it, its trap context is mapped for the kernel only and
    [trap_cx_ppn] finds its frame, no two threads share a page, and neither
    start nor end panics. *)
Theorem thread_resources_correct lim s0 s :
  thr_start lim s0 → rtc thr_step s0 s →
  (∀ tid, ra_live (sp_ids s) tid →
     (∀ v, slot_page (ust tid) v → ∃ ppn, sp_lookup s v = Some (pte_make ppn RWU) ∧ is_ppn ppn) ∧
     sp_lookup s ((ust tid).1.1 - 1) = None ∧ ustack_top tid = TRAMPOLINE - (TRAMP_VPN - (ust tid).1.2) * 4096 ∧
     wp (trap_cx_ppn tid) s (λ ppn s', s' = s ∧ sp_lookup s (tcx tid).1.1 = Some (pte_make ppn RW) ∧ is_ppn ppn)) ∧
  (∀ i j sl sl' v, ra_live (sp_ids s) i → ra_live (sp_ids s) j → (sl = ust i ∨ sl = tcx i) → (sl' = ust j ∨ sl' = tcx j) →
     slot_page sl v → slot_page sl' v → i = j ∧ sl = sl') ∧
  (ra_current (sp_ids s) < 6 → 9 <= sp_free s → task_user_res_new true s ≠ Panic) ∧
  (∀ tid, ra_live (sp_ids s) tid → task_user_res_drop tid s ≠ Panic).
Proof.
  intros H0 Hr. pose proof (thr_reach_inv _ _ _ H0 Hr) as HI. pose proof HI as [Hok Hids Hlim Hmax Hsl]. split; [|split; [|split]].
  - intros tid Hid. apply live_range in Hid as Hrange. split; [|split; [|split; [|by eapply trap_cx_ppn_wp]]].
    + intros v Hv. apply (mapped_slot lim _ s (ust tid) v Hok Hsl); [exists tid; auto|done].
    + unfold TRAMP_VPN in Hlim. apply (unmapped_beyond lim _ s _ Hok Hsl); unfold TRAMP_VPN; simpl; try (unfold TRAMP_VPN; lia).
      intros sl (j&Hj&[-> | ->]) Hv; apply live_range in Hj; unfold slot_page in Hv; simpl in Hv; unfold TRAMP_VPN in Hv; lia.
    + unfold ustack_top. destruct (ust_position tid) as [_ ->]; [lia|]. simpl. lia.
  - intros i j sl sl' v Hi Hj. apply live_range in Hi, Hj. apply thread_slots_apart; lia.
  - intros Hc Hf. destruct (proj1 (wp_done _ _ _) (task_user_res_new_wp lim s HI Hc Hf)) as (?&?&->&_). done.
  - intros tid Hid. destruct (proj1 (wp_done _ _ _) (task_user_res_drop_wp lim s tid HI Hid)) as (?&?&->&_). done.
Qed.

Lemma insert_over_mapped_panics s start_va end_va v perm e :
  sp_ok s → va_floor start_va = v → va_ceil end_va = v + 2 → is_perm perm → is_vpn v → is_vpn (v + 1) →
  sp_lookup s (v + 1) = Some e → insert_framed start_va end_va perm s = Panic.
Proof.
  intros [Hfa Hok] Hsv Hev Hperm Hv Hv1 Hl1. unfold insert_framed, with_space, insert_framed_area, mbind, K_bind, klift, area_new, range_new.
  rewrite Hsv, Hev, (proj2 (Z.leb_le v (v + 2))) by lia. simpl. unfold push, area_map, mbind, K_bind. simpl.
  set (a := mkArea _ _ _ _). unfold is_vpn in Hv. rewrite range_elems_seqZ by lia. replace (v + 2 - v) with 2 by lia.
  change (seqZ v 2) with [0 + v; 1 + v]. rewrite Z.add_0_l, (Z.add_comm 1).
  assert (Hown : owns (sp_mem s) (pt_frames (page_table (sp_space s)))).
  { intros q Hq. apply (mo_owned _ _ Hok). unfold ms_frames. apply elem_of_app. by left. }
  pose proof (map_pages_cwp [v; v + 1] (sp_mem s) (page_table (sp_space s)) a (mo_pt _ _ Hok) Hfa Hown Hperm) as Hc.
  unfold cwp in Hc. destruct (kfold _ _ _ _) as [[[a1 t1] m1]|]; [exfalso|done].
  destruct Hc as [Hn _]; [repeat constructor; set_solver by lia| |].
  - intros v'. rewrite !elem_of_cons, elem_of_nil. intros [->|[->|[]]]; done.
  - unfold sp_lookup in Hl1. rewrite Hn in Hl1; [done|]. right. left.
Qed.

(** The stack of the seventh thread takes the page of the trap context of the
    sixth: creating it while the sixth lives panics the kernel. *)
Theorem seventh_thread_panics lim s :
  thr_inv lim s → ra_live (sp_ids s) 5 → alloc_user_res 6 s = Panic.
Proof.
  intros [Hok Hids Hlim Hmax Hsl] H5. unfold alloc_user_res, TRAMP_VPN in *.
  destruct (ust_position 6) as [-> ->]; [lia|].
  destruct (va_page_high (25 - 3 * 6)) as (Hf1&_&_); [unfold TRAMP_VPN; lia|].
  destruct (va_page_high (23 - 3 * 6)) as (_&Hc1&_); [unfold TRAMP_VPN; lia|].
  destruct (mapped_slot lim _ s (tcx 5) (TRAMP_VPN - 7 + 1) Hok Hsl) as (ppn&Hl&_); [exists 5; auto|unfold slot_page; simpl; lia|].
  unfold mbind, K_bind. erewrite (insert_over_mapped_panics s _ _ (TRAMP_VPN - 7)); [done|done|exact Hf1|rewrite Hc1; lia|done|..|exact Hl];
    unfold is_vpn, TRAMP_VPN; lia.
Qed.
End res.

(** The address space of [demo] with a fresh allocator. *)
Definition kdemo : Spaced SV39PageTable := mkSp demo.2 demo.1 ra_new.

Lemma kernel_stacks_isolated_witness :
  ∃ s, rtc (kst_step 0x12) kdemo s ∧ ra_live (sp_ids s) 0 ∧ sp_lookup s ((kst 0).1.1 - 1) = None.
Proof.
  destruct demo_facts as (Hfa&Hok&_&Hfree&a&Ha&HR&_).
  assert (H0 : kst_start 0x12 kdemo).
  { split; [exact (conj Hfa Hok)|]. split; [reflexivity|]. split; [vm_compute; split; congruence|].
    change (areas (sp_space kdemo)) with (areas demo.1). rewrite Ha.
    intros b ->%list_elem_of_singleton. rewrite HR. reflexivity. }
  assert (Hroom : kst_room 0x12 kdemo) by (split; [change (sp_ids kdemo) with ra_new; vm_compute; congruence|change (sp_free kdemo) with (fa_free (km_fa demo.2)); lia]).
  pose proof (kernel_stacks_isolated 0x12 kdemo kdemo H0 (rtc_refl _ _)) as (_&_&Hal&_).
  destruct (kstack_alloc kdemo) as [[id s]|] eqn:E; [|by destruct (Hal Hroom)].
  exists s. assert (Hs : rtc (kst_step 0x12) kdemo s) by (apply rtc_once; by eapply kst_alloc_step). split; [exact Hs|].
  destruct (proj1 (wp_done _ _ _) (kstack_alloc_wp 0x12 kdemo (kst_start_inv _ _ H0) (proj1 Hroom) (proj2 Hroom))) as (id'&s'&E'&_&_&Hl&_).
  rewrite E in E'. injection E' as <- <-. assert (Hid : id = 0).
  { revert E. unfold kstack_alloc, mbind, K_bind, with_ids. simpl. destruct (insert_framed _ _ _ _) as [[u s1]|]; [|discriminate].
    intros E. injection E as E _. by rewrite <- E. }
  subst id. assert (H0l : ra_live (sp_ids s) 0) by (apply Hl; left; reflexivity). split; [exact H0l|].
  destruct (kernel_stacks_isolated 0x12 kdemo s H0 Hs) as (HA&_). destruct (HA 0 H0l) as (_&Hg&_). exact Hg.
Defined.

Lemma thread_resources_correct_witness :
  ∃ s tid, rtc thr_step kdemo s ∧ ra_live (sp_ids s) tid ∧ sp_lookup s ((ust tid).1.1 - 1) = None ∧ trap_cx_ppn tid s ≠ Panic.
Proof.
  destruct demo_facts as (Hfa&Hok&_&Hfree&a&Ha&HR&_).
  assert (H0 : thr_start 0x12 kdemo).
  { split; [exact (conj Hfa Hok)|]. split; [reflexivity|]. split; [vm_compute; split; congruence|].
    change (areas (sp_space kdemo)) with (areas demo.1). rewrite Ha.
    intros b ->%list_elem_of_singleton. rewrite HR. reflexivity. }
  assert (Hf : 9 <= sp_free kdemo) by (change (sp_free kdemo) with (fa_free (km_fa demo.2)); lia).
  assert (Hc : ra_current (sp_ids kdemo) < 6) by (change (sp_ids kdemo) with ra_new; reflexivity).
  destruct (thread_resources_correct 0x12 kdemo kdemo H0 (rtc_refl _ _)) as (_&_&Hnew&_).
  destruct (task_user_res_new true kdemo) as [[tid s]|] eqn:E; [|by destruct (Hnew Hc Hf)]. exists s, tid.
  assert (Hs : rtc thr_step kdemo s) by (apply rtc_once; by eapply thr_new_step). split; [exact Hs|].
  destruct (proj1 (wp_done _ _ _) (task_user_res_new_wp 0x12 kdemo (thr_reach_inv _ _ _ H0 (rtc_refl _ _)) Hc Hf)) as (?&?&E'&_&_&_&Hl&_).
  rewrite E in E'. injection E' as <- <-. assert (Hid : ra_live (sp_ids s) tid) by (apply Hl; left; reflexivity). split; [exact Hid|].
  destruct (thread_resources_correct 0x12 kdemo s H0 Hs) as (HA&_). destruct (HA tid Hid) as (_&Hg&_&Hp). split; [exact Hg|].
  destruct (proj1 (wp_done _ _ _) Hp) as (?&?&->&_). discriminate.
Defined.
