(* ===== verification/ExecProps.v ===== *)
(** * What [exec] leaves behind

    The old address space is gone, the new one holds the program, and the trap
    context enters it with the arguments on the stack: reading them the way
    [sys_execve] reads arguments gives back the strings. *)

From S2P Require Import Prelude Address PhysMem IdAlloc FrameAlloc PageTable Sv39 UserMem MemorySet MapAreaSpec.
From S2P Require Import MemorySetSpec MemorySetOps Mmap Fork Elf UserCopy UserRes StackProps TrapCx Exec SpaceProps ResProps.

(** ** Dropping an address space *)

Lemma drop_memory_set_wp {T} `{!PageTable T} s (ms : MemorySet T) :
  fa_wf (km_fa s) → NoDup (ms_frames ms) → owns s (ms_frames ms) →
  wp (drop_memory_set ms) s (λ _ s', fa_wf (km_fa s') ∧ km_mem s' = km_mem s ∧
    (∀ p, fa_owned (km_fa s') p ↔ fa_owned (km_fa s) p ∧ p ∉ ms_frames ms) ∧
    fa_free (km_fa s') = fa_free (km_fa s) + length (ms_frames ms)).
Proof.
  intros Hfa Hnd Ho. unfold drop_memory_set. apply NoDup_app in Hnd as (Hn1&Hd&Hn2). wp_next.
  eapply wp_mono; [apply dealloc_list_spec; [done..|]|].
  { intros p Hp. apply Ho, elem_of_app. by left. }
  intros [] s1 (W1&M1&O1&F1). eapply wp_mono; [apply drop_areas_spec; [done..|]|].
  { intros p Hp. apply O1. split; [apply Ho, elem_of_app; by right|]. intros Hin. by eapply Hd. }
  intros [] s2 (W2&M2&O2&F2). unfold ms_frames. split; [done|]. split; [congruence|]. split.
  - intros p. rewrite O2, O1, elem_of_app. tauto.
  - rewrite F2, F1, length_app. lia.
Qed.

Lemma wp_on_mem {T A} (f : K KMem A) (s : Spaced T) (Q : A → Spaced T → Prop) :
  wp f (sp_mem s) (λ a m, Q a (mkSp m (sp_space s) (sp_ids s))) → wp (on_mem f) s Q.
Proof. unfold wp, on_mem. by destruct (f (sp_mem s)) as [[a m]|]. Qed.

(** ** Frames of different areas *)

Lemma areas_frames_apart {T} `{!PageTable T} s (ms : MemorySet T) i j a b p :
  ms_ok s ms → areas ms !! i = Some a → areas ms !! j = Some b → i ≠ j → p ∈ area_frames a → p ∉ area_frames b.
Proof.
  intros Hok Ha Hb Hne Hp Hq. pose proof (mo_nodup _ _ Hok) as Hnd. apply NoDup_app in Hnd as (_&_&Hnd).
  rewrite (areas_frames_delete (areas ms) i a Ha) in Hnd.
  assert (Hin : p ∈ areas_frames (delete i (areas ms))).
  { apply elem_of_areas_frames. exists b. split; [|done]. by apply (elem_of_delete_2 _ i j). }
  apply NoDup_app in Hnd as (_&Hd&_). by eapply Hd.
Qed.

(** Two pages of an address space lie in different frames. *)
Lemma frame_page {T} `{!PageTable T} s (ms : MemorySet T) a b v w p :
  ms_ok s ms → a ∈ areas ms → b ∈ areas ms → data_frames a !! v = Some p → data_frames b !! w = Some p → a = b ∧ v = w.
Proof.
  intros Hok Ha Hb Hv Hw. pose proof Ha as [i Hi]%list_elem_of_lookup. pose proof Hb as [j Hj]%list_elem_of_lookup.
  destruct (decide (i = j)) as [->|Hne].
  - assert (a = b) as -> by congruence. split; [done|]. pose proof (nodup_frames_inj b (ms_area_nodup _ _ _ Hok Hb)) as Hinj. by eapply Hinj.
  - exfalso. apply (areas_frames_apart s ms i j a b p Hok Hi Hj Hne); apply elem_of_area_frames; eauto.
Qed.

(** ** The trap context and the stack of a thread *)

Lemma trap_cx_ppn_area {T} `{!PageTable T} (s : Spaced T) ac tid :
  sp_ok s → ac ∈ areas (sp_space s) → is_slot ac (tcx tid) → 0 <= tid < 1000 →
  wp (trap_cx_ppn tid) s (λ ppn s', s' = s ∧ data_frames ac !! (tcx tid).1.1 = Some ppn ∧ is_ppn ppn).
Proof.
  intros [_ Hok] Hac Hs Htid. unfold trap_cx_ppn. destruct (tcx_position tid) as [-> _]; [lia|].
  destruct (va_page_high (1 + tid)) as (_&_&Hv); [unfold TRAMP_VPN in *; lia|].
  wp_next. eapply wp_lift; [exact Hv|]. wp_steps. replace (TRAMP_VPN - (1 + tid)) with (TRAMP_VPN - 1 - tid) by lia.
  destruct (mo_mapped _ _ Hok ac (TRAMP_VPN - 1 - tid) Hac) as (ppn&Ht&Hp&Hl).
  { apply (is_slot_page ac (tcx tid) _ Hs). unfold slot_page. simpl. lia. }
  destruct Hs as (_&Hty&Hpm). unfold area_target in Ht. rewrite Hty in Ht. unfold translate.
  pose proof (pt_translate_spec (km_mem (sp_mem s)) (page_table (sp_space s)) (TRAMP_VPN - 1 - tid)) as Htr.
  destruct (pt_translate _ _ _) as [e|]; [|congruence]. destruct (pte_valid e); [|congruence]. wp_steps.
  assert (e = pte_make ppn (map_perm ac)) as -> by congruence. rewrite Hpm.
  destruct (pte_make_spec ppn (tcx tid).2 Hp ltac:(done)) as [_ ->]. done.
Qed.

Lemma high_page va n k : 0 <= n <= TRAMP_VPN → 0 <= k → k < 2 ^ 20 → k < n →
  TRAMPOLINE - n * 4096 <= va < TRAMPOLINE - (n - k) * 4096 →
  TRAMP_VPN - n <= va mod 2 ^ 39 / 4096 < TRAMP_VPN - (n - k).
Proof.
  unfold TRAMP_VPN. intros Hn Hk Hk' Hkn Hva.
  assert (E : va = va - (2 ^ 25 - 1) * 2 ^ 39 + (2 ^ 25 - 1) * 2 ^ 39) by lia.
  rewrite E, Z.mod_add by lia. rewrite Z.mod_small by (unfold TRAMPOLINE, PAGE_SIZE in Hva; lia).
  unfold TRAMPOLINE, PAGE_SIZE in Hva. zdiv_lia.
Qed.

Lemma stack_window s (ms : MemorySet SV39PageTable) au tid :
  ms_ok s ms → au ∈ areas ms → is_slot au (ust tid) → 0 <= tid < 6 →
  Window (token ms) (data_only s ms) (uphys s ms) (ustack_bottom_from_tid tid) (ustack_top tid).
Proof.
  intros Hok Hau Hs Htid. unfold ustack_top. destruct (ust_position tid) as [-> ->]; [lia|].
  apply (area_window s ms au); try done.
  - apply Hs.
  - unfold TRAMPOLINE, PAGE_SIZE. lia.
  - unfold TRAMPOLINE, PAGE_SIZE. lia.
  - lia.
  - intros va Hva. apply (is_slot_page au (ust tid) _ Hs). unfold slot_page. simpl.
    pose proof (high_page va (25 - 3 * tid) 2 ltac:(unfold TRAMP_VPN; lia) ltac:(lia) ltac:(lia) ltac:(lia) ltac:(lia)). lia.
Qed.

(** ** The registers of the new program *)

Definition exec_cx (k : KernelCx) (entry top : Z) (args : list (list Z)) : TrapContext :=
  let cx := app_init_context (k_sstatus k) entry (start_sp top args) (k_satp k) (k_stack_top k) (k_handler k) in
  let cx := with_regs cx (set_reg (general_regs cx) r_a0 (length args)) in
  with_regs cx (set_reg (general_regs cx) r_a1 (argv_addr top args)).

Record kcx_ok (k : KernelCx) : Prop := {
  kc_sstatus : is_usize (k_sstatus k);
  kc_satp : is_usize (k_satp k);
  kc_stack : is_usize (k_stack_top k);
  kc_handler : is_usize (k_handler k);
}.

Lemma exec_cx_ok k entry top args :
  kcx_ok k → is_usize entry → is_usize (start_sp top args) → is_usize (argv_addr top args) → is_usize (length args) →
  tc_ok (exec_cx k entry top args).
Proof.
  intros [????] He Hs Ha Hn. destruct (app_init_ok (k_sstatus k) entry (start_sp top args) (k_satp k) (k_stack_top k) (k_handler k))
    as [Hl Hw]; try done.
  split; [done|]. unfold exec_cx, tc_words, with_regs, set_reg in *. cbn [general_regs sstatus sepc kernel_satp kernel_sp trap_handler_addr] in *.
  apply Forall_app in Hw as [H1 H2]. apply Forall_app. split; [|done]. apply Forall_insert; [by apply Forall_insert|done].
Qed.

(** The arguments fit: the pointers, the strings and nothing below the stack. *)
Definition args_fit (args : list (list Z)) : Prop := 8 * (length args + 1) + args_size args <= USER_STACK_SIZE.

Lemma args_fit_ustack tid args : 0 <= tid < 6 → args_fit args →
  let top := ustack_top tid in let bottom := ustack_bottom_from_tid tid in
  0 < bottom ∧ top mod 8 = 0 ∧ bottom mod 8 = 0 ∧ top < 2 ^ 64 ∧ bottom <= argv_addr top args - args_size args ∧
  argv_addr top args mod 8 = 0 ∧ bottom <= start_sp top args <= argv_addr top args - args_size args ∧ start_sp top args mod 8 = 0.
Proof.
  intros Ht Hf. unfold args_fit, USER_STACK_SIZE, PAGE_SIZE in Hf. unfold ustack_top. destruct (ust_position tid) as [-> ->]; [lia|].
  cbn zeta. unfold start_sp, argv_addr, TRAMPOLINE, PAGE_SIZE. pose proof (args_size_nonneg args). zdiv_lia.
Qed.

(** ** The last part of [exec]: arguments and registers *)

Section finish.
Context (s : KMem) (ms : MemorySet SV39PageTable) (au ac : MapArea) (segs : list MapArea) (tid ppn : Z).
Context (Hok : ms_ok s ms) (Har : areas ms = segs ++ [au; ac]).
Context (Hu : is_slot au (ust tid)) (Hc : is_slot ac (tcx tid)) (Htid : 0 <= tid < 6).
Context (Hppn : data_frames ac !! (tcx tid).1.1 = Some ppn) (Hp : is_ppn ppn).

Lemma fin_au : au ∈ areas ms.
Proof using Har. rewrite Har. apply elem_of_app. right. left. Qed.
Lemma fin_ac : ac ∈ areas ms.
Proof using Har. rewrite Har. apply elem_of_app. right. right. left. Qed.

Lemma fin_lookup : areas ms !! length segs = Some au ∧ areas ms !! S (length segs) = Some ac.
Proof using Har.
  rewrite Har. split; [by apply list_lookup_middle|]. rewrite lookup_app_r by lia.
  by replace (S (length segs) - length segs)%nat with 1%nat by lia.
Qed.

Lemma fin_apart b p :
  b ∈ segs → p ∈ area_frames b → p ∉ area_frames au ∧ p ∉ area_frames ac.
Proof using Hok Har.
  intros [i Hi]%list_elem_of_lookup Hb. pose proof (lookup_lt_Some _ _ _ Hi).
  assert (Hi' : areas ms !! i = Some b) by (rewrite Har; by apply lookup_app_l_Some).
  split; [apply (areas_frames_apart s ms i (length segs) b au)|apply (areas_frames_apart s ms i (S (length segs)) b ac)];
    try done; try lia; apply fin_lookup.
Qed.

Lemma fin_ppn : ppn ∈ area_frames ac.
Proof using Hppn. apply elem_of_area_frames. eauto. Qed.

Lemma fin_ppn_stack : ppn ∉ area_frames au.
Proof using Hok Har Hppn.
  apply (areas_frames_apart s ms (S (length segs)) (length segs) ac au); try apply fin_lookup; [done|lia|apply fin_ppn].
Qed.

Lemma exec_finish k entry args :
  kcx_ok k → is_usize entry → args_fit args → (∀ a, a ∈ args → 0 ∉ as_bytes a) →
  let top := ustack_top tid in
  ∃ m, push_args (token ms) args top (km_mem s) = Done (start_sp top args, argv_addr top args, m) ∧
    let m' := put_trap_cx m ppn (exec_cx k entry top args) in
    (∀ x, x / 4096 ∉ area_frames au → x / 4096 ≠ ppn → m' x = km_mem s x) ∧
    get_trap_cx m' ppn = exec_cx k entry top args ∧
    ∀ fuel : nat, 8192 <= fuel → read_argv fuel m' (token ms) (argv_addr top args) = Done (as_bytes <$> args).
Proof using All.
  intros Hk He Hfit Hnz top. pose proof (stack_window s ms au tid Hok fin_au Hu Htid) as W.
  destruct (args_fit_ustack tid args Htid Hfit) as (Hbot&Htop&Hb8&H64&Hargs&Hbase&Hsp&_). fold top in W, Htop, H64, Hargs, Hbase, Hsp.
  set (bottom := ustack_bottom_from_tid tid) in *.
  assert (Hsz : args_size args + 8 * length args + 8 <= 8192) by (unfold args_fit, USER_STACK_SIZE, PAGE_SIZE in Hfit; lia).
  pose proof (args_size_nonneg args) as Hn.
  destruct (push_args_ok args (km_mem s)) as (m&Hpush&HP&Hch&Hat&Hend); [apply same_outside_refl|done|done|].
  exists m. split; [exact Hpush|]. cbn zeta. set (cx := exec_cx k entry top args).
  assert (Hcx : tc_ok cx) by (apply exec_cx_ok; try done; unfold is_usize, argv_addr, start_sp in *; lia).
  assert (Hin : ∀ va, bottom <= va < top → uphys s ms va / 4096 ∈ area_frames au).
  { intros va Hva. apply uphys_frame; try done; [apply fin_au|apply Hu|]. apply (is_slot_page au (ust tid) _ Hu).
    unfold slot_page. unfold bottom, top, ustack_top in Hva. destruct (ust_position tid) as [E1 E2]; [lia|]. rewrite E2, E1 in Hva.
    pose proof (high_page va (25 - 3 * tid) 2 ltac:(unfold TRAMP_VPN; lia) ltac:(lia) ltac:(lia) ltac:(lia) ltac:(lia)). simpl. lia. }
  assert (Hag : ∀ va, bottom <= va < top → put_trap_cx m ppn cx (uphys s ms va) = m (uphys s ms va)).
  { intros va Hva. apply put_trap_cx_frame; [done..|]. intros E. apply fin_ppn_stack. rewrite <- E. auto. }
  split; [|split].
  - intros x Hx1 Hx2. rewrite put_trap_cx_frame by done. apply Hch. intros va Hva _ ->. apply Hx1. auto.
  - by apply get_put_trap_cx.
  - intros fuel Hfuel. unfold read_argv. destruct (Z.eqb_spec (argv_addr top args) 0) as [E|_]; [lia|].
    apply (read_argv_ok (W := W) args fuel fuel _ _ (argv_addr top args)); try done; try lia.
    + intros x Hx. rewrite put_trap_cx_frame; [by apply HP|done|done|]. intros E. apply Hx.
      apply elem_of_areas_frames. exists ac. split; [apply fin_ac|]. rewrite E. apply fin_ppn.
    + unfold argv_addr. lia.
    + apply (args_at_agree (W := W) args m); try done; unfold argv_addr in *; lia.
    + rewrite <- Hend. apply load64_ext. intros x Hx. unfold argv_addr in *.
      set (b := top - 8 * (length args + 1) + 8 * length args) in *. replace x with (uphys s ms b + (x - uphys s ms b)) by lia.
      assert (Hb : b = top - 8) by (unfold b; lia). rewrite Hb in *.
      rewrite <- (w_word (Window := W)) by (lia || zdiv_lia). apply Hag. lia.
Qed.
End finish.

(** ** [exec] *)

(** What the state after [exec] is: [m] is the memory, [ppn] the frame of the
    trap context. *)
Record exec_post (k : KernelCx) (tid : Z) (input : list Z) (elf : ElfFile) (phs : list ProgramHeader)
    (args : list (list Z)) (s : Spaced SV39PageTable) (ppn : Z) (s' : Spaced SV39PageTable) : Prop := {
  xp_ok : sp_ok s';
  xp_ids : sp_ids s' = sp_ids s;
  xp_owned : ∀ p, fa_owned (km_fa (sp_mem s')) p ↔
    p ∈ ms_frames (sp_space s') ∨ fa_owned (km_fa (sp_mem s)) p ∧ p ∉ ms_frames (sp_space s);
  xp_free : sp_free s - 12 - 3 * total_pages (loads phs) <= sp_free s';
  xp_areas : ∃ segs au ac, areas (sp_space s') = segs ++ [au; ac] ∧
    Forall2 (loaded (km_mem (sp_mem s')) input) (loads phs) segs ∧
    is_slot au (ust tid) ∧ is_slot ac (tcx tid) ∧ data_frames ac !! (tcx tid).1.1 = Some ppn;
  xp_heap : brk (sp_space s') = last_page (loads phs) * 4096 ∧ heap_start (sp_space s') = brk (sp_space s');
  xp_cx : get_trap_cx (km_mem (sp_mem s')) ppn = exec_cx k (elf_entry_point elf) (ustack_top tid) args;
  xp_argv : ∀ fuel : nat, 8192 <= fuel →
    read_argv fuel (km_mem (sp_mem s')) (token (sp_space s')) (argv_addr (ustack_top tid) args) = Done (as_bytes <$> args);
}.

(** The space is replaced: the new one is intact, the frames of the old one are free. *)
Lemma replace_space_wp (s : KMem) (old ms : MemorySet SV39PageTable) (s1 : KMem) :
  ms_ok s old → fa_wf (km_fa s1) → ms_ok s1 ms → built s ms s1 →
  wp (drop_memory_set old) s1 (λ _ s2, fa_wf (km_fa s2) ∧ ms_ok s2 ms ∧ km_mem s2 = km_mem s1 ∧
    (∀ p, fa_owned (km_fa s2) p ↔ p ∈ ms_frames ms ∨ fa_owned (km_fa s) p ∧ p ∉ ms_frames old) ∧
    fa_free (km_fa s1) <= fa_free (km_fa s2)).
Proof.
  intros Hold Hfa Hok [G _].
  assert (Hap : ∀ p, p ∈ ms_frames ms → p ∉ ms_frames old).
  { intros p Hp Hq. apply (gr_fresh _ _ _ G p Hp). by apply (mo_owned _ _ Hold). }
  eapply wp_mono; [apply drop_memory_set_wp; [done|apply Hold|]|].
  { intros p Hp. apply (gr_owned _ _ _ G). right. by apply (mo_owned _ _ Hold). }
  intros [] s2 (W&M&O&F). split; [done|]. split; [|split; [done|split; [|lia]]].
  - eapply ms_ok_frame; [done| |by rewrite M]. intros p Hp. apply O. split; [by apply (mo_owned _ _ Hok)|auto].
  - intros p. rewrite O, (gr_owned _ _ _ G). split; [tauto|]. intros [Hp|[]]; [|tauto]. auto.
Qed.

Lemma segs_low input phs ms a m :
  phs_ok input phs → Forall2 (loaded m input) (loads phs) (areas ms) → a ∈ areas (T := SV39PageTable) ms →
  get_end (vpn_range a) <= 2 ^ 26.
Proof.
  intros Hphs HF [i Hi]%list_elem_of_lookup.
  destruct (Forall2_lookup_r _ _ _ _ _ HF Hi) as (ph&Hph&(->&_)&_). apply list_elem_of_lookup_2 in Hph.
  destruct (seg_vpns _ _ (po_seg _ _ Hphs _ Hph)) as (_&_&_&?). simpl. lia.
Qed.

Lemma exec_wp elf_new st k tid s input elf phs args :
  sp_ok s → tramp_ok st → elf_new input = Some elf → elf_ok elf phs → phs_ok input phs →
  12 + 3 * total_pages (loads phs) <= sp_free s → kcx_ok k → is_usize (elf_entry_point elf) →
  0 <= tid < 6 → args_fit args → (∀ a, a ∈ args → 0 ∉ as_bytes a) →
  wp (exec elf_new st k 1 tid input args) s (exec_post k tid input elf phs args s).
Proof.
  intros [Hfa Hold] Hst Hnew Helf Hphs Hfree Hk Hent Htid Hfit Hnz. unfold exec. wp_steps. wp_next. apply wp_on_mem.
  pose proof (total_pages_nonneg _ _ (po_seg _ _ Hphs)). unfold sp_free in Hfree.
  eapply wp_mono; [by apply (from_elf_wp input elf_new st (sp_mem s) elf phs); [..|lia]|].
  intros [ms entry] s1 E. destruct E as [Hfa1 Hok1 Hb Hld Hheap Hbrk -> Hfr1]. wp_next. apply wp_with_space. cbn [sp_mem sp_space sp_ids].
  wp_next. eapply wp_mono; [by eapply (replace_space_wp (sp_mem s))|].
  intros [] s2 (Hfa2&Hok2&M2&O2&Hfr2). wp_steps. eapply wp_mono.
  { apply (alloc_user_res_wp (2 ^ 26) (λ _, False)); simpl; try done; unfold TRAMP_VPN; [| lia..|unfold sp_free; simpl; lia].
    split; [|done]. intros a Ha. left. by eapply segs_low. }
  intros [] s3 (Hok3&Eids&Hfr3&_&_&_&_&new&au&ac&G&Har&Hu&Hc&Hb3&Hh3). cbn [sp_mem sp_space sp_ids] in *. wp_next.
  assert (Hac : ac ∈ areas (sp_space s3)) by (rewrite Har; apply elem_of_app; right; right; left).
  eapply wp_mono; [apply (trap_cx_ppn_area s3 ac tid); try done; lia|]. intros ppn ? (->&Hppn&Hp). wp_steps.
  assert (Etok : token ms = token (sp_space s3)) by (symmetry; apply G). rewrite Etok.
  destruct (exec_finish (sp_mem s3) (sp_space s3) au ac (areas ms) tid ppn (proj2 Hok3) Har Hu Hc Htid Hppn Hp
    k (elf_entry_point elf) args) as (m&->&Hm&Hcx&Hav); [done..|].
  eapply wp_lift; [done|]. cbn beta iota. wp_steps.
  change (with_regs (with_regs _ _) _) with (exec_cx k (elf_entry_point elf) (ustack_top tid) args).
  set (cm := put_trap_cx m ppn _) in *.
  pose proof (fin_ppn ac tid ppn Hppn) as Hin.
  split; cbn [sp_mem sp_space sp_ids].
  - split; [apply Hok3|]. eapply (ms_ok_write (sp_mem s3)); [apply Hok3|done|]. intros x Hx.
    apply Hm; intros E; apply Hx, elem_of_areas_frames; [exists au|exists ac; by rewrite E].
    split; [|done]. cbn [sp_space]. rewrite Har. apply elem_of_app. right. left.
  - done.
  - intros p. change (km_fa (with_mem _ _)) with (km_fa (sp_mem s3)).
    rewrite (gr_owned _ _ _ (mg_grows _ _ _ _ _ G)), O2, (mg_frames _ _ _ _ _ G), elem_of_app. tauto.
  - unfold sp_free in *. cbn [sp_mem with_mem km_fa] in *. lia.
  - exists (areas ms), au, ac. split; [done|]. split; [|done]. change (km_mem (with_mem _ _)) with cm.
    apply Forall2_same_length_lookup. split; [by eapply Forall2_length|]. intros i ph a Hph Ha.
    pose proof (Forall2_lookup_lr _ _ _ _ _ _ Hld Hph Ha) as Hl. rewrite <- M2 in Hl.
    apply list_elem_of_lookup_2 in Ha.
    destruct (loaded_keep input s2 ms new (sp_mem s3) (sp_space s3) ph a Hok2 G Ha Hl) as [Hs Hbytes].
    split; [done|]. intros va Hva. rewrite <- Hbytes by done. apply area_byte_ext; [apply Hs|].
    intros p Hp' x <-. destruct (fin_apart (sp_mem s3) (sp_space s3) au ac (areas ms) (proj2 Hok3) Har a _ Ha Hp') as [H1 H2].
    apply Hm; [done|]. intros E. apply H2. by rewrite E.
  - by rewrite Hb3, Hh3, Hbrk, Hheap.
  - exact Hcx.
  - exact Hav.
Qed.

(** C25: [exec] on a single-threaded process, with a loadable program and
    arguments that fit into the stack, does not panic; the frames of the old
    address space are free, the new one holds the program, the stack and the
    trap context; the registers enter the program with the number of arguments,
    their address and an aligned stack pointer inside the stack and below the
    strings, and reading the vector at that address gives the arguments back. *)
Theorem exec_correct elf_new st k tid (s : Spaced SV39PageTable) input elf phs args :
  sp_ok s → tramp_ok st → elf_new input = Some elf → elf_ok elf phs → phs_ok input phs →
  12 + 3 * total_pages (loads phs) <= sp_free s → kcx_ok k → is_usize (elf_entry_point elf) →
  0 <= tid < 6 → args_fit args → (∀ a, a ∈ args → 0 ∉ as_bytes a) →
  wp (exec elf_new st k 1 tid input args) s (λ ppn s',
    let m := km_mem (sp_mem s') in let cx := get_trap_cx m ppn in let r := get_reg (general_regs cx) in
    sp_ok s' ∧
    (∀ p, fa_owned (km_fa (sp_mem s')) p ↔
       p ∈ ms_frames (sp_space s') ∨ fa_owned (km_fa (sp_mem s)) p ∧ p ∉ ms_frames (sp_space s)) ∧
    (∃ segs au ac, areas (sp_space s') = segs ++ [au; ac] ∧ Forall2 (loaded m input) (loads phs) segs ∧
       is_slot au (ust tid) ∧ is_slot ac (tcx tid) ∧ data_frames ac !! (tcx tid).1.1 = Some ppn) ∧
    sepc cx = elf_entry_point elf ∧ kernel_sp cx = k_stack_top k ∧ Z.testbit (sstatus cx) 8 = false ∧
    r r_a0 = length args ∧ ustack_bottom_from_tid tid <= r r_sp <= r r_a1 - args_size args ∧ r r_sp mod 8 = 0 ∧
    ∀ fuel : nat, 8192 <= fuel → read_argv fuel m (token (sp_space s')) (r r_a1) = Done (as_bytes <$> args)).
Proof.
  intros Hs Hst Hnew Helf Hphs Hfree Hk Hent Htid Hfit Hnz. eapply wp_mono; [by eapply exec_wp|].
  intros ppn s' [H1 _ H2 _ H3 _ H4 H5]. cbn zeta. rewrite H4.
  destruct (args_fit_ustack tid args Htid Hfit) as (_&_&_&_&_&_&Hsp&Hsp8).
  split; [done|]. split; [done|]. split; [done|]. split; [done|]. split; [done|]. split; [apply Z.clearbit_eq|].
  split; [done|]. split; [done|]. by split.
Qed.

Definition demo_k : KernelCx := mkKCx 0x100 0x8000000000080400 0xfffffffffffff000 0x80200040.

Lemma exec_correct_witness :
  wp (exec demo_parse demo_st demo_k 1 0 [7; 8; 9] [[108; 115]; [45; 97]]) kdemo (λ ppn s',
    let r := get_reg (general_regs (get_trap_cx (km_mem (sp_mem s')) ppn)) in
    r r_a0 = 2 ∧ r r_sp mod 8 = 0 ∧
    read_argv (Z.to_nat 8192) (km_mem (sp_mem s')) (token (sp_space s')) (r r_a1) = Done [[108; 115]; [45; 97]]).
Proof.
  destruct demo_facts as (Hfa&Hok&_&Hfree&_). destruct demo_phs_facts as [He Hp]. eapply wp_mono.
  - apply (exec_correct demo_parse demo_st demo_k 0 kdemo [7; 8; 9] demo_elf [demo_ph] [[108; 115]; [45; 97]]).
    + exact (conj Hfa Hok).
    + exact demo_tramp.
    + reflexivity.
    + exact He.
    + exact Hp.
    + change (sp_free kdemo) with (fa_free (km_fa demo.2)). change (12 + 3 * _) with 18. lia.
    + split; vm_compute; split; congruence.
    + vm_compute; split; congruence.
    + lia.
    + vm_compute; congruence.
    + intros a. rewrite !elem_of_cons, elem_of_nil. intros [-> | [-> | []]]; vm_compute; intros H; by repeat (apply elem_of_cons in H as [H|H]; [congruence|]); apply elem_of_nil in H.
  - intros ppn s' (_&_&_&_&_&_&Ha&_&Hsp&Hr). split; [exact Ha|]. split; [exact Hsp|]. apply Hr. lia.
Defined.
