(* ===== verification/Pipe.v ===== *)
(** * Pipes ([os/src/fs/pipe.rs])

    The ring buffer, and [read] and [write] of a pipe end.  A user buffer is
    what its iterator yields: for [write] the bytes still to be sent, for [read]
    the number of places left, with the bytes stored so far collected in order
    ([UserMem.v] relates the iterator to addresses).  A call runs until it
    returns or gives up the processor with [suspend_current_and_run_next]; such
    a run is one turn, and turns of the processes that share the pipe
    interleave. *)

From S2P Require Import Prelude.

(** ** The ring buffer *)

Definition RING_BUFFER_SIZE : Z := 32.

Inductive RingBufferStatus := Full | Empty | Normal.
#[global] Instance RingBufferStatus_eq_dec : EqDecision RingBufferStatus.
Proof. solve_decision. Defined.

(** [write_end] is set or not; whether the weak pointer can be upgraded is an
    argument of [all_write_ends_closed]. *)
Record PipeRingBuffer := mkRing {
  arr : list Z;
  head_ : Z;
  tail_ : Z;
  status : RingBufferStatus;
  write_end : bool;
}.

Definition ring_new : PipeRingBuffer := mkRing (replicate 32 0) 0 0 Empty false.

Definition set_write_end (r : PipeRingBuffer) : PipeRingBuffer :=
  mkRing (arr r) (head_ r) (tail_ r) (status r) true.

(** [self.arr[i] = byte] panics out of bounds. *)
Definition write_byte (r : PipeRingBuffer) (byte : Z) : outcome PipeRingBuffer :=
  if (0 <=? tail_ r) && (tail_ r <? length (arr r)) then
    let arr' := <[Z.to_nat (tail_ r) := byte]> (arr r) in
    let tail' := (tail_ r +w 1) mod RING_BUFFER_SIZE in
    Done (mkRing arr' (head_ r) tail' (if tail' =? head_ r then Full else Normal) (write_end r))
  else Panic.

Definition read_byte (r : PipeRingBuffer) : outcome (Z * PipeRingBuffer) :=
  c ← unwrap (arr r !! Z.to_nat (head_ r));
  let head' := (head_ r +w 1) mod RING_BUFFER_SIZE in
  Done (c, mkRing (arr r) head' (tail_ r) (if head' =? tail_ r then Empty else Normal) (write_end r)).

Definition available_read (r : PipeRingBuffer) : Z :=
  if decide (status r = Empty) then 0
  else if head_ r <? tail_ r then tail_ r - head_ r
  else tail_ r + RING_BUFFER_SIZE - head_ r.

Definition available_write (r : PipeRingBuffer) : Z :=
  if decide (status r = Full) then 0 else RING_BUFFER_SIZE - available_read r.

(** [self.write_end.as_ref().unwrap().upgrade().is_none()] *)
Definition all_write_ends_closed (r : PipeRingBuffer) (writers_alive : bool) : outcome bool :=
  if write_end r then Done (negb writers_alive) else Panic.

(** ** Pipe ends *)

Record PipeEnd := mkEnd { pe_readable : bool; pe_writable : bool; pe_nonblocking : bool }.

Definition read_end_with_buffer : PipeEnd := mkEnd true false false.
Definition write_end_with_buffer : PipeEnd := mkEnd false true false.
Definition set_nonblocking (e : PipeEnd) (nb : bool) : PipeEnd := mkEnd (pe_readable e) (pe_writable e) nb.

Definition make_pipe : PipeRingBuffer * PipeEnd * PipeEnd :=
  (set_write_end ring_new, read_end_with_buffer, write_end_with_buffer).

(** How a turn of [read] or [write] ends. *)
Inductive turn_end := Returned (n : Z) | Suspended.

(** A call in progress: [want], the bytes moved so far, and for [write] the
    bytes still in the iterator. *)
Record ReadCall := mkRead { rc_want : Z; rc_got : list Z }.
Record WriteCall := mkWrite { wc_want : Z; wc_sent : Z; wc_left : list Z }.

(** [for _ in 0..loop_read]: [inr] is a return. *)
Fixpoint read_for (k : nat) (r : PipeRingBuffer) (c : ReadCall)
  : outcome (PipeRingBuffer * ReadCall * option Z) :=
  match k with
  | O => Done (r, c, None)
  | S k' =>
      if Z.of_nat (length (rc_got c)) <? rc_want c then
        '(b, r') ← read_byte r;
        let c' := mkRead (rc_want c) (rc_got c ++ [b]) in
        if Z.of_nat (length (rc_got c')) =? rc_want c then Done (r', c', Some (rc_want c))
        else read_for k' r' c'
      else Done (r, c, Some (Z.of_nat (length (rc_got c))))
  end.

(** One iteration of the loop of [read]; [None] means that it goes round. *)
Definition read_iter (nonblocking writers_alive : bool) (r : PipeRingBuffer) (c : ReadCall)
  : outcome (PipeRingBuffer * ReadCall * option turn_end) :=
  let loop_read := available_read r in
  if loop_read =? 0 then
    if nonblocking then Done (r, c, Some (Returned (length (rc_got c))))
    else
      closed ← all_write_ends_closed r writers_alive;
      if closed : bool then Done (r, c, Some (Returned (length (rc_got c))))
      else Done (r, c, Some Suspended)
  else
    '(r', c', o) ← read_for (Z.to_nat loop_read) r c;
    Done (r', c', option_map Returned o).

(** A turn: at most one round moves bytes, the next one finds the buffer empty. *)
Definition pipe_read (e : PipeEnd) (writers_alive : bool) (r : PipeRingBuffer) (c : ReadCall)
  : outcome (PipeRingBuffer * ReadCall * turn_end) :=
  if pe_readable e then
    '(r1, c1, o1) ← read_iter (pe_nonblocking e) writers_alive r c;
    match o1 with
    | Some t => Done (r1, c1, t)
    | None =>
        '(r2, c2, o2) ← read_iter (pe_nonblocking e) writers_alive r1 c1;
        t ← unwrap o2;
        Done (r2, c2, t)
    end
  else Panic.

Fixpoint write_for (k : nat) (r : PipeRingBuffer) (c : WriteCall)
  : outcome (PipeRingBuffer * WriteCall * option Z) :=
  match k with
  | O => Done (r, c, None)
  | S k' =>
      match wc_left c with
      | b :: rest =>
          r' ← write_byte r b;
          let c' := mkWrite (wc_want c) (wc_sent c + 1) rest in
          if wc_sent c' =? wc_want c then Done (r', c', Some (wc_want c))
          else write_for k' r' c'
      | [] => Done (r, c, Some (wc_sent c))
      end
  end.

Definition write_iter (nonblocking : bool) (r : PipeRingBuffer) (c : WriteCall)
  : outcome (PipeRingBuffer * WriteCall * option turn_end) :=
  let loop_write := available_write r in
  if loop_write =? 0 then
    if nonblocking then Done (r, c, Some (Returned (wc_sent c)))
    else Done (r, c, Some Suspended)
  else
    '(r', c', o) ← write_for (Z.to_nat loop_write) r c;
    Done (r', c', option_map Returned o).

Definition pipe_write (e : PipeEnd) (r : PipeRingBuffer) (c : WriteCall)
  : outcome (PipeRingBuffer * WriteCall * turn_end) :=
  if pe_writable e then
    '(r1, c1, o1) ← write_iter (pe_nonblocking e) r c;
    match o1 with
    | Some t => Done (r1, c1, t)
    | None =>
        '(r2, c2, o2) ← write_iter (pe_nonblocking e) r1 c1;
        t ← unwrap o2;
        Done (r2, c2, t)
    end
  else Panic.

(** [read_at] and [write_at] never block. *)
Fixpoint read_n (k : nat) (r : PipeRingBuffer) : outcome (list Z * PipeRingBuffer) :=
  match k with
  | O => Done ([], r)
  | S k' => '(b, r') ← read_byte r; '(bs, r'') ← read_n k' r'; Done (b :: bs, r'')
  end.

(** The result is the buffer after the call and the count. *)
Definition pipe_read_at (r : PipeRingBuffer) (offset : Z) (buf : list Z) : outcome (list Z * Z * PipeRingBuffer) :=
  let avail := available_read r in
  let to_read := Z.min avail (length buf) in
  '(bs, r') ← read_n (Z.to_nat to_read) r;
  Done (bs ++ drop (length bs) buf, Z.of_nat (length bs), r').

Fixpoint write_n (bs : list Z) (r : PipeRingBuffer) : outcome PipeRingBuffer :=
  match bs with
  | [] => Done r
  | b :: bs' => r' ← write_byte r b; write_n bs' r'
  end.

Definition pipe_write_at (r : PipeRingBuffer) (offset : Z) (buf : list Z) : outcome (Z * PipeRingBuffer) :=
  let avail := available_write r in
  let to_write := Z.min avail (length buf) in
  r' ← write_n (take (Z.to_nat to_write) buf) r;
  Done (to_write, r').

(** ** The ring buffer is a bounded queue *)

Record ring_wf (r : PipeRingBuffer) : Prop := {
  rw_len : length (arr r) = 32%nat;
  rw_head : 0 <= head_ r < 32;
  rw_tail : 0 <= tail_ r < 32;
  rw_status : status r = Normal ↔ head_ r ≠ tail_ r;
}.

(** The element at distance [i] from the head. *)
Definition ring_at (r : PipeRingBuffer) (i : Z) : Z :=
  default 0 (arr r !! Z.to_nat ((head_ r + i) mod 32)).

(** The queue the ring represents. *)
Definition contents (r : PipeRingBuffer) : list Z := ring_at r <$> seqZ 0 (available_read r).

Lemma available_read_range r : ring_wf r → 0 <= available_read r <= 32.
Proof.
  intros [_ Hh Ht Hs]. unfold available_read, RING_BUFFER_SIZE. case_decide; [lia|].
  destruct (Z.ltb_spec (head_ r) (tail_ r)); lia.
Qed.

(** The number of elements, modulo the size, is the distance of the ends. *)
Lemma available_read_eq r :
  ring_wf r → (head_ r + available_read r) mod 32 = tail_ r ∧
    (available_read r = 0 ↔ status r = Empty) ∧ (available_read r = 32 ↔ status r = Full).
Proof.
  intros [_ Hh Ht Hs]. unfold available_read, RING_BUFFER_SIZE.
  destruct (status r) eqn:E; [rewrite decide_False by done|rewrite decide_True by done|rewrite decide_False by done];
    destruct (decide (head_ r = tail_ r)) as [He|He].
  - destruct (Z.ltb_spec (head_ r) (tail_ r)); [lia|]. split; [zdiv_lia|]. split; split; try done; lia.
  - apply Hs in He. congruence.
  - split; [zdiv_lia|]. split; split; done || lia.
  - apply Hs in He. congruence.
  - by destruct (proj1 Hs eq_refl).
  - destruct (Z.ltb_spec (head_ r) (tail_ r)); (split; [zdiv_lia|]); split; split; try done; lia.
Qed.

Lemma length_contents r : ring_wf r → Z.of_nat (length (contents r)) = available_read r.
Proof.
  intros Hwf. pose proof (available_read_range r Hwf). unfold contents. rewrite length_fmap, length_seqZ. lia.
Qed.

Lemma available_write_eq r : ring_wf r → available_write r = 32 - length (contents r).
Proof.
  intros Hwf. rewrite length_contents by done. unfold available_write, RING_BUFFER_SIZE.
  destruct (available_read_eq r Hwf) as (_&_&Hf). case_decide; [|done]. rewrite (proj2 Hf) by done. lia.
Qed.

(** A ring whose ends are [n] apart has [n] elements. *)
Lemma available_read_by r n :
  ring_wf r → 0 <= n <= 32 → (head_ r + n) mod 32 = tail_ r → (n = 0 → status r = Empty) → (n = 32 → status r = Full) →
  available_read r = n.
Proof.
  intros Hwf Hn Hm H0 H32. pose proof (available_read_range r Hwf).
  destruct (available_read_eq r Hwf) as (Ha&He&Hf). pose proof (rw_head _ Hwf).
  destruct (decide (n = 0)) as [->|]; [by apply He, H0|]. destruct (decide (n = 32)) as [->|]; [by apply Hf, H32|].
  assert (status r = Normal) as Hs by (apply Hwf; zdiv_lia). rewrite Hs in *.
  assert (available_read r ≠ 0) by (by intros ?%He).
  assert (available_read r ≠ 32) by (by intros ?%Hf). zdiv_lia.
Qed.

Lemma write_byte_spec r b :
  ring_wf r → (length (contents r) < 32)%nat →
  ∃ r', write_byte r b = Done r' ∧ ring_wf r' ∧ contents r' = contents r ++ [b] ∧ write_end r' = write_end r.
Proof.
  intros Hwf Hroom. pose proof (length_contents r Hwf) as Hl. destruct (available_read_eq r Hwf) as (Ha&_&_).
  pose proof (available_read_range r Hwf) as Har. pose proof Hwf as [Hlen Hh Ht Hs].
  unfold write_byte. rewrite Hlen, (proj2 (Z.leb_le _ _)), (proj2 (Z.ltb_lt _ _)) by lia. simpl andb.
  rewrite wadd_small by lia. unfold RING_BUFFER_SIZE. eexists. split; [done|].
  set (r' := mkRing _ _ _ _ _).
  assert (Hwf' : ring_wf r').
  { split; simpl; [by rewrite length_insert|done|apply Z.mod_pos_bound; lia|].
    destruct (Z.eqb_spec ((tail_ r + 1) mod 32) (head_ r)); split; done || congruence. }
  assert (Hn : available_read r' = available_read r + 1).
  { apply available_read_by; [done|lia| | |]; simpl; [rewrite <- Ha; zdiv_lia|lia|].
    intros ?. rewrite (proj2 (Z.eqb_eq _ _)); [done|]. rewrite <- Ha. zdiv_lia. }
  split; [done|]. split; [|done]. unfold contents. rewrite Hn, seqZ_app, fmap_app by lia.
  rewrite (seqZ_cons _ 1), (seqZ_nil _ (Z.pred 1)) by lia. f_equal; [|simpl; f_equal].
  - apply list_fmap_ext. intros i x Hx. apply lookup_seqZ in Hx as [-> Hi]. unfold ring_at. simpl.
    rewrite list_lookup_insert_ne; [done|]. rewrite <- Ha. zdiv_lia.
  - unfold ring_at. simpl. rewrite Z.add_0_l, Ha, list_lookup_insert_eq; [done|]. lia.
Qed.

Lemma read_byte_spec r b l :
  ring_wf r → contents r = b :: l →
  ∃ r', read_byte r = Done (b, r') ∧ ring_wf r' ∧ contents r' = l ∧ write_end r' = write_end r.
Proof.
  intros Hwf Hc. pose proof (length_contents r Hwf) as Hl. destruct (available_read_eq r Hwf) as (Ha&_&_).
  pose proof (available_read_range r Hwf) as Har. pose proof Hwf as [Hlen Hh Ht Hs]. rewrite Hc in Hl. simpl in Hl.
  unfold contents in Hc. rewrite seqZ_cons in Hc by lia. simpl in Hc. injection Hc as Hb Htl.
  unfold read_byte. unfold ring_at in Hb. rewrite Z.add_0_r, Z.mod_small in Hb by lia.
  destruct (lookup_lt_is_Some_2 (arr r) (Z.to_nat (head_ r))) as [c Hc]; [lia|]. rewrite Hc in *. simpl in Hb. subst c.
  cbn [unwrap mbind outcome_bind]. rewrite wadd_small by lia. unfold RING_BUFFER_SIZE. eexists. split; [done|].
  set (r' := mkRing _ _ _ _ _).
  assert (Hwf' : ring_wf r').
  { split; simpl; [done|apply Z.mod_pos_bound; lia|done|].
    destruct (Z.eqb_spec ((head_ r + 1) mod 32) (tail_ r)); split; done || congruence. }
  assert (Hn : available_read r' = available_read r - 1).
  { apply available_read_by; [done|lia| | |]; simpl; [rewrite <- Ha; zdiv_lia| |lia].
    intros ?. rewrite (proj2 (Z.eqb_eq _ _)); [done|]. rewrite <- Ha. zdiv_lia. }
  split; [done|]. split; [|done]. unfold contents. rewrite Hn, <- Htl. apply list_eq. intros i. rewrite !list_lookup_fmap.
  destruct (decide (i < available_read r - 1)).
  - rewrite !lookup_seqZ_lt by lia. simpl. f_equal. unfold ring_at. simpl. do 3 f_equal. zdiv_lia.
  - rewrite !lookup_seqZ_ge by lia. done.
Qed.

(** ** Turns *)

Definition call_ok (c : ReadCall) : Prop := Z.of_nat (length (rc_got c)) <= rc_want c.

Lemma read_for_spec k : ∀ r c,
  ring_wf r → (k <= length (contents r))%nat → call_ok c →
  let n := Nat.min k (Z.to_nat (rc_want c - length (rc_got c))) in
  ∃ r', read_for k r c = Done (r', mkRead (rc_want c) (rc_got c ++ take n (contents r)),
      if decide (k ≠ O ∧ Z.of_nat (length (rc_got c) + n) = rc_want c) then Some (rc_want c) else None) ∧
    ring_wf r' ∧ contents r' = drop n (contents r) ∧ write_end r' = write_end r.
Proof.
  induction k as [|k IH]; intros r c Hwf Hk Hc n; subst n; unfold call_ok in Hc.
  { exists r. rewrite decide_False by tauto. simpl. rewrite app_nil_r. by destruct c. }
  cbn [read_for]. destruct (Z.ltb_spec (length (rc_got c)) (rc_want c)) as [Hlt|Hge].
  2:{ exists r. replace (Nat.min (S k) _) with 0%nat by lia. simpl. rewrite app_nil_r, drop_0.
      rewrite decide_True by lia. replace (Z.of_nat (length (rc_got c))) with (rc_want c) by lia. by destruct c. }
  destruct (contents r) as [|b l] eqn:El; [simpl in Hk; lia|].
  destruct (read_byte_spec r b l Hwf El) as (r1&->&Hwf1&Hl1&Hw1). cbn [mbind outcome_bind rc_got rc_want].
  replace (Nat.min (S k) (Z.to_nat (rc_want c - length (rc_got c))))
    with (S (Nat.min k (Z.to_nat (rc_want c - (length (rc_got c) + 1))))) by lia.
  cbn [take drop]. rewrite length_app. simpl length.
  destruct (Z.eqb_spec (Z.of_nat (length (rc_got c) + 1)) (rc_want c)) as [Heq|Hne].
  - exists r1. replace (Nat.min k _) with 0%nat by lia. rewrite take_0, drop_0, decide_True by lia. done.
  - destruct (IH r1 (mkRead (rc_want c) (rc_got c ++ [b]))) as (r2&Hrun&?&?&?).
    + done.
    + rewrite Hl1. simpl in Hk. lia.
    + unfold call_ok. simpl. rewrite length_app. simpl. lia.
    + exists r2. cbn [rc_want rc_got] in *. rewrite length_app, Hl1 in *. simpl length in *.
      replace (rc_want c - (length (rc_got c) + 1)%nat) with (rc_want c - (length (rc_got c) + 1)) in * by lia.
      rewrite Hrun, <- app_assoc. split; [|split; [done|split; [congruence|congruence]]].
      do 2 f_equal. destruct k as [|k]; [|apply decide_ext; lia]. 
      rewrite !decide_False by lia. done.
Qed.

(** What a turn of [read] does to the queue: it takes as many bytes as there
    are and as the call still wants, and ends when it has them all, when the
    queue is empty and no writer is left, or when it would have to wait. *)
Lemma pipe_read_spec e alive r c :
  ring_wf r → write_end r = true → call_ok c → pe_readable e = true →
  let n := Nat.min (length (contents r)) (Z.to_nat (rc_want c - length (rc_got c))) in
  let got' := rc_got c ++ take n (contents r) in
  ∃ r', pipe_read e alive r c = Done (r', mkRead (rc_want c) got',
      if decide (contents r ≠ [] ∧ Z.of_nat (length got') = rc_want c) then Returned (rc_want c)
      else if pe_nonblocking e || negb alive then Returned (length got') else Suspended) ∧
    ring_wf r' ∧ contents r' = drop n (contents r) ∧ write_end r' = true.
Proof.
  intros Hwf Hw Hc He n got'. unfold pipe_read. rewrite He.
  assert (Hempty : ∀ r0 c0, ring_wf r0 → contents r0 = [] → write_end r0 = true →
    read_iter (pe_nonblocking e) alive r0 c0 =
    Done (r0, c0, Some (if pe_nonblocking e || negb alive then Returned (length (rc_got c0)) else Suspended))).
  { intros r0 c0 Hwf0 E0 W0. unfold read_iter. rewrite <- length_contents, E0 by done. simpl.
    unfold all_write_ends_closed. rewrite W0. by destruct (pe_nonblocking e), alive. }
  destruct (decide (contents r = [])) as [E|E].
  { exists r. rewrite Hempty by done. cbn [mbind outcome_bind]. rewrite decide_False by tauto. subst n got'. rewrite E. simpl.
    rewrite app_nil_r. by destruct c. }
  destruct (read_for_spec (length (contents r)) r c Hwf (Nat.le_refl _) Hc) as (r1&Hrun&Hwf1&Hc1&Hw1).
  fold n in Hrun, Hc1. fold got' in Hrun.
  assert (Hne : (0 < length (contents r))%nat) by (destruct (contents r); [done|simpl; lia]).
  assert (Hgl : length got' = (length (rc_got c) + n)%nat) by (unfold got'; rewrite length_app, length_take; lia).
  assert (read_iter (pe_nonblocking e) alive r c = Done (r1, mkRead (rc_want c) got',
    if decide (Z.of_nat (length got') = rc_want c) then Some (Returned (rc_want c)) else None)) as ->.
  { unfold read_iter. rewrite <- length_contents by done. rewrite (proj2 (Z.eqb_neq _ _)) by lia.
    rewrite Nat2Z.id, Hrun. cbn [mbind outcome_bind]. do 2 f_equal. rewrite <- Hgl.
    destruct (decide (Z.of_nat (length got') = rc_want c)); [rewrite decide_True by lia|rewrite decide_False by lia]; done. }
  cbn [mbind outcome_bind]. destruct (decide (Z.of_nat (length got') = rc_want c)) as [Hd|Hd].
  - exists r1. rewrite decide_True by done. split; [done|]. split; [done|]. split; [done|congruence].
  - unfold call_ok in Hc. assert (n = length (contents r)) by lia.
    exists r1. rewrite (Hempty r1) by (done || congruence || (rewrite Hc1; apply drop_ge; lia)).
    cbn [mbind outcome_bind unwrap]. rewrite decide_False by tauto. split; [done|]. split; [done|]. split; [done|congruence].
Qed.

Definition wcall_ok (c : WriteCall) : Prop := wc_sent c + length (wc_left c) = wc_want c ∧ 0 <= wc_sent c.

Lemma write_for_spec k : ∀ r c,
  ring_wf r → (length (contents r) + k <= 32)%nat → wcall_ok c →
  let n := Nat.min k (length (wc_left c)) in
  ∃ r', write_for k r c = Done (r', mkWrite (wc_want c) (wc_sent c + n) (drop n (wc_left c)),
      if decide (k ≠ O ∧ drop n (wc_left c) = []) then Some (wc_want c) else None) ∧
    ring_wf r' ∧ contents r' = contents r ++ take n (wc_left c) ∧ write_end r' = write_end r.
Proof.
  induction k as [|k IH]; intros r c Hwf Hk [Hc Hs] n; subst n.
  { exists r. rewrite decide_False by tauto. simpl. rewrite app_nil_r, drop_0, Z.add_0_r. by destruct c. }
  cbn [write_for]. destruct (wc_left c) as [|b l] eqn:El; simpl in Hc.
  { exists r. simpl. rewrite app_nil_r, Z.add_0_r in *. replace (wc_sent c) with (wc_want c) by lia.
    rewrite <- El. destruct c; simpl in *. split; [|done]. do 4 f_equal. lia. }
  destruct (write_byte_spec r b Hwf) as (r1&->&Hwf1&Hl1&Hw1); [lia|].
  cbn [mbind outcome_bind wc_sent wc_want wc_left Nat.min length drop take].
  destruct (Z.eqb_spec (wc_sent c + 1) (wc_want c)) as [Heq|Hne].
  - assert (l = []) as -> by (destruct l; [done|simpl in Hc; lia]).
    exists r1. simpl. rewrite Nat.min_0_r. simpl. done.
  - destruct (IH r1 (mkWrite (wc_want c) (wc_sent c + 1) l)) as (r2&Hrun&?&Hc2&?).
    + done.
    + rewrite Hl1, length_app. simpl. lia.
    + split; simpl; lia.
    + exists r2. cbn [wc_want wc_sent wc_left] in *. rewrite Hrun, Hl1 in *. split; [|split; [done|split; [|congruence]]].
      * do 2 f_equal; [do 2 f_equal; lia|]. destruct k as [|k]; [|apply decide_ext; split; intros [_ ?]; done].
        rewrite !decide_False; [done| |tauto]. intros [_ Hnil]. cbn [Nat.min drop] in Hnil.
        rewrite drop_0 in Hnil. rewrite Hnil in Hc. simpl in Hc. lia.
      * rewrite Hc2, <- app_assoc. done.
Qed.

(** A turn of [write] appends as many bytes as there is room for. *)
Lemma pipe_write_spec e r c :
  ring_wf r → wcall_ok c → pe_writable e = true →
  let n := Nat.min (32 - length (contents r)) (length (wc_left c)) in
  ∃ r', pipe_write e r c = Done (r', mkWrite (wc_want c) (wc_sent c + n) (drop n (wc_left c)),
      if decide (length (contents r) ≠ 32%nat ∧ drop n (wc_left c) = []) then Returned (wc_want c)
      else if pe_nonblocking e then Returned (wc_sent c + n) else Suspended) ∧
    ring_wf r' ∧ contents r' = contents r ++ take n (wc_left c) ∧ write_end r' = write_end r.
Proof.
  intros Hwf Hc He n. unfold pipe_write. rewrite He.
  assert (Hcap : (length (contents r) <= 32)%nat).
  { pose proof (length_contents r Hwf). pose proof (available_read_range r Hwf). lia. }
  assert (Hfull : ∀ r0 c0, ring_wf r0 → length (contents r0) = 32%nat →
    write_iter (pe_nonblocking e) r0 c0 =
    Done (r0, c0, Some (if pe_nonblocking e then Returned (wc_sent c0) else Suspended))).
  { intros r0 c0 Hwf0 E0. unfold write_iter. rewrite available_write_eq, E0 by done. simpl. by destruct (pe_nonblocking e). }
  destruct (decide (length (contents r) = 32%nat)) as [E|E].
  { exists r. rewrite Hfull by done. cbn [mbind outcome_bind]. rewrite decide_False by tauto. subst n. rewrite E. simpl.
    rewrite app_nil_r, drop_0, Z.add_0_r. by destruct c. }
  destruct (write_for_spec (32 - length (contents r)) r c Hwf) as (r1&Hrun&Hwf1&Hc1&Hw1); [lia|done|].
  fold n in Hrun, Hc1.
  assert (write_iter (pe_nonblocking e) r c = Done (r1, mkWrite (wc_want c) (wc_sent c + n) (drop n (wc_left c)),
    if decide (drop n (wc_left c) = []) then Some (Returned (wc_want c)) else None)) as ->.
  { unfold write_iter. rewrite available_write_eq by done. rewrite (proj2 (Z.eqb_neq _ _)) by lia.
    replace (Z.to_nat (32 - length (contents r))) with (32 - length (contents r))%nat by lia.
    rewrite Hrun. cbn [mbind outcome_bind]. do 2 f_equal.
    destruct (decide (drop n (wc_left c) = [])); [rewrite decide_True by (split; [lia|done])|rewrite decide_False by tauto]; done. }
  cbn [mbind outcome_bind]. exists r1. destruct (decide (drop n (wc_left c) = [])) as [Hd|Hd].
  - rewrite decide_True by done. done.
  - assert (n = (32 - length (contents r))%nat).
    { unfold n. destruct (decide (32 - length (contents r) <= length (wc_left c))%nat); [lia|].
      destruct Hd. apply drop_ge. unfold n. lia. }
    rewrite Hfull; [|done|rewrite Hc1, length_app, length_take; lia].
    cbn [mbind outcome_bind unwrap]. rewrite decide_False by tauto. done.
Qed.

Lemma read_n_spec k : ∀ r,
  ring_wf r → (k <= length (contents r))%nat →
  ∃ r', read_n k r = Done (take k (contents r), r') ∧ ring_wf r' ∧ contents r' = drop k (contents r) ∧
        write_end r' = write_end r.
Proof.
  induction k as [|k IH]; intros r Hwf Hk; [by exists r|].
  destruct (contents r) as [|b l] eqn:El; [simpl in Hk; lia|].
  destruct (read_byte_spec r b l Hwf El) as (r1&Hr1&Hwf1&Hl1&Hw1).
  destruct (IH r1 Hwf1) as (r2&Hr2&?&?&?); [rewrite Hl1; simpl in Hk; lia|].
  exists r2. simpl. rewrite Hr1. cbn [mbind outcome_bind]. rewrite Hr2, Hl1.
  split; [done|]. split; [done|]. split; congruence.
Qed.

Lemma write_n_spec bs : ∀ r,
  ring_wf r → (length (contents r) + length bs <= 32)%nat →
  ∃ r', write_n bs r = Done r' ∧ ring_wf r' ∧ contents r' = contents r ++ bs ∧ write_end r' = write_end r.
Proof.
  induction bs as [|b bs IH]; intros r Hwf Hk; simpl in Hk.
  { exists r. by rewrite app_nil_r. }
  destruct (write_byte_spec r b Hwf) as (r1&Hr1&Hwf1&Hl1&Hw1); [lia|].
  destruct (IH r1 Hwf1) as (r2&Hr2&?&Hc2&?); [rewrite Hl1, length_app; simpl; lia|].
  exists r2. simpl. rewrite Hr1. cbn [mbind outcome_bind]. rewrite Hr2. split; [done|]. split; [done|].
  split; [|congruence]. by rewrite Hc2, Hl1, <- app_assoc.
Qed.

(** ** A pipe in use

    [pipe_reach r sent recv]: the processes that share the pipe have taken turns
    in some order, having written [sent] and read [recv] in total. *)
Inductive pipe_reach : PipeRingBuffer → list Z → list Z → Prop :=
| reach_new : pipe_reach make_pipe.1.1 [] []
| reach_read r sent recv e alive c r' c' t :
    pipe_reach r sent recv → call_ok c → pipe_read e alive r c = Done (r', c', t) →
    pipe_reach r' sent (recv ++ drop (length (rc_got c)) (rc_got c'))
| reach_write r sent recv e c r' c' t :
    pipe_reach r sent recv → wcall_ok c → pipe_write e r c = Done (r', c', t) →
    pipe_reach r' (sent ++ take (length (wc_left c) - length (wc_left c')) (wc_left c)) recv
| reach_read_at r sent recv off buf buf' n r' :
    pipe_reach r sent recv → pipe_read_at r off buf = Done (buf', n, r') →
    pipe_reach r' sent (recv ++ take (Z.to_nat n) buf')
| reach_write_at r sent recv off buf n r' :
    pipe_reach r sent recv → pipe_write_at r off buf = Done (n, r') →
    pipe_reach r' (sent ++ take (Z.to_nat n) buf) recv.

Lemma ring_new_wf : ring_wf make_pipe.1.1 ∧ contents make_pipe.1.1 = [].
Proof. split; [|done]. split; simpl; done || lia || (split; done). Qed.

Definition pipe_inv (r : PipeRingBuffer) (sent recv : list Z) : Prop :=
  ring_wf r ∧ write_end r = true ∧ sent = recv ++ contents r.

Lemma pipe_reach_inv r sent recv : pipe_reach r sent recv → pipe_inv r sent recv.
Proof.
  induction 1 as [|r sent recv e alive c r' c' t _ (Hwf&Hw&->) Hc Hrun
    |r sent recv e c r' c' t _ (Hwf&Hw&->) Hc Hrun
    |r sent recv off buf buf' n r' _ (Hwf&Hw&->) Hrun|r sent recv off buf n r' _ (Hwf&Hw&->) Hrun].
  - destruct ring_new_wf. split; [done|]. by split.
  - destruct (pe_readable e) eqn:He; [|unfold pipe_read in Hrun; by rewrite He in Hrun].
    destruct (pipe_read_spec e alive r c Hwf Hw Hc He) as (r1&Hs&?&Hc1&?). rewrite Hs in Hrun.
    injection Hrun as <- <- _. split; [done|]. split; [done|]. simpl. rewrite drop_app_length, Hc1.
    by rewrite <- app_assoc, take_drop.
  - destruct (pe_writable e) eqn:He; [|unfold pipe_write in Hrun; by rewrite He in Hrun].
    destruct (pipe_write_spec e r c Hwf Hc He) as (r1&Hs&?&Hc1&?). rewrite Hs in Hrun.
    injection Hrun as <- <- _. split; [done|]. split; [congruence|]. simpl. rewrite Hc1, length_drop, <- app_assoc.
    do 2 f_equal. f_equal. lia.
  - unfold pipe_read_at in Hrun. pose proof (length_contents r Hwf) as Hl.
    destruct (read_n_spec (Z.to_nat (Z.min (available_read r) (length buf))) r Hwf) as (r1&Hs&?&Hc1&?); [lia|].
    rewrite Hs in Hrun. cbn [mbind outcome_bind] in Hrun. injection Hrun as <- <- <-. split; [done|].
    split; [congruence|]. rewrite Hc1, <- app_assoc. f_equal. rewrite Nat2Z.id, take_app_length. by rewrite take_drop.
  - unfold pipe_write_at in Hrun. pose proof (available_write_eq r Hwf) as Hl.
    destruct (write_n_spec (take (Z.to_nat (Z.min (available_write r) (length buf))) buf) r Hwf) as (r1&Hs&?&Hc1&?).
    { rewrite length_take. pose proof (length_contents r Hwf). pose proof (available_read_range r Hwf). lia. }
    rewrite Hs in Hrun. cbn [mbind outcome_bind] in Hrun. injection Hrun as <- <-. split; [done|].
    split; [congruence|]. by rewrite Hc1, <- app_assoc.
Qed.

(** ** Properties *)

(** C15: whatever the order in which readers and writers of a pipe take their
    turns, the bytes written are the bytes read followed by what is still in
    the ring: none is lost, repeated or reordered, and at most 32 wait. *)
Theorem pipe_fifo r sent recv :
  pipe_reach r sent recv →
  sent = recv ++ contents r ∧ (length (contents r) <= 32)%nat ∧
  available_read r = length (contents r) ∧ available_write r = 32 - length (contents r).
Proof.
  intros (Hwf&_&Hs)%pipe_reach_inv. pose proof (length_contents r Hwf) as Hl.
  pose proof (available_read_range r Hwf). split; [done|]. split; [lia|]. split; [done|]. by apply available_write_eq.
Qed.

(** A writer sends three bytes, then a reader takes two of them. *)
Lemma pipe_fifo_witness :
  ∃ r, pipe_reach r [7; 8; 9] [7; 8] ∧ contents r = [9].
Proof.
  assert (∃ r, pipe_reach r [7; 8; 9] [7; 8]) as [r Hreach].
  { eexists. refine (reach_read _ _ [] read_end_with_buffer true (mkRead 2 []) _ (mkRead 2 [7; 8]) (Returned 2) _ _ _).
    - refine (reach_write _ [] [] write_end_with_buffer (mkWrite 3 0 [7; 8; 9]) _ (mkWrite 3 3 []) (Returned 3) reach_new _ _);
        [split; simpl; lia|vm_compute; reflexivity].
    - unfold call_ok. simpl. lia.
    - vm_compute. reflexivity. }
  exists r. split; [exact Hreach|]. destruct (pipe_fifo r _ _ Hreach) as (Hs&_).
  change [7; 8; 9] with ([7; 8] ++ [9]) in Hs. apply app_inv_head in Hs. symmetry. exact Hs.
Defined.

(** From any reachable state a turn of [read] on the read end never panics
    and ends: with all the bytes wanted, with fewer only if the buffer is then
    empty and it is non-blocking or every write end is closed, and otherwise it
    waits with the buffer empty. *)
Theorem pipe_read_turn r sent recv nb alive c :
  pipe_reach r sent recv → call_ok c →
  ∃ r' c' t, pipe_read (set_nonblocking read_end_with_buffer nb) alive r c = Done (r', c', t) ∧
    rc_got c' = rc_got c ++ take (length (rc_got c') - length (rc_got c)) (contents r) ∧
    match t with
    | Returned n => n = length (rc_got c') ∧
        (n = rc_want c ∨ contents r' = [] ∧ (nb = true ∨ alive = false))
    | Suspended => contents r' = [] ∧ nb = false ∧ alive = true
    end.
Proof.
  intros (Hwf&Hw&_)%pipe_reach_inv Hc.
  destruct (pipe_read_spec (set_nonblocking read_end_with_buffer nb) alive r c Hwf Hw Hc eq_refl) as (r'&Hs&_&Hc'&_).
  set (n := Nat.min _ _) in *. unfold call_ok in Hc.
  assert (Hn : length (rc_got c ++ take n (contents r)) = (length (rc_got c) + n)%nat)
    by (rewrite length_app, length_take; lia).
  do 3 eexists. split; [exact Hs|]. cbn [rc_got]. split.
  { rewrite Hn. do 2 f_equal. lia. }
  case_decide as Hd; [split; [lia|auto]|].
  assert (Hempty : contents r' = []).
  { rewrite Hc'. apply drop_ge. destruct (decide (contents r = [])) as [E|E]; [rewrite E; simpl; lia|].
    rewrite Hn in Hd. destruct (decide (length (contents r) <= n)%nat); [done|]. destruct Hd. split; [done|]. lia. }
  simpl. destruct nb, alive; simpl; auto 6.
Qed.

Lemma pipe_read_turn_witness :
  ∃ r' c', pipe_read (set_nonblocking read_end_with_buffer false) true make_pipe.1.1 (mkRead 4 []) = Done (r', c', Suspended).
Proof.
  destruct (pipe_read_turn make_pipe.1.1 [] [] false true (mkRead 4 [])) as (r'&c'&t&Hr&_&Ht).
  - apply reach_new.
  - unfold call_ok. simpl. lia.
  - exists r', c'. rewrite Hr. vm_compute in Hr. injection Hr as <- <- <-. reflexivity.
Defined.
