(* ===== verification/BlockCache.v ===== *)
(** * The block cache and the FAT device
    ([os/src/fs/block_cache.rs], [os/src/fs/fat32.rs])

    Cached blocks are shared through [Arc]s: the queue of the manager holds one
    reference to each entry, callers hold the others, and an entry is evicted
    only when the queue's is the last.  Dropping an entry writes it back.  The
    block device is a parameter: the class [BlockDevice] states what the trait
    promises. *)

From S2P Require Import Prelude.

Definition BLOCK_SZ : Z := 512.
Definition BLOCK_CACHE_SIZE : Z := 16.

(** ** The device *)

Definition is_block (b : list Z) : Prop := length b = 512%nat.

Class BlockDevice (D : Type) := {
  read_block : D → Z → list Z;
  write_block : D → Z → list Z → D;
  read_block_len d i : is_block (read_block d i);
  read_write_eq d i b : is_block b → read_block (write_block d i b) i = b;
  read_write_ne d i j b : is_block b → i ≠ j → read_block (write_block d i b) j = read_block d j;
}.

(** ** Data *)

Record BlockCache := mkBC { bc_cache : list Z; bc_block_id : Z; bc_modified : bool }.

(** A queue entry: its key, the shared cache and the strong count. *)
Record Entry := mkEntry { en_key : Z; en_bc : BlockCache; en_count : Z }.

Record CacheState (D : Type) := mkCS { cs_disk : D; cs_queue : list Entry }.
Arguments mkCS {D} _ _.
Arguments cs_disk {D} _.
Arguments cs_queue {D} _.

(** [SeekFrom] *)
Inductive SeekFrom := SeekStart (offset : Z) | SeekCurrent (offset : Z) | SeekEnd (offset : Z).

Inductive FatFsError := IoError | InvalidOffset | ENOENT.

Section cache.
Context {D : Type} `{!BlockDevice D}.
Notation S := (CacheState D).

(** ** [BlockCache] *)

Definition bc_new (d : D) (block_id : Z) : BlockCache := mkBC (read_block d block_id) block_id false.

(** [get_ref] and [get_mut] assert that the object fits. *)
Definition bc_get_ref (c : BlockCache) (offset size : Z) : outcome (list Z) :=
  if offset + size <=? BLOCK_SZ then slice (bc_cache c) offset (offset + size) else Panic.

(** The object at [offset] is replaced by what [f] makes of it. *)
Definition bc_get_mut (c : BlockCache) (offset size : Z) (f : list Z → outcome (list Z)) : outcome BlockCache :=
  if offset + size <=? BLOCK_SZ then
    old ← slice (bc_cache c) offset (offset + size);
    new ← f old;
    Done (mkBC (take (Z.to_nat offset) (bc_cache c) ++ new ++ drop (Z.to_nat (offset + size)) (bc_cache c))
               (bc_block_id c) true)
  else Panic.

Definition bc_sync (d : D) (c : BlockCache) : D * BlockCache :=
  if bc_modified c then (write_block d (bc_block_id c) (bc_cache c), mkBC (bc_cache c) (bc_block_id c) false)
  else (d, c).

(** [Drop for BlockCache] *)
Definition bc_drop (d : D) (c : BlockCache) : D := (bc_sync d c).1.

(** ** [BlockCacheManager] *)

Definition mgr_new : list Entry := [].

Definition en_retain (e : Entry) : Entry := mkEntry (en_key e) (en_bc e) (en_count e + 1).
Definition en_release (e : Entry) : Entry := mkEntry (en_key e) (en_bc e) (en_count e - 1).

(** Free a slot when the queue is full. *)
Definition make_room : K S unit := λ s,
  if Z.of_nat (length (cs_queue s)) =? BLOCK_CACHE_SIZE then
    match list_find (λ e, en_count e = 1) (cs_queue s) with
    | Some (idx, e) => Done ((), mkCS (bc_drop (cs_disk s) (en_bc e)) (delete idx (cs_queue s)))
    | None => Panic
    end
  else Done ((), s).

(** The caller's handle is the block number: while the caller holds it the
    entry stays in the queue. *)
Definition get_block_cache (block_id : Z) : K S unit := λ s,
  match list_find (λ e, en_key e = block_id) (cs_queue s) with
  | Some (i, e) => Done ((), mkCS (cs_disk s) (<[i := en_retain e]> (cs_queue s)))
  | None =>
      (make_room ;;
       kmodify (λ s, mkCS (cs_disk s) (cs_queue s ++ [mkEntry block_id (bc_new (cs_disk s) block_id) 2]))) s
  end.

(** Dropping the caller's [Arc]. *)
Definition put_block_cache (block_id : Z) : K S unit := λ s,
  match list_find (λ e, en_key e = block_id) (cs_queue s) with
  | Some (i, e) => Done ((), mkCS (cs_disk s) (<[i := en_release e]> (cs_queue s)))
  | None => Panic
  end.

(** [cache.lock().read(offset, f)] and [modify(offset, f)] through a handle. *)
Definition handle_read (block_id offset size : Z) : K S (list Z) := λ s,
  match list_find (λ e, en_key e = block_id) (cs_queue s) with
  | Some (i, e) => v ← bc_get_ref (en_bc e) offset size; Done (v, s)
  | None => Panic
  end.

Definition handle_modify (block_id offset size : Z) (f : list Z → outcome (list Z)) : K S unit := λ s,
  match list_find (λ e, en_key e = block_id) (cs_queue s) with
  | Some (i, e) =>
      c ← bc_get_mut (en_bc e) offset size f;
      Done ((), mkCS (cs_disk s) (<[i := mkEntry (en_key e) c (en_count e)]> (cs_queue s)))
  | None => Panic
  end.

Fixpoint sync_list (d : D) (q : list Entry) : D * list Entry :=
  match q with
  | [] => (d, [])
  | e :: q' =>
      let '(d1, c) := bc_sync d (en_bc e) in
      let '(d2, q2) := sync_list d1 q' in
      (d2, mkEntry (en_key e) c (en_count e) :: q2)
  end.

Definition block_cache_sync_all : K S unit :=
  kmodify (λ s, let '(d, q) := sync_list (cs_disk s) (cs_queue s) in mkCS d q).

(** ** [FatFsBlockDevice]: a position on the device *)

(** [get_block_cache(..).lock().read(0, |block| ...)] *)
Definition read_chunk (block_id offset_in_block size : Z) : K S (list Z) :=
  get_block_cache block_id ;;
  block ← handle_read block_id 0 BLOCK_SZ;
  bs ← klift (slice block offset_in_block (offset_in_block + size));
  put_block_cache block_id ;;
  mret bs.

(** [while read_size < buf.len()]: the bytes read, in order. *)
Fixpoint fat_read_loop (fuel : nat) (buf_len read_size current_offset : Z) (acc : list Z) : K S (list Z) :=
  match fuel with
  | O => kpanic
  | Datatypes.S fuel' =>
      if read_size <? buf_len then
        let block_id := current_offset / BLOCK_SZ in
        let offset_in_block := current_offset mod BLOCK_SZ in
        let size_to_read := Z.min (buf_len - read_size) (BLOCK_SZ - offset_in_block) in
        bs ← read_chunk block_id offset_in_block size_to_read;
        fat_read_loop fuel' buf_len (read_size + size_to_read) (current_offset +w size_to_read) (acc ++ bs)
      else mret acc
  end.

(** The result is the data, the count and the new position. *)
Definition fat_read (offset buf_len : Z) : K S (list Z * Z * Z) :=
  if buf_len =? 0 then mret ([], 0, offset)
  else
    bs ← fat_read_loop (Datatypes.S (Z.to_nat buf_len)) buf_len 0 offset [];
    mret (bs, Z.of_nat (length bs), offset +w length bs).

(** [get_block_cache(..).lock().modify(0, |block| ...)] *)
Definition write_chunk (block_id offset_in_block : Z) (bs : list Z) : K S unit :=
  get_block_cache block_id ;;
  handle_modify block_id 0 BLOCK_SZ (λ block,
    if (offset_in_block <=? offset_in_block + length bs) && (offset_in_block + length bs <=? length block)
    then Done (take (Z.to_nat offset_in_block) block ++ bs ++ drop (Z.to_nat (offset_in_block + length bs)) block)
    else Panic) ;;
  put_block_cache block_id.

Fixpoint fat_write_loop (fuel : nat) (buf : list Z) (write_size current_offset : Z) : K S Z :=
  match fuel with
  | O => kpanic
  | Datatypes.S fuel' =>
      if write_size <? length buf then
        let block_id := current_offset / BLOCK_SZ in
        let offset_in_block := current_offset mod BLOCK_SZ in
        let size_to_write := Z.min (length buf - write_size) (BLOCK_SZ - offset_in_block) in
        bs ← klift (slice buf write_size (write_size + size_to_write));
        write_chunk block_id offset_in_block bs ;;
        fat_write_loop fuel' buf (write_size + size_to_write) (current_offset +w size_to_write)
      else mret write_size
  end.

Definition fat_write (offset : Z) (buf : list Z) : K S (Z * Z) :=
  if bool_decide (buf = []) then mret (0, offset)
  else
    n ← fat_write_loop (Datatypes.S (length buf)) buf 0 offset;
    mret (n, offset +w n).

Definition fat_flush : K S unit := block_cache_sync_all.

(** The new position, or an error. *)
Definition fat_seek (offset : Z) (pos : SeekFrom) : FatFsError + Z :=
  match pos with
  | SeekEnd _ => inl InvalidOffset
  | SeekStart o => if as_isize o <? 0 then inl InvalidOffset else inr o
  | SeekCurrent o =>
      let n := as_isize (wrap64 (as_isize offset + o)) in
      if n <? 0 then inl InvalidOffset else inr n
  end.

(** ** Coherence *)

Definition keys (q : list Entry) : list Z := en_key <$> q.

Record entry_ok (d : D) (e : Entry) : Prop := {
  eo_key : en_key e = bc_block_id (en_bc e);
  eo_block : is_block (bc_cache (en_bc e));
  eo_clean : bc_modified (en_bc e) = false → bc_cache (en_bc e) = read_block d (en_key e);
  eo_refs : 1 <= en_count e;
}.

Record cache_ok (s : S) : Prop := {
  co_nodup : NoDup (keys (cs_queue s));
  co_entry : ∀ e, e ∈ cs_queue s → entry_ok (cs_disk s) e;
  co_size : (length (cs_queue s) <= 16)%nat;
}.

(** The contents of block [i] as the users of the cache see it. *)
Definition view (s : S) (i : Z) : list Z :=
  match list_find (λ e, en_key e = i) (cs_queue s) with
  | Some (_, e) => bc_cache (en_bc e)
  | None => read_block (cs_disk s) i
  end.

(** Nobody but the queue holds an entry. *)
Definition idle (s : S) : Prop := ∀ e, e ∈ cs_queue s → en_count e = 1.

Lemma find_key q i e k :
  NoDup (keys q) → q !! i = Some e → en_key e = k → list_find (λ e, en_key e = k) q = Some (i, e).
Proof.
  intros Hnd Hi Hk. apply list_find_Some. split; [done|]. split; [done|]. intros j e' Hj Hlt Hk'.
  assert (j = i); [|lia]. eapply (NoDup_lookup (keys q) j i k); [done| |];
    unfold keys; rewrite list_lookup_fmap; [rewrite Hj|rewrite Hi]; simpl; congruence.
Qed.

Lemma view_at s i e : cache_ok s → cs_queue s !! i = Some e → view s (en_key e) = bc_cache (en_bc e).
Proof. intros Hok Hi. unfold view. by rewrite (find_key _ i e) by (done || apply Hok). Qed.

Lemma view_miss s k : k ∉ keys (cs_queue s) → view s k = read_block (cs_disk s) k.
Proof.
  intros Hk. unfold view. rewrite (proj2 (list_find_None _ _)); [done|].
  rewrite Forall_forall. intros e He Hek. apply Hk, list_elem_of_fmap. eauto.
Qed.

Lemma view_block s k : cache_ok s → is_block (view s k).
Proof.
  intros Hok. unfold view. destruct (list_find _ _) as [[i e]|] eqn:E; [|apply read_block_len].
  apply list_find_Some in E as (Hi&_&_). eapply (eo_block (cs_disk s)), (co_entry _ Hok). by eapply list_elem_of_lookup_2.
Qed.

Lemma elem_keys q k : k ∈ keys q → ∃ i e, q !! i = Some e ∧ en_key e = k.
Proof. intros (e&->&[i Hi]%list_elem_of_lookup)%list_elem_of_fmap. eauto. Qed.

Lemma keys_insert q i e e' : q !! i = Some e → en_key e' = en_key e → keys (<[i := e']> q) = keys q.
Proof.
  intros Hi Hk. unfold keys. rewrite list_fmap_insert, Hk. apply list_insert_id.
  by rewrite list_lookup_fmap, Hi.
Qed.

(** Replacing the entry at [i]. *)
Lemma update_entry s i e e' :
  cache_ok s → cs_queue s !! i = Some e → en_key e' = en_key e → entry_ok (cs_disk s) e' →
  let s' := mkCS (cs_disk s) (<[i := e']> (cs_queue s)) in
  cache_ok s' ∧ ∀ k, view s' k = if decide (k = en_key e) then bc_cache (en_bc e') else view s k.
Proof.
  intros [Hnd Hen Hsz] Hi Hk He' s'.
  assert (Hok' : cache_ok s').
  { split; simpl; [by rewrite (keys_insert _ _ e)| |by rewrite length_insert].
    intros x [j Hj]%list_elem_of_lookup. apply list_lookup_insert_Some in Hj as [(_&<-&_)|(_&Hj)]; [done|].
    apply Hen. by eapply list_elem_of_lookup_2. }
  split; [done|]. intros k. pose proof (lookup_lt_Some _ _ _ Hi) as Hlt. case_decide as Hd.
  - rewrite Hd, <- Hk. apply (view_at s' i); [done|]. simpl. by rewrite list_lookup_insert_eq.
  - destruct (decide (k ∈ keys (cs_queue s))) as [(j&x&Hj&<-)%elem_keys|Hm].
    + assert (j ≠ i) by (intros ->; congruence).
      rewrite (view_at s j) by done. apply (view_at s' j); [done|]. simpl. by rewrite list_lookup_insert_ne.
    + rewrite (view_miss s) by done. rewrite (view_miss s'); [done|]. simpl. by rewrite (keys_insert _ _ e).
Qed.

(** ** Eviction *)

Lemma bc_drop_spec d e :
  entry_ok d e → ∀ k, read_block (bc_drop d (en_bc e)) k =
    if decide (k = en_key e) then bc_cache (en_bc e) else read_block d k.
Proof.
  intros [Hk Hb Hc _] k. unfold bc_drop, bc_sync. destruct (bc_modified (en_bc e)) eqn:E; simpl.
  - rewrite <- Hk. case_decide as Hd; [rewrite Hd; by apply read_write_eq|by apply read_write_ne].
  - case_decide as Hd; [|done]. rewrite Hd. symmetry. by apply Hc.
Qed.

Lemma evict_spec s i e :
  cache_ok s → cs_queue s !! i = Some e →
  let s' := mkCS (bc_drop (cs_disk s) (en_bc e)) (delete i (cs_queue s)) in
  cache_ok s' ∧ (∀ k, view s' k = view s k) ∧ en_key e ∉ keys (cs_queue s').
Proof.
  intros Hok Hi s'. pose proof Hok as [Hnd Hen Hsz].
  assert (He : entry_ok (cs_disk s) e) by (apply Hen; by eapply list_elem_of_lookup_2).
  pose proof (bc_drop_spec _ _ He) as Hrd.
  assert (Hperm : keys (cs_queue s) ≡ₚ en_key e :: keys (delete i (cs_queue s))).
  { unfold keys. by rewrite (delete_Permutation _ _ _ Hi) at 1. }
  pose proof Hnd as Hnd'. rewrite Hperm in Hnd'. apply NoDup_cons in Hnd' as [Hne Hnd'].
  assert (Hlift : ∀ x, x ∈ delete i (cs_queue s) → x ∈ cs_queue s ∧ en_key x ≠ en_key e).
  { intros x Hx. split; [|intros Hxe; apply Hne; rewrite <- Hxe; unfold keys; by apply list_elem_of_fmap_2].
    rewrite (delete_Permutation _ _ _ Hi). by right. }
  assert (Hok' : cache_ok s').
  { split; simpl; [done| |rewrite length_delete by eauto; lia]. intros x [Hx Hxe]%Hlift. destruct (Hen x Hx).
    split; try done. intros Hc. rewrite Hrd, decide_False by done. auto. }
  split; [done|]. split; [|done]. intros k. destruct (decide (k = en_key e)) as [->|Hk].
  - rewrite (view_at s i) by done. rewrite (view_miss s') by exact Hne. simpl. by rewrite Hrd, decide_True.
  - destruct (decide (k ∈ keys (delete i (cs_queue s)))) as [(j&x&Hj&<-)%elem_keys|Hm].
    + rewrite (view_at s' j x) by done. assert (Hx : x ∈ cs_queue s) by (apply Hlift; by eapply list_elem_of_lookup_2).
      apply list_elem_of_lookup in Hx as [j' Hj']. by rewrite (view_at s j').
    + rewrite (view_miss s') by exact Hm. rewrite (view_miss s); [|rewrite Hperm; set_solver].
      simpl. by rewrite Hrd, decide_False.
Qed.

(** ** Handles *)

(** One caller holds block [k]; nobody holds another one. *)
Definition held (s : S) (k : Z) : Prop :=
  cache_ok s ∧ ∃ i e, cs_queue s !! i = Some e ∧ en_key e = k ∧ en_count e = 2 ∧
    ∀ j e', cs_queue s !! j = Some e' → j ≠ i → en_count e' = 1.

(** Loading block [k] that is not cached, with room in the queue. *)
Lemma load_ok s k n :
  cache_ok s → k ∉ keys (cs_queue s) → (length (cs_queue s) < 16)%nat → 1 <= n →
  let s' := mkCS (cs_disk s) (cs_queue s ++ [mkEntry k (bc_new (cs_disk s) k) n]) in
  cache_ok s' ∧ ∀ j, view s' j = view s j.
Proof.
  intros Hok Hk Hlen Hn s'. pose proof Hok as [Hnd Hen Hsz].
  set (e := mkEntry k (bc_new (cs_disk s) k) n) in *.
  assert (He : entry_ok (cs_disk s) e) by (split; simpl; try done; apply read_block_len).
  assert (Hok' : cache_ok s').
  { split; simpl; [|intros x [Hx| ->%list_elem_of_singleton]%elem_of_app; auto|rewrite length_app; simpl; lia].
    unfold keys. rewrite fmap_app. apply NoDup_app. split; [done|]. split; [|apply NoDup_singleton].
    intros x Hx ->%list_elem_of_singleton. done. }
  assert (Hlast : cs_queue s' !! length (cs_queue s) = Some e) by by apply list_lookup_middle.
  split; [done|]. intros j. destruct (decide (j = k)) as [->|Hjk].
  - rewrite (view_miss s) by done. exact (view_at s' (length (cs_queue s)) e Hok' Hlast).
  - destruct (decide (j ∈ keys (cs_queue s))) as [(i&x&Hi&<-)%elem_keys|Hm].
    + rewrite (view_at s i) by done. apply (view_at s' i); [done|]. simpl. rewrite lookup_app_l; [done|].
      by eapply lookup_lt_Some.
    + rewrite (view_miss s) by done. rewrite (view_miss s'); [done|]. simpl. unfold keys in *.
      rewrite fmap_app. simpl. set_solver.
Qed.

Lemma load_spec s k :
  cache_ok s → idle s → k ∉ keys (cs_queue s) → (length (cs_queue s) < 16)%nat →
  let s' := mkCS (cs_disk s) (cs_queue s ++ [mkEntry k (bc_new (cs_disk s) k) 2]) in
  held s' k ∧ ∀ j, view s' j = view s j.
Proof.
  intros Hok Hidle Hk Hlen s'. destruct (load_ok s k 2) as [Hok' Hv]; try done. split; [|done]. split; [done|].
  eexists (length (cs_queue s)), _. split_and!; [by apply list_lookup_middle|done|done|].
  intros j e' Hj Hne. apply Hidle. apply lookup_snoc_Some in Hj as [[_ Hj]|[? _]]; [|congruence].
  by eapply list_elem_of_lookup_2.
Qed.

Lemma make_room_spec s :
  cache_ok s → idle s →
  wp make_room s (λ _ s', cache_ok s' ∧ idle s' ∧ (∀ j, view s' j = view s j) ∧
    (length (cs_queue s') < 16)%nat ∧ keys (cs_queue s') ⊆ keys (cs_queue s)).
Proof.
  intros Hok Hidle. pose proof (co_size _ Hok) as Hsz. unfold wp, make_room, BLOCK_CACHE_SIZE.
  destruct (Z.eqb_spec (length (cs_queue s)) 16) as [Hfull|Hroom]; [|split_and!; done || lia].
  destruct (list_find _ (cs_queue s)) as [[i e]|] eqn:Hf.
  - apply list_find_Some in Hf as (Hi&_&_). destruct (evict_spec s i e Hok Hi) as (Hok'&Hv&_).
    assert (Hperm : cs_queue s ≡ₚ e :: delete i (cs_queue s)) by by apply delete_Permutation.
    split; [done|]. split; [|split; [done|split]]; simpl.
    + intros x Hx. apply Hidle. rewrite Hperm. by right.
    + rewrite length_delete by eauto. lia.
    + intros k (x&->&Hx)%list_elem_of_fmap. apply list_elem_of_fmap_2. rewrite Hperm. by right.
  - apply list_find_None in Hf. rewrite Forall_forall in Hf.
    destruct (cs_queue s) as [|e q] eqn:Eq; [simpl in Hfull; lia|].
    apply (Hf e); [left|]. apply Hidle. rewrite Eq. left.
Qed.

Lemma get_spec s k :
  cache_ok s → idle s →
  wp (get_block_cache k) s (λ _ s', held s' k ∧ ∀ j, view s' j = view s j).
Proof.
  intros Hok Hidle. unfold get_block_cache, wp at 1.
  destruct (list_find _ (cs_queue s)) as [[i e]|] eqn:Hf.
  - apply list_find_Some in Hf as (Hi&Hk&_). pose proof (list_elem_of_lookup_2 _ _ _ Hi) as Hin.
    pose proof (co_entry _ Hok e Hin) as He. pose proof (Hidle e Hin) as Hc.
    destruct (update_entry s i e (en_retain e) Hok Hi eq_refl) as [Hok' Hv].
    { destruct He. split; try done. simpl. lia. }
    split; [split; [done|]|].
    + exists i, (en_retain e). pose proof (lookup_lt_Some _ _ _ Hi). simpl.
      rewrite list_lookup_insert_eq by done. split_and!; [done|done|lia|].
      intros j e' Hj Hne. rewrite list_lookup_insert_ne in Hj by done. apply Hidle. by eapply list_elem_of_lookup_2.
    + intros j. rewrite Hv. case_decide as Hd; [|done]. rewrite Hd. by rewrite (view_at s i e).
  - change (wp (make_room ;; kmodify (λ s, mkCS (cs_disk s) (cs_queue s ++ [mkEntry k (bc_new (cs_disk s) k) 2]))) s
      (λ _ s', held s' k ∧ ∀ j, view s' j = view s j)).
    wp_next. eapply wp_mono; [by apply make_room_spec|].
    intros [] s1 (Hok1&Hid1&Hv1&Hl1&Hk1). wp_steps. destruct (load_spec s1 k Hok1 Hid1) as [Hh Hv2].
    + intros Hin%Hk1. apply list_find_None in Hf. rewrite Forall_forall in Hf.
      apply elem_keys in Hin as (i&e&Hi&Hke). apply (Hf e); [by eapply list_elem_of_lookup_2|done].
    + done.
    + split; [exact Hh|]. intros j. rewrite <- Hv1. apply Hv2.
Qed.

Lemma put_spec s k :
  held s k → wp (put_block_cache k) s (λ _ s', cache_ok s' ∧ idle s' ∧ ∀ j, view s' j = view s j).
Proof.
  intros [Hok (i&e&Hi&Hk&Hc&Hoth)]. unfold put_block_cache, wp. rewrite (find_key _ i e) by (done || apply Hok).
  pose proof (co_entry _ Hok e (list_elem_of_lookup_2 _ _ _ Hi)) as He.
  destruct (update_entry s i e (en_release e) Hok Hi eq_refl) as [Hok' Hv].
  { destruct He. split; try done. simpl. lia. }
  split; [done|]. split.
  - intros x [j Hj]%list_elem_of_lookup. simpl in Hj. destruct (decide (j = i)) as [->|Hne].
    + rewrite list_lookup_insert_eq in Hj by by eapply lookup_lt_Some. injection Hj as <-. simpl. lia.
    + rewrite list_lookup_insert_ne in Hj by done. by eapply Hoth.
  - intros j. rewrite Hv. case_decide as Hd; [|done]. rewrite Hd. by rewrite (view_at s i e).
Qed.

Lemma whole_block (b : list Z) : is_block b → slice b 0 (0 + BLOCK_SZ) = Done b.
Proof.
  intros Hb. unfold slice, BLOCK_SZ. unfold is_block in Hb. rewrite Hb. simpl. rewrite drop_0, take_ge by lia. done.
Qed.

Lemma handle_read_spec s k :
  held s k → handle_read k 0 BLOCK_SZ s = Done (view s k, s).
Proof.
  intros [Hok (i&e&Hi&Hk&_)]. unfold handle_read. rewrite (find_key _ i e) by (done || apply Hok).
  pose proof (co_entry _ Hok e (list_elem_of_lookup_2 _ _ _ Hi)) as [_ Hb _ _].
  unfold bc_get_ref. change (0 + BLOCK_SZ <=? BLOCK_SZ) with true. cbv iota. rewrite whole_block by done.
  cbn [mbind outcome_bind]. rewrite <- Hk. by rewrite (view_at s i e).
Qed.

Lemma handle_modify_spec s k f b' :
  held s k → f (view s k) = Done b' → is_block b' →
  wp (handle_modify k 0 BLOCK_SZ f) s (λ _ s', held s' k ∧
    ∀ j, view s' j = if decide (j = k) then b' else view s j).
Proof.
  intros [Hok (i&e&Hi&Hk&Hc&Hoth)] Hf Hb'. unfold handle_modify, wp. rewrite (find_key _ i e) by (done || apply Hok).
  pose proof (co_entry _ Hok e (list_elem_of_lookup_2 _ _ _ Hi)) as [He1 Hb _ _].
  unfold bc_get_mut. change (0 + BLOCK_SZ <=? BLOCK_SZ) with true. cbv iota. rewrite whole_block by done.
  cbn [mbind outcome_bind]. rewrite <- Hk, (view_at s i e) in Hf by done. rewrite Hf. cbn [mbind outcome_bind].
  set (c := mkBC _ _ _). assert (Hcache : bc_cache c = b').
  { unfold c; simpl. unfold is_block in Hb. rewrite drop_ge, app_nil_r by (unfold BLOCK_SZ; lia). done. }
  destruct (update_entry s i e (mkEntry (en_key e) c (en_count e)) Hok Hi eq_refl) as [Hok' Hv].
  { split; simpl; [done|unfold is_block in *; by rewrite <- Hcache in Hb'|done|lia]. }
  split; [split; [done|]|].
  - exists i. eexists. simpl. rewrite list_lookup_insert_eq by by eapply lookup_lt_Some.
    split_and!; [done|done|done|]. intros j e' Hj Hne. rewrite list_lookup_insert_ne in Hj by done. by eapply Hoth.
  - intros j. rewrite Hv. cbn [en_bc]. rewrite Hcache, Hk. done.
Qed.

(** ** The device as a sequence of bytes *)

Definition byte_at (s : S) (a : Z) : Z := view s (a / BLOCK_SZ) !!! Z.to_nat (a mod BLOCK_SZ).
Definition dev_bytes (s : S) (a n : Z) : list Z := byte_at s <$> seqZ a n.

(** A state in which no operation is under way. *)
Definition quiet (s : S) : Prop := cache_ok s ∧ idle s.

Lemma dev_bytes_view s s' a n : (∀ j, view s' j = view s j) → dev_bytes s' a n = dev_bytes s a n.
Proof. intros Hv. apply list_fmap_ext. intros i x _. unfold byte_at. by rewrite Hv. Qed.

Lemma dev_bytes_app s a n m : 0 <= n → 0 <= m → dev_bytes s a (n + m) = dev_bytes s a n ++ dev_bytes s (a + n) m.
Proof. intros Hn Hm. unfold dev_bytes. by rewrite seqZ_app, fmap_app by lia. Qed.

Lemma dev_bytes_len s a n : 0 <= n → Z.of_nat (length (dev_bytes s a n)) = n.
Proof. intros Hn. unfold dev_bytes. rewrite length_fmap, length_seqZ. lia. Qed.

Lemma dev_bytes_lookup s a n i : 0 <= i < n → dev_bytes s a n !! Z.to_nat i = Some (byte_at s (a + i)).
Proof.
  intros Hi. unfold dev_bytes. rewrite list_lookup_fmap, lookup_seqZ_lt by lia. simpl. by rewrite Z2Nat.id by lia.
Qed.

(** Inside one block. *)
Lemma block_div b o : 0 <= o < 512 → (b * 512 + o) / 512 = b ∧ (b * 512 + o) mod 512 = o.
Proof. intros Ho. split; zdiv_lia. Qed.

Lemma byte_at_block s b o : 0 <= o < 512 → byte_at s (b * 512 + o) = view s b !!! Z.to_nat o.
Proof. intros Ho. unfold byte_at, BLOCK_SZ. by destruct (block_div b o Ho) as [-> ->]. Qed.

Lemma slice_view s b o n :
  cache_ok s → 0 <= o → 0 <= n → o + n <= 512 →
  slice (view s b) o (o + n) = Done (dev_bytes s (b * 512 + o) n).
Proof.
  intros Hok Ho Hn Hon. pose proof (view_block s b Hok) as Hb. unfold is_block in Hb.
  destruct (slice_spec (view s b) o (o + n)) as (l&Hl&Hlen&Hat); [lia|lia|]. rewrite Hl. f_equal.
  pose proof (dev_bytes_len s (b * 512 + o) n Hn) as Hd.
  apply list_eq_same_length with (length l); [lia|done|]. intros i x y Hi Hx Hy.
  rewrite <- (Nat2Z.id i) in Hy. rewrite dev_bytes_lookup in Hy by lia. injection Hy as <-.
  rewrite <- Z.add_assoc, byte_at_block by lia. symmetry. apply list_lookup_total_correct.
  rewrite <- Hx, <- (Hat (Z.of_nat i)), Nat2Z.id by lia. done.
Qed.

Lemma read_chunk_spec s b o n :
  quiet s → 0 <= o → 0 <= n → o + n <= 512 →
  wp (read_chunk b o n) s (λ bs s', quiet s' ∧ (∀ j, view s' j = view s j) ∧ bs = dev_bytes s (b * 512 + o) n).
Proof.
  intros [Hok Hid] Ho Hn Hon. unfold read_chunk. wp_next. eapply wp_mono; [by apply get_spec|].
  intros [] s1 [Hh Hv1]. wp_next. eapply wp_run; [by apply handle_read_spec|].
  wp_next. eapply wp_lift; [apply slice_view; try done; apply Hh|]. wp_next.
  eapply wp_mono; [by apply put_spec|]. intros [] s2 (Hok2&Hid2&Hv2). wp_steps.
  split; [done|]. split; [|by apply dev_bytes_view]. intros j. by rewrite Hv2.
Qed.

Lemma fat_read_loop_spec fuel s0 off len : ∀ done_ s,
  quiet s → (∀ j, view s j = view s0 j) → 0 <= off → off + len < 2 ^ 64 → 0 <= done_ <= len →
  len - done_ < Z.of_nat fuel →
  wp (fat_read_loop fuel len done_ (off + done_) (dev_bytes s0 off done_)) s
     (λ bs s', quiet s' ∧ (∀ j, view s' j = view s0 j) ∧ bs = dev_bytes s0 off len).
Proof.
  induction fuel as [|fuel IH]; intros done_ s Hq Hv Hoff Hmax Hd Hf; [lia|]. cbn [fat_read_loop].
  destruct (Z.ltb_spec done_ len) as [Hlt|Hge].
  - cbv zeta. unfold BLOCK_SZ. pose proof (Z.mod_pos_bound (off + done_) 512 ltac:(lia)) as Hm.
    set (o := (off + done_) mod 512) in *. set (n := Z.min (len - done_) (512 - o)).
    assert (Hn : 0 < n ∧ n <= len - done_ ∧ o + n <= 512) by lia. clearbody n.
    wp_next. eapply wp_mono; [apply read_chunk_spec; done || lia|]. intros bs s1 (Hq1&Hv1&->).
    assert (Ha : (off + done_) / 512 * 512 + o = off + done_) by (unfold o; zdiv_lia).
    rewrite Ha, (dev_bytes_view _ _ _ _ Hv), <- dev_bytes_app, wadd_small by lia.
    rewrite <- Z.add_assoc. apply IH; try done; try lia. intros j. by rewrite Hv1.
  - assert (done_ = len) as -> by lia. wp_steps. done.
Qed.

Lemma fat_read_wp s off len :
  quiet s → 0 <= off → 0 <= len → off + len < 2 ^ 64 →
  wp (fat_read off len) s (λ r s', quiet s' ∧ (∀ j, view s' j = view s j) ∧
    r = (dev_bytes s off len, len, off + len)).
Proof.
  intros Hq Hoff Hlen Hmax. unfold fat_read. destruct (Z.eqb_spec len 0) as [->|Hne].
  - wp_steps. split_and!; try done. by rewrite Z.add_0_r.
  - wp_next. pose proof (fat_read_loop_spec (Datatypes.S (Z.to_nat len)) s off len 0 s Hq) as Hl.
    rewrite Z.add_0_r in Hl. eapply wp_mono; [apply Hl; done || lia|]. intros bs s' (Hq'&Hv'&->). wp_steps.
    split; [done|]. split; [done|]. rewrite dev_bytes_len, wadd_small by lia. done.
Qed.

(** [bs] stored at [a]. *)
Definition patch (m : Z → Z) (a : Z) (bs : list Z) (x : Z) : Z :=
  if decide (a <= x < a + length bs) then bs !!! Z.to_nat (x - a) else m x.

Lemma patch_app m a l l' x : patch (patch m a l) (a + length l) l' x = patch m a (l ++ l') x.
Proof.
  unfold patch. rewrite length_app. repeat case_decide; try lia; try done.
  - rewrite lookup_total_app_r by lia. f_equal. lia.
  - rewrite lookup_total_app_l by lia. done.
Qed.

(** A whole block with a run of bytes replaced. *)
Lemma splice_lookup (v bs : list Z) o i :
  (o + length bs <= length v)%nat →
  (take o v ++ bs ++ drop (o + length bs) v) !!! i =
    if decide (o <= i < o + length bs)%nat then bs !!! (i - o)%nat else v !!! i.
Proof.
  intros Hlen. assert (Ht : length (take o v) = o) by (rewrite length_take; lia).
  rewrite !list_lookup_total_alt. case_decide as Hd.
  - rewrite lookup_app_r, Ht, lookup_app_l by lia. done.
  - destruct (decide (i < o)%nat).
    + rewrite lookup_app_l, lookup_take_lt by lia. done.
    + rewrite lookup_app_r, Ht, lookup_app_r, lookup_drop by lia. do 2 f_equal. lia.
Qed.

Lemma write_chunk_spec s b o (bs : list Z) :
  quiet s → 0 <= o → o + length bs <= 512 →
  wp (write_chunk b o bs) s (λ _ s', quiet s' ∧ ∀ x, byte_at s' x = patch (byte_at s) (b * 512 + o) bs x).
Proof.
  intros [Hok Hid] Ho Hon. unfold write_chunk. wp_next. eapply wp_mono; [by apply get_spec|].
  intros [] s1 [Hh Hv1]. pose proof (view_block s1 b (proj1 Hh)) as Hb. unfold is_block in Hb.
  wp_next. eapply wp_mono; [eapply handle_modify_spec; [done| |]|].
  - rewrite (proj2 (Z.leb_le o _)), (proj2 (Z.leb_le _ (length _))) by lia. reflexivity.
  - unfold is_block. rewrite !length_app, length_take, length_drop. lia.
  - intros [] s2 [Hh2 Hv2]. eapply wp_mono; [by apply put_spec|]. intros [] s3 (Hok3&Hid3&Hv3).
    split; [done|]. intros x. unfold byte_at, BLOCK_SZ. rewrite Hv3, Hv2, !Hv1.
    pose proof (Z.mod_pos_bound x 512 ltac:(lia)). pose proof (Z.div_mod x 512 ltac:(lia)).
    rewrite Hv1 in Hb. rewrite Z2Nat.inj_add, Nat2Z.id by lia. unfold patch. case_decide as Hxb.
    + rewrite splice_lookup by lia. repeat case_decide; try lia; [|by rewrite Hxb]. f_equal. lia.
    + case_decide; [|done]. exfalso. apply Hxb. zdiv_lia.
Qed.

Lemma fat_write_loop_spec fuel (buf : list Z) s0 off : ∀ done_ s,
  quiet s → 0 <= off → off + length buf < 2 ^ 64 → 0 <= done_ <= length buf →
  (∀ x, byte_at s x = patch (byte_at s0) off (take (Z.to_nat done_) buf) x) →
  length buf - done_ < Z.of_nat fuel →
  wp (fat_write_loop fuel buf done_ (off + done_)) s
     (λ n s', quiet s' ∧ n = length buf ∧ ∀ x, byte_at s' x = patch (byte_at s0) off buf x).
Proof.
  induction fuel as [|fuel IH]; intros done_ s Hq Hoff Hmax Hd Hv Hf; [lia|]. cbn [fat_write_loop].
  destruct (Z.ltb_spec done_ (length buf)) as [Hlt|Hge].
  - cbv zeta. unfold BLOCK_SZ. pose proof (Z.mod_pos_bound (off + done_) 512 ltac:(lia)) as Hm.
    set (o := (off + done_) mod 512) in *. set (n := Z.min (length buf - done_) (512 - o)).
    assert (Hn : 0 < n ∧ n <= length buf - done_ ∧ o + n <= 512) by lia. clearbody n.
    assert (Hs : slice buf done_ (done_ + n) = Done (take (Z.to_nat n) (drop (Z.to_nat done_) buf))).
    { unfold slice. rewrite (proj2 (Z.leb_le done_ _)), (proj2 (Z.leb_le _ (length _))) by lia. cbn [andb].
      do 2 f_equal. lia. }
    assert (Hlen : Z.of_nat (length (take (Z.to_nat n) (drop (Z.to_nat done_) buf))) = n)
      by (rewrite length_take, length_drop; lia).
    wp_next. eapply wp_lift; [exact Hs|]. wp_next.
    eapply wp_mono; [apply write_chunk_spec; done || lia|]. intros [] s1 (Hq1&Hv1).
    assert (Ha : (off + done_) / 512 * 512 + o = off + done_) by (unfold o; zdiv_lia).
    rewrite wadd_small, <- Z.add_assoc by lia. apply IH; try done; try lia. intros x.
    rewrite Hv1, Ha, Z2Nat.inj_add, <- take_take_drop, <- patch_app by lia.
    rewrite length_take_le, Z2Nat.id by lia. unfold patch at 1 2. case_decide; [done|]. apply Hv.
  - assert (done_ = length buf) as -> by lia. wp_steps. split; [done|]. split; [done|].
    rewrite Nat2Z.id, firstn_all in Hv. exact Hv.
Qed.

Lemma fat_write_wp s off (buf : list Z) :
  quiet s → 0 <= off → off + length buf < 2 ^ 64 →
  wp (fat_write off buf) s (λ r s', quiet s' ∧ r = (Z.of_nat (length buf), off + length buf) ∧
    ∀ x, byte_at s' x = patch (byte_at s) off buf x).
Proof.
  intros Hq Hoff Hmax. unfold fat_write. case_bool_decide as Hb.
  - subst buf. wp_steps. split; [done|]. split; [simpl; by rewrite Z.add_0_r|].
    intros x. unfold patch. case_decide; [simpl in *; lia|done].
  - wp_next. pose proof (fat_write_loop_spec (Datatypes.S (length buf)) buf s off 0 s Hq) as Hl.
    rewrite Z.add_0_r in Hl. eapply wp_mono; [apply Hl; try done; try lia|].
    + intros x. simpl. unfold patch. case_decide; [simpl in *; lia|done].
    + intros n s' (Hq'&->&Hv'). wp_steps. split; [done|]. split; [|done]. by rewrite wadd_small by lia.
Qed.

Lemma dev_bytes_patch s s' off buf :
  (∀ x, byte_at s' x = patch (byte_at s) off buf x) → dev_bytes s' off (length buf) = buf.
Proof.
  intros Hp. pose proof (dev_bytes_len s' off (length buf) ltac:(lia)) as Hl.
  apply list_eq_same_length with (length buf); [done|lia|]. intros i x y Hi Hx Hy.
  rewrite <- (Nat2Z.id i) in Hx. rewrite dev_bytes_lookup, Hp in Hx by lia. injection Hx as <-.
  unfold patch. rewrite decide_True by lia. rewrite Z.add_simpl_l, Nat2Z.id. by apply list_lookup_total_correct.
Qed.

(** ** Write-back of every block *)

Lemma bc_sync_spec d e :
  entry_ok d e →
  let '(d', c) := bc_sync d (en_bc e) in
  bc_cache c = bc_cache (en_bc e) ∧ bc_block_id c = bc_block_id (en_bc e) ∧ bc_modified c = false ∧
  ∀ k, read_block d' k = if decide (k = en_key e) then bc_cache (en_bc e) else read_block d k.
Proof.
  intros He. pose proof (bc_drop_spec d e He) as Hd. unfold bc_drop, bc_sync in *.
  destruct (bc_modified (en_bc e)) eqn:E; simpl in *; split_and!; done.
Qed.

Lemma sync_list_spec q : ∀ d d' q',
  NoDup (keys q) → (∀ e, e ∈ q → entry_ok d e) → sync_list d q = (d', q') →
  keys q' = keys q ∧ en_count <$> q' = en_count <$> q ∧
  (∀ e, e ∈ q' → entry_ok d' e ∧ bc_modified (en_bc e) = false) ∧
  ∀ k, read_block d' k = view (mkCS d q) k.
Proof.
  induction q as [|e q IH]; intros d d' q' Hnd Hen Hs.
  { injection Hs as <- <-. split_and!; try done. intros e He. set_solver. }
  cbn [sync_list] in Hs. pose proof (bc_sync_spec d e (Hen e ltac:(left))) as Hbs.
  destruct (bc_sync d (en_bc e)) as [d1 c]. destruct Hbs as (Hc&Hid&Hcl&Hd1).
  destruct (sync_list d1 q) as [d2 q2] eqn:E2. injection Hs as <- <-.
  apply NoDup_cons in Hnd as [Hnin Hnd]. destruct (IH d1 d2 q2 Hnd) as (Hk&Hcnt&Hall&Hrd); [|done|].
  { intros x Hx. destruct (Hen x ltac:(by right)). split; try done. intros Hm. rewrite Hd1, decide_False; [auto|].
    intros Heq. apply Hnin. rewrite <- Heq. by apply list_elem_of_fmap_2. }
  assert (Hview : ∀ k, view (mkCS d (e :: q)) k = view (mkCS d1 q) k).
  { intros k. unfold view. cbn [cs_queue list_find cs_disk]. case_decide as Hek.
    - rewrite (proj2 (list_find_None _ q)); [by rewrite Hd1, decide_True|]. rewrite Forall_forall.
      intros x Hx Hxk. apply Hnin. rewrite Hek, <- Hxk. by apply list_elem_of_fmap_2.
    - destruct (list_find _ q) as [[i x]|]; simpl; [done|]. by rewrite Hd1, decide_False. }
  destruct (Hen e ltac:(left)). split; [simpl; by rewrite Hk|]. split; [by rewrite !fmap_cons, Hcnt|]. split.
  - intros x [->|Hx]%elem_of_cons; [|by apply Hall]. split; [|done]. split; simpl; try congruence; try done.
      intros _. rewrite Hc, Hrd, view_miss by done. simpl. by rewrite Hd1, decide_True.
  - intros k. by rewrite Hview.
Qed.

Lemma view_keys (s s' : S) :
  cache_ok s' → keys (cs_queue s') = keys (cs_queue s) →
  (∀ k, k ∉ keys (cs_queue s) → read_block (cs_disk s') k = view s k) →
  (∀ e, e ∈ cs_queue s' → bc_cache (en_bc e) = view s (en_key e)) → ∀ k, view s' k = view s k.
Proof.
  intros Hok Hk Hmiss Hhit k. destruct (decide (k ∈ keys (cs_queue s'))) as [(i&e&Hi&<-)%elem_keys|Hn].
  - rewrite (view_at s' i e) by done. apply Hhit. by eapply list_elem_of_lookup_2.
  - rewrite view_miss by done. apply Hmiss. by rewrite <- Hk.
Qed.

Lemma sync_all_wp s :
  cache_ok s →
  wp block_cache_sync_all s (λ _ s', cache_ok s' ∧ (idle s → idle s') ∧ (∀ k, view s' k = view s k) ∧
    (∀ k, read_block (cs_disk s') k = view s k) ∧ ∀ e, e ∈ cs_queue s' → bc_modified (en_bc e) = false).
Proof.
  intros [Hnd Hen Hsz]. unfold block_cache_sync_all. apply wp_modify.
  destruct (sync_list (cs_disk s) (cs_queue s)) as [d q] eqn:E.
  destruct (sync_list_spec _ _ _ _ Hnd Hen E) as (Hk&Hc&Hall&Hrd).
  assert (Hok' : cache_ok (mkCS d q)).
  { split; simpl; [by rewrite Hk|intros e He; by apply Hall|].
    replace (length q) with (length (cs_queue s)); [done|].
    transitivity (length (keys q)); [by rewrite Hk; unfold keys; rewrite length_fmap|unfold keys; by rewrite length_fmap]. }
  assert (Hrd' : ∀ k, read_block d k = view s k) by (intros k; rewrite Hrd; by destruct s).
  split; [done|]. split; [|split; [|split; [done|]]]; simpl.
  - intros Hid e He. simpl in He. apply (list_elem_of_fmap_2 en_count) in He. rewrite Hc in He.
    apply list_elem_of_fmap in He as (x&->&Hx). by apply Hid.
  - apply view_keys; simpl; [done|done|intros; apply Hrd'|]. intros e He.
    destruct (Hall e He) as [[_ _ Hcl _] Hm]. by rewrite Hcl, Hrd' by done.
  - intros e He. by apply Hall.
Qed.

(** The queue is full and every entry is in use elsewhere. *)
Definition exhausted (s : S) (k : Z) : Prop :=
  k ∉ keys (cs_queue s) ∧ Z.of_nat (length (cs_queue s)) = BLOCK_CACHE_SIZE ∧ ∀ e, e ∈ cs_queue s → en_count e ≠ 1.

(** An entry that somebody uses is still there. *)
Definition keeps_used (s s' : S) : Prop :=
  ∀ i e, cs_queue s !! i = Some e → en_count e ≠ 1 →
    ∃ j e', cs_queue s' !! j = Some e' ∧ en_key e' = en_key e ∧ en_bc e' = en_bc e ∧ en_count e <= en_count e'.

Lemma keeps_used_elem s s' : (∀ e, e ∈ cs_queue s → en_count e ≠ 1 → e ∈ cs_queue s') → keeps_used s s'.
Proof.
  intros H i e Hi Hc. destruct (proj1 (list_elem_of_lookup _ _) (H e (list_elem_of_lookup_2 _ _ _ Hi) Hc)) as [j Hj].
  exists j, e. done.
Qed.

Lemma find_none q k : k ∉ keys q → list_find (λ e, en_key e = k) q = None.
Proof.
  intros Hk. apply list_find_None. rewrite Forall_forall. intros e He Hek. apply Hk. rewrite <- Hek.
  by apply list_elem_of_fmap_2.
Qed.

(** A slot can be freed unless all are in use. *)
Lemma make_room_ok s k :
  cache_ok s → k ∉ keys (cs_queue s) → ¬ exhausted s k →
  ∃ s1, make_room s = Done ((), s1) ∧ cache_ok s1 ∧ (∀ j, view s1 j = view s j) ∧
    (length (cs_queue s1) < 16)%nat ∧ keys (cs_queue s1) ⊆ keys (cs_queue s) ∧
    ∀ e, e ∈ cs_queue s → en_count e ≠ 1 → e ∈ cs_queue s1.
Proof.
  intros Hok Hk Hex. pose proof (co_size _ Hok) as Hsz. unfold make_room.
  destruct (Z.eqb_spec (length (cs_queue s)) BLOCK_CACHE_SIZE) as [Hfull|Hroom]; unfold BLOCK_CACHE_SIZE in *;
    [|exists s; split_and!; done || lia].
  destruct (list_find _ (cs_queue s)) as [[i e]|] eqn:Hf.
  - apply list_find_Some in Hf as (Hi&He&_). destruct (evict_spec s i e Hok Hi) as (Hok'&Hv&_).
    assert (Hperm : cs_queue s ≡ₚ e :: delete i (cs_queue s)) by by apply delete_Permutation.
    eexists. split; [done|]. split; [done|]. split; [done|]. split; [|split]; simpl.
    + rewrite length_delete by eauto. lia.
    + intros j (x&->&Hx)%list_elem_of_fmap. apply list_elem_of_fmap_2. rewrite Hperm. by right.
    + intros x Hx Hc. rewrite Hperm in Hx. apply elem_of_cons in Hx as [->|Hx]; done.
  - destruct Hex. split; [done|]. split; [done|]. apply list_find_None in Hf. rewrite Forall_forall in Hf.
    exact Hf.
Qed.

Lemma get_hit s k i e :
  cache_ok s → list_find (λ e, en_key e = k) (cs_queue s) = Some (i, e) →
  wp (get_block_cache k) s (λ _ s', cache_ok s' ∧ k ∈ keys (cs_queue s') ∧ (∀ j, view s' j = view s j) ∧ keeps_used s s').
Proof.
  intros Hok Hf. unfold wp, get_block_cache. rewrite Hf.
  apply list_find_Some in Hf as (Hi&Hk&_). pose proof (co_entry _ Hok e (list_elem_of_lookup_2 _ _ _ Hi)) as He.
  destruct (update_entry s i e (en_retain e) Hok Hi eq_refl) as [Hok' Hv].
  { destruct He. split; try done. simpl. lia. }
  split; [done|]. split; [|split].
  - simpl. rewrite (keys_insert _ i e) by done. rewrite <- Hk. by apply list_elem_of_fmap_2, (list_elem_of_lookup_2 _ i).
  - intros j. rewrite Hv. case_decide as Hd; [|done]. rewrite Hd. by rewrite (view_at s i e).
  - intros j x Hj Hx. exists j. simpl. destruct (decide (i = j)) as [->|Hne].
    + assert (x = e) as -> by congruence. exists (en_retain e). simpl.
      rewrite list_lookup_insert_eq by by eapply lookup_lt_Some. split_and!; done || lia.
    + exists x. rewrite list_lookup_insert_ne by done. split_and!; done || lia.
Qed.

Lemma get_miss s k s1 :
  make_room s = Done ((), s1) → cache_ok s1 → (∀ j, view s1 j = view s j) → (length (cs_queue s1) < 16)%nat →
  k ∉ keys (cs_queue s) → keys (cs_queue s1) ⊆ keys (cs_queue s) →
  (∀ e, e ∈ cs_queue s → en_count e ≠ 1 → e ∈ cs_queue s1) →
  wp (get_block_cache k) s (λ _ s', cache_ok s' ∧ k ∈ keys (cs_queue s') ∧ (∀ j, view s' j = view s j) ∧ keeps_used s s').
Proof.
  intros Hm Hok1 Hv1 Hl Hk Hks Hkeep. unfold wp, get_block_cache.
  rewrite find_none by done. unfold mbind, K_bind. rewrite Hm. simpl. destruct (load_ok s1 k 2) as [Hok' Hv']; [done|set_solver|done|lia|].
  split; [done|]. split; [|split; [intros j; by rewrite Hv', Hv1|]].
  { simpl. unfold keys. rewrite fmap_app. apply elem_of_app. right. simpl. by left. }
  apply keeps_used_elem. intros e He Hc. simpl. apply elem_of_app. left. auto.
Qed.
End cache.

(** ** A device in memory *)

(** The bytes of a disk. *)
Definition RamDisk : Type := Z → Z.
Definition ram_read (d : RamDisk) (i : Z) : list Z := (λ j, d (i * 512 + j)) <$> seqZ 0 512.
Definition ram_write (d : RamDisk) (i : Z) (b : list Z) : RamDisk := patch d (i * 512) b.

Lemma ram_read_lookup d i (j : nat) : (j < 512)%nat → ram_read d i !! j = Some (d (i * 512 + j)).
Proof. intros Hj. unfold ram_read. rewrite list_lookup_fmap, lookup_seqZ_lt by lia. done. Qed.

#[export, refine] Instance ram_disk : BlockDevice RamDisk := {
  read_block := ram_read;
  write_block := ram_write;
}.
Proof.
  - intros d i. unfold is_block, ram_read. by rewrite length_fmap, length_seqZ.
  - intros d i b Hb. unfold is_block in Hb. assert (Hl : length (ram_read (ram_write d i b) i) = 512%nat)
      by (unfold ram_read; by rewrite length_fmap, length_seqZ).
    apply list_eq_same_length with 512%nat; [done|done|]. intros j x y Hj Hx Hy.
    rewrite ram_read_lookup in Hx by done. injection Hx as <-. unfold ram_write, patch.
    rewrite decide_True, Z.add_simpl_l, Nat2Z.id by lia. by apply list_lookup_total_correct.
  - intros d i j b Hb Hij. unfold is_block in Hb. unfold ram_read, ram_write, patch. apply list_fmap_ext. intros n x Hn.
    apply lookup_seqZ in Hn as [-> Hn]. by rewrite decide_False by lia.
Defined.

(** ** Theorems *)

Section theorems.
Context {D : Type} `{!BlockDevice D}.
Notation S := (CacheState D).

(** C13: What [FatFsBlockDevice::write] stores at a position, [read] at that
    position returns, whatever was cached or evicted in between; both return
    the full length and move the position by it, and no byte outside the range
    changes. *)
Theorem fat_write_read_roundtrip (s : S) (off : Z) (buf : list Z) :
  quiet s → 0 <= off → off + length buf < 2 ^ 64 →
  let n := Z.of_nat (length buf) in
  ∃ s1 s2, fat_write off buf s = Done ((n, off + n), s1) ∧ fat_read off n s1 = Done ((buf, n, off + n), s2) ∧
    quiet s2 ∧ ∀ x, x < off ∨ off + n <= x → byte_at s2 x = byte_at s x.
Proof.
  intros Hq Hoff Hmax n.
  destruct (proj1 (wp_done _ _ _) (fat_write_wp s off buf Hq Hoff Hmax)) as (r1&s1&Hw&Hq1&->&Hp).
  destruct (proj1 (wp_done _ _ _) (fat_read_wp s1 off n Hq1 Hoff ltac:(lia) Hmax)) as (r2&s2&Hr&Hq2&Hv2&->).
  exists s1, s2. split; [done|]. split; [by rewrite Hr, (dev_bytes_patch s s1 off buf)|]. split; [done|].
  intros x Hx. unfold byte_at at 1. rewrite Hv2. change (byte_at s1 x = byte_at s x). rewrite Hp.
  unfold patch. by rewrite decide_False by lia.
Qed.

(** C37: After [flush] the device itself holds every byte: a cache that starts
    empty on that device shows the same contents. *)
Theorem fat_flush_durable (s : S) :
  quiet s →
  ∃ s', fat_flush s = Done ((), s') ∧ quiet s' ∧ (∀ x, byte_at s' x = byte_at s x) ∧
    ∀ x, byte_at (mkCS (cs_disk s') mgr_new) x = byte_at s x.
Proof.
  intros [Hok Hid]. destruct (proj1 (wp_done _ _ _) (sync_all_wp s Hok)) as ([]&s'&Hs&Hok'&Hid'&Hv&Hrd&_).
  exists s'. split; [done|]. split; [split; auto|]. unfold byte_at. split; intros x; [by rewrite Hv|].
  by rewrite <- Hrd.
Qed.

(** [get_block_cache] panics ("Run out of BlockCache!") exactly when the
    queue is full, the block is not in it and every entry is in use; otherwise
    it returns, the queue holds at most 16 blocks, one per key, no block
    changes its contents and no entry in use is evicted. *)
Theorem get_block_cache_correct (s : S) (k : Z) :
  cache_ok s →
  (exhausted s k → get_block_cache k s = Panic) ∧
  (~ exhausted s k → ∃ s', get_block_cache k s = Done ((), s') ∧ cache_ok s' ∧ k ∈ keys (cs_queue s') ∧
     (∀ j, view s' j = view s j) ∧ keeps_used s s').
Proof.
  intros Hok. split.
  - intros (Hk&Hl&Hall). unfold get_block_cache. rewrite find_none by done. unfold mbind, K_bind, make_room.
    rewrite (proj2 (Z.eqb_eq _ _) Hl), (proj2 (list_find_None _ _)); [done|]. by rewrite Forall_forall.
  - intros Hex. cut (wp (get_block_cache k) s (λ _ s', cache_ok s' ∧ k ∈ keys (cs_queue s') ∧
      (∀ j, view s' j = view s j) ∧ keeps_used s s')).
    { intros ([]&s'&H)%wp_done. by exists s'. }
    destruct (list_find (λ e, en_key e = k) (cs_queue s)) as [[i e]|] eqn:Hf; [by eapply get_hit|].
    assert (Hk : k ∉ keys (cs_queue s)).
    { intros (i&e&Hi&He)%elem_keys. by rewrite (find_key _ i e) in Hf by (done || apply Hok). }
    destruct (make_room_ok s k Hok Hk Hex) as (s1&Hm&H1&H2&H3&H4&H5). by eapply get_miss.
Qed.
End theorems.

(** A cache on a disk whose byte [a] is [a mod 251], with blocks 0 to 15 cached. *)
Definition ram0 : RamDisk := λ a, a mod 251.
Definition warm : CacheState RamDisk :=
  mkCS ram0 ((λ k, mkEntry k (bc_new ram0 k) 1) <$> seqZ 0 16).

Lemma warm_quiet : quiet warm.
Proof.
  split; [split|].
  - apply (NoDup_seqZ 0 16).
  - intros e (k&->&_)%list_elem_of_fmap. split; done.
  - done.
  - intros e (k&->&_)%list_elem_of_fmap. done.
Qed.

(** A write across a block boundary into blocks that are not cached. *)
Lemma fat_write_read_roundtrip_witness :
  ∃ s1 s2, fat_write 10750 [1; 2; 3; 4] warm = Done ((4, 10754), s1) ∧
    fat_read 10750 4 s1 = Done (([1; 2; 3; 4], 4, 10754), s2) ∧
    quiet s2 ∧ ∀ x, x < 10750 ∨ 10754 <= x → byte_at s2 x = byte_at warm x.
Proof. exact (fat_write_read_roundtrip warm 10750 [1; 2; 3; 4] warm_quiet ltac:(lia) ltac:(simpl; lia)). Defined.

Lemma fat_flush_durable_witness :
  ∃ s', fat_flush warm = Done ((), s') ∧ quiet s' ∧ (∀ x, byte_at s' x = byte_at warm x) ∧
    ∀ x, byte_at (mkCS (cs_disk s') mgr_new) x = byte_at warm x.
Proof. exact (fat_flush_durable warm warm_quiet). Defined.

Lemma get_block_cache_correct_witness :
  (exhausted warm 20 → get_block_cache 20 warm = Panic) ∧
  (~ exhausted warm 20 → ∃ s', get_block_cache 20 warm = Done ((), s') ∧ cache_ok s' ∧ 20 ∈ keys (cs_queue s') ∧
     (∀ j, view s' j = view warm j) ∧ keeps_used warm s').
Proof. exact (get_block_cache_correct warm 20 (proj1 warm_quiet)). Defined.
