(* ===== verification/Timer.v ===== *)
(** * Time values ([os/src/timer.rs], [os/src/task/process.rs])

    [TimeVal] and [TimeSpec] with their wrapping [usize] arithmetic, the
    process clock and the interval timer.  The tick counter ([get_time]) is an
    argument of the functions that read it. *)

From S2P Require Import Prelude.

Definition MSEC_PER_SEC : Z := 1000.
Definition USEC_PER_SEC : Z := 1000000.
Definition USEC_PER_MSEC : Z := 1000.
Definition NSEC_PER_SEC : Z := 1000000000.
Definition NSEC_PER_MSEC : Z := 1000000.
Definition NSEC_PER_USEC : Z := 1000.

Definition CLOCK_FREQ : Z := 12500000.
Definition TICKS_PER_SEC : Z := 25.
Definition get_clock_freq : Z := CLOCK_FREQ.

(** The deadline that [set_next_trigger] programs. *)
Definition set_next_trigger (now : Z) : Z := now +w CLOCK_FREQ / TICKS_PER_SEC.

Definition get_time_sec (now : Z) : Z := now / get_clock_freq.
Definition get_time_ms (now : Z) : Z := now / (get_clock_freq / MSEC_PER_SEC).
Definition get_time_us (now : Z) : Z := now / (get_clock_freq / USEC_PER_SEC).

(** ** [TimeVal] *)

Record TimeVal := mkTV { tv_sec : Z; tv_usec : Z }.

#[global] Instance TimeVal_eq_dec : EqDecision TimeVal.
Proof. solve_decision. Defined.

Definition tv_new : TimeVal := mkTV 0 0.

Definition tv_from_tick (tick : Z) : TimeVal :=
  mkTV (tick / get_clock_freq) ((tick mod get_clock_freq) *w USEC_PER_SEC / get_clock_freq).

Definition tv_now (now : Z) : TimeVal := tv_from_tick now.

Definition tv_to_tick (t : TimeVal) : Z :=
  tv_sec t *w get_clock_freq +w tv_usec t *w get_clock_freq / USEC_PER_SEC.

Definition tv_from_us (us : Z) : TimeVal := mkTV (us / USEC_PER_SEC) (us mod USEC_PER_SEC).
Definition tv_is_zero (t : TimeVal) : bool := (tv_sec t =? 0) && (tv_usec t =? 0).
Definition tv_to_us (t : TimeVal) : Z := tv_sec t *w USEC_PER_SEC +w tv_usec t.

Definition tv_add (a b : TimeVal) : TimeVal :=
  let sec := tv_sec a +w tv_sec b in
  let usec := tv_usec a +w tv_usec b in
  mkTV (sec +w usec / USEC_PER_SEC) (usec mod USEC_PER_SEC).

Definition tv_sub (a b : TimeVal) : TimeVal :=
  let self_us := tv_to_us a in
  let other_us := tv_to_us b in
  if self_us <=? other_us then tv_new else tv_from_us (self_us -w other_us).

(** ** [TimeSpec] *)

Record TimeSpec := mkTS { ts_sec : Z; ts_nsec : Z }.

#[global] Instance TimeSpec_eq_dec : EqDecision TimeSpec.
Proof. solve_decision. Defined.

Definition ts_new : TimeSpec := mkTS 0 0.

Definition ts_from_tick (tick : Z) : TimeSpec :=
  mkTS (tick / get_clock_freq) ((tick mod get_clock_freq) *w NSEC_PER_SEC / get_clock_freq).

Definition ts_now (now : Z) : TimeSpec := ts_from_tick now.

Definition ts_to_ms (t : TimeSpec) : Z := ts_sec t *w MSEC_PER_SEC +w ts_nsec t / NSEC_PER_MSEC.
Definition ts_to_ns (t : TimeSpec) : Z := ts_sec t *w NSEC_PER_SEC +w ts_nsec t.
Definition ts_from_ns (ns : Z) : TimeSpec := mkTS (ns / NSEC_PER_SEC) (ns mod NSEC_PER_SEC).

Definition ts_add (a b : TimeSpec) : TimeSpec :=
  let sec := ts_sec a +w ts_sec b in
  let nsec := ts_nsec a +w ts_nsec b in
  mkTS (sec +w nsec / NSEC_PER_SEC) (nsec mod NSEC_PER_SEC).

Definition ts_sub (a b : TimeSpec) : TimeSpec :=
  let self_ns := ts_to_ns a in
  let other_ns := ts_to_ns b in
  if self_ns <=? other_ns then ts_new else ts_from_ns (self_ns -w other_ns).

Definition ts_cmp (a b : TimeSpec) : comparison :=
  match ts_sec a ?= ts_sec b with
  | Lt => Lt
  | Eq => ts_nsec a ?= ts_nsec b
  | Gt => Gt
  end.

(** [PartialOrd] derives [<=] from [cmp]. *)
Definition ts_le (a b : TimeSpec) : bool := match ts_cmp a b with Gt => false | _ => true end.

(** ** Process accounting *)

Record ITimerVal := mkIT { it_interval : TimeVal; it_value : TimeVal }.
Definition itimer_new : ITimerVal := mkIT tv_new tv_new.

Record Rusage := mkRU { ru_utime : TimeVal; ru_stime : TimeVal; ru_cutime : TimeVal; ru_cstime : TimeVal }.
Definition rusage_new : Rusage := mkRU tv_new tv_new tv_new tv_new.

Record ProcClock := mkPC { last_enter_u_mode : TimeVal; last_enter_s_mode : TimeVal }.
Definition procclock_new (now : Z) : ProcClock := let t := tv_now now in mkPC t t.

(** What the accounting touches of a process. *)
Record Accounts := mkAcc { ac_rusage : Rusage; ac_clock : ProcClock; ac_timer : ITimerVal; ac_alarm : bool }.

Definition update_process_times_enter_trap (now : Z) (p : Accounts) : Accounts :=
  let t := tv_now now in
  let diff := tv_sub t (last_enter_u_mode (ac_clock p)) in
  let r := ac_rusage p in
  mkAcc (mkRU (tv_add (ru_utime r) diff) (ru_stime r) (ru_cutime r) (ru_cstime r))
        (mkPC (last_enter_u_mode (ac_clock p)) t) (ac_timer p) (ac_alarm p).

(** [ac_alarm] records [add_signal(SIGALRM)]. *)
Definition update_itimer_real_if_exists (diff : TimeVal) (p : Accounts) : Accounts :=
  if negb (tv_is_zero (it_value (ac_timer p))) then
    let v := tv_sub (it_value (ac_timer p)) diff in
    if tv_is_zero v
    then mkAcc (ac_rusage p) (ac_clock p) (mkIT (it_interval (ac_timer p)) (it_interval (ac_timer p))) true
    else mkAcc (ac_rusage p) (ac_clock p) (mkIT (it_interval (ac_timer p)) v) (ac_alarm p)
  else p.

Definition update_process_times_leave_trap (now : Z) (p : Accounts) : Accounts :=
  let t := tv_now now in
  let p1 := update_itimer_real_if_exists (tv_sub t (last_enter_u_mode (ac_clock p))) p in
  let diff := tv_sub t (last_enter_s_mode (ac_clock p1)) in
  let r := ac_rusage p1 in
  mkAcc (mkRU (ru_utime r) (tv_add (ru_stime r) diff) (ru_cutime r) (ru_cstime r))
        (mkPC t (last_enter_s_mode (ac_clock p1))) (ac_timer p1) (ac_alarm p1).

(** ** Normal forms and conversions *)

(** A normalised duration of at most [2^40] seconds. *)
Definition tv_ok (t : TimeVal) : Prop := 0 <= tv_sec t < 2 ^ 40 ∧ 0 <= tv_usec t < USEC_PER_SEC.
Definition ts_ok (t : TimeSpec) : Prop := 0 <= ts_sec t < 2 ^ 33 ∧ 0 <= ts_nsec t < NSEC_PER_SEC.

(** The duration in microseconds and in nanoseconds. *)
Definition tv_us (t : TimeVal) : Z := tv_sec t * 1000000 + tv_usec t.
Definition ts_ns (t : TimeSpec) : Z := ts_sec t * 1000000000 + ts_nsec t.

Ltac tm := unfold tv_ok, ts_ok, tv_us, ts_ns, USEC_PER_SEC, NSEC_PER_SEC, MSEC_PER_SEC, NSEC_PER_MSEC,
  get_clock_freq, CLOCK_FREQ in *; simpl in *.

Lemma tv_to_us_us t : tv_ok t → tv_to_us t = tv_us t.
Proof. intros H. unfold tv_to_us. tm. wsmall. lia. Qed.

Lemma ts_to_ns_ns t : ts_ok t → ts_to_ns t = ts_ns t.
Proof. intros H. unfold ts_to_ns. tm. wsmall. lia. Qed.

Lemma tv_from_us_us us : 0 <= us < 2 ^ 59 → tv_ok (tv_from_us us) ∧ tv_us (tv_from_us us) = us.
Proof. intros H. unfold tv_from_us. tm. split; [split|]; zdiv_lia. Qed.

Lemma ts_from_ns_ns ns : 0 <= ns < 2 ^ 62 → ts_ok (ts_from_ns ns) ∧ ts_ns (ts_from_ns ns) = ns.
Proof. intros H. unfold ts_from_ns. tm. split; [split|]; zdiv_lia. Qed.

Lemma tv_add_us a b : tv_ok a → tv_ok b → tv_sec a + tv_sec b + 1 < 2 ^ 40 →
  tv_ok (tv_add a b) ∧ tv_us (tv_add a b) = tv_us a + tv_us b.
Proof.
  intros Ha Hb Hs. unfold tv_add. tm. wsmall.
  assert (0 <= (tv_usec a + tv_usec b) / 1000000 <= 1) by zdiv_lia. wsmall. split; [split|]; zdiv_lia.
Qed.

Lemma tv_sub_us a b : tv_ok a → tv_ok b →
  tv_ok (tv_sub a b) ∧ tv_us (tv_sub a b) = Z.max 0 (tv_us a - tv_us b).
Proof.
  intros Ha Hb. unfold tv_sub. rewrite !tv_to_us_us by done. destruct (Z.leb_spec (tv_us a) (tv_us b)).
  - split; [tm; lia|]. rewrite Z.max_l by lia. done.
  - assert (0 <= tv_us a - tv_us b < 2 ^ 60) by (tm; lia). rewrite wsub_small by lia.
    rewrite Z.max_r by lia. unfold tv_from_us. tm. split; [split|]; zdiv_lia.
Qed.

Lemma tv_from_tick_us t :
  0 <= t < 2 ^ 63 → tv_ok (tv_from_tick t) ∧ tv_us (tv_from_tick t) = t * 1000000 / 12500000.
Proof.
  intros Ht. unfold tv_from_tick. tm. assert (0 <= t mod 12500000 < 12500000) by (apply Z.mod_pos_bound; lia).
  wsmall. split; [split|]; zdiv_lia.
Qed.

(** Time stamps of later ticks are later. *)
Lemma tv_from_tick_mono t t' : 0 <= t → t <= t' → t' < 2 ^ 63 → tv_us (tv_from_tick t) <= tv_us (tv_from_tick t').
Proof.
  intros H0 H1 H2. destruct (tv_from_tick_us t) as [_ ->]; [lia|]. destruct (tv_from_tick_us t') as [_ ->]; [lia|].
  apply Z.div_le_mono; lia.
Qed.

(** ** Accounting over a run *)

(** One visit to the kernel: entered at tick [enter], left at tick [leave]. *)
Definition visit (p : Accounts) (v : Z * Z) : Accounts :=
  update_process_times_leave_trap v.2 (update_process_times_enter_trap v.1 p).

Definition visits (p : Accounts) (vs : list (Z * Z)) : Accounts := fold_left visit vs p.

(** The ticks of a run follow each other. *)
Fixpoint ordered (t : Z) (vs : list (Z * Z)) : Prop :=
  match vs with
  | [] => True
  | (e, l) :: vs' => t <= e ∧ e <= l ∧ l < 2 ^ 62 ∧ ordered l vs'
  end.

(** The tick of the last return to user mode. *)
Definition last_leave (t : Z) (vs : list (Z * Z)) : Z := fold_left (λ _ v, v.2) vs t.

Definition cpu_us (p : Accounts) : Z := tv_us (ru_utime (ac_rusage p)) + tv_us (ru_stime (ac_rusage p)).

(** The process returned to user mode at tick [t], and was charged all the time since tick [t0]. *)
Record charged (t0 t : Z) (p : Accounts) : Prop := {
  ch_u : last_enter_u_mode (ac_clock p) = tv_from_tick t;
  ch_utime : tv_ok (ru_utime (ac_rusage p));
  ch_stime : tv_ok (ru_stime (ac_rusage p));
  ch_sum : cpu_us p = tv_us (tv_from_tick t) - tv_us (tv_from_tick t0);
}.

Lemma itimer_clock d p :
  ac_rusage (update_itimer_real_if_exists d p) = ac_rusage p ∧ ac_clock (update_itimer_real_if_exists d p) = ac_clock p.
Proof. unfold update_itimer_real_if_exists. destruct (negb _); [|done]. by destruct (tv_is_zero (tv_sub _ _)). Qed.

(** Adding an interval of ticks to an account that is not yet full. *)
Lemma add_interval u t t' :
  tv_ok u → 0 <= t → t <= t' → t' < 2 ^ 62 → tv_us u <= tv_us (tv_from_tick t) →
  let u' := tv_add u (tv_sub (tv_from_tick t') (tv_from_tick t)) in
  tv_ok u' ∧ tv_us u' = tv_us u + tv_us (tv_from_tick t') - tv_us (tv_from_tick t).
Proof.
  intros Hu H0 H1 H2 Hle u'. pose proof (tv_from_tick_mono t t' H0 H1 ltac:(lia)) as Hm.
  destruct (tv_from_tick_us t ltac:(lia)) as [Hok Hus]. destruct (tv_from_tick_us t' ltac:(lia)) as [Hok' Hus'].
  destruct (tv_sub_us _ _ Hok' Hok) as [Hs1 Hs2]. rewrite Z.max_r in Hs2 by lia.
  assert (Hb : tv_us (tv_from_tick t') < 2 ^ 59) by (rewrite Hus'; zdiv_lia).
  destruct (tv_add_us u (tv_sub (tv_from_tick t') (tv_from_tick t)) Hu Hs1) as [Ha1 Ha2].
  - clear -Hs1 Hs2 Hu Hle Hm Hb. tm. lia.
  - split; [done|]. unfold u'. rewrite Ha2, Hs2. lia.
Qed.

Lemma visit_charged t0 t p e l :
  0 <= t0 → t0 <= t → charged t0 t p → t <= e → e <= l → l < 2 ^ 62 → charged t0 l (visit p (e, l)).
Proof.
  intros H0 H1 [Hu Hut Hst Hsum] Hte Hel Hl. unfold visit, update_process_times_leave_trap. cbn [fst snd].
  set (p1 := update_process_times_enter_trap e p).
  pose proof (itimer_clock (tv_sub (tv_now l) (last_enter_u_mode (ac_clock p1))) p1) as [Hr Hc].
  set (p2 := update_itimer_real_if_exists _ p1) in *. clearbody p2.
  unfold cpu_us in *. destruct (tv_from_tick_us t ltac:(lia)) as [[? ?] _].
  assert (0 <= tv_us (ru_stime (ac_rusage p)) ∧ 0 <= tv_us (ru_utime (ac_rusage p))) by (clear -Hut Hst; tm; lia).
  pose proof (tv_from_tick_mono t e ltac:(lia) Hte ltac:(lia)).
  pose proof (tv_from_tick_us t0 ltac:(lia)) as [Hok0 _].
  assert (0 <= tv_us (tv_from_tick t0)) by (clear -Hok0; tm; lia).
  destruct (add_interval (ru_utime (ac_rusage p)) t e) as [Hu1 Hu2]; try done; try lia.
  destruct (add_interval (ru_stime (ac_rusage p)) e l) as [Hs1 Hs2]; try done; try lia.
  split; simpl; unfold cpu_us; simpl; rewrite ?Hr, ?Hc; simpl; unfold tv_now; rewrite ?Hu; [done|done|done|]. lia.
Qed.

Lemma visits_charged t0 vs : ∀ t p,
  0 <= t0 → t0 <= t → charged t0 t p → ordered t vs → charged t0 (last_leave t vs) (visits p vs).
Proof.
  induction vs as [|[e l] vs IH]; intros t p H0 H1 Hc Ho; [done|]. destruct Ho as (Hte&Hel&Hl&Ho).
  apply (IH l); [done|lia| |done]. by apply (visit_charged t0 t).
Qed.

(** ** Theorems *)

(** Over any run of kernel visits, the user and system times that the
    kernel charges to a process add up to the time that passed since the
    process was created: no tick interval is lost or charged twice. *)
Theorem cpu_time_accounted (t0 : Z) (vs : list (Z * Z)) (timer : ITimerVal) :
  0 <= t0 < 2 ^ 62 → ordered t0 vs →
  cpu_us (visits (mkAcc rusage_new (procclock_new t0) timer false) vs) =
    tv_us (tv_from_tick (last_leave t0 vs)) - tv_us (tv_from_tick t0).
Proof.
  intros H0 Ho. apply (ch_sum t0), visits_charged; [lia|lia| |done]. split; [done|by tm|by tm|by rewrite Z.sub_diag].
Qed.

Lemma cpu_time_accounted_witness :
  cpu_us (visits (mkAcc rusage_new (procclock_new 100) (mkIT (mkTV 0 5) (mkTV 0 7)) false) [(500, 700); (12500000, 12500900)]) =
    tv_us (tv_from_tick 12500900) - tv_us (tv_from_tick 100).
Proof.
  apply (cpu_time_accounted 100 [(500, 700); (12500000, 12500900)] (mkIT (mkTV 0 5) (mkTV 0 7))); simpl; lia.
Defined.

(** Converting ticks to a [TimeVal] and back never gains time and loses less than
    13 ticks. *)
Lemma tick_roundtrip (t : Z) :
  0 <= t < 2 ^ 63 → tv_ok (tv_from_tick t) ∧ t - 13 < tv_to_tick (tv_from_tick t) <= t.
Proof.
  intros Ht. destruct (tv_from_tick_us t Ht) as [Hok _]. split; [done|]. unfold tv_to_tick, tv_from_tick in *. tm.
  assert (Hm : 0 <= t mod 12500000 < 12500000) by (apply Z.mod_pos_bound; lia).
  rewrite (wmul_small (t mod 12500000)) in * by lia.
  assert (0 <= t / 12500000 * 12500000 <= t) by zdiv_lia.
  assert (0 <= t mod 12500000 * 1000000 / 12500000 < 1000000) by zdiv_lia. wsmall.
  assert (0 <= t mod 12500000 * 1000000 / 12500000 * 12500000 / 1000000 < 12500000) by zdiv_lia. wsmall.
  split; zdiv_lia.
Qed.



(** On normalised values the arithmetic of [TimeSpec] is that of
    nanoseconds: [cmp] is their order, [-] saturates at zero, and converting to
    and from nanoseconds loses nothing. *)
Theorem timespec_arith (a b : TimeSpec) :
  ts_ok a → ts_ok b →
  ts_cmp a b = (ts_ns a ?= ts_ns b) ∧ ts_ns (ts_sub a b) = Z.max 0 (ts_ns a - ts_ns b) ∧
  ts_from_ns (ts_to_ns a) = a.
Proof.
  intros Ha Hb. split; [|split].
  - unfold ts_cmp. destruct (Z.compare_spec (ts_sec a) (ts_sec b)); tm; symmetry.
    + destruct (Z.compare_spec (ts_nsec a) (ts_nsec b));
        [apply Z.compare_eq_iff|apply Z.compare_lt_iff|apply Z.compare_gt_iff]; lia.
    + apply Z.compare_lt_iff. lia.
    + apply Z.compare_gt_iff. lia.
  - unfold ts_sub. rewrite !ts_to_ns_ns by done. destruct (Z.leb_spec (ts_ns a) (ts_ns b)) as [H|H].
    + rewrite Z.max_l by lia. done.
    + assert (0 <= ts_ns a - ts_ns b < 2 ^ 63) by (tm; lia). rewrite wsub_small, Z.max_r by lia.
      unfold ts_from_ns. set (n := ts_ns a - ts_ns b) in *. clearbody n. tm. zdiv_lia.
  - rewrite ts_to_ns_ns by done. destruct a as [sec nsec]. unfold ts_from_ns. tm. f_equal; zdiv_lia.
Qed.

Lemma timespec_arith_witness :
  ts_cmp (mkTS 3 500) (mkTS 2 999999999) = (ts_ns (mkTS 3 500) ?= ts_ns (mkTS 2 999999999)) ∧
  ts_ns (ts_sub (mkTS 3 500) (mkTS 2 999999999)) = Z.max 0 (ts_ns (mkTS 3 500) - ts_ns (mkTS 2 999999999)) ∧
  ts_from_ns (ts_to_ns (mkTS 3 500)) = mkTS 3 500.
Proof. apply (timespec_arith (mkTS 3 500) (mkTS 2 999999999)); unfold ts_ok, NSEC_PER_SEC; simpl; lia. Defined.
