(* ===== verification/Signal.v ===== *)
(** * Signals ([os/src/task/signal.rs])

    A set of signals is a [u32] of flags, one bit per defined signal. *)

From S2P Require Import Prelude.

Definition SIGINT : Z := Z.shiftl 1 1.
Definition SIGILL : Z := Z.shiftl 1 3.
Definition SIGABRT : Z := Z.shiftl 1 5.
Definition SIGFPE : Z := Z.shiftl 1 7.
Definition SIGSEGV : Z := Z.shiftl 1 10.
Definition SIGALRM : Z := Z.shiftl 1 13.
Definition SIGCHLD : Z := Z.shiftl 1 16.
Definition SIGVTALRM : Z := Z.shiftl 1 25.
Definition SIGPROF : Z := Z.shiftl 1 26.

(** The flags that the type defines. *)
Definition signal_flags : list Z :=
  [SIGINT; SIGILL; SIGABRT; SIGFPE; SIGSEGV; SIGALRM; SIGCHLD; SIGVTALRM; SIGPROF].
Definition signals_all : Z := fold_left Z.lor signal_flags 0.

(** The operations that [bitflags!] derives. *)
Definition signals_empty : Z := 0.
Definition signals_contains (s flag : Z) : bool := Z.land s flag =? flag.
Definition signals_insert (s flag : Z) : Z := Z.lor s flag.
Definition signals_is_empty (s : Z) : bool := s =? 0.
Definition signals_from_bits_truncate (bits : Z) : Z := Z.land bits signals_all.

Definition check_error (s : Z) : option Z :=
  if signals_contains s SIGINT then Some (-2)
  else if signals_contains s SIGILL then Some (-4)
  else if signals_contains s SIGABRT then Some (-6)
  else if signals_contains s SIGFPE then Some (-8)
  else if signals_contains s SIGSEGV then Some (-11)
  else None.

(** [1 << n] on [u32]: in a release build the shift amount is taken modulo 32. *)
Definition u32_shl1 (n : Z) : Z := Z.shiftl 1 (n mod 32).

Definition from_signum (signum : Z) : option Z :=
  if signum =? 0 then Some signals_empty
  else if (1 <=? signum) && (signum <=? 64) then Some (signals_from_bits_truncate (u32_shl1 (signum - 1)))
  else None.

(** ** Theorems *)

(** A signal number that ends the process. *)
Definition fatal (n : Z) : bool := existsb (Z.eqb n) [2; 4; 6; 8; 11].

(** A test over the numbers [0..n-1]. *)
Lemma forallb_range (P : Z → bool) (n : nat) : forallb P (seqZ 0 n) = true → ∀ z, 0 <= z < n → P z = true.
Proof. intros Hf z Hz. rewrite forallb_forall in Hf. apply Hf, list_elem_of_In, elem_of_seqZ. lia. Qed.

Lemma contains_shl s n : 0 <= n → signals_contains s (Z.shiftl 1 n) = Z.testbit s n.
Proof.
  intros Hn. unfold signals_contains. rewrite Z.shiftl_1_l. destruct (Z.testbit s n) eqn:E.
  - apply Z.eqb_eq. apply Z.bits_inj'. intros m Hm. rewrite Z.land_spec, Z.pow2_bits_eqb by lia.
    destruct (Z.eqb_spec n m) as [<-|]; [by rewrite E|by rewrite andb_false_r].
  - apply Z.eqb_neq. intros Heq. apply (f_equal (λ x, Z.testbit x n)) in Heq.
    rewrite Z.land_spec, Z.pow2_bits_true, E in Heq by lia. done.
Qed.

(** A signal with number [n] between 1 and 32 that is sent to a process
    with no pending signal ends it with code [-n] at the next return to user
    mode exactly when [n] is a fatal signal; the pending set it leaves holds no
    flag the type does not define. *)
Theorem signal_delivery (n : Z) :
  1 <= n <= 32 →
  ∃ f, from_signum n = Some f ∧ Z.land f (Z.lnot signals_all) = 0 ∧
    check_error (signals_insert signals_empty f) = if fatal n then Some (- n) else None.
Proof.
  intros Hn. set (P := λ n, match from_signum n with
    | Some f => (Z.land f (Z.lnot signals_all) =? 0) &&
        bool_decide (check_error (signals_insert signals_empty f) = if fatal n then Some (- n) else None)
    | None => (n =? 0) || (32 <? n) end).
  assert (HP : P n = true) by (apply (forallb_range P 33); [vm_compute; reflexivity|lia]).
  unfold P in HP. destruct (from_signum n) as [f|].
  - apply andb_true_iff in HP as [H1 H2%bool_decide_eq_true]. exists f. split; [done|].
    split; [by apply Z.eqb_eq|done].
  - lia.
Qed.

Lemma signal_delivery_witness :
  ∃ f, from_signum 11 = Some f ∧ Z.land f (Z.lnot signals_all) = 0 ∧
    check_error (signals_insert signals_empty f) = if fatal 11 then Some (- 11) else None.
Proof. apply (signal_delivery 11). lia. Defined.

(** [check_error] reports the pending fatal signal with the smallest
    number, whatever else is pending. *)
Theorem check_error_priority (s n : Z) :
  fatal n = true → Z.testbit s (n - 1) = true →
  (∀ m, fatal m = true → m < n → Z.testbit s (m - 1) = false) → check_error s = Some (- n).
Proof.
  intros Hf Hb Hmin. unfold check_error, SIGINT, SIGILL, SIGABRT, SIGFPE, SIGSEGV. rewrite !contains_shl by lia.
  assert (H2 : 2 < n → Z.testbit s 1 = false) by exact (Hmin 2 eq_refl).
  assert (H4 : 4 < n → Z.testbit s 3 = false) by exact (Hmin 4 eq_refl).
  assert (H6 : 6 < n → Z.testbit s 5 = false) by exact (Hmin 6 eq_refl).
  assert (H8 : 8 < n → Z.testbit s 7 = false) by exact (Hmin 8 eq_refl).
  apply existsb_exists in Hf as (k&Hk&<-%Z.eqb_eq). clear Hmin.
  destruct Hk as [<-|[<-|[<-|[<-|[<-|[]]]]]]; [|rewrite H2 by lia|rewrite H2, H4 by lia
    |rewrite H2, H4, H6 by lia|rewrite H2, H4, H6, H8 by lia];
    match type of Hb with Z.testbit s (?a - 1) = true => let v := eval vm_compute in (a - 1) in
      change (Z.testbit s v = true) in Hb end; by rewrite Hb.
Qed.

Lemma check_error_priority_witness : check_error (Z.lor SIGSEGV SIGABRT) = Some (- 6).
Proof.
  apply (check_error_priority (Z.lor SIGSEGV SIGABRT) 6); [reflexivity|reflexivity|].
  intros m Hm Hlt. apply existsb_exists in Hm as (k&Hk&<-%Z.eqb_eq).
  simpl in Hk. destruct Hk as [<-|[<-|[<-|[<-|[<-|[]]]]]]; try lia; reflexivity.
Defined.

(** Signal numbers above 32 are accepted and alias the signals 32 below:
    [kill(pid, 34)] sends SIGINT. *)
Theorem signum_aliases (n : Z) : 33 <= n <= 64 → from_signum n = from_signum (n - 32).
Proof.
  intros Hn. unfold from_signum, u32_shl1.
  rewrite (proj2 (Z.eqb_neq n 0)), (proj2 (Z.eqb_neq (n - 32) 0)) by lia.
  rewrite !(proj2 (Z.leb_le _ _)) by lia. cbn [andb]. do 3 f_equal. zdiv_lia.
Qed.

Lemma signum_aliases_witness : from_signum 34 = from_signum (34 - 32).
Proof. apply (signum_aliases 34). lia. Defined.
