(* ===== verification/Sched.v ===== *)
(** * Scheduling and synchronisation
    ([os/src/task/manager.rs], [processor.rs], [mod.rs], [os/src/sync],
    [os/src/syscall/sync.rs], [os/src/timer.rs])

    A task is an [Arc<TaskControlBlock>]: an identifier into the table of
    control blocks.  Mutexes, semaphores and condition variables are [Arc]s
    too: indices into tables of objects, which the lists of a process refer to.

    Kernel code of a task is a list of pieces.  A piece is what runs with
    interrupts masked (one [exclusive_access] section, or the hand-over of the
    processor): between two pieces a timer interrupt may come.  [__switch]
    leaves the remaining pieces in the task context of the task; the empty list
    is the return to user mode. *)

From S2P Require Import Prelude Timer Signal.

(** ** Data *)

Inductive TaskStatus := Ready | Running | Blocked.

#[global] Instance TaskStatus_eq_dec : EqDecision TaskStatus.
Proof. solve_decision. Defined.

Inductive Piece :=
| PLock (m : nat)
| PUnlock (m : nat)
| PDown (s : nat)
| PUp (s : nat)
| PSignal (c : nat)
| PWaitPush (c : nat)
| PAddTimer (expire_ms : Z)
| PBlock
| PSuspend
| PSleepEnd (end_ : TimeSpec)
| PReturn (result : Z).

Record Task := mkTask {
  task_status : TaskStatus;
  task_cx : list Piece;
  t_pid : Z;
  t_exit_code : option Z;
  t_a0 : Z;
}.

Inductive Mutex :=
| MutexSpin (locked : bool)
| MutexBlocking (locked : bool) (wait_queue : list Z).

Record Semaphore := mkSem { sem_count : Z; sem_queue : list Z }.
Record Condvar := mkCv { cv_queue : list Z }.

Record TimerCondVar := mkTimer { expire_ms : Z; timer_task : Z }.

(** The order of the timers: the heap yields a greatest element. *)
Definition timer_key (t : TimerCondVar) : Z := as_isize (wrap64 (- as_isize (expire_ms t))).
Definition timer_cmp (a b : TimerCondVar) : comparison := timer_key a ?= timer_key b.

(** [alloc::collections::BinaryHeap]: its contents as a collection, and that
    [peek] and [pop] give a greatest element. *)
Class BinaryHeap (H : Type) := {
  heap_elems : H → list TimerCondVar;
  heap_new : H;
  heap_push : TimerCondVar → H → H;
  heap_peek : H → option TimerCondVar;
  heap_pop : H → H;
  heap_elems_new : heap_elems heap_new = [];
  heap_elems_push x h : heap_elems (heap_push x h) ≡ₚ x :: heap_elems h;
  heap_peek_none h : heap_peek h = None → heap_elems h = [];
  heap_peek_some h x : heap_peek h = Some x →
    heap_elems h ≡ₚ x :: heap_elems (heap_pop h) ∧ ∀ y, y ∈ heap_elems h → timer_cmp y x ≠ Gt;
}.

(** What scheduling and synchronisation use of a process. *)
Record SyncLists := mkLists {
  mutex_list : list (option nat);
  semaphore_list : list (option nat);
  condvar_list : list (option nat);
  pcb_signals : Z;
}.

Record Sched (H : Type) := mkSched {
  sc_tasks : gmap Z Task;
  sc_ready : list Z;
  sc_current : option Z;
  sc_timers : H;
  sc_time : Z;
  sc_mutexes : list Mutex;
  sc_sems : list Semaphore;
  sc_cvs : list Condvar;
  sc_procs : gmap Z SyncLists;
}.
Arguments mkSched {H} _ _ _ _ _ _ _ _ _.
Arguments sc_tasks {H} _.
Arguments sc_ready {H} _.
Arguments sc_current {H} _.
Arguments sc_timers {H} _.
Arguments sc_time {H} _.
Arguments sc_mutexes {H} _.
Arguments sc_sems {H} _.
Arguments sc_cvs {H} _.
Arguments sc_procs {H} _.

Definition with_status (st : TaskStatus) (t : Task) : Task :=
  mkTask st (task_cx t) (t_pid t) (t_exit_code t) (t_a0 t).
Definition with_cx (cx : list Piece) (t : Task) : Task :=
  mkTask (task_status t) cx (t_pid t) (t_exit_code t) (t_a0 t).
Definition with_a0 (a0 : Z) (t : Task) : Task :=
  mkTask (task_status t) (task_cx t) (t_pid t) (t_exit_code t) a0.
Definition with_exit (code : Z) (t : Task) : Task :=
  mkTask (task_status t) [] (t_pid t) (Some code) (t_a0 t).

Section sched.
Context {H : Type} `{!BinaryHeap H}.
Notation S := (Sched H).

Definition on_tasks (f : gmap Z Task → gmap Z Task) (s : S) : S :=
  mkSched (f (sc_tasks s)) (sc_ready s) (sc_current s) (sc_timers s) (sc_time s)
    (sc_mutexes s) (sc_sems s) (sc_cvs s) (sc_procs s).
Definition set_ready (q : list Z) (s : S) : S :=
  mkSched (sc_tasks s) q (sc_current s) (sc_timers s) (sc_time s) (sc_mutexes s) (sc_sems s) (sc_cvs s) (sc_procs s).
Definition set_current (c : option Z) (s : S) : S :=
  mkSched (sc_tasks s) (sc_ready s) c (sc_timers s) (sc_time s) (sc_mutexes s) (sc_sems s) (sc_cvs s) (sc_procs s).
Definition set_timers (h : H) (s : S) : S :=
  mkSched (sc_tasks s) (sc_ready s) (sc_current s) h (sc_time s) (sc_mutexes s) (sc_sems s) (sc_cvs s) (sc_procs s).
Definition set_time (now : Z) (s : S) : S :=
  mkSched (sc_tasks s) (sc_ready s) (sc_current s) (sc_timers s) now (sc_mutexes s) (sc_sems s) (sc_cvs s) (sc_procs s).
Definition set_mutexes (l : list Mutex) (s : S) : S :=
  mkSched (sc_tasks s) (sc_ready s) (sc_current s) (sc_timers s) (sc_time s) l (sc_sems s) (sc_cvs s) (sc_procs s).
Definition set_sems (l : list Semaphore) (s : S) : S :=
  mkSched (sc_tasks s) (sc_ready s) (sc_current s) (sc_timers s) (sc_time s) (sc_mutexes s) l (sc_cvs s) (sc_procs s).
Definition set_cvs (l : list Condvar) (s : S) : S :=
  mkSched (sc_tasks s) (sc_ready s) (sc_current s) (sc_timers s) (sc_time s) (sc_mutexes s) (sc_sems s) l (sc_procs s).
Definition set_procs (p : gmap Z SyncLists) (s : S) : S :=
  mkSched (sc_tasks s) (sc_ready s) (sc_current s) (sc_timers s) (sc_time s) (sc_mutexes s) (sc_sems s) (sc_cvs s) p.

(** Writing the control block of a task. *)
Definition on_task (t : Z) (f : Task → Task) : K S unit := kmodify (on_tasks (alter f t)).

(** ** [TaskManager] *)

Definition add_task (t : Z) : K S unit := kmodify (λ s, set_ready (sc_ready s ++ [t]) s).

Definition fetch_task : K S (option Z) :=
  s ← kget;
  match sc_ready s with
  | [] => mret None
  | t :: q => kput (set_ready q s) ;; mret (Some t)
  end.

Definition wakeup_task (t : Z) : K S unit :=
  on_task t (with_status Ready) ;;
  add_task t.

Definition wake_blocked (t : Z) : K S unit :=
  s ← kget;
  tcb ← kunwrap (sc_tasks s !! t);
  if decide (task_status tcb = Blocked) then on_task t (with_status Ready) ;; add_task t
  else mret ().

(** The first task of the queue whose process is [pid]. *)
Definition find_by_pid (s : S) (pid : Z) : option Z :=
  option_map snd (list_find (λ t, option_map t_pid (sc_tasks s !! t) = Some pid) (sc_ready s)).

Definition current_task : K S (option Z) := s ← kget; mret (sc_current s).

Definition find_task_by_pid (pid : Z) : K S (option Z) :=
  c ← current_task;
  t ← kunwrap c;
  s ← kget;
  tcb ← kunwrap (sc_tasks s !! t);
  if t_pid tcb =? pid then mret (Some t) else mret (find_by_pid s pid).

(** ** [Processor] *)

Definition take_current_task : K S (option Z) :=
  s ← kget; kput (set_current None s) ;; mret (sc_current s).

(** One turn of the loop of [run_tasks]: the task it switches to, if any. *)
Definition run_tasks_turn : K S (option Z) :=
  r ← fetch_task;
  match r with
  | Some t =>
      on_task t (with_status Running) ;;
      kmodify (set_current (Some t)) ;;
      mret (Some t)
  | None => mret None
  end.

(** ** Giving up the processor.  [k] is what the task context keeps. *)

Definition suspend_current_and_run_next (k : list Piece) : K S unit :=
  c ← take_current_task;
  t ← kunwrap c;
  on_task t (with_status Ready) ;;
  add_task t ;;
  on_task t (with_cx k).

Definition block_current_task : K S Z :=
  c ← take_current_task;
  t ← kunwrap c;
  on_task t (with_status Blocked) ;;
  mret t.

Definition block_current_and_run_next (k : list Piece) : K S unit :=
  t ← block_current_task;
  on_task t (with_cx k).

(** The scheduling part of [exit_current_and_run_next]: the context is not
    saved, the task never runs again. *)
Definition exit_task (exit_code : Z) : K S unit :=
  c ← take_current_task;
  t ← kunwrap c;
  on_task t (with_exit exit_code).

(** Inside kernel code of the current task: the pieces left to do. *)
Definition continue_with (k : list Piece) : K S unit :=
  c ← current_task;
  t ← kunwrap c;
  on_task t (with_cx k).

(** ** [MutexSpin] and [MutexBlocking] *)

Definition mutex_spin_new : Mutex := MutexSpin false.
Definition mutex_blocking_new : Mutex := MutexBlocking false [].

Definition set_mutex (m : nat) (v : Mutex) : K S unit := kmodify (λ s, set_mutexes (<[m := v]> (sc_mutexes s)) s).

Definition mutex_spin_lock (m : nat) (locked : bool) (k : list Piece) : K S unit :=
  if locked then continue_with (PSuspend :: PLock m :: k)
  else set_mutex m (MutexSpin true) ;; continue_with k.

Definition mutex_blocking_lock (m : nat) (locked : bool) (q : list Z) (k : list Piece) : K S unit :=
  if locked then
    s ← kget;
    t ← kunwrap (sc_current s);
    set_mutex m (MutexBlocking locked (q ++ [t])) ;;
    continue_with (PBlock :: k)
  else set_mutex m (MutexBlocking true q) ;; continue_with k.

Definition mutex_spin_unlock (m : nat) : K S unit := set_mutex m (MutexSpin false).

Definition mutex_blocking_unlock (m : nat) (locked : bool) (q : list Z) : K S unit :=
  kassert locked ;;
  match q with
  | t :: q' => set_mutex m (MutexBlocking locked q') ;; wakeup_task t
  | [] => set_mutex m (MutexBlocking false [])
  end.

(** The calls through [dyn Mutex]. *)
Definition mutex_lock (m : nat) (k : list Piece) : K S unit :=
  s ← kget;
  mx ← kunwrap (sc_mutexes s !! m);
  match mx with
  | MutexSpin locked => mutex_spin_lock m locked k
  | MutexBlocking locked q => mutex_blocking_lock m locked q k
  end.

Definition mutex_unlock (m : nat) (k : list Piece) : K S unit :=
  s ← kget;
  mx ← kunwrap (sc_mutexes s !! m);
  match mx with
  | MutexSpin _ => mutex_spin_unlock m
  | MutexBlocking locked q => mutex_blocking_unlock m locked q
  end ;;
  continue_with k.

(** ** [Semaphore] *)

Definition semaphore_new (res_count : Z) : Semaphore := mkSem (as_isize res_count) [].

Definition isize_add (a b : Z) : Z := as_isize (wrap64 (a + b)).

Definition set_sem (i : nat) (v : Semaphore) : K S unit := kmodify (λ s, set_sems (<[i := v]> (sc_sems s)) s).

Definition semaphore_up (i : nat) (k : list Piece) : K S unit :=
  s ← kget;
  sem ← kunwrap (sc_sems s !! i);
  let count := isize_add (sem_count sem) 1 in
  (if count <=? 0 then
     match sem_queue sem with
     | t :: q => set_sem i (mkSem count q) ;; wakeup_task t
     | [] => set_sem i (mkSem count [])
     end
   else set_sem i (mkSem count (sem_queue sem))) ;;
  continue_with k.

Definition semaphore_down (i : nat) (k : list Piece) : K S unit :=
  s ← kget;
  sem ← kunwrap (sc_sems s !! i);
  let count := isize_add (sem_count sem) (-1) in
  if count <? 0 then
    t ← kunwrap (sc_current s);
    set_sem i (mkSem count (sem_queue sem ++ [t])) ;;
    continue_with (PBlock :: k)
  else set_sem i (mkSem count (sem_queue sem)) ;; continue_with k.

(** ** [Condvar] *)

Definition condvar_new : Condvar := mkCv [].

Definition set_cv (i : nat) (v : Condvar) : K S unit := kmodify (λ s, set_cvs (<[i := v]> (sc_cvs s)) s).

Definition condvar_signal (i : nat) (k : list Piece) : K S unit :=
  s ← kget;
  cv ← kunwrap (sc_cvs s !! i);
  match cv_queue cv with
  | t :: q => set_cv i (mkCv q) ;; wakeup_task t
  | [] => mret ()
  end ;;
  continue_with k.

(** The [exclusive_session] of [wait_with_mutex]. *)
Definition condvar_push (i : nat) (k : list Piece) : K S unit :=
  s ← kget;
  cv ← kunwrap (sc_cvs s !! i);
  t ← kunwrap (sc_current s);
  set_cv i (mkCv (cv_queue cv ++ [t])) ;;
  continue_with k.

(** The four steps of [wait_with_mutex]. *)
Definition wait_with_mutex (c m : nat) (k : list Piece) : list Piece :=
  PUnlock m :: PWaitPush c :: PBlock :: PLock m :: k.

(** ** Timers *)

Definition add_timer (expire : Z) (t : Z) : K S unit :=
  kmodify (λ s, set_timers (heap_push (mkTimer expire t) (sc_timers s)) s).

(** [while let Some(timer) = timers.peek()] *)
Fixpoint check_timer_loop (fuel : nat) (current_ms : Z) : K S unit :=
  match fuel with
  | O => kpanic
  | Datatypes.S fuel' =>
      s ← kget;
      match heap_peek (sc_timers s) with
      | Some timer =>
          if expire_ms timer <=? current_ms then
            wakeup_task (timer_task timer) ;;
            kmodify (λ s, set_timers (heap_pop (sc_timers s)) s) ;;
            check_timer_loop fuel' current_ms
          else mret ()
      | None => mret ()
      end
  end.

Definition check_timer : K S unit :=
  s ← kget;
  check_timer_loop (Datatypes.S (length (heap_elems (sc_timers s)))) (get_time_ms (sc_time s)).

(** ** System calls: what the task does next *)

Definition current_process : K S (Z * SyncLists) :=
  c ← current_task;
  t ← kunwrap c;
  s ← kget;
  tcb ← kunwrap (sc_tasks s !! t);
  p ← kunwrap (sc_procs s !! t_pid tcb);
  mret (t_pid tcb, p).

Definition set_process (pid : Z) (p : SyncLists) : K S unit := kmodify (λ s, set_procs (<[pid := p]> (sc_procs s)) s).

(** The index of a new object in the list of the process: the first free slot. *)
Definition place (l : list (option nat)) (x : nat) : nat * list (option nat) :=
  match list_find (λ o, o = None) l with
  | Some (id, _) => (id, <[id := Some x]> l)
  | None => (length l, l ++ [Some x])
  end.

Definition sys_mutex_create (blocking : bool) : K S (list Piece) :=
  '(pid, p) ← current_process;
  s ← kget;
  let mutex := if negb blocking then mutex_spin_new else mutex_blocking_new in
  kmodify (λ s, set_mutexes (sc_mutexes s ++ [mutex]) s) ;;
  let '(id, l) := place (mutex_list p) (length (sc_mutexes s)) in
  set_process pid (mkLists l (semaphore_list p) (condvar_list p) (pcb_signals p)) ;;
  mret [PReturn id].

Definition sys_semaphore_create (res_count : Z) : K S (list Piece) :=
  '(pid, p) ← current_process;
  s ← kget;
  kmodify (λ s, set_sems (sc_sems s ++ [semaphore_new res_count]) s) ;;
  let '(id, l) := place (semaphore_list p) (length (sc_sems s)) in
  set_process pid (mkLists (mutex_list p) l (condvar_list p) (pcb_signals p)) ;;
  mret [PReturn id].

Definition sys_condvar_create : K S (list Piece) :=
  '(pid, p) ← current_process;
  s ← kget;
  kmodify (λ s, set_cvs (sc_cvs s ++ [condvar_new]) s) ;;
  let '(id, l) := place (condvar_list p) (length (sc_cvs s)) in
  set_process pid (mkLists (mutex_list p) (semaphore_list p) l (pcb_signals p)) ;;
  mret [PReturn id].

(** [list[id].as_ref().unwrap()]: panics on a wrong identifier. *)
Definition handle (l : list (option nat)) (id : Z) : K S nat := o ← kunwrap (l !! Z.to_nat id); kunwrap o.

Definition sys_mutex_lock (mutex_id : Z) : K S (list Piece) :=
  '(_, p) ← current_process; m ← handle (mutex_list p) mutex_id; mret [PLock m; PReturn 0].
Definition sys_mutex_unlock (mutex_id : Z) : K S (list Piece) :=
  '(_, p) ← current_process; m ← handle (mutex_list p) mutex_id; mret [PUnlock m; PReturn 0].
Definition sys_semaphore_up (sem_id : Z) : K S (list Piece) :=
  '(_, p) ← current_process; i ← handle (semaphore_list p) sem_id; mret [PUp i; PReturn 0].
Definition sys_semaphore_down (sem_id : Z) : K S (list Piece) :=
  '(_, p) ← current_process; i ← handle (semaphore_list p) sem_id; mret [PDown i; PReturn 0].
Definition sys_condvar_signal (condvar_id : Z) : K S (list Piece) :=
  '(_, p) ← current_process; i ← handle (condvar_list p) condvar_id; mret [PSignal i; PReturn 0].
Definition sys_condvar_wait (condvar_id mutex_id : Z) : K S (list Piece) :=
  '(_, p) ← current_process;
  i ← handle (condvar_list p) condvar_id;
  m ← handle (mutex_list p) mutex_id;
  mret (wait_with_mutex i m [PReturn 0]).

Definition sys_sleep (ms : Z) : K S (list Piece) :=
  s ← kget;
  mret [PAddTimer (get_time_ms (sc_time s) +w ms); PBlock; PReturn 0].

Definition sys_yield : K S (list Piece) := mret [PSuspend; PReturn 0].

(** [sys_nanosleep] with a null [rem]. *)
Definition sys_nanosleep (req : option TimeSpec) : K S (list Piece) :=
  match req with
  | None => mret [PReturn (-1)]
  | Some r =>
      s ← kget;
      let end_ := ts_add (ts_now (sc_time s)) r in
      mret [PAddTimer (ts_to_ms end_); PBlock; PSleepEnd end_]
  end.

(** Its end, after the task was woken. *)
Definition nanosleep_end (end_ : TimeSpec) (k : list Piece) : K S unit :=
  '(_, p) ← current_process;
  s ← kget;
  if signals_is_empty (pcb_signals p) then
    kassert (ts_le end_ (ts_now (sc_time s))) ;;
    continue_with (PReturn 0 :: k)
  else continue_with (PReturn (-1) :: k).

(** The signal is added to the process of [t]. *)
Definition kill_task (t signal : Z) : K S unit :=
  s ← kget;
  tcb ← kunwrap (sc_tasks s !! t);
  p ← kunwrap (sc_procs s !! t_pid tcb);
  set_process (t_pid tcb) (mkLists (mutex_list p) (semaphore_list p) (condvar_list p)
                             (signals_insert (pcb_signals p) signal)) ;;
  if decide (task_status tcb = Blocked)
  then on_task t (with_status Ready) ;; wake_blocked t
  else mret ().

Definition sys_kill (pid sig : Z) : K S Z :=
  match from_signum sig with
  | None => mret (-1)
  | Some signal =>
      if 0 <? pid then
        r ← find_task_by_pid pid;
        match r with
        | Some t => (if negb (signals_is_empty signal) then kill_task t signal else mret ()) ;; mret 0
        | None => mret (-1)
        end
      else kpanic
  end.

(** ** One step of the running task *)

Definition set_return (result : Z) (k : list Piece) : K S unit :=
  c ← current_task;
  t ← kunwrap c;
  on_task t (λ tcb, with_cx k (with_a0 (wrap64 result) tcb)).

Definition exec_piece (p : Piece) (k : list Piece) : K S unit :=
  match p with
  | PLock m => mutex_lock m k
  | PUnlock m => mutex_unlock m k
  | PDown i => semaphore_down i k
  | PUp i => semaphore_up i k
  | PSignal c => condvar_signal c k
  | PWaitPush c => condvar_push c k
  | PAddTimer e => (c ← current_task; t ← kunwrap c; add_timer e t) ;; continue_with k
  | PBlock => block_current_and_run_next k
  | PSuspend => suspend_current_and_run_next k
  | PSleepEnd e => nanosleep_end e k
  | PReturn r => set_return r k
  end.

Inductive Syscall :=
| SMutexCreate (blocking : bool)
| SMutexLock (id : Z)
| SMutexUnlock (id : Z)
| SSemCreate (res : Z)
| SSemUp (id : Z)
| SSemDown (id : Z)
| SCvCreate
| SCvSignal (id : Z)
| SCvWait (cid mid : Z)
| SSleep (ms : Z)
| SNanosleep (req : option TimeSpec)
| SYield
| SKill (pid sig : Z).

Definition start_syscall (c : Syscall) : K S (list Piece) :=
  match c with
  | SMutexCreate b => sys_mutex_create b
  | SMutexLock i => sys_mutex_lock i
  | SMutexUnlock i => sys_mutex_unlock i
  | SSemCreate r => sys_semaphore_create r
  | SSemUp i => sys_semaphore_up i
  | SSemDown i => sys_semaphore_down i
  | SCvCreate => sys_condvar_create
  | SCvSignal i => sys_condvar_signal i
  | SCvWait c m => sys_condvar_wait c m
  | SSleep ms => sys_sleep ms
  | SNanosleep r => sys_nanosleep r
  | SYield => sys_yield
  | SKill pid sig => r ← sys_kill pid sig; mret [PReturn r]
  end.

(** The timer interrupt in user mode. *)
Definition timer_trap : K S unit := check_timer ;; suspend_current_and_run_next [].
End sched.
