(* ===== verification/SchedInv.v ===== *)
(** * Scheduling: no task is lost, none runs twice

    The transition system of the scheduler and its invariant: every live task
    has exactly one token, which is in the ready queue, in one wait queue, in
    the timer heap, or with the processor. *)

From S2P Require Import Prelude Timer Signal Sched.

(** ** Counting *)

Definition cnt (t : Z) (l : list Z) : nat := count_occ Z.eq_dec l t.

Lemma cnt_app t l l' : cnt t (l ++ l') = (cnt t l + cnt t l')%nat.
Proof. apply count_occ_app. Qed.

Lemma cnt_cons t x l : cnt t (x :: l) = ((if decide (x = t) then 1 else 0) + cnt t l)%nat.
Proof. unfold cnt. simpl. destruct (Z.eq_dec x t); case_decide; congruence || done. Qed.

Lemma cnt_perm t l l' : l ≡ₚ l' → cnt t l = cnt t l'.
Proof. intros Hp. by apply (Permutation_count_occ Z.eq_dec). Qed.

Lemma cnt_elem t l : t ∈ l ↔ (0 < cnt t l)%nat.
Proof. rewrite list_elem_of_In. apply count_occ_In. Qed.

(** The queues of a table of objects. *)
Definition queues {A} (q : A → list Z) (l : list A) : list Z := concat (q <$> l).

Lemma queues_insert {A} (q : A → list Z) l i x x' t :
  l !! i = Some x → (cnt t (queues q (<[i := x']> l)) + cnt t (q x) = cnt t (queues q l) + cnt t (q x'))%nat.
Proof.
  unfold queues. revert i. induction l as [|y l IH]; intros [|i] Hi; simplify_eq/=; rewrite !cnt_app.
  - lia.
  - specialize (IH i Hi). lia.
Qed.

Lemma queues_snoc {A} (q : A → list Z) l x t : cnt t (queues q (l ++ [x])) = (cnt t (queues q l) + cnt t (q x))%nat.
Proof. unfold queues. rewrite fmap_app, concat_app, cnt_app. simpl. by rewrite app_nil_r. Qed.

Definition mutex_queue (m : Mutex) : list Z := match m with MutexSpin _ => [] | MutexBlocking _ q => q end.

Section inv.
Context {H : Type} `{!BinaryHeap H}.
Notation S := (Sched H).
Implicit Types s : S.

(** ** Tokens *)

Definition live (s : S) (t : Z) : bool :=
  match sc_tasks s !! t with Some tcb => bool_decide (t_exit_code tcb = None) | None => false end.

(** The task is in a queue already and is about to leave the processor. *)
Definition about_to_block (cx : list Piece) : bool := match cx with PBlock :: _ => true | _ => false end.
Definition leaving (s : S) (t : Z) : bool :=
  match sc_tasks s !! t with Some tcb => about_to_block (task_cx tcb) | None => false end.

Definition waits (s : S) (t : Z) : nat :=
  cnt t (queues mutex_queue (sc_mutexes s)) + cnt t (queues sem_queue (sc_sems s)) +
  cnt t (queues cv_queue (sc_cvs s)) + cnt t (timer_task <$> heap_elems (sc_timers s)).

Definition runs (s : S) (t : Z) : nat := if bool_decide (sc_current s = Some t) && negb (leaving s t) then 1 else 0.

Definition tokens (s : S) (t : Z) : nat := cnt t (sc_ready s) + waits s t + runs s t.

(** Kernel code puts the task in a queue right before it blocks. *)
Fixpoint cx_wf (l : list Piece) : bool :=
  match l with
  | [] => true
  | p :: k =>
      match p, k with
      | (PWaitPush _ | PAddTimer _), PBlock :: k' => cx_wf k'
      | (PWaitPush _ | PAddTimer _ | PBlock), _ => false
      | _, _ => cx_wf k
      end
  end.

Definition cx_ok (s : S) (t : Z) (cx : list Piece) : bool :=
  match cx with PBlock :: k => bool_decide (sc_current s = Some t) && cx_wf k | _ => cx_wf cx end.

Record sched_inv (s : S) : Prop := {
  si_tokens t : tokens s t = if live s t then 1%nat else 0%nat;
  si_cx t tcb : sc_tasks s !! t = Some tcb → cx_ok s t (task_cx tcb) = true;
  si_current t : sc_current s = Some t → live s t = true;
  si_running t tcb : sc_tasks s !! t = Some tcb → t_exit_code tcb = None → task_status tcb = Running →
    sc_current s = Some t;
  si_runs t tcb : sc_tasks s !! t = Some tcb → sc_current s = Some t → leaving s t = false → task_status tcb = Running;
  si_waiting t tcb : sc_tasks s !! t = Some tcb → (0 < waits s t)%nat → sc_current s ≠ Some t → task_status tcb = Blocked;
}.

(** ** Transitions *)

(** Everything but the dispatch of a task. *)
Inductive ostep : S → S → Prop :=
| k_piece s t tcb p k s' :                         (* the running task goes on in the kernel *)
    sc_current s = Some t → sc_tasks s !! t = Some tcb → task_cx tcb = p :: k →
    exec_piece p k s = Done ((), s') → ostep s s'
| k_syscall s t tcb c l s1 s' :                    (* a system call *)
    sc_current s = Some t → sc_tasks s !! t = Some tcb → task_cx tcb = [] →
    start_syscall c s = Done (l, s1) → continue_with l s1 = Done ((), s') → ostep s s'
| k_exit s t tcb code s' :                         (* the running task exits *)
    sc_current s = Some t → sc_tasks s !! t = Some tcb → task_cx tcb = [] →
    exit_task code s = Done ((), s') → ostep s s'
| k_spawn s t pid s' :                             (* a new task is made *)
    sc_tasks s !! t = None →
    add_task t (on_tasks (<[t := mkTask Ready [] pid None 0]>) s) = Done ((), s') → ostep s s'
| k_trap s t tcb s' :                              (* timer interrupt in user mode *)
    sc_current s = Some t → sc_tasks s !! t = Some tcb → task_cx tcb = [] →
    timer_trap s = Done ((), s') → ostep s s'
| k_intr s s' :                                    (* timer interrupt in the kernel *)
    check_timer s = Done ((), s') → ostep s s'
| k_tick s now :                                   (* time passes *)
    sc_time s <= now → ostep s (set_time now s).

(** [run_tasks] switches to task [t]. *)
Definition dispatch (s : S) (t : Z) (s' : S) : Prop :=
  sc_current s = None ∧ run_tasks_turn s = Done (Some t, s').

Inductive kstep : S → S → Prop :=
| k_run s t s' : dispatch s t s' → kstep s s'
| k_other s s' : ostep s s' → kstep s s'.

(** The state at boot. *)
Definition boot (procs : gmap Z SyncLists) : S := mkSched ∅ [] None heap_new 0 [] [] [] procs.

(** The reachable states, also of a system that was running before. *)
Definition reaches : S → S → Prop := rtc kstep.

(** ** Preservation *)

Lemma cx_ok_cur s s' t cx : sc_current s' = sc_current s → cx_ok s' t cx = cx_ok s t cx.
Proof. intros Hc. destruct cx as [|[] cx]; try done. simpl. by rewrite Hc. Qed.

Definition b2n (b : bool) : nat := if b then 1 else 0.

(** The control block of the current task gets a new continuation, and at most
    one waiting task is woken. *)
Lemma piece_inv s s' t tcb g k (w : option Z) :
  sched_inv s → sc_current s = Some t → sc_tasks s !! t = Some tcb → about_to_block (task_cx tcb) = false →
  sc_current s' = Some t →
  sc_tasks s' = alter g t (match w with Some w => alter (with_status Ready) w (sc_tasks s) | None => sc_tasks s end) →
  (∀ x, task_cx (g x) = k ∧ task_status (g x) = task_status x ∧ t_exit_code (g x) = t_exit_code x) →
  (∀ t', cnt t' (sc_ready s') = (cnt t' (sc_ready s) + b2n (bool_decide (w = Some t')))%nat) →
  (∀ t', (waits s' t' + b2n (bool_decide (w = Some t')) =
          waits s t' + b2n (bool_decide (t' = t) && about_to_block k))%nat) →
  w = None ∨ about_to_block k = false → cx_ok s t k = true →
  sched_inv s'.
Proof.
  intros Hinv Hc Ht Hnb Hc' Hts Hg Hrd Hwt Hw Hk. pose proof Hinv as [Itok Icx Icur Irun Iruns Iwait].
  pose proof (Itok t) as Htok. pose proof (Icur t Hc) as Hlv. unfold tokens, runs, leaving in Htok.
  rewrite Hlv, Ht, Hnb, bool_decide_true in Htok by done. cbn [andb negb] in Htok.
  assert (Hwne : w ≠ Some t).
  { intros ->. specialize (Hwt t). destruct Hw as [|Hw]; [done|]. rewrite Hw, andb_false_r in Hwt.
    rewrite bool_decide_true in Hwt by done. simpl in Hwt. lia. }
  assert (Hsame : ∀ t', t' ≠ t → w ≠ Some t' → sc_tasks s' !! t' = sc_tasks s !! t').
  { intros t' Hne Hwn. rewrite Hts, lookup_alter_ne by done. destruct w as [w|]; [|done].
    rewrite lookup_alter_ne by congruence. done. }
  assert (Ht' : sc_tasks s' !! t = Some (g tcb)).
  { rewrite Hts, lookup_alter_eq. destruct w as [w|]; [|by rewrite Ht].
    rewrite lookup_alter_ne by congruence. by rewrite Ht. }
  assert (Hwoken : ∀ t', w = Some t' → sc_tasks s' !! t' = with_status Ready <$> sc_tasks s !! t').
  { intros t' ->. rewrite Hts, lookup_alter_ne by congruence. by rewrite lookup_alter_eq. }
  assert (Hlive : ∀ t', live s' t' = live s t').
  { intros t'. unfold live. destruct (decide (t' = t)) as [->|Hne].
    - rewrite Ht', Ht. destruct (Hg tcb) as (_&_&->). done.
    - destruct (decide (w = Some t')) as [Hwt'|Hwn]; [|by rewrite Hsame].
      rewrite Hwoken by done. by destruct (sc_tasks s !! t'). }
  assert (Hcxe : ∀ t' tcb', sc_tasks s' !! t' = Some tcb' → t' ≠ t →
            ∃ tcb0, sc_tasks s !! t' = Some tcb0 ∧ task_cx tcb' = task_cx tcb0 ∧
              task_status tcb' = (if bool_decide (w = Some t') then Ready else task_status tcb0) ∧ t_exit_code tcb' = t_exit_code tcb0).
  { intros t' tcb' Hl Hne. destruct (decide (w = Some t')) as [Hwt'|Hwn].
    - rewrite Hwoken in Hl by done. destruct (sc_tasks s !! t') as [x|] eqn:E; [|done]. injection Hl as <-.
      exists x. rewrite bool_decide_true by done. done.
    - rewrite Hsame in Hl by done. exists tcb'. rewrite bool_decide_false by done. done. }
  split.
  - intros t'. unfold tokens, runs. rewrite Hlive, Hc', Hrd. specialize (Hwt t'). specialize (Itok t').
    unfold tokens, runs in Itok. rewrite Hc in Itok. destruct (decide (t' = t)) as [->|Hne].
    + unfold leaving in *. rewrite Ht' in *. destruct (Hg tcb) as (->&_&_). rewrite Ht, Hnb in Itok.
      rewrite (bool_decide_true (Some t = Some t)) by done. rewrite (bool_decide_true (Some t = Some t)) in Itok by done.
      rewrite (bool_decide_true (t = t)) in Hwt by done.
      rewrite (bool_decide_false (w = Some t)) in * by done. cbn [andb negb b2n] in *.
      destruct (about_to_block k); simpl in *; lia.
    + rewrite (bool_decide_false (Some t = Some t')) in Itok by congruence.
      rewrite (bool_decide_false (Some t = Some t')) by congruence.
      rewrite (bool_decide_false (t' = t)) in Hwt by done. cbn [andb negb b2n] in *. lia.
  - intros t' tcb' Hl. destruct (decide (t' = t)) as [->|Hne].
    + rewrite Ht' in Hl. injection Hl as <-. destruct (Hg tcb) as (->&_&_). rewrite (cx_ok_cur s) by congruence. done.
    + destruct (Hcxe t' tcb' Hl Hne) as (x&Hx&->&_). rewrite (cx_ok_cur s) by congruence. by apply Icx.
  - intros t' Heq. rewrite Hlive. apply Icur. congruence.
  - intros t' tcb' Hl Hex Hst. destruct (decide (t' = t)) as [->|Hne]; [done|].
    destruct (Hcxe t' tcb' Hl Hne) as (x&Hx&_&Hs&He). rewrite Hst in Hs. rewrite Hc', <- Hc.
    destruct (bool_decide (w = Some t')); [done|]. apply (Irun t' x Hx); congruence.
  - intros t' tcb' Hl Hcur _. assert (t' = t) as -> by congruence. rewrite Ht' in Hl. injection Hl as <-.
    destruct (Hg tcb) as (_&->&_). apply (Iruns t tcb); try done. unfold leaving. by rewrite Ht.
  - intros t' tcb' Hl Hpos Hcur. assert (Hne : t' ≠ t) by congruence.
    destruct (Hcxe t' tcb' Hl Hne) as (x&Hx&_&Hs&_). specialize (Hwt t').
    rewrite (bool_decide_false (t' = t)) in Hwt by done. simpl in Hwt. specialize (Itok t'). unfold tokens in Itok.
    destruct (bool_decide_reflect (w = Some t')) as [Hwt'|Hwn]; simpl in Hwt.
    + destruct (live s t'); lia.
    + rewrite Hs. apply (Iwait t' x Hx); [lia|congruence].
Qed.

(** The continuation of the current task, given what was done before. *)
Lemma continue_inv s s1 t tcb k (w : option Z) :
  sched_inv s → sc_current s = Some t → sc_tasks s !! t = Some tcb → about_to_block (task_cx tcb) = false →
  sc_current s1 = Some t →
  sc_tasks s1 = match w with Some w => alter (with_status Ready) w (sc_tasks s) | None => sc_tasks s end →
  (∀ t', cnt t' (sc_ready s1) = (cnt t' (sc_ready s) + b2n (bool_decide (w = Some t')))%nat) →
  (∀ t', (waits s1 t' + b2n (bool_decide (w = Some t')) =
          waits s t' + b2n (bool_decide (t' = t) && about_to_block k))%nat) →
  w = None ∨ about_to_block k = false → cx_ok s t k = true →
  wlp (continue_with k) s1 (λ _ s', sched_inv s').
Proof.
  intros Hinv Hc Ht Hnb Hc1 Hts Hrd Hwt Hw Hk. unfold continue_with, current_task. wlp_steps.
  rewrite Hc1 in Hx. injection Hx as <-. unfold on_task. wlp_steps.
  eapply (piece_inv s _ t tcb (with_cx k) k w); simpl; try done. by rewrite Hts.
Qed.

Ltac split_ifs := repeat (case_bool_decide || case_decide); simplify_eq; simpl in *.

Lemma waits_mutex s m mx mx' t :
  sc_mutexes s !! m = Some mx →
  (waits (set_mutexes (<[m := mx']> (sc_mutexes s)) s) t + cnt t (mutex_queue mx) =
   waits s t + cnt t (mutex_queue mx'))%nat.
Proof. intros Hm. unfold waits. simpl. pose proof (queues_insert mutex_queue _ _ _ mx' t Hm). lia. Qed.

Lemma waits_sem s i x x' t :
  sc_sems s !! i = Some x →
  (waits (set_sems (<[i := x']> (sc_sems s)) s) t + cnt t (sem_queue x) = waits s t + cnt t (sem_queue x'))%nat.
Proof. intros Hm. unfold waits. simpl. pose proof (queues_insert sem_queue _ _ _ x' t Hm). lia. Qed.

Lemma waits_cv s i x x' t :
  sc_cvs s !! i = Some x →
  (waits (set_cvs (<[i := x']> (sc_cvs s)) s) t + cnt t (cv_queue x) = waits s t + cnt t (cv_queue x'))%nat.
Proof. intros Hm. unfold waits. simpl. pose proof (queues_insert cv_queue _ _ _ x' t Hm). lia. Qed.

(** A task that runs in the kernel. *)
Section piece.
Context (s : S) (t : Z) (tcb : Task) (k : list Piece).
Hypothesis Hinv : sched_inv s.
Hypothesis Hc : sc_current s = Some t.
Hypothesis Ht : sc_tasks s !! t = Some tcb.
Hypothesis Hnb : about_to_block (task_cx tcb) = false.

(** Nothing but the continuation changes. *)
Lemma continue_only k' : cx_ok s t k' = true → about_to_block k' = false → wlp (continue_with k') s (λ _ s', sched_inv s').
Proof.
  intros Hk Hb. eapply (continue_inv s s t tcb k' None); try done; auto; intros t'; rewrite ?Hb, ?andb_false_r; simpl; lia.
Qed.

(** After [x] was put in place of an object: nobody woken. *)
Lemma continue_object s1 k' :
  sc_current s1 = sc_current s → sc_tasks s1 = sc_tasks s → sc_ready s1 = sc_ready s →
  (∀ t', waits s1 t' = (waits s t' + b2n (bool_decide (t' = t) && about_to_block k'))%nat) → cx_ok s t k' = true →
  wlp (continue_with k') s1 (λ _ s', sched_inv s').
Proof.
  intros H1 H2 H3 Hw Hk. eapply (continue_inv s s1 t tcb k' None); try done; [congruence| | |by left];
    intros t'; rewrite ?H3, ?Hw; simpl; lia.
Qed.

(** After one waiting task was woken. *)
Lemma continue_woken s1 w k' :
  sc_current s1 = sc_current s → sc_tasks s1 = sc_tasks s → sc_ready s1 = sc_ready s →
  (∀ t', (waits s1 t' + cnt t' [w] = waits s t')%nat) → cx_ok s t k' = true → about_to_block k' = false →
  wlp (wakeup_task w) s1 (λ _ s2, wlp (continue_with k') s2 (λ _ s', sched_inv s')).
Proof.
  intros H1 H2 H3 Hw Hk Hb. unfold wakeup_task, on_task, add_task. wlp_steps.
  eapply (continue_inv s _ t tcb k' (Some w)); simpl; try done; [by rewrite H1|by rewrite H2| | |by right]; intros t'.
  - rewrite H3, cnt_app, cnt_cons. split_ifs; lia.
  - specialize (Hw t'). rewrite cnt_cons in Hw. rewrite Hb, andb_false_r. unfold waits in *. simpl in *.
    split_ifs; lia.
Qed.

Lemma wf_ok k' : cx_wf k' = true → cx_ok s t k' = true ∧ about_to_block k' = false.
Proof. by destruct k' as [|[] ?]. Qed.

Lemma lock_inv m :
  cx_wf k = true → wlp (mutex_lock m k) s (λ _ s', sched_inv s').
Proof using Hinv Hc Ht Hnb.
  intros Hk. pose proof (wf_ok k Hk) as Hk'.
  unfold mutex_lock, mutex_spin_lock, mutex_blocking_lock, set_mutex. wlp_steps. destruct x as [[]|[] q].
  - by apply continue_only.
  - wlp_steps. apply continue_object; try done; [|by apply Hk']. intros t'. destruct Hk' as [_ ->].
    pose proof (waits_mutex s m _ (MutexSpin true) t' Hx). simpl in *. rewrite andb_false_r. simpl. lia.
  - wlp_next. wlp_next. rewrite Hc. wlp_steps. apply continue_object; try done; simpl.
    + intros t'. pose proof (waits_mutex s m _ (MutexBlocking true (q ++ [t])) t' Hx) as Hw. simpl in Hw.
      rewrite cnt_app, cnt_cons in Hw. rewrite andb_true_r. split_ifs; lia.
    + by rewrite bool_decide_true by done.
  - wlp_steps. apply continue_object; try done; [|by apply Hk']. intros t'. destruct Hk' as [_ ->].
    pose proof (waits_mutex s m _ (MutexBlocking true q) t' Hx). simpl in *. rewrite andb_false_r. simpl. lia.
Qed.

Lemma unlock_inv m : cx_wf k = true → wlp (mutex_unlock m k) s (λ _ s', sched_inv s').
Proof using Hinv Hc Ht Hnb.
  intros [Hk Hb]%wf_ok. unfold mutex_unlock, mutex_spin_unlock, mutex_blocking_unlock, set_mutex. wlp_steps. destruct x as [b|b q].
  - wlp_steps. apply continue_object; try done. intros t'. rewrite Hb, andb_false_r.
    pose proof (waits_mutex s m _ (MutexSpin false) t' Hx). simpl in *. lia.
  - wlp_steps. destruct q as [|w q]; wlp_steps.
    + apply continue_object; try done. intros t'. rewrite Hb, andb_false_r.
      pose proof (waits_mutex s m _ (MutexBlocking false []) t' Hx). simpl in *. lia.
    + apply continue_woken; try done. intros t'.
      pose proof (waits_mutex s m _ (MutexBlocking b q) t' Hx) as Hw. cbn [mutex_queue] in Hw.
      rewrite !cnt_cons in *. simpl. lia.
Qed.

Lemma up_inv i : cx_wf k = true → wlp (semaphore_up i k) s (λ _ s', sched_inv s').
Proof using Hinv Hc Ht Hnb.
  intros [Hk Hb]%wf_ok. unfold semaphore_up, set_sem. wlp_steps.
  destruct (_ <=? 0); [destruct (sem_queue x) as [|w q] eqn:Eq|]; wlp_steps.
  - apply continue_object; try done. intros t'. rewrite Hb, andb_false_r.
    pose proof (waits_sem s i _ (mkSem (isize_add (sem_count x) 1) []) t' Hx) as Hw. rewrite Eq in Hw. simpl in *. lia.
  - apply continue_woken; try done. intros t'.
    pose proof (waits_sem s i _ (mkSem (isize_add (sem_count x) 1) q) t' Hx) as Hw. rewrite Eq in Hw.
    cbn [sem_queue] in Hw. rewrite !cnt_cons in *. simpl. lia.
  - apply continue_object; try done. intros t'. rewrite Hb, andb_false_r.
    pose proof (waits_sem s i _ (mkSem (isize_add (sem_count x) 1) (sem_queue x)) t' Hx). simpl in *. lia.
Qed.

Lemma down_inv i : cx_wf k = true → wlp (semaphore_down i k) s (λ _ s', sched_inv s').
Proof using Hinv Hc Ht Hnb.
  intros Hk. pose proof (wf_ok k Hk) as [Hk' Hb]. unfold semaphore_down, set_sem. wlp_steps.
  destruct (_ <? 0); [rewrite Hc|]; wlp_steps; apply continue_object; try done; simpl.
  - intros t'. pose proof (waits_sem s i _ (mkSem (isize_add (sem_count x) (-1)) (sem_queue x ++ [t])) t' Hx) as Hw.
    cbn [sem_queue] in Hw. rewrite cnt_app, cnt_cons in Hw. rewrite andb_true_r. split_ifs; lia.
  - by rewrite bool_decide_true by done.
  - intros t'. rewrite Hb, andb_false_r.
    pose proof (waits_sem s i _ (mkSem (isize_add (sem_count x) (-1)) (sem_queue x)) t' Hx). simpl in *. lia.
Qed.

Lemma signal_inv i : cx_wf k = true → wlp (condvar_signal i k) s (λ _ s', sched_inv s').
Proof using Hinv Hc Ht Hnb.
  intros [Hk Hb]%wf_ok. unfold condvar_signal, set_cv. wlp_steps. destruct (cv_queue x) as [|w q] eqn:Eq; wlp_steps.
  - by apply continue_only.
  - apply continue_woken; try done. intros t'.
    pose proof (waits_cv s i _ (mkCv q) t' Hx) as Hw. rewrite Eq in Hw. cbn [cv_queue] in Hw.
    rewrite !cnt_cons in *. simpl. lia.
Qed.

(** The two pieces that precede [PBlock]. *)
Lemma push_inv i k' : k = PBlock :: k' → cx_wf k' = true → wlp (condvar_push i k) s (λ _ s', sched_inv s').
Proof using Hinv Hc Ht Hnb.
  intros -> Hk. unfold condvar_push, set_cv. wlp_steps. rewrite Hc in Hx0. injection Hx0 as <-.
  apply continue_object; try done; simpl; [|by rewrite bool_decide_true by done].
  intros t'. pose proof (waits_cv s i _ (mkCv (cv_queue x ++ [t])) t' Hx) as Hw. cbn [cv_queue] in Hw.
  rewrite cnt_app, cnt_cons in Hw. rewrite andb_true_r. split_ifs; lia.
Qed.

Lemma addtimer_inv e k' :
  k = PBlock :: k' → cx_wf k' = true →
  wlp ((c ← current_task; t ← kunwrap c; add_timer e t) ;; continue_with k) s (λ _ s', sched_inv s').
Proof using Hinv Hc Ht Hnb.
  intros -> Hk. unfold current_task, add_timer. wlp_steps. rewrite Hc in Hx. injection Hx as <-.
  apply continue_object; try done; simpl; [|by rewrite bool_decide_true by done].
  intros t'. unfold waits. simpl. pose proof (cnt_perm t' _ _ (fmap_Permutation timer_task _ _ (heap_elems_push (mkTimer e t) (sc_timers s)))) as Hp.
  rewrite fmap_cons, cnt_cons in Hp. rewrite andb_true_r. split_ifs; lia.
Qed.

Lemma return_inv r : cx_wf k = true → wlp (set_return r k) s (λ _ s', sched_inv s').
Proof using Hinv Hc Ht Hnb.
  intros [Hk Hb]%wf_ok. unfold set_return, current_task, on_task. wlp_steps. rewrite Hc in Hx. injection Hx as <-.
  eapply (piece_inv s _ t tcb _ k None); try done; auto; intros t'; rewrite ?Hb, ?andb_false_r; unfold waits; simpl; lia.
Qed.

Lemma sleep_end_inv e : cx_wf k = true → wlp (nanosleep_end e k) s (λ _ s', sched_inv s').
Proof using Hinv Hc Ht Hnb.
  intros Hk. unfold nanosleep_end, current_process, current_task. wlp_steps.
  destruct (signals_is_empty _); wlp_steps; by apply continue_only.
Qed.
End piece.

(** ** Taking and leaving the processor *)

(** Only the control block of [t] changes, and only [t] takes or leaves the
    processor. *)
Lemma one_task_inv s s' t x' :
  sched_inv s → sc_tasks s' = <[t := x']> (sc_tasks s) →
  (∀ t', t' ≠ t → sc_current s' = Some t' ↔ sc_current s = Some t') →
  (∀ t', t' ≠ t → waits s' t' = waits s t' ∧ cnt t' (sc_ready s') = cnt t' (sc_ready s)) →
  tokens s' t = b2n (bool_decide (t_exit_code x' = None)) → cx_ok s' t (task_cx x') = true →
  (sc_current s' = Some t → t_exit_code x' = None) →
  (t_exit_code x' = None → task_status x' = Running → sc_current s' = Some t) →
  (sc_current s' = Some t → about_to_block (task_cx x') = false → task_status x' = Running) →
  ((0 < waits s' t)%nat → sc_current s' ≠ Some t → task_status x' = Blocked) →
  sched_inv s'.
Proof.
  intros [Itok Icx Icur Irun Iruns Iwait] Hts Hc Hoth Htok Hcx Hcur Hrun Hruns Hwait.
  assert (Ht : sc_tasks s' !! t = Some x') by (by rewrite Hts, lookup_insert_eq).
  assert (Hne : ∀ t', t' ≠ t → sc_tasks s' !! t' = sc_tasks s !! t') by (intros; by rewrite Hts, lookup_insert_ne).
  assert (Hd : ∀ t', t' ≠ t → bool_decide (sc_current s' = Some t') = bool_decide (sc_current s = Some t'))
    by (intros t' Hn; apply bool_decide_ext; auto).
  split.
  - intros t'. destruct (decide (t' = t)) as [->|Hn]; [rewrite Htok; unfold live; by rewrite Ht|].
    specialize (Itok t'). destruct (Hoth t' Hn) as [Hw Hr]. unfold live, tokens, runs, leaving in *.
    by rewrite Hne, Hw, Hr, Hd by done.
  - intros t' y Hy. destruct (decide (t' = t)) as [->|Hn]; [by rewrite Ht in Hy; injection Hy as <-|].
    rewrite Hne in Hy by done. specialize (Icx t' y Hy).
    destruct (task_cx y) as [|[] ?]; try done. simpl in *. by rewrite Hd.
  - intros t' Hy. unfold live. destruct (decide (t' = t)) as [->|Hn]; [rewrite Ht; by apply bool_decide_true, Hcur|].
    rewrite Hne by done. by apply (Icur t'), Hc.
  - intros t' y Hy Hx Hst. destruct (decide (t' = t)) as [->|Hn]; [rewrite Ht in Hy; injection Hy as <-; auto|].
    rewrite Hne in Hy by done. apply Hc; [done|]. by apply (Irun t' y).
  - intros t' y Hy Hcy Hl. unfold leaving in Hl. destruct (decide (t' = t)) as [->|Hn].
    + rewrite Ht in Hy, Hl. injection Hy as <-. auto.
    + rewrite Hne in Hy, Hl by done. apply (Iruns t' y Hy); [by apply Hc|done].
  - intros t' y Hy Hpos Hcy. destruct (decide (t' = t)) as [->|Hn].
    + rewrite Ht in Hy. injection Hy as <-. auto.
    + rewrite Hne in Hy by done. destruct (Hoth t' Hn) as [Hw _]. apply (Iwait t' y Hy); [lia|]. by rewrite <- Hc.
Qed.

Lemma alter_insert (f : Task → Task) t x (m : gmap Z Task) : m !! t = Some x → alter f t m = <[t := f x]> m.
Proof.
  intros Hm. apply map_eq. intros i. destruct (decide (i = t)) as [->|Hn].
  - by rewrite lookup_alter_eq, lookup_insert_eq, Hm.
  - by rewrite lookup_alter_ne, lookup_insert_ne.
Qed.

Lemma alter_twice (f g : Task → Task) t x (m : gmap Z Task) :
  m !! t = Some x → alter f t (alter g t m) = <[t := f (g x)]> m.
Proof.
  intros Hm. rewrite (alter_insert g t x m Hm). rewrite (alter_insert f t (g x)) by by rewrite lookup_insert_eq.
  by rewrite insert_insert_eq.
Qed.

(** The token of a task that runs. *)
Lemma running_token s t tcb :
  sched_inv s → sc_current s = Some t → sc_tasks s !! t = Some tcb → t_exit_code tcb = None ∧
  (cnt t (sc_ready s) + waits s t + b2n (negb (about_to_block (task_cx tcb))) = 1)%nat.
Proof.
  intros Hinv Hc Ht. pose proof (si_current _ Hinv t Hc) as Hl. pose proof (si_tokens _ Hinv t) as Htok.
  rewrite Hl in Htok. unfold tokens, runs, leaving, live in *. rewrite Ht, Hc, bool_decide_true in Htok by done.
  rewrite Ht in Hl. split; [by apply bool_decide_eq_true in Hl|]. exact Htok.
Qed.

Lemma block_inv s t tcb k :
  sched_inv s → sc_current s = Some t → sc_tasks s !! t = Some tcb → task_cx tcb = PBlock :: k →
  wlp (block_current_and_run_next k) s (λ _ s', sched_inv s').
Proof.
  intros Hinv Hc Ht Hcx. unfold block_current_and_run_next, block_current_task, take_current_task, on_task. wlp_steps.
  rewrite Hc in Hx. injection Hx as <-. destruct (running_token s t tcb) as [Hex Htok]; try done.
  pose proof (si_cx _ Hinv t tcb Ht) as Hok. rewrite Hcx in Hok, Htok. simpl in Hok. apply andb_true_iff in Hok as [_ Hk].
  eapply (one_task_inv s _ t (with_cx k (with_status Blocked tcb))); simpl; try done.
  - by rewrite (alter_twice _ _ t tcb).
  - intros t' Hn. rewrite Hc. split; congruence.
  - rewrite bool_decide_true by done. unfold tokens, runs. simpl. unfold waits in *. simpl in *. lia.
  - by apply wf_ok.
Qed.

Lemma suspend_inv s t tcb k :
  sched_inv s → sc_current s = Some t → sc_tasks s !! t = Some tcb → about_to_block (task_cx tcb) = false →
  cx_wf k = true → wlp (suspend_current_and_run_next k) s (λ _ s', sched_inv s').
Proof.
  intros Hinv Hc Ht Hcx Hk. unfold suspend_current_and_run_next, take_current_task, add_task, on_task. wlp_steps.
  rewrite Hc in Hx. injection Hx as <-. destruct (running_token s t tcb) as [Hex Htok]; try done. rewrite Hcx in Htok.
  eapply (one_task_inv s _ t (with_cx k (with_status Ready tcb))); simpl; try done.
  - by rewrite (alter_twice _ _ t tcb).
  - intros t' Hn. rewrite Hc. split; congruence.
  - intros t' Hn. split; [done|]. rewrite cnt_app, cnt_cons. case_decide; [congruence|]. simpl. lia.
  - rewrite bool_decide_true by done. unfold tokens, runs. simpl. rewrite cnt_app, cnt_cons, decide_True by done.
    unfold waits in *. simpl in *. lia.
  - by apply wf_ok.
  - simpl in Htok. unfold waits in *. simpl in *. intros. lia.
Qed.

Lemma exit_inv s t tcb code :
  sched_inv s → sc_current s = Some t → sc_tasks s !! t = Some tcb → about_to_block (task_cx tcb) = false →
  wlp (exit_task code) s (λ _ s', sched_inv s').
Proof.
  intros Hinv Hc Ht Hcx. unfold exit_task, take_current_task, on_task. wlp_steps.
  rewrite Hc in Hx. injection Hx as <-. destruct (running_token s t tcb) as [Hex Htok]; try done. rewrite Hcx in Htok.
  pose proof (si_runs _ Hinv t tcb Ht Hc) as Hst. unfold leaving in Hst. rewrite Ht in Hst.
  eapply (one_task_inv s _ t (with_exit code tcb)); simpl; try done.
  - by rewrite (alter_insert _ t tcb).
  - intros t' Hn. rewrite Hc. split; congruence.
  - unfold tokens, runs. simpl. unfold waits in *. simpl in *. lia.
  - simpl in Htok. unfold waits in *. simpl in *. intros. lia.
Qed.

(** A task with a token is live. *)
Lemma token_live s t :
  sched_inv s → (0 < cnt t (sc_ready s) + waits s t)%nat →
  ∃ tcb, sc_tasks s !! t = Some tcb ∧ t_exit_code tcb = None ∧ (cnt t (sc_ready s) + waits s t = 1)%nat ∧
    (sc_current s = Some t → about_to_block (task_cx tcb) = true).
Proof.
  intros Hinv Hpos. pose proof (si_tokens _ Hinv t) as Htok. unfold tokens, runs, leaving, live in Htok.
  destruct (sc_tasks s !! t) as [tcb|]; [|lia]. exists tcb. split; [done|].
  destruct (bool_decide_reflect (t_exit_code tcb = None)) as [Hex|Hex]; [|lia]. split; [done|]. split; [lia|].
  intros Hc. rewrite bool_decide_true in Htok by done. destruct (about_to_block _); [done|]. simpl in Htok. lia.
Qed.

Lemma run_inv s :
  sched_inv s → sc_current s = None → wlp run_tasks_turn s (λ _ s', sched_inv s').
Proof.
  intros Hinv Hc. unfold run_tasks_turn, fetch_task, on_task. wlp_steps.
  destruct (sc_ready s) as [|t q] eqn:Eq; wlp_steps; [done|].
  destruct (token_live s t) as (tcb&Ht&Hex&Htok&_); [done|rewrite Eq, cnt_cons, decide_True by done; lia|].
  rewrite Eq, cnt_cons, decide_True in Htok by done.
  assert (Hnb : about_to_block (task_cx tcb) = false ∧ cx_wf (task_cx tcb) = true).
  { pose proof (si_cx _ Hinv t tcb Ht) as Hok. destruct (task_cx tcb) as [|[] ?]; try done.
    simpl in Hok. by rewrite Hc in Hok. }
  destruct Hnb as [Hnb Hwf].
  eapply (one_task_inv s _ t (with_status Running tcb)); simpl; try done.
  - by rewrite (alter_insert _ t tcb).
  - intros t' Hn. rewrite Hc. split; congruence.
  - intros t' Hn. split; [done|]. rewrite Eq, cnt_cons. case_decide; [congruence|]. simpl. lia.
  - rewrite bool_decide_true by done. unfold tokens, runs, leaving. simpl.
    rewrite bool_decide_true, lookup_alter_eq, Ht by done. simpl. rewrite Hnb. unfold waits in *. simpl in *. lia.
  - by apply wf_ok.
Qed.

Lemma spawn_inv s t pid :
  sched_inv s → sc_tasks s !! t = None →
  wlp (add_task t) (on_tasks (<[t := mkTask Ready [] pid None 0]>) s) (λ _ s', sched_inv s').
Proof.
  intros Hinv Ht. unfold add_task. wlp_steps. pose proof (si_tokens _ Hinv t) as Htok.
  unfold live in Htok. rewrite Ht in Htok.
  assert (Hc : sc_current s ≠ Some t).
  { intros Hc. pose proof (si_current _ Hinv t Hc) as Hl. unfold live in Hl. by rewrite Ht in Hl. }
  eapply (one_task_inv s _ t (mkTask Ready [] pid None 0)); simpl; try done.
  - intros t' Hn. split; [done|]. rewrite cnt_app, cnt_cons. case_decide; [congruence|]. simpl. lia.
  - unfold tokens, runs in *. simpl. rewrite bool_decide_false in * by done. unfold waits in *. simpl in *.
    rewrite cnt_app, cnt_cons, decide_True by done. simpl. lia.
  - intros Hpos. unfold tokens, waits in *. simpl in *. lia.
Qed.

Lemma check_loop_inv fuel now : ∀ s, sched_inv s → wlp (check_timer_loop fuel now) s (λ _ s', sched_inv s').
Proof.
  induction fuel as [|fuel IH]; intros s Hinv; simpl; [done|]. wlp_steps.
  destruct (heap_peek (sc_timers s)) as [tm|] eqn:Hp; [|by wlp_steps]. destruct (_ <=? _); [|by wlp_steps].
  unfold wakeup_task, on_task, add_task. wlp_steps. apply IH. set (w := timer_task tm).
  destruct (heap_peek_some _ _ Hp) as [Hperm _].
  pose proof (λ t, cnt_perm t _ _ (fmap_Permutation timer_task _ _ Hperm)) as Hcnt. rewrite fmap_cons in Hcnt.
  assert (Hw : (0 < waits s w)%nat) by (unfold waits; rewrite Hcnt, cnt_cons, decide_True by done; lia).
  destruct (token_live s w) as (tcb&Ht&Hex&Htok&Hcw); [done|lia|].
  eapply (one_task_inv s _ w (with_status Ready tcb)); simpl; try done.
  - by rewrite (alter_insert _ w tcb).
  - intros t' Hn. unfold waits. simpl. rewrite Hcnt, cnt_cons, cnt_app, cnt_cons.
    repeat case_decide; try congruence; simpl; lia.
  - rewrite bool_decide_true by done. unfold tokens, runs, leaving, waits in *. simpl.
    rewrite Hcnt, cnt_cons, decide_True in Htok by done.
    rewrite cnt_app, cnt_cons, decide_True, lookup_alter_eq, Ht by done. simpl.
    case_bool_decide as Hc; simpl; [|lia]. rewrite (Hcw Hc). simpl. lia.
  - pose proof (si_cx _ Hinv w tcb Ht) as Hok. exact Hok.
  - intros Hc Hb. rewrite Hcw in Hb by done. done.
  - intros Hpos Hc. unfold waits in *. rewrite Hcnt, cnt_cons, decide_True in Htok by done. simpl in Hpos. lia.
Qed.

Lemma check_timer_inv s : sched_inv s → wlp check_timer s (λ _ s', sched_inv s').
Proof. intros Hinv. unfold check_timer. wlp_steps. by apply check_loop_inv. Qed.

(** [sys_kill] changes the status of no task that waits. *)
Lemma kill_task_inv s t tcb u signal :
  sched_inv s → sc_current s = Some t → sc_tasks s !! t = Some tcb → task_cx tcb = [] →
  u = t ∨ u ∈ sc_ready s →
  wlp (kill_task u signal) s (λ _ s1, sched_inv s1 ∧ sc_current s1 = Some t ∧
    ∃ tcb1, sc_tasks s1 !! t = Some tcb1 ∧ task_cx tcb1 = []).
Proof.
  intros Hinv Hc Ht Hcx Hu. unfold kill_task, set_process. wlp_steps. rename x into ucb.
  set (ps := <[t_pid ucb := _]> (sc_procs s)).
  assert (Hproc : sched_inv (set_procs ps s)) by (destruct Hinv; by split).
  case_decide as Hb; wlp_steps; [|split; [done|]; split; [done|]; simpl; eauto].
  unfold on_task, wake_blocked. wlp_steps. simpl in Hx1. rewrite lookup_alter_eq, Hx in Hx1. injection Hx1 as <-.
  rewrite decide_False by done. wlp_steps.
  assert (Hun : u ≠ t).
  { intros ->. assert (ucb = tcb) as -> by congruence. pose proof (si_runs _ Hinv t tcb Ht Hc) as Hr.
    unfold leaving in Hr. rewrite Ht, Hcx in Hr. rewrite Hr in Hb by done. done. }
  assert (Hur : u ∈ sc_ready s) by (destruct Hu; done). rewrite cnt_elem in Hur.
  destruct (token_live s u Hinv) as (ucb'&Hu1&Hex&Htok&_); [lia|].
  assert (ucb' = ucb) as -> by congruence.
  split; [|split; [done|]; simpl; rewrite lookup_alter_ne by done; eauto].
  eapply (one_task_inv _ _ u (with_status Ready ucb)); [exact Hproc|..]; simpl; try done.
  - by rewrite (alter_insert _ u ucb).
  - rewrite bool_decide_true by done. unfold tokens, runs. simpl. rewrite bool_decide_false by congruence.
    unfold waits in *. simpl in *. lia.
  - exact (si_cx _ Hinv u ucb Hx).
  - congruence.
  - intros Hpos. unfold waits in *. simpl in *. lia.
Qed.

Lemma kill_inv s t tcb pid sig :
  sched_inv s → sc_current s = Some t → sc_tasks s !! t = Some tcb → task_cx tcb = [] →
  wlp (sys_kill pid sig) s (λ _ s1, sched_inv s1 ∧ sc_current s1 = Some t ∧
    ∃ tcb1, sc_tasks s1 !! t = Some tcb1 ∧ task_cx tcb1 = []).
Proof.
  intros Hinv Hc Ht Hcx. unfold sys_kill. destruct (from_signum sig) as [signal|]; [|wlp_steps; eauto].
  destruct (0 <? pid); [|done]. wlp_next.
  assert (Hf : wlp (find_task_by_pid pid) s (λ r s1, s1 = s ∧ ∀ u, r = Some u → u = t ∨ u ∈ sc_ready s)).
  { unfold find_task_by_pid, current_task. wlp_steps. destruct (_ =? pid); wlp_steps; split; try done.
    - intros u [= <-]. left. congruence.
    - intros u Hu. right. unfold find_by_pid in Hu. destruct (list_find _ _) as [[i v]|] eqn:E; [|done].
      simplify_eq/=. apply list_find_Some in E as (Hi&_). by eapply list_elem_of_lookup_2. }
  eapply wlp_mono; [exact Hf|]. intros r s1 [-> Hr]. destruct r as [u|]; [|wlp_steps; eauto].
  destruct (negb _); wlp_steps; [|eauto]. eapply wlp_mono; [by eapply kill_task_inv; auto|]. intros [] s1 Hs1.
  by wlp_steps.
Qed.

Lemma syscall_inv s t tcb c :
  sched_inv s → sc_current s = Some t → sc_tasks s !! t = Some tcb → task_cx tcb = [] →
  wlp (start_syscall c) s (λ l s1, wlp (continue_with l) s1 (λ _ s', sched_inv s')).
Proof.
  intros Hinv Hc Ht Hcx. assert (Hnb : about_to_block (task_cx tcb) = false) by by rewrite Hcx.
  pose proof (continue_only s t tcb Hinv Hc Ht Hnb) as Honly.
  pose proof (continue_object s t tcb Hinv Hc Ht Hnb) as Hobj.
  destruct c; simpl; unfold sys_mutex_create, sys_mutex_lock, sys_mutex_unlock, sys_semaphore_create,
    sys_semaphore_up, sys_semaphore_down, sys_condvar_create, sys_condvar_signal, sys_condvar_wait, sys_sleep,
    sys_nanosleep, sys_yield, handle, current_process, current_task, set_process; wlp_steps.
  - destruct (place _ _) as [id l]. wlp_steps. apply Hobj; try done. intros t'. unfold waits. simpl.
    rewrite queues_snoc, andb_false_r. destruct blocking; simpl; lia.
  - by apply Honly.
  - by apply Honly.
  - destruct (place _ _) as [id l]. wlp_steps. apply Hobj; try done. intros t'. unfold waits. simpl.
    rewrite queues_snoc, andb_false_r. simpl. lia.
  - by apply Honly.
  - by apply Honly.
  - destruct (place _ _) as [id l]. wlp_steps. apply Hobj; try done. intros t'. unfold waits. simpl.
    rewrite queues_snoc, andb_false_r. simpl. lia.
  - by apply Honly.
  - by apply Honly.
  - by apply Honly.
  - destruct req; wlp_steps; by apply Honly.
  - by apply Honly.
  - eapply wlp_mono; [by eapply kill_inv|]. intros r s1 (Hinv1&Hc1&tcb1&Ht1&Hcx1). wlp_steps.
    apply (continue_only s1 t tcb1); try done. by rewrite Hcx1.
Qed.

Lemma piece_step_inv s t tcb p k :
  sched_inv s → sc_current s = Some t → sc_tasks s !! t = Some tcb → task_cx tcb = p :: k →
  wlp (exec_piece p k) s (λ _ s', sched_inv s').
Proof.
  intros Hinv Hc Ht Hcx. pose proof (si_cx _ Hinv t tcb Ht) as Hok. rewrite Hcx in Hok.
  assert (Hnb : p ≠ PBlock → about_to_block (task_cx tcb) = false) by (rewrite Hcx; by destruct p).
  destruct p; simpl in Hok |- *.
  - by apply (lock_inv s t tcb); auto.
  - by apply (unlock_inv s t tcb); auto.
  - by apply (down_inv s t tcb); auto.
  - by apply (up_inv s t tcb); auto.
  - by apply (signal_inv s t tcb); auto.
  - destruct k as [|[] k']; try done. by eapply (push_inv s t tcb); auto.
  - destruct k as [|[] k']; try done. by eapply (addtimer_inv s t tcb); auto.
  - by eapply block_inv.
  - by eapply (suspend_inv s t tcb); auto.
  - by apply (sleep_end_inv s t tcb); auto.
  - by apply (return_inv s t tcb); auto.
Qed.

Lemma check_loop_frame fuel now : ∀ s,
  wlp (check_timer_loop fuel now) s (λ _ s', sc_current s' = sc_current s ∧
    ∀ t, option_map task_cx (sc_tasks s' !! t) = option_map task_cx (sc_tasks s !! t)).
Proof.
  induction fuel as [|fuel IH]; intros s; simpl; [done|]. wlp_steps.
  destruct (heap_peek (sc_timers s)) as [tm|] eqn:Hp; [|by wlp_steps]. destruct (_ <=? _); [|by wlp_steps].
  unfold wakeup_task, on_task, add_task. wlp_steps. eapply wlp_mono; [apply IH|]. intros [] s' [Hc Hcx]. simpl in *.
  split; [done|]. intros t. rewrite Hcx. destruct (decide (t = timer_task tm)) as [->|Hn].
  - rewrite lookup_alter_eq. by destruct (sc_tasks s !! _).
  - by rewrite lookup_alter_ne.
Qed.

Lemma trap_inv s t tcb :
  sched_inv s → sc_current s = Some t → sc_tasks s !! t = Some tcb → task_cx tcb = [] →
  wlp timer_trap s (λ _ s', sched_inv s').
Proof.
  intros Hinv Hc Ht Hcx. unfold timer_trap. wlp_next. apply wlp_intro. intros [] s1 Hs1.
  pose proof (wlp_done _ _ _ _ _ (check_timer_inv s Hinv) Hs1) as Hinv1.
  unfold check_timer in Hs1. cbn [mbind K_bind kget] in Hs1.
  destruct (wlp_done _ _ _ _ _ (check_loop_frame _ _ s) Hs1) as [Hc1 Hcx1]. specialize (Hcx1 t).
  rewrite Ht in Hcx1. destruct (sc_tasks s1 !! t) as [tcb1|] eqn:Ht1; [|done].
  cbn [option_map] in Hcx1. injection Hcx1 as Hcx1. eapply (suspend_inv s1 t tcb1); try done; [congruence|].
  by rewrite Hcx1, Hcx.
Qed.

Lemma ostep_inv s s' : sched_inv s → ostep s s' → sched_inv s'.
Proof.
  intros Hinv Hstep. destruct Hstep as [s t tcb p k s' Hc Ht Hcx He|s t tcb c l s1 s' Hc Ht Hcx Hs He
    |s t tcb code s' Hc Ht Hcx He|s t pid s' Ht He|s t tcb s' Hc Ht Hcx He|s s' He|s now Hnow].
  - exact (wlp_done _ _ _ _ _ (piece_step_inv s t tcb p k Hinv Hc Ht Hcx) He).
  - exact (wlp_done _ _ _ _ _ (wlp_done _ _ _ _ _ (syscall_inv s t tcb c Hinv Hc Ht Hcx) Hs) He).
  - refine (wlp_done _ _ _ _ _ (exit_inv s t tcb code Hinv Hc Ht _) He). by rewrite Hcx.
  - exact (wlp_done _ _ _ _ _ (spawn_inv s t pid Hinv Ht) He).
  - exact (wlp_done _ _ _ _ _ (trap_inv s t tcb Hinv Hc Ht Hcx) He).
  - exact (wlp_done _ _ _ _ _ (check_timer_inv s Hinv) He).
  - destruct Hinv. by split.
Qed.

Lemma kstep_inv s s' : sched_inv s → kstep s s' → sched_inv s'.
Proof.
  intros Hinv Hs. destruct Hs as [s t s' [Hc Hr]|s s' Ho]; [|by eapply ostep_inv].
  exact (wlp_done _ _ _ _ _ (run_inv s Hinv Hc) Hr).
Qed.

Lemma boot_inv procs : sched_inv (boot procs).
Proof.
  split; try done.
  intros t. unfold tokens, waits, runs, live, boot. simpl. by rewrite heap_elems_new, lookup_empty.
Qed.

Lemma reaches_inv s s' : sched_inv s → reaches s s' → sched_inv s'.
Proof. intros Hinv Hr. induction Hr as [|s1 s2 s3 Hstep _ IH]; [done|]. by apply IH, (kstep_inv s1). Qed.
End inv.
