(* ===== verification/SchedProps.v ===== *)
(** * Theorems about scheduling, timers and signals *)

From S2P Require Import Prelude Timer Signal Sched SchedInv.

(** ** The order of the ready queue *)

Section fifo.
Context {H : Type} `{!BinaryHeap H}.
Notation S := (Sched H).
Implicit Types s : S.

(** [m] only appends to the ready queue. *)
Definition appends {A} (m : K S A) : Prop := ∀ s, wlp m s (λ _ s', ∃ l, sc_ready s' = sc_ready s ++ l).

Lemma appends_bind {A B} (m : K S A) (f : A → K S B) : appends m → (∀ a, appends (f a)) → appends (m ≫= f).
Proof.
  intros Hm Hf s. apply wlp_bind. eapply wlp_mono; [apply Hm|]. intros a s1 [l1 H1].
  eapply wlp_mono; [apply Hf|]. intros b s2 [l2 H2]. exists (l1 ++ l2). by rewrite H2, H1, app_assoc.
Qed.

Lemma appends_ret {A} (a : A) : appends (mret a).
Proof. intros s. exists []. by rewrite app_nil_r. Qed.
Lemma appends_get : appends kget.
Proof. intros s. exists []. by rewrite app_nil_r. Qed.
Lemma appends_unwrap {A} (o : option A) : appends (kunwrap o).
Proof. intros s. apply wlp_unwrap. intros a _. exists []. by rewrite app_nil_r. Qed.
Lemma appends_assert b : appends (kassert b).
Proof. intros s. apply wlp_assert. intros _. exists []. by rewrite app_nil_r. Qed.
Lemma appends_modify (f : S → S) : (∀ s, sc_ready (f s) = sc_ready s) → appends (kmodify f).
Proof. intros Hf s. exists []. by rewrite Hf, app_nil_r. Qed.
Lemma appends_add t : appends (add_task t).
Proof. intros s. by exists [t]. Qed.
Lemma appends_take : appends take_current_task.
Proof. intros s. exists []. by rewrite app_nil_r. Qed.

Create HintDb fifo.
#[local] Hint Resolve appends_ret appends_get appends_unwrap appends_assert appends_add appends_take : fifo.

Ltac appends_tac :=
  repeat first
    [ progress (intros) | progress auto with fifo
    | apply appends_bind | apply appends_modify; reflexivity
    | progress unfold on_task, wakeup_task, wake_blocked, set_mutex, set_sem, set_cv, set_process, current_task,
        continue_with, block_current_task, add_timer, handle, current_process
    | match goal with |- appends (match ?x with _ => _ end) => destruct x end ].

Lemma appends_check fuel now : appends (check_timer_loop fuel now).
Proof.
  induction fuel as [|fuel IH]; simpl; [by intros s|].
  apply appends_bind; [apply appends_get|]. intros s. destruct (heap_peek _); appends_tac.
Qed.

Lemma appends_piece p k : appends (exec_piece p k).
Proof.
  destruct p; simpl; unfold mutex_lock, mutex_unlock, mutex_spin_lock, mutex_blocking_lock, mutex_spin_unlock, mutex_blocking_unlock, semaphore_down, semaphore_up, condvar_signal, condvar_push,
    block_current_and_run_next, suspend_current_and_run_next, nanosleep_end, set_return; appends_tac.
Qed.

Lemma appends_syscall c : appends (start_syscall c).
Proof.
  destruct c; simpl; unfold sys_mutex_create, sys_mutex_lock, sys_mutex_unlock, sys_semaphore_create,
    sys_semaphore_up, sys_semaphore_down, sys_condvar_create, sys_condvar_signal, sys_condvar_wait, sys_sleep,
    sys_nanosleep, sys_yield, sys_kill, find_task_by_pid, kill_task; appends_tac.
  all: try by intros s.
Qed.

Lemma ostep_appends s s' : ostep s s' → ∃ l, sc_ready s' = sc_ready s ++ l.
Proof.
  intros Hstep. destruct Hstep as [s t tcb p k s' Hc Ht Hcx He|s t tcb c l s1 s' Hc Ht Hcx Hs He
    |s t tcb code s' Hc Ht Hcx He|s t pid s' Ht He|s t tcb s' Hc Ht Hcx He|s s' He|s now Hnow].
  - exact (wlp_done _ _ _ _ _ (appends_piece p k s) He).
  - destruct (wlp_done _ _ _ _ _ (appends_syscall c s) Hs) as [l1 H1].
    assert (Hk : appends (continue_with l)) by appends_tac.
    destruct (wlp_done _ _ _ _ _ (Hk s1) He) as [l2 H2]. exists (l1 ++ l2). by rewrite H2, H1, app_assoc.
  - assert (Hk : appends (exit_task code)) by (unfold exit_task; appends_tac). exact (wlp_done _ _ _ _ _ (Hk s) He).
  - injection He as <-. by exists [t].
  - assert (Hk : appends timer_trap).
    { unfold timer_trap, check_timer, suspend_current_and_run_next. appends_tac. apply appends_check. }
    exact (wlp_done _ _ _ _ _ (Hk s) He).
  - assert (Hk : appends check_timer) by (unfold check_timer; appends_tac; apply appends_check).
    exact (wlp_done _ _ _ _ _ (Hk s) He).
  - exists []. by rewrite app_nil_r.
Qed.

(** Executions, with the tasks that [run_tasks] dispatches on the way. *)
Inductive trace : list Z → S → S → Prop :=
| trace_nil s : trace [] s s
| trace_run s t s1 ds s' : dispatch s t s1 → trace ds s1 s' → trace (t :: ds) s s'
| trace_other s s1 ds s' : ostep s s1 → trace ds s1 s' → trace ds s s'.

(** The scheduler is first come, first served: along any execution, the
    tasks dispatched so far followed by the present ready queue are the ready
    queue of the start followed by the tasks made ready since.  So a task with
    [n] tasks before it in the queue is the [n+1]st to be dispatched. *)
Theorem ready_queue_fifo s s' (ds : list Z) :
  trace ds s s' → ∃ l, ds ++ sc_ready s' = sc_ready s ++ l.
Proof.
  intros Htr. induction Htr as [s|s t s1 ds s' [Hc Hr] _ [l IH]|s s1 ds s' Ho _ [l IH]].
  - exists []. by rewrite app_nil_r.
  - exists l. unfold run_tasks_turn, fetch_task, on_task in Hr. unfold mbind, K_bind, kget, kput, mret, K_ret, kmodify in Hr.
    destruct (sc_ready s) as [|t' q]; simplify_eq/=. by rewrite IH.
  - destruct (ostep_appends _ _ Ho) as [l' H1]. exists (l' ++ l). by rewrite IH, H1, app_assoc.
Qed.

(** C8: In every reachable state each live task has exactly one token: it is
    in the ready queue, in one wait queue, in the timer heap, or it runs and is
    in none of them; a task that exited is nowhere.  So no wake-up is lost and
    no task is scheduled twice, whatever the interleaving of system calls,
    timer interrupts, blocking and waking.  Moreover at most the current task
    is marked Running, and a waiting task that has left the processor is
    Blocked. *)
Theorem no_task_lost procs s :
  reaches (boot procs) s →
  (∀ t, tokens s t = if live s t then 1%nat else 0%nat) ∧
  (∀ t, sc_current s = Some t → live s t = true) ∧
  (∀ t tcb, sc_tasks s !! t = Some tcb → t_exit_code tcb = None → task_status tcb = Running → sc_current s = Some t) ∧
  (∀ t tcb, sc_tasks s !! t = Some tcb → (0 < waits s t)%nat → sc_current s ≠ Some t → task_status tcb = Blocked).
Proof.
  intros Hr. destruct (reaches_inv _ _ (boot_inv procs) Hr). split; [done|]. split; [done|]. by split.
Qed.
End fifo.

(** ** Locks and semaphores against their specifications *)

Section sync.
Context {H : Type} `{!BinaryHeap H}.
Notation S := (Sched H).
Implicit Types s : S.

(** A fair lock: its owner and the tasks that wait, first come first. *)
Record FairLock := mkFL { owner : option Z; waiting : list Z }.

Definition fl_lock (t : Z) (a : FairLock) : FairLock :=
  match owner a with None => mkFL (Some t) [] | Some u => mkFL (Some u) (waiting a ++ [t]) end.

Definition fl_unlock (a : FairLock) : FairLock :=
  match waiting a with [] => mkFL None [] | w :: q => mkFL (Some w) q end.

(** A blocking mutex and the fair lock it implements. *)
Definition implements (m : Mutex) (a : FairLock) : Prop :=
  m = MutexBlocking (match owner a with Some _ => true | None => false end) (waiting a) ∧
  (owner a = None → waiting a = []).

(** The status and the continuation of a task. *)
Definition status_of (s : S) (t : Z) : option TaskStatus := option_map task_status (sc_tasks s !! t).
Definition cx_of (s : S) (t : Z) : option (list Piece) := option_map task_cx (sc_tasks s !! t).

Lemma cx_of_alter s t k : is_Some (sc_tasks s !! t) → option_map task_cx (alter (with_cx k) t (sc_tasks s) !! t) = Some k.
Proof. intros [x Hx]. rewrite lookup_alter_eq, Hx. done. Qed.

Lemma mutex_lock_wp s t m a k :
  sc_current s = Some t → is_Some (sc_tasks s !! t) →
  (∃ mx, sc_mutexes s !! m = Some mx ∧ implements mx a) →
  wp (mutex_lock m k) s (λ _ s',
    (∃ mx, sc_mutexes s' !! m = Some mx ∧ implements mx (fl_lock t a)) ∧
    sc_current s' = Some t ∧ sc_ready s' = sc_ready s ∧
    cx_of s' t = Some (match owner a with None => k | Some _ => PBlock :: k end)).
Proof.
  intros Hc Ht (mx&Hm&Himp&Hq). pose proof (lookup_lt_Some _ _ _ Hm) as Hlt.
  unfold mutex_lock, mutex_spin_lock, mutex_blocking_lock. wp_steps. eapply wp_unwrap; [exact Hm|]. cbn beta. rewrite Himp.
  destruct a as [[u|] q]; simpl in *.
  - wp_steps. rewrite Hc. unfold set_mutex, continue_with, current_task, on_task. wp_steps.
    eapply wp_unwrap; [exact Hc|]. wp_steps. split; [|split; [done|split; [done|]]].
    + eexists. simpl. rewrite list_lookup_insert_eq by done. done.
    + unfold cx_of. by apply cx_of_alter.
  - rewrite (Hq eq_refl) in *. unfold set_mutex, continue_with, current_task, on_task. wp_steps.
    eapply wp_unwrap; [exact Hc|]. wp_steps. split; [|split; [done|split; [done|]]].
    + eexists. simpl. rewrite list_lookup_insert_eq by done. done.
    + unfold cx_of. by apply cx_of_alter.
Qed.

Lemma mutex_unlock_wp s t m a k :
  sc_current s = Some t → is_Some (sc_tasks s !! t) → owner a ≠ None → t ∉ waiting a →
  (∀ w, w ∈ waiting a → is_Some (sc_tasks s !! w)) →
  (∃ mx, sc_mutexes s !! m = Some mx ∧ implements mx a) →
  wp (mutex_unlock m k) s (λ _ s',
    (∃ mx, sc_mutexes s' !! m = Some mx ∧ implements mx (fl_unlock a)) ∧
    sc_current s' = Some t ∧ cx_of s' t = Some k ∧
    match owner (fl_unlock a) with
    | Some w => sc_ready s' = sc_ready s ++ [w] ∧ status_of s' w = Some Ready
    | None => sc_ready s' = sc_ready s
    end).
Proof.
  intros Hc Ht Ho Hnt Hw (mx&Hm&Himp&_). pose proof (lookup_lt_Some _ _ _ Hm) as Hlt.
  unfold mutex_unlock, mutex_spin_unlock, mutex_blocking_unlock. wp_steps. eapply wp_unwrap; [exact Hm|]. cbn beta. rewrite Himp.
  destruct a as [[u|] q]; [|done]. simpl in *. wp_steps. destruct q as [|w q].
  - unfold set_mutex, continue_with, current_task, on_task. wp_steps.
    eapply wp_unwrap; [exact Hc|]. wp_steps. split; [|split; [done|split; [by apply cx_of_alter|done]]].
    eexists. simpl. rewrite list_lookup_insert_eq by done. done.
  - unfold set_mutex, continue_with, wakeup_task, current_task, on_task, add_task. wp_steps.
    eapply wp_unwrap; [exact Hc|]. wp_steps. assert (w ≠ t) by set_solver.
    destruct (Hw w ltac:(set_solver)) as [wcb Hwcb].
    split; [|split; [done|split; [|split; [done|]]]].
    + eexists. simpl. rewrite list_lookup_insert_eq by done. done.
    + unfold cx_of. simpl. destruct Ht as [x Hx]. by rewrite lookup_alter_eq, lookup_alter_ne, Hx by done.
    + unfold status_of. simpl. by rewrite lookup_alter_ne, lookup_alter_eq, Hwcb by done.
Qed.

(** C14: The blocking mutex implements a fair lock.  [lock] returns at once
    exactly when the lock is free; otherwise the task queues up and blocks.
    [unlock] by the owner never panics: it passes the lock to the task that
    waited longest, which becomes ready, or frees it when nobody waits.  So the
    lock has one owner at a time and is free only when nobody waits. *)
Theorem mutex_implements_fair_lock s t m a k :
  sc_current s = Some t → is_Some (sc_tasks s !! t) →
  (∃ mx, sc_mutexes s !! m = Some mx ∧ implements mx a) →
  (∃ s', mutex_lock m k s = Done ((), s') ∧
     (∃ mx, sc_mutexes s' !! m = Some mx ∧ implements mx (fl_lock t a)) ∧
     cx_of s' t = Some (match owner a with None => k | Some _ => PBlock :: k end)) ∧
  (owner a = Some t → t ∉ waiting a → (∀ w, w ∈ waiting a → is_Some (sc_tasks s !! w)) →
   ∃ s', mutex_unlock m k s = Done ((), s') ∧
     (∃ mx, sc_mutexes s' !! m = Some mx ∧ implements mx (fl_unlock a)) ∧ cx_of s' t = Some k ∧
     match owner (fl_unlock a) with
     | Some w => sc_ready s' = sc_ready s ++ [w] ∧ status_of s' w = Some Ready
     | None => sc_ready s' = sc_ready s
     end).
Proof.
  intros Hc Ht Hm. split.
  - destruct (proj1 (wp_done _ _ _) (mutex_lock_wp s t m a k Hc Ht Hm)) as ([]&s'&Hs&H1&_&_&H2). by exists s'.
  - intros Ho Hnt Hw. assert (Ho' : owner a ≠ None) by congruence.
    destruct (proj1 (wp_done _ _ _) (mutex_unlock_wp s t m a k Hc Ht Ho' Hnt Hw Hm)) as ([]&s'&Hs&H1&_&H2&H3).
    by exists s'.
Qed.
End sync.

Section semaphores.
Context {H : Type} `{!BinaryHeap H}.
Notation S := (Sched H).
Implicit Types s : S.

(** The documented invariant: the queue is as long as the count is negative. *)
Definition sem_ok (x : Semaphore) : Prop := Z.of_nat (length (sem_queue x)) = Z.max 0 (- sem_count x).

Lemma isize_add_small a b : - 2 ^ 63 <= a + b < 2 ^ 63 → isize_add a b = a + b.
Proof.
  intros Hr. unfold isize_add, as_isize, wrap64. rewrite Z.mod_mod by lia.
  destruct (Z.ltb_spec ((a + b) mod 2 ^ 64) (2 ^ 63)); Z.div_mod_to_equations; lia.
Qed.

Lemma down_wp s t i x k :
  sc_current s = Some t → is_Some (sc_tasks s !! t) → sc_sems s !! i = Some x → sem_ok x → - 2 ^ 63 < sem_count x < 2 ^ 63 →
  wp (semaphore_down i k) s (λ _ s', ∃ x', sc_sems s' !! i = Some x' ∧ sem_ok x' ∧
    sem_count x' = sem_count x - 1 ∧ sc_ready s' = sc_ready s ∧
    sem_queue x' = sem_queue x ++ (if 0 <? sem_count x then [] else [t]) ∧
    cx_of s' t = Some (if 0 <? sem_count x then k else PBlock :: k)).
Proof.
  intros Hc Ht Hi Hok Hb. pose proof (lookup_lt_Some _ _ _ Hi) as Hlt. unfold semaphore_down. wp_steps.
  eapply wp_unwrap; [exact Hi|]. cbv zeta. rewrite isize_add_small by lia. unfold sem_ok in Hok.
  destruct (Z.ltb_spec (sem_count x + -1) 0), (Z.ltb_spec 0 (sem_count x)); try lia;
    rewrite ?Hc; unfold set_sem, continue_with, current_task, on_task; wp_steps;
    (eapply wp_unwrap; [exact Hc|]); wp_steps; eexists; simpl; (rewrite list_lookup_insert_eq by done);
    (split; [done|]); unfold sem_ok, cx_of; simpl; rewrite ?length_app, ?app_nil_r; simpl;
    (split; [lia|]); (split; [lia|]); (split; [done|]); (split; [done|]); by apply cx_of_alter.
Qed.

Lemma up_wp s t i x k :
  sc_current s = Some t → is_Some (sc_tasks s !! t) → sc_sems s !! i = Some x → sem_ok x → - 2 ^ 63 <= sem_count x < 2 ^ 63 - 1 →
  t ∉ sem_queue x → (∀ w, w ∈ sem_queue x → is_Some (sc_tasks s !! w)) →
  wp (semaphore_up i k) s (λ _ s', ∃ x', sc_sems s' !! i = Some x' ∧ sem_ok x' ∧
    sem_count x' = sem_count x + 1 ∧ sem_queue x' = tail (sem_queue x) ∧ cx_of s' t = Some k ∧
    match sem_queue x with
    | w :: _ => sc_ready s' = sc_ready s ++ [w] ∧ status_of s' w = Some Ready
    | [] => sc_ready s' = sc_ready s
    end).
Proof.
  intros Hc Ht Hi Hok Hb Hnt Hw. pose proof (lookup_lt_Some _ _ _ Hi) as Hlt. unfold semaphore_up. wp_steps.
  eapply wp_unwrap; [exact Hi|]. cbv zeta. rewrite isize_add_small by lia. unfold sem_ok in Hok.
  destruct x as [c q]; cbn [sem_count sem_queue] in *. destruct (Z.leb_spec (c + 1) 0); destruct q as [|w q]; simpl in Hok; try lia.
  - wp_steps. unfold set_sem, wakeup_task, continue_with, current_task, on_task, add_task. wp_steps.
    eapply wp_unwrap; [exact Hc|]. wp_steps. eexists; simpl. rewrite list_lookup_insert_eq by done.
    assert (w ≠ t) by set_solver. destruct (Hw w ltac:(set_solver)) as [wcb Hwcb]. destruct Ht as [x Hx].
    split; [done|]. unfold sem_ok, cx_of, status_of. simpl. split; [lia|]. split; [lia|]. split; [done|].
    split; [by rewrite lookup_alter_eq, lookup_alter_ne, Hx by done|]. split; [done|].
    by rewrite lookup_alter_ne, lookup_alter_eq, Hwcb by done.
  - wp_steps. unfold set_sem, continue_with, current_task, on_task. wp_steps.
    eapply wp_unwrap; [exact Hc|]. wp_steps. eexists; simpl. rewrite list_lookup_insert_eq by done.
    split; [done|]. unfold sem_ok, cx_of. simpl. split; [lia|]. split; [lia|]. split; [done|].
    split; [by apply cx_of_alter|done].
Qed.

(** The semaphore keeps its documented invariant, and its operations have
    their meaning: [down] takes one unit and blocks the caller exactly when
    none was left; [up] gives one unit and wakes the task that waited longest,
    if any.  (The count stays within [isize].) *)
Theorem semaphore_correct s t i x k :
  sc_current s = Some t → is_Some (sc_tasks s !! t) → sc_sems s !! i = Some x → sem_ok x →
  - 2 ^ 63 < sem_count x < 2 ^ 63 - 1 → t ∉ sem_queue x → (∀ w, w ∈ sem_queue x → is_Some (sc_tasks s !! w)) →
  (∃ s' x', semaphore_down i k s = Done ((), s') ∧ sc_sems s' !! i = Some x' ∧ sem_ok x' ∧
     sem_count x' = sem_count x - 1 ∧ sem_queue x' = sem_queue x ++ (if 0 <? sem_count x then [] else [t]) ∧
     cx_of s' t = Some (if 0 <? sem_count x then k else PBlock :: k)) ∧
  (∃ s' x', semaphore_up i k s = Done ((), s') ∧ sc_sems s' !! i = Some x' ∧ sem_ok x' ∧
     sem_count x' = sem_count x + 1 ∧ sem_queue x' = tail (sem_queue x) ∧ cx_of s' t = Some k ∧
     match sem_queue x with
     | w :: _ => sc_ready s' = sc_ready s ++ [w] ∧ status_of s' w = Some Ready
     | [] => sc_ready s' = sc_ready s
     end).
Proof.
  intros Hc Ht Hi Hok Hb Hnt Hw. split.
  - destruct (proj1 (wp_done _ _ _) (down_wp s t i x k Hc Ht Hi Hok ltac:(lia))) as ([]&s'&Hs&x'&H1&H2&H3&_&H4&H5).
    by exists s', x'.
  - destruct (proj1 (wp_done _ _ _) (up_wp s t i x k Hc Ht Hi Hok ltac:(lia) Hnt Hw)) as ([]&s'&Hs&x'&H1).
    by exists s', x'.
Qed.
End semaphores.

(** ** Timers *)

Section timers.
Context {H : Type} `{!BinaryHeap H}.
Notation S := (Sched H).
Implicit Types s : S.

Definition sane (x : TimerCondVar) : Prop := 0 <= expire_ms x < 2 ^ 63.
Definition earlier (x y : TimerCondVar) : Prop := expire_ms x <= expire_ms y.

Lemma sane_key x : sane x → timer_key x = - expire_ms x.
Proof.
  intros Hx. unfold sane in Hx. unfold timer_key. assert (Ha : as_isize (expire_ms x) = expire_ms x).
  { unfold as_isize, wrap64. rewrite Z.mod_small by lia. by rewrite (proj2 (Z.ltb_lt _ _)) by lia. }
  rewrite Ha. apply as_isize_small. lia.
Qed.

Lemma peek_earliest h x y :
  (∀ z, z ∈ heap_elems h → sane z) → heap_peek h = Some x → y ∈ heap_elems h → earlier x y.
Proof.
  intros Hs Hp Hy. destruct (heap_peek_some h x Hp) as [Hperm Hmax]. specialize (Hmax y Hy).
  assert (Hx : x ∈ heap_elems h) by (rewrite Hperm; by left).
  unfold timer_cmp in Hmax. rewrite !sane_key in Hmax by auto. unfold earlier.
  destruct (Z.compare_spec (- expire_ms y) (- expire_ms x)); lia || done.
Qed.

(** The timers that [check_timer] takes out of the heap, in order. *)
Definition wakes (s s' : S) (now : Z) (woken : list TimerCondVar) : Prop :=
  heap_elems (sc_timers s) ≡ₚ woken ++ heap_elems (sc_timers s') ∧
  (∀ x, x ∈ woken → expire_ms x <= now) ∧ (∀ x, x ∈ heap_elems (sc_timers s') → now < expire_ms x) ∧
  StronglySorted earlier woken ∧
  sc_ready s' = sc_ready s ++ (timer_task <$> woken) ∧ sc_current s' = sc_current s ∧
  ∀ t, status_of s' t = if decide (t ∈ timer_task <$> woken) then option_map (λ _, Ready) (sc_tasks s !! t) else status_of s t.

Lemma wakes_cons s s' now x woken :
  let s1 := set_timers (heap_pop (sc_timers s)) (set_ready (sc_ready s ++ [timer_task x])
              (on_tasks (alter (with_status Ready) (timer_task x)) s)) in
  (∀ z, z ∈ heap_elems (sc_timers s) → sane z) → heap_peek (sc_timers s) = Some x → expire_ms x <= now →
  wakes s1 s' now woken → wakes s s' now (x :: woken).
Proof.
  intros s1 Hs Hp Hx (H1&H2&H3&H4&H5&H6&H7). destruct (heap_peek_some _ _ Hp) as [Hperm _]. simpl in *.
  split; [by rewrite Hperm, H1|]. split; [intros y [->|Hy]%elem_of_cons; auto|]. split; [done|].
  split; [|split; [|split; [done|]]].
  - constructor; [done|]. rewrite Forall_forall. intros y Hy. eapply peek_earliest; [done|done|].
    rewrite Hperm, H1. set_solver.
  - by rewrite H5, <- app_assoc.
  - intros t. rewrite H7. unfold status_of. simpl. destruct (decide (t = timer_task x)) as [->|Hn].
    + rewrite lookup_alter_eq. rewrite (decide_True (P := timer_task x ∈ timer_task x :: _)) by set_solver.
      case_decide; by destruct (sc_tasks s !! _).
    + rewrite lookup_alter_ne by done.
      destruct (decide (t ∈ timer_task <$> woken)); [rewrite decide_True by set_solver|rewrite decide_False by set_solver]; done.
Qed.

Lemma check_loop_wp fuel now : ∀ s,
  (length (heap_elems (sc_timers s)) < fuel)%nat → (∀ z, z ∈ heap_elems (sc_timers s) → sane z) →
  wp (check_timer_loop fuel now) s (λ _ s', ∃ woken, wakes s s' now woken).
Proof.
  induction fuel as [|fuel IH]; intros s Hf Hs; [lia|]. simpl. wp_steps.
  destruct (heap_peek (sc_timers s)) as [x|] eqn:Hp.
  - pose proof (heap_peek_some _ _ Hp) as [Hperm _]. destruct (Z.leb_spec (expire_ms x) now) as [Hx|Hx].
    + unfold wakeup_task, on_task, add_task. wp_steps. eapply wp_mono; [apply IH|].
      * simpl. apply Permutation_length in Hperm. simpl in Hperm. lia.
      * simpl. intros z Hz. apply Hs. rewrite Hperm. by right.
      * intros [] s' [woken Hw]. exists (x :: woken). by apply wakes_cons.
    + wp_steps. exists []. split; [done|]. split; [set_solver|]. split; [|split; [constructor|]].
      * intros y Hy. pose proof (peek_earliest _ x y Hs Hp Hy). unfold earlier in *. lia.
      * split; [by rewrite app_nil_r|done].
  - wp_steps. exists []. split; [done|]. split; [set_solver|]. rewrite (heap_peek_none _ Hp).
    split; [set_solver|]. split; [constructor|]. split; [by rewrite app_nil_r|done].
Qed.

(** [check_timer] terminates and wakes exactly the tasks whose time has
    come, the earliest first: they become Ready and join the ready queue in
    that order, the other timers stay, and no other task changes its status
    (for timers that expire before [2^63] ms). *)
Theorem check_timer_correct s :
  (∀ x, x ∈ heap_elems (sc_timers s) → 0 <= expire_ms x < 2 ^ 63) →
  ∃ s' woken, check_timer s = Done ((), s') ∧ wakes s s' (get_time_ms (sc_time s)) woken.
Proof.
  intros Hs. unfold check_timer, mbind, K_bind, kget.
  destruct (proj1 (wp_done _ _ _) (check_loop_wp (Datatypes.S (length (heap_elems (sc_timers s)))) (get_time_ms (sc_time s))
    s ltac:(lia) Hs)) as ([]&s'&Hc&woken&Hw). by exists s', woken.
Qed.

(** A timer beyond [2^63] ms (a sleep of 300 million years, which any
    program can ask for) compares as the first to expire: while it is in the
    heap, [check_timer] wakes nobody, however overdue the other timers are. *)
Theorem huge_timer_starves s x :
  x ∈ heap_elems (sc_timers s) → 2 ^ 63 < expire_ms x < 2 ^ 64 →
  (∀ y, y ∈ heap_elems (sc_timers s) → y = x ∨ 0 <= expire_ms y < 2 ^ 63) → get_time_ms (sc_time s) < 2 ^ 63 →
  check_timer s = Done ((), s).
Proof.
  intros Hx Hbig Hoth Hnow. unfold check_timer, mbind, K_bind, kget. simpl. unfold mbind, K_bind, kget, mret, K_ret.
  assert (Hkx : 0 < timer_key x).
  { assert (Ha : as_isize (expire_ms x) = expire_ms x - 2 ^ 64).
    { unfold as_isize, wrap64. rewrite Z.mod_small by lia. by rewrite (proj2 (Z.ltb_ge _ _)) by lia. }
    unfold timer_key. rewrite Ha, as_isize_small by lia. lia. }
  destruct (heap_peek (sc_timers s)) as [y|] eqn:Hp; [|done].
  assert (y = x) as ->.
  { destruct (heap_peek_some _ _ Hp) as [Hperm Hmax]. specialize (Hmax x Hx).
    destruct (Hoth y) as [|Hy]; [rewrite Hperm; by left|done|].
    unfold timer_cmp in Hmax. rewrite (sane_key y Hy) in Hmax. destruct (Z.compare_spec (timer_key x) (- expire_ms y)); lia || done. }
  rewrite (proj2 (Z.leb_gt _ _)) by lia. done.
Qed.
End timers.

(** ** A heap, and executions on it *)

#[global] Instance TimerCondVar_eq_dec : EqDecision TimerCondVar.
Proof. solve_decision. Defined.

(** A greatest element of a list. *)
Fixpoint list_peek (l : list TimerCondVar) : option TimerCondVar :=
  match l with
  | [] => None
  | x :: l' => match list_peek l' with
               | Some y => Some (match timer_cmp y x with Gt => y | _ => x end)
               | None => Some x
               end
  end.

Fixpoint remove_first (x : TimerCondVar) (l : list TimerCondVar) : list TimerCondVar :=
  match l with
  | [] => []
  | y :: l' => if decide (y = x) then l' else y :: remove_first x l'
  end.

Definition list_pop (l : list TimerCondVar) : list TimerCondVar :=
  match list_peek l with Some x => remove_first x l | None => [] end.

Lemma list_peek_elem l x : list_peek l = Some x → x ∈ l ∧ ∀ y, y ∈ l → timer_key y <= timer_key x.
Proof.
  revert x. induction l as [|a l IH]; intros x Hx; [done|]. simpl in Hx.
  destruct (list_peek l) as [b|] eqn:E.
  - destruct (IH b eq_refl) as [Hb Hmax]. unfold timer_cmp in Hx.
    destruct (Z.compare_spec (timer_key b) (timer_key a)); injection Hx as <-;
      (split; [by constructor|]); intros y [->|Hy]%elem_of_cons; try lia; specialize (Hmax y Hy); lia.
  - injection Hx as <-. destruct l as [|c l]; [|simpl in E; by destruct (list_peek l)]. split; [by left|].
    intros y Hy%list_elem_of_singleton. subst. lia.
Qed.

Lemma remove_first_perm x l : x ∈ l → l ≡ₚ x :: remove_first x l.
Proof.
  induction l as [|a l IH]; intros Hx; [by apply not_elem_of_nil in Hx|]. simpl. case_decide as Ha; [by subst|].
  apply elem_of_cons in Hx as [->|Hx]; [done|]. rewrite (IH Hx) at 1. constructor.
Qed.

#[export, refine] Instance list_heap : BinaryHeap (list TimerCondVar) := {
  heap_elems := id;
  heap_new := [];
  heap_push := cons;
  heap_peek := list_peek;
  heap_pop := list_pop;
}.
Proof.
  - done.
  - done.
  - intros [|x l]; simpl; [done|]. by destruct (list_peek l).
  - intros l x Hx. destruct (list_peek_elem l x Hx) as [Hin Hmax]. unfold list_pop. rewrite Hx.
    split; [by apply remove_first_perm|]. intros y Hy Hgt. apply Z.compare_gt_iff in Hgt. specialize (Hmax y Hy). lia.
Defined.

Notation S := (Sched (list TimerCondVar)).

(** Scripts of transitions. *)
Inductive Action :=
| ARun | APiece | ASys (c : Syscall) | AExit (code : Z) | ASpawn (t pid : Z) | ATrap | AIntr | ATick (n : Z).

Definition ok {A} (o : outcome (A * S)) : option S := match o with Done (_, s) => Some s | Panic => None end.

(** The current task with its continuation. *)
Definition current_cx (s : S) : option (list Piece) := t ← sc_current s; option_map task_cx (sc_tasks s !! t).

Definition act (a : Action) (s : S) : option S :=
  match a with
  | ARun => match sc_current s with None => match run_tasks_turn s with Done (Some _, s') => Some s' | _ => None end | Some _ => None end
  | APiece => match current_cx s with Some (p :: k) => ok (exec_piece p k s) | _ => None end
  | ASys c => match current_cx s with
              | Some [] => match start_syscall c s with Done (l, s1) => ok (continue_with l s1) | Panic => None end
              | _ => None end
  | AExit code => match current_cx s with Some [] => ok (exit_task code s) | _ => None end
  | ASpawn t pid => match sc_tasks s !! t with
                    | None => ok (add_task t (on_tasks (<[t := mkTask Ready [] pid None 0]>) s))
                    | Some _ => None end
  | ATrap => match current_cx s with Some [] => ok (timer_trap s) | _ => None end
  | AIntr => ok (check_timer s)
  | ATick n => if 0 <=? n then Some (set_time (sc_time s + n) s) else None
  end.

Fixpoint play (l : list Action) (s : S) : option S :=
  match l with [] => Some s | a :: l' => s1 ← act a s; play l' s1 end.

Lemma current_cx_Some s cx : current_cx s = Some cx →
  ∃ t tcb, sc_current s = Some t ∧ sc_tasks s !! t = Some tcb ∧ task_cx tcb = cx.
Proof.
  unfold current_cx. destruct (sc_current s) as [t|]; simpl; [|done].
  destruct (sc_tasks s !! t) as [tcb|] eqn:E; simpl; [|done]. intros [= <-]. by exists t, tcb.
Qed.

Lemma ok_Some (o : outcome (unit * S)) s : ok o = Some s → o = Done ((), s).
Proof. destruct o as [[[] s']|]; simpl; congruence. Qed.

Lemma act_sound a s s' : act a s = Some s' → kstep s s'.
Proof.
  destruct a; simpl; intros Ha.
  - destruct (sc_current s) eqn:Hc; [done|]. destruct (run_tasks_turn s) as [[[t|] s1]|] eqn:Hr; simplify_eq.
    by apply (k_run s t).
  - destruct (current_cx s) as [[|p k]|] eqn:Hcx; try done. apply current_cx_Some in Hcx as (t&tcb&H1&H2&H3).
    apply ok_Some in Ha. by eapply k_other, k_piece.
  - destruct (current_cx s) as [[|p k]|] eqn:Hcx; try done. apply current_cx_Some in Hcx as (t&tcb&H1&H2&H3).
    destruct (start_syscall c s) as [[l s1]|] eqn:Hs; [|done]. apply ok_Some in Ha. by eapply k_other, k_syscall.
  - destruct (current_cx s) as [[|p k]|] eqn:Hcx; try done. apply current_cx_Some in Hcx as (t&tcb&H1&H2&H3).
    apply ok_Some in Ha. by eapply k_other, k_exit.
  - destruct (sc_tasks s !! t) eqn:Ht; [done|]. simplify_eq. by eapply k_other, (k_spawn s t pid).
  - destruct (current_cx s) as [[|p k]|] eqn:Hcx; try done. apply current_cx_Some in Hcx as (t&tcb&H1&H2&H3).
    apply ok_Some in Ha. by eapply k_other, k_trap.
  - apply ok_Some in Ha. by apply k_other, k_intr.
  - destruct (Z.leb_spec 0 n); simplify_eq. apply k_other, k_tick. lia.
Qed.

Lemma play_sound l s s' : play l s = Some s' → reaches s s'.
Proof.
  revert s. induction l as [|a l IH]; simpl; intros s Hp; [simplify_eq; apply rtc_refl|].
  destruct (act a s) as [s1|] eqn:Ha; [|done]. eapply rtc_l; [by apply (act_sound a)|]. by apply IH.
Qed.

(** ** Instances of the theorems *)

(** Two tasks of process 1, a blocking mutex that task 1 holds and task 2 wants. *)
Definition procs1 : gmap Z SyncLists := {[ 1 := mkLists [] [] [] 0 ]}.
Definition script1 : list Action :=
  [ASpawn 1 1; ASpawn 2 1; ARun; ASys (SMutexCreate true); APiece; ASys (SMutexLock 0); APiece; APiece; ATrap;
   ARun; ASys (SMutexLock 0); APiece].

(** The state a script leads to. *)
Definition after (l : list Action) : S := default (boot procs1) (play l (boot procs1)).

Lemma after_reached l : bool_decide (is_Some (play l (boot procs1))) = true → reaches (boot procs1) (after l).
Proof.
  intros [s Hs]%bool_decide_eq_true. unfold after. rewrite Hs. by apply (play_sound l).
Qed.

Lemma no_task_lost_witness :
  let s := after script1 in
  (∀ t, tokens s t = if live s t then 1%nat else 0%nat) ∧
  (∀ t, sc_current s = Some t → live s t = true) ∧
  (∀ t tcb, sc_tasks s !! t = Some tcb → t_exit_code tcb = None → task_status tcb = Running → sc_current s = Some t) ∧
  (∀ t tcb, sc_tasks s !! t = Some tcb → (0 < waits s t)%nat → sc_current s ≠ Some t → task_status tcb = Blocked).
Proof. apply (no_task_lost procs1 (after script1)), after_reached. vm_compute. reflexivity. Defined.

Lemma ready_queue_fifo_witness :
  ∃ l, [1] ++ sc_ready (after [ASpawn 1 1; ASpawn 2 1; ARun]) = sc_ready (after [ASpawn 1 1; ASpawn 2 1]) ++ l.
Proof.
  apply (ready_queue_fifo (after [ASpawn 1 1; ASpawn 2 1]) (after [ASpawn 1 1; ASpawn 2 1; ARun]) [1]).
  eapply trace_run; [split; vm_compute; reflexivity|apply trace_nil].
Defined.

Lemma mutex_implements_fair_lock_witness :
  let s := after [ASpawn 1 1; ASpawn 2 1; ARun; ASys (SMutexCreate true); APiece] in
  (∃ s', mutex_lock 0 [PReturn 0] s = Done ((), s') ∧
     (∃ mx, sc_mutexes s' !! 0%nat = Some mx ∧ implements mx (fl_lock 1 (mkFL None []))) ∧
     cx_of s' 1 = Some [PReturn 0]) ∧
  (owner (mkFL None []) = Some 1 → 1 ∉ waiting (mkFL None []) →
   (∀ w, w ∈ waiting (mkFL None []) → is_Some (sc_tasks s !! w)) →
   ∃ s', mutex_unlock 0 [PReturn 0] s = Done ((), s') ∧
     (∃ mx, sc_mutexes s' !! 0%nat = Some mx ∧ implements mx (fl_unlock (mkFL None []))) ∧ cx_of s' 1 = Some [PReturn 0] ∧
     sc_ready s' = sc_ready s).
Proof.
  apply (mutex_implements_fair_lock (after [ASpawn 1 1; ASpawn 2 1; ARun; ASys (SMutexCreate true); APiece]) 1 0 (mkFL None []) [PReturn 0]).
  - vm_compute. reflexivity.
  - vm_compute. eexists. reflexivity.
  - exists (MutexBlocking false []). split; [vm_compute; reflexivity|done].
Defined.

Lemma semaphore_correct_witness :
  let s := after [ASpawn 1 1; ARun; ASys (SSemCreate 1); APiece] in
  (∃ s' x', semaphore_down 0 [] s = Done ((), s') ∧ sc_sems s' !! 0%nat = Some x' ∧ sem_ok x' ∧
     sem_count x' = 1 - 1 ∧ sem_queue x' = [] ++ [] ∧ cx_of s' 1 = Some []) ∧
  (∃ s' x', semaphore_up 0 [] s = Done ((), s') ∧ sc_sems s' !! 0%nat = Some x' ∧ sem_ok x' ∧
     sem_count x' = 1 + 1 ∧ sem_queue x' = [] ∧ cx_of s' 1 = Some [] ∧ sc_ready s' = sc_ready s).
Proof.
  apply (semaphore_correct (after [ASpawn 1 1; ARun; ASys (SSemCreate 1); APiece]) 1 0 (mkSem 1 []) []).
  - vm_compute. reflexivity.
  - vm_compute. eexists. reflexivity.
  - vm_compute. reflexivity.
  - reflexivity.
  - simpl. lia.
  - apply not_elem_of_nil.
  - intros w Hw. by apply not_elem_of_nil in Hw.
Defined.

(** Two sleepers, one of them due. *)
Definition sleepers : S :=
  after [ASpawn 1 1; ASpawn 2 1; ARun; ASys (SSleep 10); APiece; APiece; ARun; ASys (SSleep 5); APiece; APiece; ATick 87500].

Lemma check_timer_correct_witness :
  ∃ s' woken, check_timer sleepers = Done ((), s') ∧ wakes sleepers s' (get_time_ms (sc_time sleepers)) woken.
Proof.
  refine (check_timer_correct sleepers _). intros x Hx.
  assert (E : heap_elems (sc_timers sleepers) = [mkTimer 5 2; mkTimer 10 1]) by (vm_compute; reflexivity).
  rewrite E in Hx. apply elem_of_cons in Hx as [->|Hx%list_elem_of_singleton]; [|subst x]; simpl; lia.
Defined.

Lemma huge_timer_starves_witness :
  let s := set_timers [mkTimer (2 ^ 63 + 1) 1; mkTimer 5 2] sleepers in check_timer s = Done ((), s).
Proof.
  refine (huge_timer_starves (set_timers [mkTimer (2 ^ 63 + 1) 1; mkTimer 5 2] sleepers) (mkTimer (2 ^ 63 + 1) 1) _ _ _ _).
  - left.
  - cbn [expire_ms]. lia.
  - intros y [->|Hy%list_elem_of_singleton]%elem_of_cons; [by left|right; subst y; cbn [expire_ms]; lia].
  - vm_compute. reflexivity.
Defined.

(** ** What the code does not do *)

(** [sys_nanosleep] can panic the kernel: the timer is set for the
    deadline rounded down to a millisecond, so a task can be woken before its
    deadline, and then [assert!(end <= now)] fails.  Here one task sleeps for
    half a millisecond from tick 0 and an interrupt comes at once. *)
Theorem nanosleep_can_panic :
  ∃ (s : S) p k, reaches (boot procs1) s ∧ current_cx s = Some (p :: k) ∧ exec_piece p k s = Panic.
Proof.
  set (l := [ASpawn 1 1; ARun; ASys (SNanosleep (Some (mkTS 0 500000))); APiece; APiece; AIntr; ARun]).
  exists (after l), (PSleepEnd (mkTS 0 500000)), []. split; [apply after_reached; vm_compute; reflexivity|].
  split; vm_compute; reflexivity.
Qed.

(** A task can be in the ready queue with status Blocked, against the
    documented invariant of the queue: the timer interrupt between [add_timer]
    and [block_current_and_run_next] of a short sleep wakes the task before it
    blocks.  (The wake-up is not lost: the task runs again.) *)
Theorem ready_queue_holds_blocked :
  ∃ (s : S) t, reaches (boot procs1) s ∧ t ∈ sc_ready s ∧ status_of s t = Some Blocked.
Proof.
  set (l := [ASpawn 1 1; ARun; ASys (SSleep 0); APiece; AIntr; APiece]).
  exists (after l), 1. split; [apply after_reached; vm_compute; reflexivity|].
  split; [|vm_compute; reflexivity]. assert (E : sc_ready (after l) = [1]) by (vm_compute; reflexivity).
  rewrite E. left.
Qed.

(** [sys_kill] finds only the current task and tasks in the ready queue: a
    signal to a process whose tasks all sleep or wait is refused with -1 and
    has no effect, so the branch that would wake a blocked target is dead. *)
Theorem kill_misses_sleepers {H} `{!BinaryHeap H} (s : Sched H) t tcb pid sig :
  sc_current s = Some t → sc_tasks s !! t = Some tcb → t_pid tcb ≠ pid → 0 < pid → 0 <= sig <= 64 →
  (∀ u ucb, u ∈ sc_ready s → sc_tasks s !! u = Some ucb → t_pid ucb ≠ pid) →
  sys_kill pid sig s = Done (-1, s).
Proof.
  intros Hc Ht Hne Hpid Hsig Hq. unfold sys_kill.
  assert (Hf : is_Some (from_signum sig)).
  { unfold from_signum. destruct (Z.eqb_spec sig 0); [by eexists|].
    rewrite !(proj2 (Z.leb_le _ _)) by lia. simpl. by eexists. }
  destruct Hf as [f ->]. rewrite (proj2 (Z.ltb_lt 0 pid)) by done.
  unfold find_task_by_pid, current_task, mbind, K_bind, kget, mret, K_ret. rewrite Hc. simpl.
  unfold mret, K_ret. rewrite Ht. simpl. unfold mret, K_ret. rewrite (proj2 (Z.eqb_neq _ _)) by done.
  unfold find_by_pid. rewrite (proj2 (list_find_None _ _)); [done|]. rewrite Forall_forall. intros u Hu Heq.
  destruct (sc_tasks s !! u) as [ucb|] eqn:Eu; simplify_eq/=. by apply (Hq u ucb).
Qed.

(** A task of process 2 that sleeps, and one of process 1 that runs. *)
Definition dozing : S :=
  set_procs (<[2 := mkLists [] [] [] 0]> procs1)
    (after [ASpawn 1 2; ARun; ASys (SSleep 10); APiece; APiece; ASpawn 2 1; ARun]).

Lemma kill_misses_sleepers_witness : sys_kill 2 2 dozing = Done (-1, dozing).
Proof.
  refine (kill_misses_sleepers dozing 2 (mkTask Running [] 1 None 0) 2 2 _ _ _ _ _ _); try lia.
  - vm_compute. reflexivity.
  - vm_compute. reflexivity.
  - cbn [t_pid]. lia.
  - assert (E : sc_ready dozing = []) by (vm_compute; reflexivity). rewrite E.
    intros u ucb Hu. by apply not_elem_of_nil in Hu.
Defined.
