(* ===== verification/Path.v ===== *)
(** * Paths ([resolve_path] of [os/src/fs/inode.rs])

    A path is a string of bytes.  [resolve_path] turns a path and a base
    directory into a normal absolute path. *)

From S2P Require Import Prelude.

Notation str := (list Z).

Definition SLASH : Z := 47.
Definition DOT : Z := 46.

(** [str::split("/")]: at least one component. *)
Fixpoint split_slash (s : str) : list str :=
  match s with
  | [] => [[]]
  | c :: s' =>
      if c =? SLASH then [] :: split_slash s'
      else match split_slash s' with
           | w :: ws => (c :: w) :: ws
           | [] => [[c]]
           end
  end.

(** [stack.join("/")] *)
Fixpoint join_slash (ws : list str) : str :=
  match ws with
  | [] => []
  | [w] => w
  | w :: ws' => w ++ SLASH :: join_slash ws'
  end.

Definition starts_with_slash (s : str) : bool := match s with c :: _ => c =? SLASH | [] => false end.

(** One component on the stack, whose top is the end of the list. *)
Definition push_component (stack : list str) (component : str) : list str :=
  if bool_decide (component = []) || bool_decide (component = [DOT]) then stack
  else if bool_decide (component = [DOT; DOT]) then
    (if negb (bool_decide (stack = [])) then removelast stack else stack)
  else stack ++ [component].

Definition walk (stack : list str) (s : str) : list str := fold_left push_component (split_slash s) stack.

Definition resolve_path (relative base : str) : str :=
  let is_absolute := starts_with_slash relative in
  let stack := if negb is_absolute then walk [] base else [] in
  let stack := walk stack relative in
  SLASH :: join_slash stack.

(** [full_path.strip_prefix("/").unwrap_or(&full_path)] *)
Definition path_in_fs (full_path : str) : str := match full_path with c :: p => if c =? SLASH then p else full_path | [] => [] end.

(** [rsplit_once('/')] *)
Definition rsplit_once_slash (s : str) : option (str * str) :=
  match rev (split_slash s) with
  | w :: (_ :: _) as ws => Some (join_slash (rev (tail ws)), w)
  | _ => None
  end.

(** ** Normal paths *)

(** A name that can stand in a directory. *)
Definition name_ok (w : str) : Prop := w ≠ [] ∧ w ≠ [DOT] ∧ w ≠ [DOT; DOT] ∧ SLASH ∉ w.

(** The path of the directory reached through the names [ws]. *)
Definition abs_path (ws : list str) : str := SLASH :: join_slash ws.

Lemma split_cons c s : c ≠ SLASH → ∃ w ws, split_slash s = w :: ws ∧ split_slash (c :: s) = (c :: w) :: ws.
Proof.
  intros Hc. simpl. rewrite (proj2 (Z.eqb_neq _ _)) by done. destruct (split_slash s) as [|w ws] eqn:E; [|eauto].
  exfalso. destruct s as [|d s]; [done|]. simpl in E. destruct (d =? SLASH); [done|]. by destruct (split_slash s).
Qed.

Lemma split_no_slash w : SLASH ∉ w → split_slash w = [w].
Proof.
  induction w as [|c w IH]; intros Hw; [done|]. apply not_elem_of_cons in Hw as [Hc Hw].
  destruct (split_cons c w (not_eq_sym Hc)) as (w'&ws&H1&->). rewrite IH in H1 by done. by injection H1 as <- <-.
Qed.

Lemma split_app_slash w s : SLASH ∉ w → split_slash (w ++ SLASH :: s) = w :: split_slash s.
Proof.
  induction w as [|c w IH]; intros Hw; [done|]. apply not_elem_of_cons in Hw as [Hc Hw]. cbn [app].
  destruct (split_cons c (w ++ SLASH :: s) (not_eq_sym Hc)) as (w'&ws&H1&->). rewrite IH in H1 by done.
  by injection H1 as <- <-.
Qed.

(** Components hold no separator. *)
Lemma split_elem s w : w ∈ split_slash s → SLASH ∉ w.
Proof.
  revert w. induction s as [|c s IH]; intros w Hw.
  - apply list_elem_of_singleton in Hw as ->. apply not_elem_of_nil.
  - destruct (decide (c = SLASH)) as [->|Hc].
    + simpl in Hw. apply elem_of_cons in Hw as [->|Hw]; [apply not_elem_of_nil|by apply IH].
    + destruct (split_cons c s Hc) as (w'&ws&H1&H2). rewrite H2 in Hw. rewrite H1 in IH.
      apply elem_of_cons in Hw as [->|Hw]; [|apply IH; by right].
      apply not_elem_of_cons. split; [done|]. apply IH. by left.
Qed.

Lemma split_join ws : ws ≠ [] → (∀ w, w ∈ ws → SLASH ∉ w) → split_slash (join_slash ws) = ws.
Proof.
  induction ws as [|w ws IH]; intros Hne Hws; [done|]. destruct ws as [|w' ws].
  - simpl. apply split_no_slash, Hws. by left.
  - change (join_slash (w :: w' :: ws)) with (w ++ SLASH :: join_slash (w' :: ws)).
    rewrite split_app_slash by (apply Hws; by left). f_equal. apply IH; [done|]. intros x Hx. apply Hws. by right.
Qed.

Lemma push_name stack w : name_ok w → push_component stack w = stack ++ [w].
Proof.
  intros (H1&H2&H3&_). unfold push_component. rewrite !bool_decide_false by done. done.
Qed.

Lemma push_ok stack w : (∀ x, x ∈ stack → name_ok x) → SLASH ∉ w → ∀ x, x ∈ push_component stack w → name_ok x.
Proof.
  intros Hs Hw x. unfold push_component. repeat case_bool_decide; simpl; try by apply Hs.
  - intros Hx. apply Hs. rewrite (app_removelast_last [] (l := stack)) by done. set_solver.
  - rewrite elem_of_app, list_elem_of_singleton. intros [Hx| ->]; [by apply Hs|done].
Qed.

Lemma walk_ok stack s : (∀ x, x ∈ stack → name_ok x) → ∀ x, x ∈ walk stack s → name_ok x.
Proof.
  unfold walk. pose proof (split_elem s) as Hsp. revert Hsp. generalize (split_slash s) as ws. intros ws. revert stack.
  induction ws as [|w ws IH]; intros stack Hsp Hs; [done|]. simpl. apply IH.
  - intros x Hx. apply Hsp. by right.
  - apply push_ok; [done|]. apply Hsp. by left.
Qed.

(** Walking down names. *)
Lemma fold_names stack ws : (∀ w, w ∈ ws → name_ok w) → fold_left push_component ws stack = stack ++ ws.
Proof.
  revert stack. induction ws as [|w ws IH]; intros stack Hws; simpl; [by rewrite app_nil_r|].
  rewrite push_name by (apply Hws; by left). rewrite IH by (intros x Hx; apply Hws; by right). by rewrite <- app_assoc.
Qed.

Lemma walk_abs stack ws : (∀ w, w ∈ ws → name_ok w) → walk stack (abs_path ws) = stack ++ ws.
Proof.
  intros Hws. unfold walk, abs_path. destruct ws as [|w ws].
  - simpl. unfold push_component. simpl. by rewrite app_nil_r.
  - cbn [split_slash]. rewrite (proj2 (Z.eqb_eq SLASH SLASH)) by done. rewrite split_join; [|done|].
    + cbn [fold_left]. apply (fold_names stack (w :: ws) Hws).
    + intros x Hx. by apply Hws.
Qed.

Lemma split_app s s' : split_slash (s ++ SLASH :: s') = split_slash s ++ split_slash s'.
Proof.
  induction s as [|c s IH]; [done|]. cbn [app]. destruct (decide (c = SLASH)) as [->|Hc].
  - simpl. by rewrite IH.
  - destruct (split_cons c s Hc) as (w&ws&H1&H2). destruct (split_cons c (s ++ SLASH :: s') Hc) as (w'&ws'&H3&H4).
    rewrite H4, H2. rewrite IH, H1 in H3. by injection H3 as <- <-.
Qed.

Lemma walk_app stack s s' : walk stack (s ++ SLASH :: s') = walk (walk stack s) s'.
Proof. unfold walk. by rewrite split_app, fold_left_app. Qed.

(** The names that lead to the result of [resolve_path]. *)
Definition resolve_names (relative base : str) : list str :=
  walk (if negb (starts_with_slash relative) then walk [] base else []) relative.

Lemma resolve_names_ok relative base : ∀ w, w ∈ resolve_names relative base → name_ok w.
Proof.
  assert (Hnil : ∀ x : str, x ∈ @nil str → name_ok x) by (intros x Hx; by apply not_elem_of_nil in Hx).
  unfold resolve_names. apply walk_ok. destruct (negb _); [|done]. by apply walk_ok.
Qed.

(** ** Theorems *)

(** [resolve_path] always yields a normal absolute path: [/] followed by
    names that are not empty, not [.] and not [..] and hold no separator, so it
    never leaves the root.  Resolving a normal path again changes nothing. *)
Theorem resolve_path_normal (relative base : str) :
  ∃ ws, resolve_path relative base = abs_path ws ∧ (∀ w, w ∈ ws → name_ok w) ∧
    ∀ base', resolve_path (resolve_path relative base) base' = resolve_path relative base.
Proof.
  exists (resolve_names relative base). split; [done|]. split; [apply resolve_names_ok|]. intros base'.
  change (resolve_path relative base) with (abs_path (resolve_names relative base)).
  unfold resolve_path. change (starts_with_slash (abs_path _)) with true. cbn [negb].
  rewrite walk_abs by apply resolve_names_ok. done.
Qed.

(** C40: Resolving a path of two parts is the same as going to the first part
    and resolving the second from there; so [chdir(a)] followed by a use of [b]
    names the same file as [a/b]. *)
Theorem resolve_path_compose (a b base : str) :
  a ≠ [] → starts_with_slash b = false →
  resolve_path (a ++ SLASH :: b) base = resolve_path b (resolve_path a base).
Proof.
  intros Ha Hb. assert (Hs : starts_with_slash (a ++ SLASH :: b) = starts_with_slash a) by by destruct a.
  unfold resolve_path at 1 2. rewrite Hs, Hb. cbn [negb]. rewrite walk_app.
  change (resolve_path a base) with (abs_path (resolve_names a base)).
  rewrite walk_abs by apply resolve_names_ok. done.
Qed.

Lemma resolve_path_compose_witness :
  resolve_path ([46; 46; 47; 97] ++ SLASH :: [46; 46; 47; 98]) [47; 120; 47; 121] =
    resolve_path [46; 46; 47; 98] (resolve_path [46; 46; 47; 97] [47; 120; 47; 121]).
Proof. apply (resolve_path_compose [46; 46; 47; 97] [46; 46; 47; 98] [47; 120; 47; 121]); [done|reflexivity]. Defined.
