(* ===== verification/FdTable.v ===== *)
(** * File descriptors
    ([alloc_fd] of [os/src/task/process.rs], [sys_dup], [sys_dup3], [sys_close]
    of [os/src/syscall/fs.rs])

    The table of a process is a vector of slots; a slot holds a shared
    reference ([Arc<dyn File>]) or nothing.  The specification is a finite map
    from descriptors to files in which every allocation takes the smallest free
    descriptor. *)

From S2P Require Import Prelude.

Section fd.
Context {F : Type}.
Notation Table := (list (option F)).

(** ** Operations *)

(** The first free slot. *)
Definition position_none (l : Table) : option nat := option_map fst (list_find (λ o, o = None) l).

Definition alloc_fd (l : Table) : nat * Table :=
  match position_none l with
  | Some fd => (fd, l)
  | None => (length l, l ++ [None])
  end.

(** [fd_table[fd] = Some(file)] panics out of range. *)
Definition set_fd (l : Table) (fd : Z) (o : option F) : outcome Table :=
  if (0 <=? fd) && (fd <? length l) then Done (<[Z.to_nat fd := o]> l) else Panic.

(** [alloc_fd] followed by the store, as [sys_openat] and [sys_pipe2] do. *)
Definition install (l : Table) (file : F) : outcome (Z * Table) :=
  let '(fd, l1) := alloc_fd l in
  l2 ← set_fd l1 fd (Some file);
  Done (Z.of_nat fd, l2).

(** [fd_table.get(fd)] with an open file behind it. *)
Definition get_fd (l : Table) (fd : Z) : option F := if 0 <=? fd then mjoin (l !! Z.to_nat fd) else None.

Definition sys_dup (l : Table) (fd : Z) : Z * Table :=
  if Z.of_nat (length l) <=? fd then (-1, l)
  else match get_fd l fd with
       | None => (-1, l)
       | Some file =>
           let new_fd := default (length l) (position_none l) in
           let l' := if bool_decide (new_fd = length l) then l ++ [Some file] else <[new_fd := Some file]> l in
           (Z.of_nat new_fd, l')
       end.

(** [Vec::resize(n, None)] *)
Definition resize_none (l : Table) (n : Z) : Table :=
  take (Z.to_nat n) l ++ replicate (Z.to_nat n - length l) None.

Definition sys_dup3 (l : Table) (old_fd new_fd flags : Z) : outcome (Z * Table) :=
  if negb (flags =? 0) then Done (-1, l)
  else if Z.of_nat (length l) <=? old_fd then Done (-1, l)
  else match get_fd l old_fd with
       | None => Done (-1, l)
       | Some file =>
           if old_fd =? new_fd then Done (-1, l)
           else
             let l1 := if Z.of_nat (length l) <=? new_fd then resize_none l (new_fd +w 1) else l in
             l2 ← set_fd l1 new_fd None;
             l3 ← set_fd l2 new_fd (Some file);
             Done (new_fd, l3)
       end.

Definition sys_close (l : Table) (fd : Z) : Z * Table :=
  if Z.of_nat (length l) <=? fd then (-1, l)
  else match get_fd l fd with
       | None => (-1, l)
       | Some _ => (0, <[Z.to_nat fd := None]> l)
       end.

(** The copy that [sys_clone] makes. *)
Fixpoint copy_fd_table (l : Table) : Table :=
  match l with
  | [] => []
  | Some file :: l' => Some file :: copy_fd_table l'
  | None :: l' => None :: copy_fd_table l'
  end.

(** ** Specification *)

(** The map a table stands for: descriptor [n] is open on [f]. *)
Definition opened (l : Table) (n : nat) : option F := mjoin (l !! n).

(** [n] is the smallest descriptor that is not open. *)
Definition least_free (l : Table) (n : nat) : Prop := opened l n = None ∧ ∀ m, (m < n)%nat → opened l m ≠ None.

Lemma opened_insert l n o m : (n < length l)%nat → opened (<[n := o]> l) m = if decide (m = n) then o else opened l m.
Proof.
  intros Hn. unfold opened. case_decide as Hm; [subst m; by rewrite list_lookup_insert_eq|].
  by rewrite list_lookup_insert_ne by done.
Qed.

Lemma opened_app_none l k m : opened (l ++ replicate k None) m = opened l m.
Proof.
  unfold opened. destruct (decide (m < length l)%nat) as [Hm|Hm]; [by rewrite lookup_app_l|].
  rewrite lookup_app_r by lia. rewrite (lookup_ge_None_2 l m) by lia.
  destruct (replicate k None !! (m - length l)%nat) eqn:E; [|done]. apply lookup_replicate in E as [-> _]. done.
Qed.

Lemma opened_snoc l f m : opened (l ++ [Some f]) m = if decide (m = length l) then Some f else opened l m.
Proof.
  unfold opened. case_decide as Hm; [subst m; by rewrite list_lookup_middle|].
  destruct (decide (m < length l)%nat); [by rewrite lookup_app_l|].
  rewrite (lookup_ge_None_2 l m) by lia. rewrite lookup_ge_None_2; [done|]. rewrite length_app. simpl. lia.
Qed.

Lemma get_fd_opened l fd : 0 <= fd → get_fd l fd = opened l (Z.to_nat fd).
Proof. intros Hfd. unfold get_fd. by rewrite (proj2 (Z.leb_le _ _)). Qed.

Lemma least_free_spec l : least_free l (default (length l) (position_none l)) ∧
  (default (length l) (position_none l) <= length l)%nat ∧
  (position_none l = None → default (length l) (position_none l) = length l) ∧
  (∀ n, position_none l = Some n → (n < length l)%nat).
Proof.
  unfold position_none, least_free, opened. destruct (list_find _ l) as [[i o]|] eqn:E; simpl.
  - apply list_find_Some in E as (Hi&Ho&Hlt). subst o. pose proof (lookup_lt_Some _ _ _ Hi).
    split; [|split; [lia|split; [done|naive_solver]]]. split; [by rewrite Hi|]. intros m Hm.
    destruct (l !! m) as [[f|]|] eqn:Em; [done|by apply (Hlt m None)|].
    apply lookup_ge_None in Em. lia.
  - apply list_find_None in E. rewrite Forall_forall in E. split; [|split; [lia|split; [done|done]]].
    split; [by rewrite lookup_ge_None_2|]. intros m Hm. destruct (l !! m) as [[f|]|] eqn:Em; [done| |].
    + exfalso. apply (E None); [by eapply list_elem_of_lookup_2|done].
    + apply lookup_ge_None in Em. lia.
Qed.

Lemma set_fd_ok l fd o : 0 <= fd < length l → set_fd l fd o = Done (<[Z.to_nat fd := o]> l).
Proof. intros Hfd. unfold set_fd. by rewrite (proj2 (Z.leb_le _ _)), (proj2 (Z.ltb_lt _ _)) by lia. Qed.

Lemma sys_dup_ok l fd f :
  0 <= fd → opened l (Z.to_nat fd) = Some f →
  ∃ n l', sys_dup l fd = (Z.of_nat n, l') ∧ least_free l n ∧ ∀ m, opened l' m = if decide (m = n) then Some f else opened l m.
Proof.
  intros Hfd Hf. unfold sys_dup. rewrite get_fd_opened, Hf by done.
  assert (Hlt : (Z.to_nat fd < length l)%nat).
  { unfold opened in Hf. destruct (l !! Z.to_nat fd) eqn:E; [|done]. by eapply lookup_lt_Some. }
  rewrite (proj2 (Z.leb_gt _ _)) by lia.
  destruct (least_free_spec l) as (Hleast&Hle&_&_). set (n := default (length l) (position_none l)) in *.
  eexists n, _. split; [done|]. split; [done|]. intros m. case_bool_decide as Hn.
  - rewrite opened_snoc, Hn. done.
  - apply opened_insert. lia.
Qed.

Lemma sys_dup3_ok l old new f :
  0 <= old → 0 <= new < 2 ^ 64 - 1 → old ≠ new → opened l (Z.to_nat old) = Some f →
  ∃ l', sys_dup3 l old new 0 = Done (new, l') ∧
    ∀ m, opened l' m = if decide (m = Z.to_nat new) then Some f else opened l m.
Proof.
  intros Ho Hn Hne Hf. unfold sys_dup3. simpl. rewrite get_fd_opened, Hf by done.
  assert (Hlt : (Z.to_nat old < length l)%nat).
  { unfold opened in Hf. destruct (l !! Z.to_nat old) eqn:E; [|done]. by eapply lookup_lt_Some. }
  rewrite (proj2 (Z.leb_gt _ _)), (proj2 (Z.eqb_neq _ _)) by lia. cbv zeta.
  set (l1 := if _ <=? new then resize_none l (new +w 1) else l).
  assert (H1 : (Z.to_nat new < length l1)%nat ∧ ∀ m, opened l1 m = opened l m).
  { unfold l1. destruct (Z.leb_spec (length l) new); [|split; [lia|done]].
    rewrite wadd_small by lia. unfold resize_none. rewrite take_ge by lia.
    split; [rewrite length_app, length_replicate; lia|apply opened_app_none]. }
  clearbody l1. destruct H1 as [H1 H2]. rewrite set_fd_ok by lia. cbn [mbind outcome_bind].
  rewrite set_fd_ok by (rewrite length_insert; lia). cbn [mbind outcome_bind].
  eexists. split; [done|]. intros m. rewrite opened_insert by by rewrite length_insert.
  case_decide as Hm; [done|]. rewrite opened_insert by done. by rewrite decide_False, H2.
Qed.

Lemma sys_close_ok l fd f :
  0 <= fd → opened l (Z.to_nat fd) = Some f →
  ∃ l', sys_close l fd = (0, l') ∧ ∀ m, opened l' m = if decide (m = Z.to_nat fd) then None else opened l m.
Proof.
  intros Hfd Hf. unfold sys_close. rewrite get_fd_opened, Hf by done.
  assert (Hlt : (Z.to_nat fd < length l)%nat).
  { unfold opened in Hf. destruct (l !! Z.to_nat fd) eqn:E; [|done]. by eapply lookup_lt_Some. }
  rewrite (proj2 (Z.leb_gt _ _)) by lia. eexists. split; [done|]. intros m. by apply opened_insert.
Qed.

Lemma install_ok l f :
  ∃ n l', install l f = Done (Z.of_nat n, l') ∧ least_free l n ∧ ∀ m, opened l' m = if decide (m = n) then Some f else opened l m.
Proof.
  destruct (least_free_spec l) as (Hleast&Hle&Hnone&Hsome). unfold install, alloc_fd.
  destruct (position_none l) as [n|]; simpl in *.
  - specialize (Hsome n eq_refl). rewrite set_fd_ok by lia. simpl. exists n. rewrite Nat2Z.id. eexists. split; [done|]. split; [done|]. intros m. by apply opened_insert.
  - rewrite set_fd_ok by (rewrite length_app; simpl; lia). simpl. exists (length l). rewrite Nat2Z.id. eexists. split; [done|]. split; [done|]. intros m.
    rewrite opened_insert by (rewrite length_app; simpl; lia). case_decide; [done|]. apply (opened_app_none l 1).
Qed.

Lemma copy_fd_table_eq l : copy_fd_table l = l.
Proof. induction l as [|[f|] l IH]; simpl; congruence. Qed.

Lemma fd_errors l fd new :
  0 <= fd → opened l (Z.to_nat fd) = None →
  sys_dup l fd = (-1, l) ∧ sys_dup3 l fd new 0 = Done (-1, l) ∧ sys_close l fd = (-1, l).
Proof.
  intros Hfd Hf. unfold sys_dup, sys_dup3, sys_close. rewrite get_fd_opened, Hf by done. simpl.
  destruct (_ <=? fd); done.
Qed.

(** ** Theorems *)


(** On a descriptor that is not open the calls fail with -1 and change
    nothing. *)
Theorem fd_table_errors (l : Table) (fd new : Z) :
  0 <= fd → opened l (Z.to_nat fd) = None →
  sys_dup l fd = (-1, l) ∧ sys_dup3 l fd new 0 = Done (-1, l) ∧ sys_close l fd = (-1, l).
Proof. apply fd_errors. Qed.

(** [dup3] to the largest [usize] empties the whole table and then panics
    the kernel: [new_fd + 1] wraps around to zero. *)
Theorem dup3_wraps (l : Table) (fd : Z) (f : F) :
  0 <= fd < 2 ^ 64 - 1 → opened l (Z.to_nat fd) = Some f → (length l < 2 ^ 64 - 1) → sys_dup3 l fd (2 ^ 64 - 1) 0 = Panic.
Proof.
  intros Hfd Hf Hl. unfold sys_dup3. simpl negb. cbv iota. rewrite get_fd_opened, Hf by lia.
  assert (Hlt : (Z.to_nat fd < length l)%nat).
  { unfold opened in Hf. destruct (l !! Z.to_nat fd) eqn:E; [|done]. by eapply lookup_lt_Some. }
  rewrite (proj2 (Z.leb_gt (length l) fd)), (proj2 (Z.eqb_neq _ _)), (proj2 (Z.leb_le (length l) _)) by lia.
  cbv zeta. change (2 ^ 64 - 1 +w 1) with 0. unfold resize_none. simpl. done.
Qed.
End fd.


Lemma fd_table_errors_witness :
  let l := [Some 10; None] in sys_dup l 1 = (-1, l) ∧ sys_dup3 l 1 5 0 = Done (-1, l) ∧ sys_close l 1 = (-1, l).
Proof. apply (fd_table_errors [Some 10; None] 1 5); reflexivity || lia. Defined.

Lemma dup3_wraps_witness : sys_dup3 [Some 10] 0 (2 ^ 64 - 1) 0 = Panic.
Proof. apply (dup3_wraps [Some 10] 0 10); reflexivity || (simpl; lia). Defined.
