(* ===== verification/Vfs.v ===== *)
(** * Open files and the system calls on paths
    ([os/src/fs/inode.rs], [os/src/syscall/fs.rs])

    The FAT file system is the external crate [fatfs]: the class [FatFs] lists
    the calls the kernel makes, with what their documentation promises.  Open
    files are shared objects ([Arc<dyn File>]): descriptors are indices into the
    table of files.  Path arguments are the strings that [translated_str]
    yields. *)

From S2P Require Import Prelude Path FdTable Pipe.

(** ** The [fatfs] crate *)

(** [fat_content fs f] is the file behind handle [f], [fat_pos f] the position
    of the handle.  A call that gives [None] is an [Err]. *)
Class FatFs (FS DirH FileH : Type) := {
  fat_root : FS → DirH;
  fat_open_dir : FS → DirH → str → option DirH;
  fat_open_file : FS → str → option FileH;
  fat_create_file : FS → str → option (FileH * FS);
  fat_create_dir : FS → DirH → str → option (DirH * FS);
  fat_remove : FS → str → option FS;
  fat_truncate : FS → FileH → option (FileH * FS);
  fat_entries : FS → DirH → option (list (str * bool));
  fat_read_file : FS → FileH → Z → option (list Z * FileH);
  fat_write_file : FS → FileH → list Z → option (Z * FileH * FS);
  fat_seek_start : FS → FileH → Z → option FileH;
  fat_seek_end : FS → FileH → option (Z * FileH);
  fat_content : FS → FileH → list Z;
  fat_pos : FileH → Z;
  (** [Read::read]: some bytes from the position on, none only at the end of the
      file or for an empty buffer. *)
  fat_read_law fs f n : 0 <= n → 0 <= fat_pos f → ∃ bs f', fat_read_file fs f n = Some (bs, f') ∧
    bs = take (length bs) (drop (Z.to_nat (fat_pos f)) (fat_content fs f)) ∧ Z.of_nat (length bs) <= n ∧
    (bs = [] → n = 0 ∨ Z.of_nat (length (fat_content fs f)) <= fat_pos f) ∧
    fat_pos f' = fat_pos f + length bs ∧ fat_content fs f' = fat_content fs f;
  (** [Write::write]: some of the bytes are stored at the position. *)
  fat_write_law fs f bs : 0 <= fat_pos f <= length (fat_content fs f) → ∃ n f' fs', fat_write_file fs f bs = Some (n, f', fs') ∧
    0 <= n <= length bs ∧ fat_pos f' = fat_pos f + n ∧
    fat_content fs' f' = take (Z.to_nat (fat_pos f)) (fat_content fs f) ++ take (Z.to_nat n) bs ++
                         drop (Z.to_nat (fat_pos f + n)) (fat_content fs f);
}.

(** ** [OpenFlags] and [StatMode] *)

Definition O_RDONLY : Z := 0.
Definition O_WRONLY : Z := Z.shiftl 1 0.
Definition O_RDWR : Z := Z.shiftl 1 1.
Definition O_CREATE : Z := Z.shiftl 1 6.
Definition O_TRUNC : Z := Z.shiftl 1 10.
Definition O_NONBLOCK : Z := Z.shiftl 1 12.
Definition O_CLOEXEC : Z := Z.shiftl 1 20.
Definition O_DIRECTORY : Z := Z.shiftl 1 21.
Definition O_DIRECT : Z := Z.shiftl 1 24.

Definition open_flags_all : Z :=
  fold_left Z.lor [O_WRONLY; O_RDWR; O_CREATE; O_TRUNC; O_NONBLOCK; O_CLOEXEC; O_DIRECTORY; O_DIRECT] 0.

(** [bitflags]: [from_bits] refuses unknown bits, [contains] tests all bits. *)
Definition from_bits (all bits : Z) : option Z := if Z.land bits (Z.lnot all) =? 0 then Some bits else None.
Definition contains (flags f : Z) : bool := Z.land flags f =? f.

Definition stat_mode_all : Z := 65535. (* 0o177777: the union of the constants *)

Definition read_write (flags : Z) : bool * bool :=
  if contains flags O_WRONLY then (false, true)
  else if contains flags O_RDWR then (true, true)
  else (true, false).

(** ** [OSInode] *)

Section vfs.
Context {FS DirH FileH : Type} `{!FatFs FS DirH FileH}.

Inductive FatType := FatFile (f : FileH) | FatDir (d : DirH).

Record OSInode := mkInode {
  i_readable : bool;
  i_writable : bool;
  i_mode : Z;
  i_size : Z;
  i_blocks : Z;
  i_file : FatType;
  i_is_directory : bool;
  i_path : str;
}.

Definition inode_new (readable writable : bool) (file : FatType) (is_dir : bool) (path : str) : OSInode :=
  let st_mode := if is_dir then 16384 (* 0o040000 *) else 32768 (* 0o100000 *) in
  let st_mode := if readable then Z.lor st_mode 292 (* 0o444 *) else st_mode in
  let st_mode := if writable then Z.lor st_mode 146 (* 0o222 *) else st_mode in
  mkInode readable writable st_mode 0 ((0 + 511) / 512) file is_dir path.

Definition with_file (i : OSInode) (f : FatType) : OSInode :=
  mkInode (i_readable i) (i_writable i) (i_mode i) (i_size i) (i_blocks i) f (i_is_directory i) (i_path i).

Definition update_after_write (i : OSInode) (written : Z) : OSInode :=
  let size := as_isize (wrap64 (i_size i + written)) in
  mkInode (i_readable i) (i_writable i) (i_mode i) size ((wrap64 size +w 511) / 512) (i_file i) (i_is_directory i) (i_path i).

(** [read_all] with its buffer of 512 bytes. *)
Fixpoint read_all_loop (fuel : nat) (fs : FS) (f : FileH) (v : list Z) : outcome (list Z * FileH) :=
  match fuel with
  | O => Panic
  | S fuel' =>
      '(bs, f') ← unwrap (fat_read_file fs f 512);
      if (length bs =? 0)%nat then Done (v, f') else read_all_loop fuel' fs f' (v ++ bs)
  end.

Definition read_all (fs : FS) (i : OSInode) : outcome (list Z * OSInode) :=
  match i_file i with
  | FatFile f =>
      '(v, f') ← read_all_loop (S (length (fat_content fs f))) fs f [];
      Done (v, with_file i (FatFile f'))
  | FatDir _ => Done ([], i)
  end.

(** [read] into slices of the given lengths: the bytes read, in order. *)
Fixpoint read_slices (fs : FS) (f : FileH) (lens : list Z) (acc : list Z) : outcome (list Z * FileH) :=
  match lens with
  | [] => Done (acc, f)
  | n :: lens' =>
      '(bs, f') ← unwrap (fat_read_file fs f n);
      if Z.of_nat (length bs) <? n then Done (acc ++ bs, f') else read_slices fs f' lens' (acc ++ bs)
  end.

Definition inode_read (fs : FS) (i : OSInode) (lens : list Z) : outcome (list Z * OSInode) :=
  match i_file i with
  | FatFile f => '(bs, f') ← read_slices fs f lens []; Done (bs, with_file i (FatFile f'))
  | FatDir _ => Done ([], i)
  end.

Fixpoint write_slices (fs : FS) (f : FileH) (slices : list (list Z)) (total : Z) : outcome (Z * FileH * FS) :=
  match slices with
  | [] => Done (total, f, fs)
  | bs :: rest =>
      '(n, f', fs') ← unwrap (fat_write_file fs f bs);
      if n <? length bs then Done (total + n, f', fs') else write_slices fs' f' rest (total + n)
  end.

Definition inode_write (fs : FS) (i : OSInode) (slices : list (list Z)) : outcome (Z * OSInode * FS) :=
  match i_file i with
  | FatFile f =>
      '(n, f', fs') ← write_slices fs f slices 0;
      Done (n, update_after_write (with_file i (FatFile f')) n, fs')
  | FatDir _ => Done (0, update_after_write i 0, fs)
  end.

Definition inode_read_at (fs : FS) (i : OSInode) (offset n : Z) : result (list Z) * OSInode :=
  match i_file i with
  | FatFile f =>
      match fat_seek_start fs f offset with
      | None => (Err (-1), i)
      | Some f1 => match fat_read_file fs f1 n with
                   | None => (Err (-1), with_file i (FatFile f1))
                   | Some (bs, f2) => (Ok bs, with_file i (FatFile f2))
                   end
      end
  | FatDir _ => (Err (-1), i)
  end.

(** After the new size is stored, [drop(self.file.exclusive_access())] borrows the
    cell that is still borrowed. *)
Definition inode_write_at (fs : FS) (i : OSInode) (offset : Z) (buf : list Z) : outcome (result Z * OSInode * FS) :=
  match i_file i with
  | FatFile f =>
      match fat_seek_start fs f offset with
      | None => Done (Err (-1), i, fs)
      | Some f1 =>
          match fat_write_file fs f1 buf with
          | None => Done (Err (-1), with_file i (FatFile f1), fs)
          | Some (n, f2, fs') =>
              match fat_seek_end fs' f2 with
              | None => Done (Err (-1), with_file i (FatFile f2), fs')
              | Some (file_size, f3) => Panic
              end
          end
      end
  | FatDir _ => Done (Err (-1), i, fs)
  end.

Definition list_dir (fs : FS) (i : OSInode) : result (list (str * bool)) :=
  if negb (i_is_directory i) then Err (-1)
  else match i_file i with
       | FatDir d => match fat_entries fs d with Some v => Ok v | None => Err (-1) end
       | FatFile _ => Err (-1)
       end.

(** ** Opening.  [cwd] is the working directory of the process. *)

Definition current_root_inode (fs : FS) : OSInode := inode_new true false (FatDir (fat_root fs)) true [SLASH].

Definition open_initproc (fs : FS) (flags : Z) : option OSInode :=
  let '(readable, writable) := read_write flags in
  option_map (λ f, inode_new readable writable (FatFile f) false [47; 105; 110; 105; 116; 112; 114; 111; 99])
    (fat_open_file fs [105; 110; 105; 116; 112; 114; 111; 99]).

Definition open_file (fs : FS) (cwd path : str) (flags : Z) : outcome (option OSInode * FS) :=
  let '(readable, writable) := read_write flags in
  let full_path := resolve_path path cwd in
  let p := path_in_fs full_path in
  let '(maybe, fs1) :=
    if contains flags O_CREATE then
      match fat_open_file fs p with
      | Some f => (Some f, fs)
      | None => match fat_create_file fs p with Some (f, fs') => (Some f, fs') | None => (None, fs) end
      end
    else (fat_open_file fs p, fs) in
  match maybe with
  | None => Done (None, fs1)
  | Some f =>
      '(f, fs2) ← (if contains flags O_TRUNC then unwrap (fat_truncate fs1 f) else Done (f, fs1));
      Done (Some (inode_new readable writable (FatFile f) false full_path), fs2)
  end.

Definition open_file_at (fs : FS) (base_dir path : str) (flags : Z) : option OSInode * FS :=
  let full_path := resolve_path path base_dir in
  if bool_decide (full_path = [SLASH]) then (Some (current_root_inode fs), fs)
  else
    match fat_open_dir fs (fat_root fs) full_path with
    | Some dir => (Some (inode_new true false (FatDir dir) true full_path), fs)
    | None =>
        let '(file, fs1) :=
          if contains flags O_CREATE then
            match fat_create_file fs full_path with
            | Some (f, fs') => (Some f, fs')
            | None => (fat_open_file fs full_path, fs)
            end
          else (fat_open_file fs full_path, fs) in
        (option_map (λ f, inode_new (contains flags O_RDONLY || contains flags O_RDWR)
                                    (contains flags O_WRONLY || contains flags O_RDWR)
                                    (FatFile f) false full_path) file, fs1)
    end.

Definition open_dir (fs : FS) (cwd path : str) : option OSInode :=
  let full_path := resolve_path path cwd in
  option_map (λ d, inode_new true false (FatDir d) true full_path)
    (fat_open_dir fs (fat_root fs) (path_in_fs full_path)).

Definition create_dir (fs : FS) (cwd path : str) : option OSInode * FS :=
  let full_path := resolve_path path cwd in
  let p := path_in_fs full_path in
  let '(parent_path, dir_name) := match rsplit_once_slash p with Some (a, b) => (a, b) | None => ([], p) end in
  if bool_decide (dir_name = []) then (None, fs)
  else
    match (if bool_decide (parent_path = []) then Some (fat_root fs) else fat_open_dir fs (fat_root fs) parent_path) with
    | None => (None, fs)
    | Some parent =>
        match fat_open_dir fs parent dir_name with
        | Some _ => (None, fs)
        | None =>
            match fat_create_dir fs parent dir_name with
            | None => (None, fs)
            | Some (d, fs') => (Some (inode_new true false (FatDir d) true full_path), fs')
            end
        end
    end.

(** ** Files and descriptors of a process *)

Inductive FileObj := FStdin | FStdout | FPipe (e : PipeEnd) (ring : nat) | FInode (i : OSInode).

Record Vfs := mkVfs {
  v_fs : FS;
  v_files : list FileObj;
  v_rings : list PipeRingBuffer;
  v_cwd : str;
  v_cwd_inode : OSInode;
  v_fds : list (option nat);
}.

Definition set_fs (fs : FS) (v : Vfs) : Vfs := mkVfs fs (v_files v) (v_rings v) (v_cwd v) (v_cwd_inode v) (v_fds v).
Definition set_fds (l : list (option nat)) (v : Vfs) : Vfs :=
  mkVfs (v_fs v) (v_files v) (v_rings v) (v_cwd v) (v_cwd_inode v) l.

Definition AT_FDCWD : Z := 0 -w 100.

(** The methods of the [File] trait; [todo!()] panics. *)
Definition file_readable (f : FileObj) : bool :=
  match f with FStdin => true | FStdout => false | FPipe e _ => pe_readable e | FInode i => i_readable i end.
Definition file_writable (f : FileObj) : bool :=
  match f with FStdin => false | FStdout => true | FPipe e _ => pe_writable e | FInode i => i_writable i end.
Definition file_is_dir (f : FileObj) : outcome bool :=
  match f with FStdin | FStdout => Panic | FPipe _ _ => Done false | FInode i => Done (i_is_directory i) end.
Definition file_get_path (f : FileObj) : outcome str :=
  match f with FStdin | FStdout => Panic | FPipe _ _ => Done [112; 105; 112; 101] | FInode i => Done (i_path i) end.
(** The mode, size and block count of [get_stat]. *)
Definition file_get_stat (f : FileObj) : outcome (Z * Z * Z) :=
  match f with
  | FStdin | FStdout => Panic
  | FPipe _ _ => Done (4096 (* 0o010000 *), 0, 0)
  | FInode i => Done (i_mode i, i_size i, i_blocks i)
  end.

(** The open file behind a descriptor. *)
Definition file_at (v : Vfs) (fd : Z) : option FileObj := n ← get_fd (v_fds v) fd; v_files v !! n.

(** A new file object on the smallest free descriptor. *)
Definition add_file (v : Vfs) (f : FileObj) : outcome (Z * Vfs) :=
  '(fd, l) ← install (v_fds v) (length (v_files v));
  Done (fd, mkVfs (v_fs v) (v_files v ++ [f]) (v_rings v) (v_cwd v) (v_cwd_inode v) l).

(** Directory of a [dirfd] argument: [None] is EBADF. *)
Definition base_of (v : Vfs) (dirfd : Z) : outcome (option str) :=
  if dirfd =? AT_FDCWD then Done (Some (v_cwd v))
  else match file_at v dirfd with
       | Some f => d ← file_is_dir f; if d : bool then p ← file_get_path f; Done (Some p) else Done None
       | None => Done None
       end.

(** ** System calls *)

Definition sys_openat (v : Vfs) (dirfd : Z) (path : str) (flags mode : Z) : outcome (Z * Vfs) :=
  match from_bits open_flags_all flags with
  | None => Done (-1, v)
  | Some flags =>
      let mode := from_bits stat_mode_all mode in
      base ← base_of v dirfd;
      match base with
      | None => Done (-1, v)
      | Some base_dir =>
          _ ← unwrap mode;
          let '(r, fs') := open_file_at (v_fs v) base_dir path flags in
          let v' := set_fs fs' v in
          match r with
          | Some inode =>
              if contains flags O_DIRECTORY then
                (match i_file inode with FatDir _ => add_file v' (FInode inode) | FatFile _ => Done (-1, v') end)
              else add_file v' (FInode inode)
          | None => Done (-1, v')
          end
      end
  end.

Definition sys_open (v : Vfs) (path : str) (flags : Z) : outcome (Z * Vfs) :=
  match from_bits open_flags_all flags with
  | None => Done (-1, v)
  | Some flags =>
      '(r, fs') ← open_file (v_fs v) (v_cwd v) path flags;
      match r with
      | Some inode => add_file (set_fs fs' v) (FInode inode)
      | None => Done (-1, set_fs fs' v)
      end
  end.

Definition sys_chdir (v : Vfs) (path : str) : Z * Vfs :=
  let new_cwd := resolve_path path (v_cwd v) in
  match open_dir (v_fs v) (v_cwd v) new_cwd with
  | None => (-1, v)
  | Some inode => (0, mkVfs (v_fs v) (v_files v) (v_rings v) new_cwd inode (v_fds v))
  end.

Definition sys_mkdirat (v : Vfs) (dirfd : Z) (path : str) : outcome (Z * Vfs) :=
  base ← (if starts_with_slash path then Done (Some [SLASH]) else base_of v dirfd);
  match base with
  | None => Done (-1, v)
  | Some base_path =>
      let full_path := resolve_path path base_path in
      match create_dir (v_fs v) (v_cwd v) full_path with
      | (Some _, fs') => Done (0, set_fs fs' v)
      | (None, fs') => Done (-1, set_fs fs' v)
      end
  end.

(** [None] is a null pointer. *)
Definition sys_unlinkat (v : Vfs) (dirfd : Z) (path : option str) (flags : Z) : outcome (Z * Vfs) :=
  match path with
  | None => Done (-1, v)
  | Some path =>
      base ← base_of v dirfd;
      match base with
      | None => Done (-1, v)
      | Some base_dir =>
          let full_path := resolve_path path base_dir in
          match fat_remove (v_fs v) (path_in_fs full_path) with
          | Some fs' => Done (0, set_fs fs' v)
          | None => Done (-1, v)
          end
      end
  end.

Definition sys_umount2 (v : Vfs) (target : option str) : Z :=
  match target with
  | None => -1
  | Some target => match open_dir (v_fs v) (v_cwd v) target with None => -1 | Some _ => 0 end
  end.

Definition mount_flags_all : Z :=
  fold_left Z.lor [1; 2; 4; 8; 16; 32; 64; 128; 1024; 2048; 4096; 8192; 16384; 32768; Z.shiftl 1 16; Z.shiftl 1 17;
    Z.shiftl 1 18; Z.shiftl 1 19; Z.shiftl 1 20; Z.shiftl 1 21; Z.shiftl 1 22; Z.shiftl 1 23; Z.shiftl 1 24;
    Z.shiftl 1 25; Z.shiftl 1 27; Z.shiftl 1 28; Z.shiftl 1 29; Z.shiftl 1 30; Z.shiftl 1 31] 0.

Definition sys_mount (v : Vfs) (source target fstype : option str) (mountflags : Z) : outcome Z :=
  match source, target, fstype with
  | Some _, Some target, Some fs_type =>
      _ ← unwrap (from_bits mount_flags_all mountflags);
      match open_dir (v_fs v) (v_cwd v) target with
      | None => Done (-1)
      | Some _ =>
          if negb (bool_decide (fs_type = [118; 102; 97; 116])) && negb (bool_decide (fs_type = [102; 97; 116; 51; 50]))
          then Done (-1) else Done 0
      end
  | _, _, _ => Done (-1)
  end.

(** The result, the two descriptors that are stored for the caller, and the
    state. *)
Definition sys_pipe2 (v : Vfs) (flags : Z) : outcome (Z * option (Z * Z) * Vfs) :=
  let allowed := Z.lor O_NONBLOCK O_CLOEXEC in
  match from_bits open_flags_all flags with
  | None => Done (-1, None, v)
  | Some openflags =>
      if negb (Z.land openflags (Z.lnot allowed) =? 0) then Done (-1, None, v)
      else
        let '(ring, r, w) := make_pipe in
        let ring_id := length (v_rings v) in
        let v0 := mkVfs (v_fs v) (v_files v) (v_rings v ++ [ring]) (v_cwd v) (v_cwd_inode v) (v_fds v) in
        let nb := contains openflags O_NONBLOCK in
        let r := if nb then set_nonblocking r true else r in
        let w := if nb then set_nonblocking w true else w in
        '(read_fd, v1) ← add_file v0 (FPipe r ring_id);
        '(write_fd, v2) ← add_file v1 (FPipe w ring_id);
        Done (0, Some (read_fd, write_fd), v2)
  end.

(** What is copied to the user. *)
Definition sys_fstat (v : Vfs) (fd : Z) : outcome (Z * option (Z * Z * Z)) :=
  if fd =? AT_FDCWD then st ← file_get_stat (FInode (v_cwd_inode v)); Done (0, Some st)
  else
    slot ← unwrap (v_fds v !! Z.to_nat fd);
    match slot with
    | None => Done (-1, None)
    | Some n => f ← unwrap (v_files v !! n); st ← file_get_stat f; Done (0, Some st)
    end.

Definition DIRENT_SIZE : Z := 280. (* size_of::<LinuxDirent64>() *)

(** The name that is copied to the user. *)
Definition sys_getdents64 (v : Vfs) (fd len : Z) : outcome (Z * option str) :=
  if Z.of_nat (length (v_fds v)) <=? fd then Done (-1, None)
  else
    match file_at v fd with
    | None => Done (-1, None)
    | Some f =>
        d ← file_is_dir f;
        if negb d then Done (-1, None)
        else if len <? DIRENT_SIZE then Done (-1, None)
        else
          match f with
          | FInode i =>
              match list_dir (v_fs v) i with
              | Err _ => Done (-1, None)
              | Ok [] => Done (0, None)
              | Ok ((name, _) :: _) => Done (DIRENT_SIZE, Some (take 255 name))
              end
          | _ => Done (-1, None)
          end
    end.

(** The file that [sys_read] and [sys_write] go on with; [None] is -1. *)
Definition sys_read_target (v : Vfs) (fd : Z) : option FileObj :=
  if Z.of_nat (length (v_fds v)) <=? fd then None
  else match file_at v fd with Some f => if file_readable f then Some f else None | None => None end.

Definition sys_write_target (v : Vfs) (fd : Z) : option FileObj :=
  if Z.of_nat (length (v_fds v)) <=? fd then None
  else match file_at v fd with Some f => if file_writable f then Some f else None | None => None end.
End vfs.
