(* ===== verification/VfsProps.v ===== *)
(** * Theorems about files and paths

    Reading and writing through [OSInode] against the contract of [fatfs]; the
    invariant of the files, descriptors and working directory of a process. *)

From S2P Require Import Prelude Path FdTable Pipe Vfs.

Section props.
Context {FS DirH FileH : Type} `{!FatFs FS DirH FileH}.
Notation Inode := (@OSInode DirH FileH).
Notation V := (@Vfs FS DirH FileH).

(** ** Reading *)

(** What is left of the file behind a handle. *)
Definition rest (fs : FS) (f : FileH) : list Z := drop (Z.to_nat (fat_pos f)) (fat_content fs f).

(** One [read]: [bs] is taken off the front. *)
Lemma read_step fs f n :
  0 <= n → 0 <= fat_pos f → ∃ bs f', fat_read_file fs f n = Some (bs, f') ∧ rest fs f = bs ++ rest fs f' ∧
    Z.of_nat (length bs) <= n ∧ (bs = [] → n = 0 ∨ rest fs f = []) ∧ 0 <= fat_pos f' ∧
    fat_pos f' = fat_pos f + length bs ∧ fat_content fs f' = fat_content fs f.
Proof.
  intros Hn Hp. destruct (fat_read_law fs f n Hn Hp) as (bs&f'&Hr&Hbs&Hlen&Hend&Hpos&Hc).
  exists bs, f'. split; [done|]. split; [|split; [done|split; [|split; [lia|done]]]].
  - unfold rest. rewrite Hc, Hpos, Z2Nat.inj_add, Nat2Z.id by lia. rewrite <- drop_drop.
    rewrite Hbs at 1. by rewrite take_drop.
  - intros He. destruct (Hend He) as [|Hge]; [by left|right]. unfold rest. apply drop_ge. lia.
Qed.

Lemma read_all_loop_ok fuel fs : ∀ f v, 0 <= fat_pos f → (length (rest fs f) < fuel)%nat →
  ∃ f', read_all_loop fuel fs f v = Done (v ++ rest fs f, f') ∧ rest fs f' = [].
Proof.
  induction fuel as [|fuel IH]; intros f v Hp Hf; [lia|]. simpl.
  destruct (read_step fs f 512) as (bs&f'&->&Hrest&_&Hend&Hp'&_); [lia|done|]. simpl.
  destruct bs as [|b bs].
  - simpl in *. exists f'. destruct (Hend eq_refl) as [|He]; [done|]. rewrite He, app_nil_r. split; [done|congruence].
  - destruct (IH f' (v ++ b :: bs)) as (f2&H2&H3); [done|rewrite Hrest, length_app in Hf; simpl in Hf; lia|].
    exists f2. split; [|done]. simpl. rewrite H2, Hrest. by rewrite <- app_assoc.
Qed.

Lemma read_slices_ok fs : ∀ lens f acc, 0 <= fat_pos f → Forall (λ n, 0 <= n) lens →
  ∃ bs f', read_slices fs f lens acc = Done (acc ++ bs, f') ∧ rest fs f = bs ++ rest fs f' ∧
    fat_content fs f' = fat_content fs f ∧ Z.of_nat (length bs) <= foldr Z.add 0 lens ∧ fat_pos f' = fat_pos f + length bs ∧
    (bs = [] → Forall (λ n, n = 0) lens ∨ rest fs f = []).
Proof.
  induction lens as [|n lens IH]; intros f acc Hp Hl.
  { exists [], f. simpl. rewrite app_nil_r. split_and!; try done; try lia. by left. }
  apply Forall_cons in Hl as [Hn Hl]. simpl.
  assert (Hsum : ∀ l, Forall (λ n, 0 <= n) l → 0 <= foldr Z.add 0 l).
  { induction l as [|x l IHl]; intros Hx; simpl; [lia|]. apply Forall_cons in Hx as [? ?]. specialize (IHl ltac:(done)). lia. }
  specialize (Hsum lens Hl).
  destruct (read_step fs f n Hn Hp) as (bs&f'&->&Hrest&Hlen&Hend&Hp'&Hpos&Hc). simpl.
  destruct (Z.ltb_spec (Z.of_nat (length bs)) n) as [Hlt|Hge].
  - exists bs, f'. split; [done|]. split; [done|]. split; [done|]. split; [lia|]. split; [done|].
    intros ->. destruct (Hend eq_refl) as [->|?]; [by simpl in Hlt|by right].
  - destruct (IH f' (acc ++ bs) Hp' Hl) as (bs2&f2&H2&H3&H4&H5&H6&H7). exists (bs ++ bs2), f2.
    rewrite H2, Hrest, H3, !app_assoc. split; [done|]. split; [done|]. split; [congruence|].
    rewrite length_app. split; [lia|]. split; [lia|]. intros [-> ->]%app_eq_nil. simpl in *.
    destruct (H7 eq_refl) as [?|Hr]; [left; constructor; [lia|done]|right; congruence].
Qed.

(** [read_all] returns exactly what is left of the file, however short the
    reads of the file system are, and leaves nothing to read.  ([exec] and the
    start of the first process load programs with it.) *)
Theorem read_all_correct (fs : FS) (i : Inode) (f : FileH) :
  i_file i = FatFile f → 0 <= fat_pos f →
  ∃ i', read_all fs i = Done (drop (Z.to_nat (fat_pos f)) (fat_content fs f), i') ∧
    ∃ f', i_file i' = FatFile f' ∧ rest fs f' = [].
Proof.
  intros Hi Hp. unfold read_all. rewrite Hi.
  destruct (read_all_loop_ok (S (length (fat_content fs f))) fs f [] Hp) as (f'&H1&H2).
  - unfold rest. rewrite length_drop. lia.
  - rewrite H1. simpl. eexists. split; [done|]. by exists f'.
Qed.

(** Reading through [OSInode] into a buffer of several slices yields the
    next bytes of the file in order, no more than fit, and moves the position
    past them. *)
Theorem inode_read_correct (fs : FS) (i : Inode) (f : FileH) (lens : list Z) :
  i_file i = FatFile f → 0 <= fat_pos f → Forall (λ n, 0 <= n) lens →
  ∃ bs f', inode_read fs i lens = Done (bs, with_file i (FatFile f')) ∧ rest fs f = bs ++ rest fs f' ∧
    fat_content fs f' = fat_content fs f ∧ Z.of_nat (length bs) <= foldr Z.add 0 lens ∧ fat_pos f' = fat_pos f + length bs.
Proof.
  intros Hi Hp Hl. unfold inode_read. rewrite Hi.
  destruct (read_slices_ok fs lens f [] Hp Hl) as (bs&f'&H1&H2&H3&H4&H5&_). exists bs, f'. rewrite H1. done.
Qed.

(** ** Writing *)

(** [bs] stored at [p]. *)
Definition splice (c : list Z) (p : nat) (bs : list Z) : list Z := take p c ++ bs ++ drop (p + length bs) c.

Lemma splice_nil c p : splice c p [] = c.
Proof. unfold splice. simpl. rewrite Nat.add_0_r. apply take_drop. Qed.

Lemma splice_length c p bs : (p <= length c)%nat → (p + length bs <= length (splice c p bs))%nat.
Proof. intros Hp. unfold splice. rewrite !length_app, length_take. lia. Qed.

Lemma splice_splice c p a b : (p <= length c)%nat → splice (splice c p a) (p + length a) b = splice c p (a ++ b).
Proof.
  intros Hp. unfold splice. assert (Ht : length (take p c) = p) by (rewrite length_take; lia).
  replace (take (p + length a) (take p c ++ a ++ drop (p + length a) c)) with (take p c ++ a).
  - replace (drop (p + length a + length b) (take p c ++ a ++ drop (p + length a) c)) with (drop (p + length a + length b) c).
    + rewrite length_app, <- !app_assoc. do 3 f_equal. f_equal. lia.
    + rewrite app_assoc, drop_app_ge by (rewrite length_app; lia). rewrite length_app, Ht, drop_drop. f_equal. lia.
  - rewrite (app_assoc (take p c) a). symmetry. apply take_app_length'. rewrite length_app. lia.
Qed.

Lemma write_step fs f bs :
  0 <= fat_pos f <= length (fat_content fs f) →
  ∃ k f' fs', fat_write_file fs f bs = Some (Z.of_nat k, f', fs') ∧ (k <= length bs)%nat ∧
    fat_pos f' = fat_pos f + k ∧ 0 <= fat_pos f' <= length (fat_content fs' f') ∧
    fat_content fs' f' = splice (fat_content fs f) (Z.to_nat (fat_pos f)) (take k bs).
Proof.
  intros Hp. destruct (fat_write_law fs f bs Hp) as (n&f'&fs'&Hw&Hn&Hpos&Hc).
  assert (Hs : fat_content fs' f' = splice (fat_content fs f) (Z.to_nat (fat_pos f)) (take (Z.to_nat n) bs)).
  { rewrite Hc. unfold splice. rewrite length_take_le by lia. rewrite Z2Nat.inj_add by lia. done. }
  exists (Z.to_nat n), f', fs'. rewrite Z2Nat.id by lia. split; [done|]. split; [lia|]. split; [done|]. split; [|done].
  rewrite Hs, Hpos. pose proof (splice_length (fat_content fs f) (Z.to_nat (fat_pos f)) (take (Z.to_nat n) bs) ltac:(lia)) as Hl.
  rewrite length_take_le in Hl by lia. lia.
Qed.

Lemma write_slices_ok : ∀ slices fs f total, 0 <= fat_pos f <= length (fat_content fs f) →
  ∃ k f' fs', write_slices fs f slices total = Done (total + Z.of_nat k, f', fs') ∧ (k <= length (concat slices))%nat ∧
    fat_pos f' = fat_pos f + k ∧
    fat_content fs' f' = splice (fat_content fs f) (Z.to_nat (fat_pos f)) (take k (concat slices)).
Proof.
  induction slices as [|bs slices IH]; intros fs f total Hp.
  { exists 0%nat, f, fs. simpl. rewrite splice_nil. split; [by rewrite Z.add_0_r|]. split; [done|]. split; [lia|done]. }
  simpl. destruct (write_step fs f bs Hp) as (k&f'&fs'&->&Hk&Hpos&Hp'&Hc). simpl.
  destruct (Z.ltb_spec (Z.of_nat k) (length bs)) as [Hlt|Hge].
  - exists k, f', fs'. rewrite length_app. split; [done|]. split; [lia|]. split; [done|].
    rewrite take_app_le by lia. done.
  - assert (k = length bs) as -> by lia. rewrite firstn_all in Hc.
    destruct (IH fs' f' (total + length bs) Hp') as (k2&f2&fs2&H1&H2&H3&H4).
    exists (length bs + k2)%nat, f2, fs2. rewrite H1, length_app. split; [do 3 f_equal; lia|]. split; [lia|].
    split; [lia|]. rewrite H4, Hc, Hpos, Z2Nat.inj_add, Nat2Z.id by lia. rewrite splice_splice by lia.
    by rewrite take_app_add.
Qed.

(** Writing through [OSInode] stores a prefix of the buffer at the position
    of the file, returns its length, moves the position past it and leaves the
    rest of the file as it was. *)
Theorem inode_write_correct (fs : FS) (i : Inode) (f : FileH) (slices : list (list Z)) :
  i_file i = FatFile f → 0 <= fat_pos f <= length (fat_content fs f) →
  ∃ k i' f' fs', inode_write fs i slices = Done (Z.of_nat k, i', fs') ∧ i_file i' = FatFile f' ∧
    (k <= length (concat slices))%nat ∧ fat_pos f' = fat_pos f + k ∧
    fat_content fs' f' = splice (fat_content fs f) (Z.to_nat (fat_pos f)) (take k (concat slices)).
Proof.
  intros Hi Hp. unfold inode_write. rewrite Hi. destruct (write_slices_ok slices fs f 0 Hp) as (k&f'&fs'&H1&H2&H3&H4).
  rewrite H1. simpl. eexists k, _, f', fs'. split; [done|]. done.
Qed.

(** [write_at] never succeeds. *)
Lemma inode_write_at_fails fs (i : Inode) off buf n i' fs' : inode_write_at fs i off buf ≠ Done (Ok n, i', fs').
Proof. unfold inode_write_at. by repeat case_match. Qed.

(** ** The files of a process *)

Definition normal (p : str) : Prop := ∃ ws, p = abs_path ws ∧ ∀ w, w ∈ ws → name_ok w.

Record vfs_ok (v : V) : Prop := {
  vo_cwd : normal (v_cwd v);
  vo_cwd_inode : i_path (v_cwd_inode v) = v_cwd v ∧ i_is_directory (v_cwd_inode v) = true;
  vo_fds : ∀ n, Some n ∈ v_fds v → (n < length (v_files v))%nat;
  vo_paths : ∀ i, FInode i ∈ v_files v → normal (i_path i);
}.

Lemma resolve_normal relative base : normal (resolve_path relative base).
Proof. exists (resolve_names relative base). split; [done|apply resolve_names_ok]. Qed.

Lemma normal_resolve p base : normal p → resolve_path p base = p.
Proof.
  intros (ws&->&Hws). unfold resolve_path. change (starts_with_slash (abs_path ws)) with true. cbn [negb].
  by rewrite walk_abs.
Qed.

Lemma set_fs_ok fs v : vfs_ok v → vfs_ok (set_fs fs v).
Proof. intros [? ? ? ?]. by split. Qed.

Lemma fds_ok_opened (l : list (option nat)) b : (∀ n, Some n ∈ l → (n < b)%nat) ↔ ∀ m n, opened l m = Some n → (n < b)%nat.
Proof.
  unfold opened. split.
  - intros Hl m n Hm. destruct (l !! m) as [o|] eqn:E; [|done]. simpl in Hm. subst o.
    apply Hl. by eapply list_elem_of_lookup_2.
  - intros Hl n [m Hm]%list_elem_of_lookup. apply (Hl m). by rewrite Hm.
Qed.

Lemma add_file_ok v f fd v' :
  vfs_ok v → (∀ i, f = FInode i → normal (i_path i)) → add_file v f = Done (fd, v') → vfs_ok v'.
Proof.
  intros [H1 H2 H3 H4] Hf. unfold add_file.
  destruct (install_ok (v_fds v) (length (v_files v))) as (n&l'&->&_&Hop). simpl. intros [= <- <-].
  split; simpl; [done|done| |].
  - rewrite length_app. simpl. apply fds_ok_opened. intros m k. rewrite Hop. rewrite fds_ok_opened in H3.
    case_decide; [intros [= <-]; lia|]. intros Hk. specialize (H3 m k Hk). lia.
  - intros i [Hi|Hi%list_elem_of_singleton]%elem_of_app; auto.
Qed.

(** ** System calls *)

Inductive vstep : V → V → Prop :=
| v_openat v dirfd path flags mode r v' : sys_openat v dirfd path flags mode = Done (r, v') → vstep v v'
| v_open v path flags r v' : sys_open v path flags = Done (r, v') → vstep v v'
| v_chdir v path r v' : sys_chdir v path = (r, v') → vstep v v'
| v_mkdirat v dirfd path r v' : sys_mkdirat v dirfd path = Done (r, v') → vstep v v'
| v_unlinkat v dirfd path flags r v' : sys_unlinkat v dirfd path flags = Done (r, v') → vstep v v'
| v_pipe2 v flags r fds v' : sys_pipe2 v flags = Done (r, fds, v') → vstep v v'
| v_dup v fd r l : 0 <= fd → sys_dup (v_fds v) fd = (r, l) → vstep v (set_fds l v)
| v_dup3 v fd new r l : 0 <= fd → 0 <= new < 2 ^ 64 - 1 → sys_dup3 (v_fds v) fd new 0 = Done (r, l) → vstep v (set_fds l v)
| v_close v fd r l : 0 <= fd → sys_close (v_fds v) fd = (r, l) → vstep v (set_fds l v).

(** The first process: standard input, output and error. *)
Definition vfs_init (fs : FS) : V :=
  mkVfs fs [FStdin; FStdout; FStdout] [] [SLASH] (current_root_inode fs) [Some 0%nat; Some 1%nat; Some 2%nat].

Lemma open_file_at_path fs base path flags i fs' :
  open_file_at fs base path flags = (Some i, fs') → i_path i = resolve_path path base.
Proof.
  unfold open_file_at. case_bool_decide as Hr; [intros [= <- _]; by rewrite Hr|].
  destruct (fat_open_dir _ _ _) as [d|]; [by intros [= <- _]|].
  destruct (contains flags O_CREATE).
  - destruct (fat_create_file _ _) as [[f fs1]|]; [by intros [= <- _]|].
    destruct (fat_open_file _ _); simpl; [by intros [= <- _]|done].
  - destruct (fat_open_file _ _); simpl; [by intros [= <- _]|done].
Qed.

Lemma open_file_path fs cwd path flags i fs' :
  open_file fs cwd path flags = Done (Some i, fs') → i_path i = resolve_path path cwd.
Proof.
  unfold open_file. destruct (read_write flags) as [r w].
  destruct (if contains flags O_CREATE then _ else _) as [[f|] fs1]; [|done].
  destruct (contains flags O_TRUNC); [destruct (fat_truncate fs1 f) as [[f' fs2]|]|]; simpl; try done; by intros [= <- _].
Qed.

Lemma openat_ok v dirfd path flags mode r v' :
  vfs_ok v → sys_openat v dirfd path flags mode = Done (r, v') → vfs_ok v'.
Proof.
  intros Hok. unfold sys_openat. destruct (from_bits _ flags) as [fl|]; [|by intros [= _ <-]].
  destruct (base_of v dirfd) as [[base|]|]; simpl; [|by intros [= _ <-]|done].
  destruct (from_bits _ mode); simpl; [|done]. destruct (open_file_at _ _ _ _) as [[i|] fs'] eqn:Eo.
  - apply open_file_at_path in Eo. assert (Hadd : ∀ fd w, add_file (set_fs fs' v) (FInode i) = Done (fd, w) → vfs_ok w).
    { intros fd w. apply add_file_ok; [by apply set_fs_ok|]. intros i' [= <-]. rewrite Eo. apply resolve_normal. }
    destruct (contains fl O_DIRECTORY); [destruct (i_file i)|]; try apply Hadd. intros [= _ <-]. by apply set_fs_ok.
  - intros [= _ <-]. by apply set_fs_ok.
Qed.

Lemma open_ok v path flags r v' : vfs_ok v → sys_open v path flags = Done (r, v') → vfs_ok v'.
Proof.
  intros Hok. unfold sys_open. destruct (from_bits _ flags) as [fl|]; [|by intros [= _ <-]].
  destruct (open_file _ _ _ _) as [[[i|] fs']|] eqn:Eo; simpl; [|intros [= _ <-]; by apply set_fs_ok|done].
  apply add_file_ok; [by apply set_fs_ok|]. intros i' [= <-]. apply open_file_path in Eo. rewrite Eo. apply resolve_normal.
Qed.

Lemma chdir_ok v path r v' : vfs_ok v → sys_chdir v path = (r, v') → vfs_ok v'.
Proof.
  intros Hok. unfold sys_chdir, open_dir. rewrite normal_resolve by apply resolve_normal.
  destruct (fat_open_dir _ _ _) as [d|]; simpl; [|by intros [= _ <-]]. intros [= _ <-].
  destruct Hok. split; simpl; try done. apply resolve_normal.
Qed.

Lemma pipe2_ok v flags r fds v' : vfs_ok v → sys_pipe2 v flags = Done (r, fds, v') → vfs_ok v'.
Proof.
  intros Hok. unfold sys_pipe2. destruct (from_bits _ flags) as [fl|]; [|by intros [= _ _ <-]].
  destruct (negb _); [by intros [= _ _ <-]|]. simpl. set (v0 := mkVfs _ _ _ _ _ _).
  assert (Hok0 : vfs_ok v0) by (destruct Hok; by split). clearbody v0.
  destruct (add_file v0 _) as [[fd1 v1]|] eqn:E1; simpl; [|done]. destruct (add_file v1 _) as [[fd2 v2]|] eqn:E2; simpl; [|done].
  intros [= _ _ <-]. eapply add_file_ok; [eapply add_file_ok; [exact Hok0| |exact E1]| |exact E2]; done.
Qed.

(** A table whose descriptors come from the old one. *)
Lemma set_fds_ok l v : vfs_ok v → (∀ m n, opened l m = Some n → ∃ m', opened (v_fds v) m' = Some n) → vfs_ok (set_fds l v).
Proof.
  intros [H1 H2 H3 H4] Hl. split; simpl; try done. apply fds_ok_opened. intros m n Hm.
  destruct (Hl m n Hm) as [m' Hm']. rewrite fds_ok_opened in H3. by apply (H3 m').
Qed.

Lemma vstep_ok v v' : vfs_ok v → vstep v v' → vfs_ok v'.
Proof.
  intros Hok Hs. destruct Hs as [v dirfd path flags mode r v' He|v path flags r v' He|v path r v' He|v dirfd path r v' He
    |v dirfd path flags r v' He|v flags r fds v' He|v fd r l Hfd He|v fd new r l Hfd Hnew He|v fd r l Hfd He].
  - by eapply openat_ok.
  - by eapply open_ok.
  - by eapply chdir_ok.
  - unfold sys_mkdirat in He. destruct (if starts_with_slash path then _ else _) as [[b|]|]; simpl in He; simplify_eq; [|done].
    destruct (create_dir _ _ _) as [[i|] fs']; simplify_eq; by apply set_fs_ok.
  - unfold sys_unlinkat in He. destruct path as [path|]; [|by simplify_eq].
    destruct (base_of v dirfd) as [[b|]|]; simpl in He; simplify_eq; [|done].
    destruct (fat_remove _ _); simplify_eq; [by apply set_fs_ok|done].
  - by eapply pipe2_ok.
  - apply set_fds_ok; [done|]. intros m n Hm. destruct (opened (v_fds v) (Z.to_nat fd)) as [f|] eqn:Ef.
    + destruct (sys_dup_ok _ _ _ Hfd Ef) as (k&l'&He'&_&Hl'). rewrite He in He'. simplify_eq.
      rewrite Hl' in Hm. case_decide; simplify_eq; eauto.
    + destruct (fd_errors (v_fds v) fd 0 Hfd Ef) as [He' _]. rewrite He in He'. simplify_eq. eauto.
  - apply set_fds_ok; [done|]. intros m n Hm. destruct (opened (v_fds v) (Z.to_nat fd)) as [f|] eqn:Ef.
    + destruct (decide (fd = new)) as [<-|Hne].
      * unfold sys_dup3 in He. simpl in He. rewrite get_fd_opened, Ef, Z.eqb_refl in He by done.
        destruct (_ <=? fd); simplify_eq; eauto.
      * destruct (sys_dup3_ok _ _ _ _ Hfd Hnew Hne Ef) as (l'&He'&Hl'). rewrite He in He'. simplify_eq.
        rewrite Hl' in Hm. case_decide; simplify_eq; eauto.
    + destruct (fd_errors (v_fds v) fd new Hfd Ef) as (_&He'&_). rewrite He in He'. simplify_eq. eauto.
  - apply set_fds_ok; [done|]. intros m n Hm. destruct (opened (v_fds v) (Z.to_nat fd)) as [f|] eqn:Ef.
    + destruct (sys_close_ok _ _ _ Hfd Ef) as (l'&He'&Hl'). rewrite He in He'. simplify_eq.
      rewrite Hl' in Hm. case_decide; simplify_eq; eauto.
    + destruct (fd_errors (v_fds v) fd 0 Hfd Ef) as (_&_&He'). rewrite He in He'. simplify_eq. eauto.
Qed.

Lemma vsteps_ok v v' : vfs_ok v → rtc vstep v v' → vfs_ok v'.
Proof. intros Hok Hr. induction Hr as [|v1 v2 v3 Hs _ IH]; [done|]. by apply IH, (vstep_ok v1). Qed.

Lemma vfs_init_ok fs : vfs_ok (vfs_init fs).
Proof.
  split; simpl.
  - exists []. split; [done|]. intros w Hw. by apply not_elem_of_nil in Hw.
  - done.
  - intros n Hn. rewrite !elem_of_cons in Hn. destruct Hn as [[= ->]|[[= ->]|[[= ->]|Hn]]]; [lia..|].
    by apply not_elem_of_nil in Hn.
  - intros i Hi. rewrite !elem_of_cons in Hi. destruct Hi as [|[|[|Hi]]]; try done. by apply not_elem_of_nil in Hi.
Qed.


Lemma add_file_spec (v : V) f :
  ∃ n v', add_file v f = Done (Z.of_nat n, v') ∧ least_free (v_fds v) n ∧ file_at v' (Z.of_nat n) = Some f ∧
    v_cwd v' = v_cwd v ∧ ∀ m, m ≠ n → opened (v_fds v') m = opened (v_fds v) m.
Proof.
  unfold add_file. destruct (install_ok (v_fds v) (length (v_files v))) as (n&l'&->&Hl&Hop). simpl.
  eexists n, _. split; [done|]. split; [done|]. split; [|split; [done|]].
  - unfold file_at. rewrite get_fd_opened, Nat2Z.id by lia. simpl. rewrite Hop, decide_True by done. simpl.
    by rewrite list_lookup_middle.
  - intros m Hm. simpl. by rewrite Hop, decide_False.
Qed.

(** [openat] with valid flags and mode, on the working directory or an open
    directory, returns: either -1, and then no descriptor changed, or the
    smallest free descriptor, which now refers to the file or directory at the
    resolved path (a directory when O_DIRECTORY was given), and no other
    descriptor changed. *)
Theorem openat_correct (v : V) (dirfd : Z) (path base : str) (flags mode : Z) :
  is_Some (from_bits open_flags_all flags) → is_Some (from_bits stat_mode_all mode) → base_of v dirfd = Done (Some base) →
  ∃ r v', sys_openat v dirfd path flags mode = Done (r, v') ∧ v_cwd v' = v_cwd v ∧
    ((r = -1 ∧ v_fds v' = v_fds v) ∨
     (∃ n i, r = Z.of_nat n ∧ least_free (v_fds v) n ∧ file_at v' r = Some (FInode i) ∧
        i_path i = resolve_path path base ∧ (∀ m, m ≠ n → opened (v_fds v') m = opened (v_fds v) m) ∧
        (contains flags O_DIRECTORY = true → ∃ d, i_file i = FatDir d))).
Proof.
  intros [fl Hfl] [m Hm] Hb. unfold sys_openat. rewrite Hfl, Hm, Hb. simpl.
  assert (fl = flags) as -> by (unfold from_bits in Hfl; by destruct (_ =? 0); simplify_eq).
  destruct (open_file_at _ _ _ _) as [[i|] fs'] eqn:Eo; [|eexists _, _; split; [done|]; split; [done|]; by left].
  apply open_file_at_path in Eo. destruct (add_file_spec (set_fs fs' v) (FInode i)) as (n&v'&Ha&Hl&Hf&Hc&Hoth).
  assert (Hok : (contains flags O_DIRECTORY = true → ∃ d, i_file i = FatDir d) → ∃ r w,
    add_file (set_fs fs' v) (FInode i) = Done (r, w) ∧ v_cwd w = v_cwd v ∧ ((r = -1 ∧ v_fds w = v_fds v) ∨
     (∃ n i, r = Z.of_nat n ∧ least_free (v_fds v) n ∧ file_at w r = Some (FInode i) ∧ i_path i = resolve_path path base ∧
        (∀ m, m ≠ n → opened (v_fds w) m = opened (v_fds v) m) ∧ (contains flags O_DIRECTORY = true → ∃ d, i_file i = FatDir d)))).
  { intros Hd. exists n, v'. split; [done|]. split; [done|]. right. by exists n, i. }
  destruct (contains flags O_DIRECTORY) eqn:Ed; [|by apply Hok].
  destruct (i_file i) as [f|d] eqn:Ei; [eexists _, _; split; [done|]; split; [done|]; by left|]. apply Hok. eauto.
Qed.

(** [pipe2] gives the two smallest free descriptors: the first is the
    reading end and the second the writing end of one fresh, empty pipe. *)
Theorem pipe2_correct (v : V) :
  ∃ r w v', sys_pipe2 v 0 = Done (0, Some (Z.of_nat r, Z.of_nat w), v') ∧ least_free (v_fds v) r ∧ r ≠ w ∧
    file_at v' r = Some (FPipe read_end_with_buffer (length (v_rings v))) ∧
    file_at v' w = Some (FPipe write_end_with_buffer (length (v_rings v))) ∧
    ∀ m, m ≠ r → m ≠ w → opened (v_fds v') m = opened (v_fds v) m.
Proof.
  unfold sys_pipe2, make_pipe. change (from_bits open_flags_all 0) with (Some 0). cbv beta iota zeta. simpl negb. cbv iota.
  change (contains 0 O_NONBLOCK) with false. cbv iota.
  set (v0 := mkVfs (v_fs v) (v_files v) _ _ _ _).
  unfold add_file. destruct (install_ok (v_fds v0) (length (v_files v0))) as (r&l1&->&Hl1&Hop1). cbn [mbind outcome_bind].
  set (v1 := mkVfs (v_fs v0) _ _ _ _ l1).
  destruct (install_ok (v_fds v1) (length (v_files v1))) as (w&l2&->&Hl2&Hop2). cbn [mbind outcome_bind].
  assert (Hrw : r ≠ w). { intros <-. destruct Hl2 as [Hf _]. simpl in Hf. by rewrite Hop1, decide_True in Hf. }
  eexists r, w, _. split; [done|]. split; [done|]. split; [done|]. unfold file_at. rewrite !get_fd_opened, !Nat2Z.id by lia. simpl in *.
  split; [|split].
  - rewrite Hop2, decide_False, Hop1, decide_True by done. simpl. rewrite lookup_app_l by (rewrite length_app; simpl; lia).
    by rewrite list_lookup_middle.
  - rewrite Hop2, decide_True by done. simpl. by rewrite list_lookup_middle.
  - intros m Hr Hw. by rewrite Hop2, decide_False, Hop1, decide_False.
Qed.

(** ** What the code does not do *)

(** [openat] relative to descriptor 0, 1 or 2 of a fresh process panics the
    kernel: [is_dir] of standard input and output is [todo!()]. *)
Theorem openat_on_stdio_panics (v : V) (dirfd : Z) (path : str) (flags mode : Z) :
  is_Some (from_bits open_flags_all flags) → dirfd ≠ AT_FDCWD →
  file_at v dirfd = Some FStdin ∨ file_at v dirfd = Some FStdout → sys_openat v dirfd path flags mode = Panic.
Proof.
  intros [fl Hfl] Hd Hf. unfold sys_openat, base_of. rewrite Hfl, (proj2 (Z.eqb_neq _ _)) by done.
  destruct Hf as [-> | ->]; done.
Qed.

(** [fstat] of a descriptor beyond the table panics the kernel. *)
Theorem fstat_out_of_range_panics (v : V) (fd : Z) : Z.of_nat (length (v_fds v)) <= fd → fd ≠ AT_FDCWD → sys_fstat v fd = Panic.
Proof.
  intros Hfd Hne. unfold sys_fstat. rewrite (proj2 (Z.eqb_neq _ _)) by done. by rewrite lookup_ge_None_2 by lia.
Qed.

(** [openat] never opens a regular file without read permission:
    [contains(RDONLY)] holds of all flags, so O_WRONLY files are readable; and
    [fstat] of a file just opened reports size 0 whatever the file holds. *)
Theorem openat_always_readable (fs fs' : FS) (base path : str) (flags : Z) (i : Inode) :
  open_file_at fs base path flags = (Some i, fs') → i_readable i = true ∧ i_size i = 0.
Proof.
  unfold open_file_at. assert (Hr : contains flags O_RDONLY = true) by (unfold contains; by rewrite Z.land_0_r).
  rewrite Hr. case_bool_decide; [by intros [= <- _]|]. destruct (fat_open_dir _ _ _); [by intros [= <- _]|].
  destruct (contains flags O_CREATE); [destruct (fat_create_file _ _) as [[f fs1]|]|];
    [|destruct (fat_open_file _ _)..]; intros Heq; simplify_eq/=; done.
Qed.
End props.

(** ** A file system in memory: one file, [/f] or [/initproc], read at most four bytes at a time *)

Definition mem_path (p : str) : bool :=
  bool_decide (p = [102]) || bool_decide (p = [47; 102]) || bool_decide (p = [105; 110; 105; 116; 112; 114; 111; 99]).

#[export, refine] Instance mem_fs : FatFs (list Z) unit Z := {
  fat_root _ := ();
  fat_open_dir _ _ p := if bool_decide (p = []) then Some () else None;
  fat_open_file _ p := if mem_path p then Some 0 else None;
  fat_create_file fs p := if mem_path p then Some (0, fs) else None;
  fat_create_dir _ _ _ := None;
  fat_remove _ _ := None;
  fat_truncate _ _ := Some (0, []);
  fat_entries _ _ := Some [([102], false)];
  fat_read_file fs pos n := let bs := take (Z.to_nat (Z.min n 4)) (drop (Z.to_nat pos) fs) in Some (bs, pos + length bs);
  fat_write_file fs pos bs := Some (Z.of_nat (length bs), pos + length bs, splice fs (Z.to_nat pos) bs);
  fat_seek_start _ _ o := Some o;
  fat_seek_end fs _ := Some (Z.of_nat (length fs), Z.of_nat (length fs));
  fat_content fs _ := fs;
  fat_pos pos := pos;
}.
Proof.
  - intros fs pos n Hn Hp. eexists _, _. split; [done|]. rewrite length_take, length_drop.
    split; [|split; [lia|split; [|done]]].
    + destruct (decide (Z.to_nat (Z.min n 4) <= length fs - Z.to_nat pos)%nat).
      * by rewrite Nat.min_l.
      * rewrite Nat.min_r by lia. rewrite !take_ge by (rewrite length_drop; lia). done.
    + intros He. apply (f_equal length) in He. rewrite length_take, length_drop in He. simpl in He. lia.
  - intros fs pos bs Hp. eexists _, _, _. split; [done|]. split; [lia|]. split; [done|].
    unfold splice. rewrite Nat2Z.id, firstn_all, Z2Nat.inj_add, Nat2Z.id by lia. done.
Defined.

Definition fs0 : list Z := [1; 2; 3; 4; 5; 6; 7].
Definition inode0 : @OSInode unit Z := inode_new true true (FatFile 2) false [47; 102].

Lemma read_all_correct_witness :
  ∃ i', read_all fs0 inode0 = Done (drop (Z.to_nat (fat_pos 2)) (fat_content fs0 2), i') ∧
    ∃ f', i_file i' = FatFile f' ∧ rest fs0 f' = [].
Proof. refine (read_all_correct fs0 inode0 2 _ _); [reflexivity|simpl; lia]. Defined.

Lemma inode_read_correct_witness :
  ∃ bs f', inode_read fs0 inode0 [4; 4] = Done (bs, with_file inode0 (FatFile f')) ∧ rest fs0 2 = bs ++ rest fs0 f' ∧
    fat_content fs0 f' = fat_content fs0 2 ∧ Z.of_nat (length bs) <= foldr Z.add 0 [4; 4] ∧ fat_pos f' = fat_pos 2 + length bs.
Proof. refine (inode_read_correct fs0 inode0 2 [4; 4] _ _ _); [reflexivity|simpl; lia|repeat constructor; lia]. Defined.

Lemma inode_write_correct_witness :
  ∃ k i' f' fs', inode_write fs0 inode0 [[8; 9]; [10]] = Done (Z.of_nat k, i', fs') ∧ i_file i' = FatFile f' ∧
    (k <= length (concat [[8; 9]; [10]]))%nat ∧ fat_pos f' = fat_pos 2 + k ∧
    fat_content fs' f' = splice (fat_content fs0 2) (Z.to_nat (fat_pos 2)) (take k (concat [[8; 9]; [10]])).
Proof. refine (inode_write_correct fs0 inode0 2 [[8; 9]; [10]] _ _); [reflexivity|simpl; lia]. Defined.


Lemma openat_correct_witness :
  ∃ r v', sys_openat (vfs_init fs0) AT_FDCWD [102] 0 0 = Done (r, v') ∧ v_cwd v' = v_cwd (vfs_init fs0) ∧
    ((r = -1 ∧ v_fds v' = v_fds (vfs_init fs0)) ∨
     (∃ n i, r = Z.of_nat n ∧ least_free (v_fds (vfs_init fs0)) n ∧ file_at v' r = Some (FInode i) ∧
        i_path i = resolve_path [102] [SLASH] ∧ (∀ m, m ≠ n → opened (v_fds v') m = opened (v_fds (vfs_init fs0)) m) ∧
        (contains 0 O_DIRECTORY = true → ∃ d, i_file i = FatDir d))).
Proof.
  refine (openat_correct (vfs_init fs0) AT_FDCWD [102] [SLASH] 0 0 _ _ _); [by eexists|by eexists|reflexivity].
Defined.

Lemma openat_on_stdio_panics_witness : sys_openat (vfs_init fs0) 0 [102] 0 0 = Panic.
Proof. refine (openat_on_stdio_panics (vfs_init fs0) 0 [102] 0 0 _ _ _); [by eexists|done|by left]. Defined.

Lemma fstat_out_of_range_panics_witness : sys_fstat (vfs_init fs0) 3 = Panic.
Proof. refine (fstat_out_of_range_panics (vfs_init fs0) 3 _ _); [simpl; lia|done]. Defined.

Lemma openat_always_readable_witness :
  let i := inode_new true true (FatFile 0) false [47; 102] : @OSInode unit Z in i_readable i = true ∧ i_size i = 0.
Proof.
  refine (openat_always_readable fs0 fs0 [SLASH] [102] O_WRONLY (inode_new true true (FatFile 0) false [47; 102]) _). reflexivity.
Defined.
