(* ===== verification/ProcCalls.v ===== *)
(** * Calls that answer a process
    (the rest of [os/src/syscall/process.rs], [sys_getcwd] of [os/src/syscall/fs.rs])

    [brk], [mmap] and [munmap] change the address space of the caller; [times],
    [uname], [gettimeofday] and [getcwd] fill in a buffer of the caller. *)

From S2P Require Import Prelude Address PhysMem IdAlloc FrameAlloc PageTable Sv39 UserMem MemorySet MapAreaSpec.
From S2P Require Import MemorySetSpec MemorySetOps Mmap Fork UserCopy SpaceProps TrapCx Timer FdTable.

(** ** Address space *)

Definition sys_brk (ms : MemorySet SV39PageTable) (addr : Z) : K KMem (MemorySet SV39PageTable * Z) :=
  if addr =? 0 then mret (ms, as_isize (brk ms))
  else if addr <? brk ms then mret (ms, as_isize (brk ms))
  else
    '(ms', r) ← expand_heap ms addr;
    match r with
    | Err _ => mret (ms', -1)
    | Ok _ => mret (mkMS (page_table ms') (areas ms') addr (heap_start ms'), as_isize addr)
    end.

Definition sys_munmap (ms : MemorySet SV39PageTable) (start len : Z) : K KMem (MemorySet SV39PageTable * Z) :=
  '(ms', r) ← munmap ms start len;
  mret (ms', match r with Ok _ => 0 | Err e => e end).

(** [fds] is the descriptor table. *)
Definition sys_mmap (fds : list (option MappedFile)) (ms : MemorySet SV39PageTable) (start len prot flags fd off : Z)
    : K KMem (MemorySet SV39PageTable * Z) :=
  let file := if 0 <=? fd then get_fd fds fd else None in
  '(ms', r) ← mmap ms start len prot flags file off;
  mret (ms', match r with Ok addr => as_isize addr | Err e => e end).

(** ** Answers; [m] is physical memory *)

(** The argument of [exit_current_and_run_next] in [sys_exit]. *)
Definition exit_status (exit_code : Z) : Z := Z.shiftl (Z.land exit_code 0xff) 8.

Definition sys_getpid (pid : Z) : Z := as_isize pid.

Definition tms_words (r : Rusage) : list Z :=
  [tv_to_tick (ru_utime r); tv_to_tick (ru_stime r); tv_to_tick (ru_cutime r); tv_to_tick (ru_cstime r)].

(** [now] is the tick counter. *)
Definition sys_times (m : mem) (token : Z) (r : Rusage) (now tms_ptr : Z) : outcome (Z * mem) :=
  translated_refmut m token tms_ptr ;;
  m' ← copy_to_user token (word_bytes (tms_words r)) tms_ptr m;
  Done (as_isize now, m').

Definition sys_gettimeofday (m : mem) (token now tv : Z) : outcome (Z * mem) :=
  if tv =? 0 then Done (0, m)
  else
    let time_val := tv_now now in
    m' ← copy_to_user token (word_bytes [tv_sec time_val; tv_usec time_val]) tv m;
    Done (0, m').

Definition FIELD_OFFSET : Z := 65.
Definition UTSNAME_SIZE : Z := 6 * 65.

Definition uname_fields : list (list Z) :=
  [[99; 117; 116; 101; 99; 111; 114; 101; 0];
   [120; 101; 105; 110; 110; 105; 111; 117; 115; 0];
   [53; 46; 48; 46; 48; 45; 114; 105; 115; 99; 118; 54; 52; 0];
   [35; 49; 32; 83; 77; 80; 32; 88; 101; 105; 110; 45; 82; 101; 118; 111; 32; 54; 46; 49; 53; 46; 50; 45; 97; 114; 99;
    104; 49; 45; 49; 32; 40; 50; 48; 50; 53; 45; 48; 54; 45; 49; 48; 41; 0];
   [114; 105; 115; 99; 118; 54; 52; 0];
   [0]].

(** The calls of [write_buffer], one after the other; [k] is the number of the next field. *)
Fixpoint write_fields (b : list uslice) (k : Z) (fields : list (list Z)) (m : mem) : outcome mem :=
  match fields with
  | [] => Done m
  | f :: fields' => '(_, m') ← ub_write_buffer b (Some (FIELD_OFFSET * k)) f m; write_fields b (k + 1) fields' m'
  end.

Definition sys_uname (m : mem) (token utsname_ptr : Z) : outcome (Z * mem) :=
  buffer ← translated_byte_buffer m token utsname_ptr UTSNAME_SIZE;
  m' ← write_fields buffer 0 uname_fields m;
  Done (0, m').

(** [cwd] is the text of the path. *)
Definition sys_getcwd (m : mem) (token : Z) (cwd : list Z) (buf len : Z) : outcome (Z * mem) :=
  if len <? length cwd + 1 then Done (-34, m)
  else
    buffer ← translated_byte_buffer m token buf len;
    Done (as_isize buf, (write_string buffer cwd m).2).

(** ** Writing a string *)

(** The same loop over the addresses of the bytes. *)
Fixpoint ws_addrs (src A : list Z) (cur : Z) (m : mem) : mem :=
  match A with
  | [] => m
  | x :: A' =>
      if cur <? length src then ws_addrs src A' (cur + 1) (store_bytes m x [default 0 (src !! Z.to_nat cur)])
      else store_bytes m x [0]
  end.

Lemma ws_buffers_addrs src b : ∀ cur m, cur <= length src →
  (ws_buffers src b cur m).2 = ws_addrs src (uaddrs b) cur m.
Proof.
  induction b as [|[a n] b IH]; intros cur m Hc; [done|]. change (uaddrs ((a, n) :: b)) with (seqZ a n ++ uaddrs b).
  cbn [ws_buffers]. unfold seqZ. generalize (Z.to_nat n). intros k. clear n. revert a cur m Hc.
  induction k as [|k IHk]; intros a cur m Hc; cbn [ws_bytes seq fmap list_fmap app]; [by apply IH|].
  cbn [ws_addrs]. destruct (Z.ltb_spec cur (length src)).
  - rewrite IHk by lia. rewrite <- seq_shift, <- list_fmap_compose.
    replace (Z.of_nat 0 + a) with a by lia. f_equal. f_equal. apply list_fmap_ext. intros i x _. simpl. lia.
  - rewrite (proj2 (Z.eqb_eq cur (length src))) by lia. by replace (Z.of_nat 0 + a) with a by lia.
Qed.

Lemma ws_addrs_ok src A : ∀ cur m, NoDup A → 0 <= cur <= length src →
  (∀ x, x ∉ A → ws_addrs src A cur m x = m x) ∧
  ∀ (j : nat) x, A !! j = Some x → ws_addrs src A cur m x =
    if decide (cur + j <= length src) then default 0 ((src ++ [0]) !! Z.to_nat (cur + j)) else m x.
Proof.
  induction A as [|y A IH]; intros cur m Hnd Hc; [done|]. apply NoDup_cons in Hnd as [Hy Hnd]. cbn [ws_addrs].
  assert (Hst : ∀ c x, x ≠ y → store_bytes m y [c] x = m x) by (intros c x Hx; apply store_bytes_out; simpl; lia).
  assert (Hsy : ∀ c, store_bytes m y [c] y = c) by (intros c; rewrite store_bytes_at, decide_True by (simpl; lia); by rewrite Z.sub_diag).
  destruct (Z.ltb_spec cur (length src)) as [Hlt|Hge].
  - destruct (IH (cur + 1) (store_bytes m y [default 0 (src !! Z.to_nat cur)]) Hnd ltac:(lia)) as [H1 H2]. split.
    + intros x [Hx HxA]%not_elem_of_cons. by rewrite H1, Hst.
    + intros [|j] x Hj; simpl in Hj.
      * injection Hj as <-. rewrite H1, Hsy, decide_True by (done || lia). rewrite Z.add_0_r, lookup_app_l by lia. done.
      * rewrite (H2 j x Hj). replace (cur + 1 + j) with (cur + S j) by lia. case_decide; [done|]. apply Hst.
        intros ->. by apply Hy, (list_elem_of_lookup_2 A j).
  - split.
    + intros x [Hx HxA]%not_elem_of_cons. by apply Hst.
    + intros [|j] x Hj; simpl in Hj.
      * injection Hj as <-. rewrite Hsy, decide_True by lia. rewrite Z.add_0_r.
        replace (Z.to_nat cur) with (length src + 0)%nat by lia. by rewrite lookup_app_r, Nat.add_sub_swap, Nat.sub_diag by lia.
      * rewrite decide_False by lia. apply Hst. intros ->. by apply Hy, (list_elem_of_lookup_2 A j).
Qed.

Lemma write_string_ok b src m : NoDup (uaddrs b) → written m (write_string b src m).2 (uaddrs b) (src ++ [0]) 0 0 (length src + 1).
Proof.
  intros Hnd. unfold write_string. rewrite ws_buffers_addrs by lia.
  destruct (ws_addrs_ok src (uaddrs b) 0 m Hnd ltac:(lia)) as [H1 H2]. split; [done|]. intros j x Hj. rewrite (H2 j x Hj).
  rewrite Z.add_0_l, Z.sub_0_r. repeat case_decide; done || lia.
Qed.

(** ** Filling in a buffer *)

Lemma write_fields_ok b A fields : ∀ k m,
  Forall (λ s : uslice, 0 < s.2) b → A = uaddrs b → NoDup A → 0 <= k →
  Forall (λ f : list Z, length f <= 65) fields → 65 * (k + length fields) <= length A →
  ∃ m', write_fields b k fields m = Done m' ∧ (∀ x, x ∉ A → m' x = m x) ∧
    (∀ (j : nat) x, A !! j = Some x → j < 65 * k → m' x = m x) ∧
    ∀ (i : nat) f (j : nat) c x, fields !! i = Some f → f !! j = Some c → A !! Z.to_nat (65 * (k + i) + j) = Some x → m' x = c.
Proof.
  induction fields as [|f fields IH]; intros k m Hb HA Hnd Hk Hf Hlen; [by exists m|].
  apply Forall_cons in Hf as [Hf Hfs]. simpl in Hlen. cbn [write_fields].
  destruct (ub_write_ok b (FIELD_OFFSET * k) f m) as (n&m1&->&Hn&Hout&Hin); [done|unfold FIELD_OFFSET; lia|by rewrite <- HA|].
  rewrite <- HA in Hn, Hout, Hin. unfold FIELD_OFFSET, copied_upto in *. assert (n = length f) as -> by lia. cbn [mbind outcome_bind].
  destruct (IH (k + 1) m1) as (m'&->&O&L&F); try done; try lia. exists m'. split; [done|]. split; [|split].
  - intros x Hx. by rewrite O, Hout.
  - intros j x Hj Hlt. rewrite (L j x Hj), (Hin j x Hj), decide_False by lia. done.
  - intros [|i] f' j c x Hi Hc Hx; simpl in Hi.
    + injection Hi as <-. pose proof (lookup_lt_Some _ _ _ Hc). rewrite (L _ x Hx), (Hin _ x Hx), decide_True by lia.
      replace (Z.to_nat (Z.to_nat (65 * (k + 0%nat) + j) - 65 * k)) with j by lia. by rewrite Hc.
    + apply (F i f' j c x Hi Hc). rewrite <- Hx. f_equal. lia.
Qed.

Lemma uname_bounds (i j : nat) f c : uname_fields !! i = Some f → f !! j = Some c → 65 * i + j < UTSNAME_SIZE.
Proof.
  intros Hi Hj. apply lookup_lt_Some in Hj. assert (Hf : length f <= 65).
  { assert (H : Forall (λ f : list Z, length f <= 65) uname_fields) by (repeat constructor; vm_compute; congruence).
    rewrite Forall_forall in H. apply H. by eapply list_elem_of_lookup_2. }
  apply lookup_lt_Some in Hi. change (length uname_fields) with 6%nat in Hi. unfold UTSNAME_SIZE. lia.
Qed.

Section answers.
Context (s : KMem) (ms : MemorySet SV39PageTable) (a : MapArea).
Context (Hok : ms_ok s ms) (Ha : a ∈ areas ms) (Hty : map_type a = Framed).

(** The byte at a user address; the tables do not change. *)
Definition ubyte (m : mem) (va : Z) : Z := m (phys (km_mem s) (sv39_from_token (token ms)) va).

(** [n] bytes of the area. *)
Definition in_user (lo n : Z) : Prop :=
  0 <= lo ∧ 0 < n ∧ lo + n < 2 ^ 38 ∧ ∀ va, lo <= va < lo + n → in_area a (va / 4096).

(** What a call leaves that wrote the strings of [l], each with its address,
    into the [n] bytes at [lo]. *)
Definition answered (lo n : Z) (l : list (Z * list Z)) (m : mem) : Prop :=
  ms_ok (with_mem (λ _, m) s) ms ∧
  (∀ x, x ∉ range_addrs s ms lo n → m x = km_mem s x) ∧
  ∀ va bs (j : nat) c, (va, bs) ∈ l → bs !! j = Some c → ubyte m (va + j) = c.

Lemma answer_ms_ok lo n m : in_user lo n → (∀ x, x ∉ range_addrs s ms lo n → m x = km_mem s x) → ms_ok (with_mem (λ _, m) s) ms.
Proof using Hok Ha Hty.
  intros (H0&Hn&Hl&Hin) Hout. eapply ms_ok_write; [done|done|].
  assert (Hm : same_outside (λ p, p ∈ area_frames a) (km_mem s) m).
  { intros x Hx. apply Hout. intros Hr. by apply Hx, (range_addrs_frames s ms a Hok Ha Hty lo n). }
  eapply same_outside_mono; [exact Hm|]. intros p. by apply elem_areas_frames.
Qed.

Lemma answered_written lo n src m :
  in_user lo n → Z.of_nat (length src) <= n → written (km_mem s) m (range_addrs s ms lo n) src 0 0 (length src) → answered lo n [(lo, src)] m.
Proof using Hok Ha Hty.
  intros Hu Hlen [Hout Hin]. split; [by eapply answer_ms_ok|]. split; [done|].
  intros va bs j c [[= -> ->]|[]%elem_of_nil]%elem_of_cons Hj. pose proof (lookup_lt_Some _ _ _ Hj).
  unfold ubyte. rewrite (Hin j); [|apply range_lookup; lia]. rewrite decide_True by lia. by rewrite Z.sub_0_r, Nat2Z.id, Hj.
Qed.

Lemma copy_answered lo src :
  in_user lo (length src) → ∃ m', copy_to_user (token ms) src lo (km_mem s) = Done m' ∧ answered lo (length src) [(lo, src)] m'.
Proof using Hok Ha Hty.
  intros Hu. pose proof Hu as (H0&Hn&Hl&Hin).
  destruct (copy_to_user_ok s ms a Hok Ha Hty lo (length src) H0 Hn Hl Hin src eq_refl) as (m'&Hc&Hw).
  exists m'. split; [done|]. by apply answered_written.
Qed.

Lemma buffer_answered lo n :
  in_user lo n → ∃ b, translated_byte_buffer (km_mem s) (token ms) lo n = Done b ∧ uaddrs b = range_addrs s ms lo n ∧
    Forall (λ s : uslice, 0 < s.2) b ∧ NoDup (range_addrs s ms lo n) ∧ Z.of_nat (length (range_addrs s ms lo n)) = n.
Proof using Hok Ha Hty.
  intros (H0&Hn&Hl&Hin). pose proof (same_outside_refl (λ p, p ∈ area_frames a) (km_mem s)) as Hm.
  destruct (tbb_ok (km_mem s) (token ms) lo n) as (b&Hb&Hu&Hall); [by apply (range_user s ms a Hok Ha Hty lo n H0 Hl Hin)|lia|lia|].
  exists b. split; [done|]. split; [done|]. split; [eapply Forall_impl; [done|]; simpl; lia|].
  split; [by apply (range_addrs_nodup s ms a Hok Ha Hty lo n Hin)|by apply range_addrs_length].
Qed.

(** The calls that answer into a buffer of the caller, on a mapped range:
    [uname] writes its six fields at their offsets, [times] the four counters in
    ticks, [gettimeofday] the time unless the pointer is null, [getcwd] the path
    with a final zero or -34 if it does not fit; each byte lands where the page
    table of the caller puts it, also across pages, no other byte changes, and
    the address space stays intact. *)
Theorem answers_correct :
  (∀ ptr, in_user ptr UTSNAME_SIZE → ∃ m', sys_uname (km_mem s) (token ms) ptr = Done (0, m') ∧
     answered ptr UTSNAME_SIZE (imap (λ k f, (ptr + 65 * Z.of_nat k, f)) uname_fields) m') ∧
  (∀ r now ptr, in_user ptr 32 → ∃ m', sys_times (km_mem s) (token ms) r now ptr = Done (as_isize now, m') ∧
     answered ptr 32 [(ptr, word_bytes (tms_words r))] m') ∧
  (∀ now, sys_gettimeofday (km_mem s) (token ms) now 0 = Done (0, km_mem s)) ∧
  (∀ now tv, tv ≠ 0 → in_user tv 16 → ∃ m', sys_gettimeofday (km_mem s) (token ms) now tv = Done (0, m') ∧
     answered tv 16 [(tv, word_bytes [tv_sec (tv_now now); tv_usec (tv_now now)])] m') ∧
  (∀ cwd buf len, len <= length cwd → sys_getcwd (km_mem s) (token ms) cwd buf len = Done (-34, km_mem s)) ∧
  (∀ cwd buf len, Z.of_nat (length cwd) < len → in_user buf len →
     ∃ m', sys_getcwd (km_mem s) (token ms) cwd buf len = Done (buf, m') ∧ answered buf len [(buf, cwd ++ [0])] m').
Proof using Hok Ha Hty.
  split; [|split; [|split; [done|split; [|split]]]].
  - intros ptr Hu. destruct (buffer_answered ptr UTSNAME_SIZE Hu) as (b&Hb&Hub&Hall&Hnd&Hlen).
    destruct (write_fields_ok b _ uname_fields 0 (km_mem s) Hall eq_refl) as (m'&Hw&Hout&_&Hf).
    { by rewrite Hub. } { lia. } { repeat constructor; vm_compute; congruence. }
    { rewrite Hub, Hlen. vm_compute. congruence. }
    rewrite Hub in Hout, Hf. exists m'. unfold sys_uname. rewrite Hb. cbn [mbind outcome_bind]. rewrite Hw. split; [done|].
    split; [by eapply answer_ms_ok|]. split; [done|]. intros va bs j c Hin Hj.
    apply list_elem_of_lookup in Hin as (i&Hi). rewrite list_lookup_imap in Hi.
    destruct (uname_fields !! i) as [f|] eqn:Ef; [|done]. injection Hi as <- <-.
    assert (Hij : 65 * i + j < UTSNAME_SIZE) by by eapply uname_bounds.
    apply (Hf i f j c _ Ef Hj). rewrite Z.add_0_l. unfold ubyte. rewrite range_lookup by lia. do 2 f_equal. lia.
  - intros r now ptr Hu. destruct (copy_answered ptr (word_bytes (tms_words r)) Hu) as (m'&Hc&Hans).
    exists m'. split; [|done]. unfold sys_times. destruct Hu as (H0&Hn&Hl&Hin).
    change (translated_refmut (km_mem s)) with (translated_ref (km_mem s)).
    rewrite (translated_ref_range s ms a Hok Ha Hty ptr 32) by (done || lia || apply same_outside_refl).
    cbn [mbind outcome_bind]. by rewrite Hc.
  - intros now tv Htv Hu. destruct (copy_answered tv (word_bytes [tv_sec (tv_now now); tv_usec (tv_now now)]) Hu) as (m'&Hc&Hans).
    exists m'. split; [|done]. unfold sys_gettimeofday. rewrite (proj2 (Z.eqb_neq tv 0)) by done. cbn zeta. by rewrite Hc.
  - intros cwd buf len Hlen. unfold sys_getcwd. by rewrite (proj2 (Z.ltb_lt len _)) by lia.
  - intros cwd buf len Hlen Hu. unfold sys_getcwd. rewrite (proj2 (Z.ltb_ge len _)) by lia.
    destruct (buffer_answered buf len Hu) as (b&Hb&Hub&_&Hnd&_). rewrite Hb. cbn [mbind outcome_bind].
    destruct Hu as (H0&Hn&Hl&Hin). eexists. split; [unfold as_isize, wrap64; rewrite Z.mod_small by lia; by rewrite (proj2 (Z.ltb_lt buf _)) by lia|].
    apply answered_written; [done|rewrite length_app; simpl; lia|].
    pose proof (write_string_ok b cwd (km_mem s)) as Hw. rewrite Hub in Hw. specialize (Hw Hnd).
    replace (Z.of_nat (length (cwd ++ [0]))) with (length cwd + 1) by (rewrite length_app; simpl; lia). done.
Qed.
End answers.

(** ** The heap *)

Definition heap_page (z : Z) : Z := (z + 4095) / 4096.

(** [brk].  An address of 0 or below the end of the heap changes nothing and
    returns the end.  Any other address below the middle of the address space,
    with the way free and enough frames, becomes the end of the heap and is
    returned: the pages up to it that were not there are mapped for reading and
    writing, zero-filled, in new frames, and nothing else changes. *)
Theorem brk_correct s (ms : MemorySet SV39PageTable) addr :
  fa_wf (km_fa s) → ms_ok s ms → 0 <= brk ms < 2 ^ 38 - 4096 → 0 <= addr < 2 ^ 38 - 4096 →
  (∀ a v, a ∈ areas ms → heap_page (brk ms) <= v < heap_page addr → ¬ in_area a v) →
  3 * (heap_page addr - heap_page (brk ms)) <= fa_free (km_fa s) →
  wp (sys_brk ms addr) s (λ '(ms', r) s',
    if decide (addr = 0 ∨ addr < brk ms) then r = brk ms ∧ ms' = ms ∧ s' = s
    else r = addr ∧ brk ms' = addr ∧ heap_start ms' = heap_start ms ∧ ms_ok s' ms' ∧
      if decide (heap_page (brk ms) < heap_page addr) then
        ∃ a new, areas ms' = areas ms ++ [a] ∧ grows s new s' ∧
          area_spec a (heap_page (brk ms)) (heap_page addr) (Z.lor (Z.lor PERM_R PERM_W) PERM_U) ∧
          (∀ v, in_area a v → zero_page (km_mem s') new a v) ∧
          ∀ v, is_vpn v → ¬ in_area a v →
            sv39_lookup (km_mem s') (page_table ms') v = sv39_lookup (km_mem s) (page_table ms) v
      else areas ms' = areas ms ∧ page_table ms' = page_table ms ∧ s' = s).
Proof.
  intros Hfa Hok Hb Ha Hway Hfree. unfold sys_brk.
  assert (Hi : ∀ z, 0 <= z < 2 ^ 38 - 4096 → as_isize z = z).
  { intros z Hz. rewrite <- (as_isize_small z) at 2 by lia. f_equal. symmetry. apply Z.mod_small. lia. }
  destruct (Z.eqb_spec addr 0); [wp_steps; rewrite decide_True by lia; by rewrite Hi|].
  destruct (Z.ltb_spec addr (brk ms)); [wp_steps; rewrite decide_True by lia; by rewrite Hi|].
  wp_steps. eapply wp_mono; [apply expand_heap_wp; done || lia|]. intros [ms1 r] s1 [-> H1]. wp_steps.
  rewrite decide_False by lia. fold (heap_page (brk ms)) (heap_page addr) in H1. split; [by apply Hi|]. split; [done|].
  cbn [heap_start areas page_table]. case_decide as Hlt.
  - destruct H1 as (a&new&a'&(HR&HY&HP)&P). destruct (pp_attrs _ _ _ _ _ _ _ P) as (HR'&HY'&HP').
    assert (Hin : ∀ v, in_area a' v ↔ in_area a v) by (intros v; unfold in_area; by rewrite HR').
    split; [apply (pp_brk _ _ _ _ _ _ _ P)|]. split; [apply ms_ok_brk, P|]. exists a', new. split; [apply P|]. split; [apply P|].
    split; [split; [congruence|split; congruence]|]. split.
    + intros v Hv%Hin. by apply (pp_zero _ _ _ _ _ _ _ P).
    + intros v Hv Hn. apply (pp_other _ _ _ _ _ _ _ P); [done|]. by rewrite <- Hin.
  - destruct H1 as [-> ->]. split; [done|]. split; [by apply ms_ok_brk|]. done.
Qed.

Lemma brk_correct_witness :
  wp (sys_brk demo.1 0x2800) demo.2 (λ '(ms', r) s', r = 0x2800 ∧ brk ms' = 0x2800 ∧ length (areas ms') = 2%nat).
Proof.
  destruct demo_facts as (Hfa&Hok&Hbrk&Hfree&a&Ha&HR&_). eapply wp_mono.
  - apply (brk_correct demo.2 demo.1 0x2800).
    + exact Hfa.
    + exact Hok.
    + rewrite Hbrk. lia.
    + lia.
    + intros a' v. rewrite Ha, Hbrk. intros [->|[]%elem_of_nil]%elem_of_cons. unfold in_area. rewrite HR. simpl.
      unfold heap_page. intros Hv. change ((0x2800 + 4095) / 4096) with 3 in Hv. lia.
    + rewrite Hbrk. change (3 * _) with 9. lia.
  - intros [ms' r] s'. rewrite decide_False by (rewrite Hbrk; lia). intros (Hr&Hb&_&_&H). split; [exact Hr|]. split; [exact Hb|].
    rewrite decide_True in H by (rewrite Hbrk; reflexivity). destruct H as (a'&new&Hareas&_). rewrite Hareas, Ha. reflexivity.
Defined.

Lemma answers_correct_witness :
  ∃ m', sys_getcwd (km_mem demo.2) (token demo.1) [47; 98; 105; 110] 0x10ffd 64 = Done (0x10ffd, m') ∧
        ubyte demo.2 demo.1 m' 0x11001 = 0.
Proof.
  destruct demo_facts as (_&Hok&_&_&a&Ha&HR&HY&_). assert (Hin : a ∈ areas demo.1) by (rewrite Ha; left).
  destruct (answers_correct demo.2 demo.1 a Hok Hin HY) as (_&_&_&_&_&H).
  destruct (H [47; 98; 105; 110] 0x10ffd 64) as (m'&Hm&_&_&Hb).
  - simpl. lia.
  - split; [lia|]. split; [lia|]. split; [lia|]. intros va Hva. unfold in_area. rewrite HR. simpl. zdiv_lia.
  - exists m'. split; [exact Hm|]. change 0x11001 with (0x10ffd + Z.of_nat 4). eapply Hb; [left|reflexivity].
Defined.

(** The status that [wait4] hands out holds the low byte of the exit code. *)
Lemma exit_status_byte code : 0 <= exit_status code < 2 ^ 16 ∧ Z.land (Z.shiftr (exit_status code) 8) 0xff = code mod 256 ∧ exit_status code mod 256 = 0.
Proof.
  unfold exit_status. change 0xff with (2 ^ 8 - 1). rewrite land_mask, Z.shiftl_mul_pow2, Z.shiftr_div_pow2, land_mask by lia.
  change (2 ^ 8) with 256. zdiv_lia.
Qed.
