(* ===== verification/Execve.v ===== *)
(** * [sys_execve] ([os/src/syscall/process.rs])

    The strings are read from the old address space, the program from the file
    system, and [exec] replaces the space. *)

From S2P Require Import Prelude Address PhysMem IdAlloc FrameAlloc PageTable Sv39 UserMem MemorySet MapAreaSpec.
From S2P Require Import MemorySetSpec MemorySetOps Mmap Fork Elf UserCopy UserRes StackProps TrapCx Exec SpaceProps ResProps ExecProps Path FdTable Pipe Vfs VfsProps.

Section execve.
Context {FS DirH FileH : Type} `{!FatFs FS DirH FileH}.
Context (elf_new : list Z → option ElfFile) (strampoline : Z).

(** [fuel] bounds the strings and vectors; the result is that of the call and,
    for a program that was started, the new [trap_cx_ppn]. *)
Definition sys_execve (fuel : nat) (k : KernelCx) (fs : FS) (cwd : str) (thread_count tid : Z)
    (path argv envp : Z) : K (Spaced SV39PageTable) (Z * option Z) :=
  s ← kget;
  let m := km_mem (sp_mem s) in
  let tok := token (sp_space s) in
  path ← klift (translated_str fuel m tok path);
  argv_vec ← klift (read_argv fuel m tok argv);
  envp_vec ← klift (read_argv fuel m tok envp);
  '(inode, _) ← klift (open_file fs cwd path O_RDONLY);
  match inode with
  | Some app_inode =>
      '(all_data, _) ← klift (read_all fs app_inode);
      ppn ← exec elf_new strampoline k thread_count tid all_data argv_vec;
      mret (0, Some ppn)
  | None => mret (-1, None)
  end.

Lemma open_rdonly fs cwd path :
  open_file fs cwd path O_RDONLY =
  Done ((λ f, inode_new true false (FatFile f) false (resolve_path path cwd)) <$>
          fat_open_file fs (path_in_fs (resolve_path path cwd)), fs).
Proof. unfold open_file. simpl. by destruct (fat_open_file fs _). Qed.

Lemma ascii_bytes a : Forall (λ c, c < 128) a → as_bytes a = a.
Proof.
  induction 1 as [|c a Hc _ IH]; [done|]. change (as_bytes (c :: a)) with (utf8_char c ++ as_bytes a).
  unfold utf8_char. by rewrite (proj2 (Z.ltb_lt c 128)), IH by done.
Qed.

(** [execve] of a file that does not exist returns -1 and changes nothing;
    otherwise the file is loaded as by [exec], and a vector of ASCII strings in
    the old address space is found again, at the address in [a1], in the new one. *)
Theorem execve_correct (fuel : nat) k (fs : FS) cwd tid (s : Spaced SV39PageTable) path argv envp p args env :
  let m := km_mem (sp_mem s) in let tok := token (sp_space s) in
  translated_str fuel m tok path = Done p → read_argv fuel m tok argv = Done args → read_argv fuel m tok envp = Done env →
  match fat_open_file fs (path_in_fs (resolve_path p cwd)) with
  | None => sys_execve fuel k fs cwd 1 tid path argv envp s = Done ((-1, None), s)
  | Some f => ∀ elf phs, fat_pos f = 0 →
      sp_ok s → tramp_ok strampoline → elf_new (fat_content fs f) = Some elf → elf_ok elf phs → phs_ok (fat_content fs f) phs →
      12 + 3 * total_pages (loads phs) <= sp_free s → kcx_ok k → is_usize (elf_entry_point elf) →
      0 <= tid < 6 → args_fit args → (∀ a, a ∈ args → Forall (λ c, 0 < c < 128) a) →
      wp (sys_execve fuel k fs cwd 1 tid path argv envp) s (λ '(r, o) s', r = 0 ∧ ∃ ppn, o = Some ppn ∧
        exec_post k tid (fat_content fs f) elf phs args s ppn s' ∧
        ∀ n : nat, 8192 <= n → read_argv n (km_mem (sp_mem s')) (token (sp_space s'))
          (get_reg (general_regs (get_trap_cx (km_mem (sp_mem s')) ppn)) r_a1) = Done args)
  end.
Proof.
  intros m tok Hp Ha He. unfold sys_execve.
  destruct (fat_open_file fs _) as [f|] eqn:Ef.
  - intros elf phs Hpos Hs Hst Hnew Helf Hphs Hfree Hk Hent Htid Hfit Hasc. wp_steps. eapply wp_lift; [exact Hp|]. wp_steps.
    eapply wp_lift; [exact Ha|]. wp_steps. eapply wp_lift; [exact He|]. wp_steps.
    eapply wp_lift; [by rewrite open_rdonly, Ef|]. cbn beta iota. cbn [fmap option_fmap option_map]. wp_steps.
    destruct (read_all_loop_ok (S (length (fat_content fs f))) fs f []) as (f'&Hr&_); [lia| |].
    { unfold rest. rewrite length_drop. lia. }
    assert (Hra : ∃ i', read_all fs (inode_new true false (FatFile f) false (resolve_path p cwd)) = Done (fat_content fs f, i')).
    { unfold read_all. cbn [i_file inode_new]. rewrite Hr. unfold rest. rewrite Hpos. by eexists. }
    destruct Hra as (i'&Hra). eapply wp_lift; [exact Hra|]. cbn beta iota. wp_steps.
    assert (Hnz : ∀ a, a ∈ args → as_bytes a = a ∧ 0 ∉ as_bytes a).
    { intros a Hin. assert (E : as_bytes a = a) by (apply ascii_bytes; eapply Forall_impl; [by apply Hasc|]; simpl; lia).
      split; [done|]. rewrite E. intros H0. pose proof (Hasc a Hin) as HF. rewrite Forall_forall in HF. specialize (HF 0 H0). lia. }
    eapply wp_mono; [by apply (exec_wp elf_new strampoline k tid s _ elf phs args); try done; intros a Hin; apply Hnz|].
    intros ppn s' P. wp_steps. split; [done|]. exists ppn. split; [done|]. split; [done|]. intros n Hn.
    rewrite (xp_cx _ _ _ _ _ _ _ _ _ P). change (get_reg _ r_a1) with (argv_addr (ustack_top tid) args).
    rewrite (xp_argv _ _ _ _ _ _ _ _ _ P n Hn). f_equal. rewrite <- (list_fmap_id args) at 2. apply list_fmap_ext.
    intros i a Hi. apply Hnz. by eapply list_elem_of_lookup_2.
  - unfold mbind, K_bind, kget, klift. cbn beta iota. fold m tok. rewrite Hp, Ha, He. cbn [mbind outcome_bind].
    rewrite open_rdonly, Ef. done.
Qed.
End execve.

(** The first string of a vector is somewhere. *)
Lemma read_argv_head fuel m tok argv x l :
  read_argv fuel m tok argv = Done (x :: l) → ∃ p, translated_str fuel m tok p = Done x.
Proof.
  unfold read_argv. destruct (argv =? 0); [done|]. destruct fuel as [|fuel]; [done|]. cbn [read_argv_loop].
  destruct (translated_ref m tok argv) as [a|]; [|done]. cbn [mbind outcome_bind]. destruct (load64 m a =? 0); [done|].
  destruct (translated_str (S fuel) m tok (load64 m a)) as [s|] eqn:E; [|done]. cbn [mbind outcome_bind].
  destruct (read_argv_loop _ _ _ _ _) as [rest|]; [|done]. intros H. injection H as -> _. by exists (load64 m a).
Qed.

Definition demo_args : list (list Z) := [[102]; [45; 97]].

Lemma demo_args_ok : args_fit demo_args ∧ ∀ a, a ∈ demo_args → Forall (λ c, 0 < c < 128) a.
Proof.
  split; [vm_compute; congruence|]. intros a. unfold demo_args. rewrite !elem_of_cons, elem_of_nil.
  intros [-> | [-> | []]]; repeat constructor; lia.
Qed.

Lemma execve_correct_witness :
  ∃ s path argv, wp (sys_execve (FS := list Z) demo_parse demo_st (Z.to_nat 8192) demo_k [7; 8; 9] [47] 1 0 path argv 0) s (λ '(r, o) s',
    r = 0 ∧ ∃ ppn, o = Some ppn ∧ read_argv (Z.to_nat 8192) (km_mem (sp_mem s')) (token (sp_space s'))
      (get_reg (general_regs (get_trap_cx (km_mem (sp_mem s')) ppn)) r_a1) = Done demo_args).
Proof.
  destruct demo_facts as (Hfa&Hok&_&Hfree&_). destruct demo_phs_facts as [He Hp]. destruct demo_args_ok as [Hfit Hasc].
  assert (Hk : kcx_ok demo_k) by (split; vm_compute; split; congruence).
  assert (Hent : is_usize (elf_entry_point demo_elf)) by (vm_compute; split; congruence).
  assert (Hs : sp_ok kdemo) by exact (conj Hfa Hok).
  assert (Hf : 36 <= sp_free kdemo) by (change (sp_free kdemo) with (fa_free (km_fa demo.2)); lia).
  assert (Hnz : ∀ a, a ∈ demo_args → 0 ∉ as_bytes a).
  { intros a Ha H0. rewrite ascii_bytes in H0 by (eapply Forall_impl; [exact (Hasc a Ha)|simpl; intros; lia]).
    pose proof (Hasc a Ha) as HF. rewrite Forall_forall in HF. specialize (HF 0 H0). lia. }
  pose proof (exec_wp demo_parse demo_st demo_k 0 kdemo [7; 8; 9] demo_elf [demo_ph] demo_args Hs demo_tramp eq_refl He Hp
    ltac:(change (12 + 3 * _) with 18; lia) Hk Hent ltac:(lia) Hfit Hnz) as W.
  destruct (proj1 (wp_done _ _ _) W) as (ppn&s&_&P). clear W.
  pose proof (xp_argv _ _ _ _ _ _ _ _ _ P (Z.to_nat 8192) ltac:(lia)) as Hargv. change (as_bytes <$> demo_args) with demo_args in Hargv.
  destruct (read_argv_head _ _ _ _ _ _ Hargv) as (path&Hpath).
  exists s, path, (argv_addr (ustack_top 0) demo_args). eapply wp_mono.
  - pose proof (execve_correct demo_parse demo_st (Z.to_nat 8192) demo_k ([7; 8; 9] : list Z) [47] 0 s path
      (argv_addr (ustack_top 0) demo_args) 0 [102] demo_args [] Hpath Hargv eq_refl) as H.
    change (fat_open_file ([7; 8; 9] : list Z) (path_in_fs (resolve_path [102] [47]))) with (Some 0) in H.
    apply (H demo_elf [demo_ph] eq_refl (xp_ok _ _ _ _ _ _ _ _ _ P) demo_tramp eq_refl He Hp).
    + pose proof (xp_free _ _ _ _ _ _ _ _ _ P) as Hf'. change (3 * total_pages (loads [demo_ph])) with 6 in *. lia.
    + exact Hk.
    + exact Hent.
    + lia.
    + exact Hfit.
    + exact Hasc.
  - intros [r o] s' [-> (ppn'&->&_&Hr)]. split; [reflexivity|]. exists ppn'. split; [reflexivity|]. apply Hr. lia.
Defined.
