(* ===== verification/Syscall.v ===== *)
(** * System call dispatch
    ([os/src/syscall/mod.rs]; the wrappers of [user/src/syscall.rs] and
    [user/src/lib.rs])

    The kernel turns a number and six words into a call with typed arguments;
    the user library does the opposite.  The handlers are an argument: their
    models are in the files of their components. *)

From S2P Require Import Prelude.

(** ** Casts *)

Definition as_u32 (a : Z) : Z := a mod 2 ^ 32.
Definition as_i32 (a : Z) : Z := let w := a mod 2 ^ 32 in if w <? 2 ^ 31 then w else w - 2 ^ 32.
(** [i32 as usize] and [isize as usize]: sign extension *)
Definition as_usize (a : Z) : Z := wrap64 a.

(** ** Numbers *)

Definition SYSCALL_GETCWD : Z := 17.
Definition SYSCALL_DUP : Z := 23.
Definition SYSCALL_DUP3 : Z := 24.
Definition SYSCALL_MKDIRAT : Z := 34.
Definition SYSCALL_UNLINKAT : Z := 35.
Definition SYSCALL_UMOUNT2 : Z := 39.
Definition SYSCALL_MOUNT : Z := 40.
Definition SYSCALL_CHDIR : Z := 49.
Definition SYSCALL_OPENAT : Z := 56.
Definition SYSCALL_CLOSE : Z := 57.
Definition SYSCALL_PIPE2 : Z := 59.
Definition SYSCALL_GETDENTS64 : Z := 61.
Definition SYSCALL_READ : Z := 63.
Definition SYSCALL_WRITE : Z := 64.
Definition SYSCALL_FSTAT : Z := 80.
Definition SYSCALL_EXIT : Z := 93.
Definition SYSCALL_NANOSLEEP : Z := 101.
Definition SYSCALL_YIELD : Z := 124.
Definition SYSCALL_TIMES : Z := 153.
Definition SYSCALL_UNAME : Z := 160.
Definition SYSCALL_GET_TIME_OF_DAY : Z := 169.
Definition SYSCALL_GETPID : Z := 172.
Definition SYSCALL_GETPPID : Z := 173.
Definition SYSCALL_BRK : Z := 214.
Definition SYSCALL_MUNMAP : Z := 215.
Definition SYSCALL_CLONE : Z := 220.
Definition SYSCALL_EXECVE : Z := 221.
Definition SYSCALL_MMAP : Z := 222.
Definition SYSCALL_WAIT4 : Z := 260.

(** ** Calls *)

Inductive Call :=
| Copenat (dirfd path flags mode : Z)
| Cclose (fd : Z)
| Cread (fd buf len : Z)
| Cwrite (fd buf len : Z)
| Cgetcwd (buf len : Z)
| Cdup (fd : Z)
| Cdup3 (old_fd new_fd flags : Z)
| Cmkdirat (dirfd path mode : Z)
| Cchdir (path : Z)
| Cgetdents64 (fd buf len : Z)
| Cgetpid
| Cexit (code : Z)
| Cyield
| Cgetppid
| Cuname (buf : Z)
| Ctimes (tms : Z)
| Cbrk (addr : Z)
| Cmunmap (start len : Z)
| Cfstat (fd buf : Z)
| Cpipe2 (pipefd flags : Z)
| Cumount2 (target flags : Z)
| Cunlinkat (dirfd path flags : Z)
| Cmount (source target fstype flags data : Z)
| Cmmap (start len prot flags fd off : Z)
| Cgettimeofday (tv tz : Z)
| Cclone (flags stack ptid tls ctid : Z)
| Cexecve (path argv envp : Z)
| Cwait4 (pid status options rusage : Z)
| Cnanosleep (req rem : Z).

#[global] Instance Call_eq_dec : EqDecision Call.
Proof. solve_decision. Defined.

Notation words := (Z * Z * Z * Z * Z * Z)%type.

(** The match of [syscall]; [None] is its last arm, the panic. *)
Definition decode (syscall_id : Z) (args : words) : option Call :=
  let '(a0, a1, a2, a3, a4, a5) := args in
  if syscall_id =? SYSCALL_OPENAT then Some (Copenat a0 a1 (as_u32 a2) (as_u32 a3))
  else if syscall_id =? SYSCALL_CLOSE then Some (Cclose a0)
  else if syscall_id =? SYSCALL_READ then Some (Cread a0 a1 a2)
  else if syscall_id =? SYSCALL_WRITE then Some (Cwrite a0 a1 a2)
  else if syscall_id =? SYSCALL_GETCWD then Some (Cgetcwd a0 a1)
  else if syscall_id =? SYSCALL_DUP then Some (Cdup a0)
  else if syscall_id =? SYSCALL_DUP3 then Some (Cdup3 a0 a1 a2)
  else if syscall_id =? SYSCALL_MKDIRAT then Some (Cmkdirat (as_isize a0) a1 (as_u32 a2))
  else if syscall_id =? SYSCALL_CHDIR then Some (Cchdir a0)
  else if syscall_id =? SYSCALL_GETDENTS64 then Some (Cgetdents64 a0 a1 a2)
  else if syscall_id =? SYSCALL_GETPID then Some Cgetpid
  else if syscall_id =? SYSCALL_EXIT then Some (Cexit (as_i32 a0))
  else if syscall_id =? SYSCALL_YIELD then Some Cyield
  else if syscall_id =? SYSCALL_GETPPID then Some Cgetppid
  else if syscall_id =? SYSCALL_UNAME then Some (Cuname a0)
  else if syscall_id =? SYSCALL_TIMES then Some (Ctimes a0)
  else if syscall_id =? SYSCALL_BRK then Some (Cbrk a0)
  else if syscall_id =? SYSCALL_MUNMAP then Some (Cmunmap a0 a1)
  else if syscall_id =? SYSCALL_FSTAT then Some (Cfstat a0 a1)
  else if syscall_id =? SYSCALL_PIPE2 then Some (Cpipe2 a0 (as_u32 a1))
  else if syscall_id =? SYSCALL_UMOUNT2 then Some (Cumount2 a0 (as_u32 a1))
  else if syscall_id =? SYSCALL_UNLINKAT then Some (Cunlinkat a0 a1 (as_u32 a2))
  else if syscall_id =? SYSCALL_MOUNT then Some (Cmount a0 a1 a2 a3 a4)
  else if syscall_id =? SYSCALL_MMAP then Some (Cmmap a0 a1 a2 a3 (as_isize a4) a5)
  else if syscall_id =? SYSCALL_GET_TIME_OF_DAY then Some (Cgettimeofday a0 a1)
  else if syscall_id =? SYSCALL_CLONE then Some (Cclone (as_u32 a0) a1 a2 a3 a4)
  else if syscall_id =? SYSCALL_EXECVE then Some (Cexecve a0 a1 a2)
  else if syscall_id =? SYSCALL_WAIT4 then Some (Cwait4 (as_isize a0) a1 (as_u32 a2) a3)
  else if syscall_id =? SYSCALL_NANOSLEEP then Some (Cnanosleep a0 a1)
  else None.

(** A handler gives the result, or [None] when the task does not return
    ([sys_exit]). *)
Definition syscall {S} (handle : Call → K S (option Z)) (syscall_id : Z) (args : words) : K S (option Z) :=
  match decode syscall_id args with
  | Some c => handle c
  | None => kpanic
  end.

(** ** The wrappers of the user library: number and words *)

Definition ucall : Type := Z * words.
Definition u_args (a : list Z) : words :=
  let g i := default 0 (a !! i) in (g 0%nat, g 1%nat, g 2%nat, g 3%nat, g 4%nat, g 5%nat).

Definition u_open (path flags : Z) : ucall := (56, u_args [path; flags]).
Definition u_close (fd : Z) : ucall := (57, u_args [fd]).
Definition u_pipe (pipe : Z) : ucall := (59, u_args [pipe]).
Definition u_read (fd buf len : Z) : ucall := (63, u_args [fd; buf; len]).
Definition u_write (fd buf len : Z) : ucall := (64, u_args [fd; buf; len]).
Definition u_exit (exit_code : Z) : ucall := (93, u_args [as_usize exit_code]).
Definition u_yield : ucall := (124, u_args []).
Definition u_kill (pid signal : Z) : ucall := (129, u_args [pid; as_usize signal]).
Definition u_getpid : ucall := (172, u_args []).
Definition u_fork : ucall := (220, u_args []).
Definition u_mmap (start len prot flags fd off : Z) : ucall := (222, u_args [start; len; prot; flags; as_usize fd; off]).
Definition u_exec (path args : Z) : ucall := (221, u_args [path; args]).
Definition u_waitpid (pid exit_code : Z) : ucall := (260, u_args [as_usize pid; exit_code]).
Definition u_getcwd (buf len : Z) : ucall := (17, u_args [buf; len]).
Definition u_chdir (path : Z) : ucall := (49, u_args [path]).
Definition u_brk (addr : Z) : ucall := (214, u_args [addr]).
Definition u_munmap (start len : Z) : ucall := (215, u_args [start; len]).
Definition u_fstat (fd statbuff : Z) : ucall := (80, u_args [fd; statbuff]).
Definition u_mkdirat (dirfd path mode : Z) : ucall := (34, u_args [as_usize dirfd; path; mode]).
Definition u_dup (fd : Z) : ucall := (23, u_args [fd]).
Definition u_dup3 (old new flags : Z) : ucall := (24, u_args [as_usize old; as_usize new; flags]).
Definition u_getdents (fd buf len : Z) : ucall := (61, u_args [fd; buf; len]).

Definition sent (u : ucall) : option Call := decode u.1 u.2.

(** ** Theorems *)

Lemma as_i32_usize a : - 2 ^ 31 <= a < 2 ^ 31 → as_i32 (as_usize a) = a.
Proof.
  intros H. unfold as_i32, as_usize, wrap64.
  assert (E : (a mod 2 ^ 64) mod 2 ^ 32 = a mod 2 ^ 32) by zdiv_lia. rewrite E.
  destruct (Z.ltb_spec (a mod 2 ^ 32) (2 ^ 31)); zdiv_lia.
Qed.

Lemma as_isize_usize a : - 2 ^ 63 <= a < 2 ^ 63 → as_isize (as_usize a) = a.
Proof.
  intros H. unfold as_isize, as_usize, wrap64. rewrite Zmod_mod.
  destruct (Z.ltb_spec (a mod 2 ^ 64) (2 ^ 63)); zdiv_lia.
Qed.



(** The wrapper of [open] sends path and flags where [openat] takes the
    directory and the path. *)
Lemma user_open_mismatch path flags : sent (u_open path flags) = Some (Copenat path flags 0 0).
Proof. done. Qed.

(** The wrapper of [kill] reaches no handler: the kernel panics. *)
Lemma user_kill_panics {S} (handle : Call → K S (option Z)) pid signal s :
  syscall handle (u_kill pid signal).1 (u_kill pid signal).2 s = Panic.
Proof. done. Qed.

Definition known_ids : list Z :=
  [17; 23; 24; 34; 35; 39; 40; 49; 56; 57; 59; 61; 63; 64; 80; 93; 101; 124; 153; 160; 169; 172; 173; 214; 215; 220; 221; 222; 260].

(** Exactly these numbers are served. *)
Lemma decode_known id args : is_Some (decode id args) ↔ id ∈ known_ids.
Proof.
  destruct args as [[[[[a0 a1] a2] a3] a4] a5]. unfold known_ids. rewrite !elem_of_cons, elem_of_nil. split.
  - intros [c Hc]. unfold decode in Hc.
    repeat match type of Hc with (if Z.eqb id ?n then _ else _) = _ => destruct (Z.eqb_spec id n) as [->|]; [unfold n; tauto|] end.
    done.
  - intros H. repeat destruct H as [->|H]; try done; eexists; reflexivity.
Qed.
