(* ===== verification/Trap.v ===== *)
(** * Traps ([os/src/hal/arch/riscv/trap/mod.rs])

    The handler of traps from user mode, over what the rest of the kernel offers
    it (class [TrapKernel]): the trap context of the current thread, the system
    calls, the clock, the signals of the current process and its end. *)

From S2P Require Import Prelude Address PhysMem TrapCx Signal Syscall.

(** ** Causes: the value of [scause] *)

Inductive Exception :=
| InstructionMisaligned | InstructionFault | IllegalInstruction | Breakpoint | LoadMisaligned | LoadFault
| StoreMisaligned | StoreFault | UserEnvCall | SupervisorEnvCall
| InstructionPageFault | LoadPageFault | StorePageFault | ExceptionUnknown.

Inductive Interrupt := SupervisorSoft | SupervisorTimer | SupervisorExternal | InterruptUnknown.

Inductive Cause := CException (e : Exception) | CInterrupt (i : Interrupt).

#[global] Instance Exception_eq_dec : EqDecision Exception.
Proof. solve_decision. Defined.
#[global] Instance Interrupt_eq_dec : EqDecision Interrupt.
Proof. solve_decision. Defined.

(** ** What the handler uses *)

(** [tk_frame s] is the frame of the trap context of the current thread;
    [tk_call] gives [None] when the thread does not return. *)
Class TrapKernel (S : Type) := {
  tk_mem : S → mem;
  tk_write : (mem → mem) → S → S;
  tk_frame : S → option Z;
  tk_signals : S → Z;
  tk_add_signal : Z → S → S;
  tk_call : Call → K S (option Z);
  tk_enter : K S unit;          (** [update_process_times_enter_trap] *)
  tk_leave : K S unit;          (** [update_process_times_leave_trap] *)
  tk_timer : K S unit;          (** [set_next_trigger], [check_timer] *)
  tk_suspend : K S unit;        (** [suspend_current_and_run_next] *)
  tk_exit : Z → K S unit;       (** [exit_current_and_run_next] *)
  tk_mem_write f s : tk_mem (tk_write f s) = f (tk_mem s);
  tk_frame_write f s : tk_frame (tk_write f s) = tk_frame s;
  tk_signals_write f s : tk_signals (tk_write f s) = tk_signals s;
  tk_signals_add sg s : tk_signals (tk_add_signal sg s) = Z.lor (tk_signals s) sg;
  tk_mem_add sg s : tk_mem (tk_add_signal sg s) = tk_mem s;
  (** accounting of time touches neither memory nor fatal signals *)
  tk_enter_law s : ∃ s', tk_enter s = Done ((), s') ∧ tk_mem s' = tk_mem s ∧ tk_frame s' = tk_frame s ∧ tk_signals s' = tk_signals s;
  tk_leave_law s : ∃ s', tk_leave s = Done ((), s') ∧ tk_mem s' = tk_mem s ∧ tk_frame s' = tk_frame s ∧
    check_error (tk_signals s') = check_error (tk_signals s);
}.

(** Back to user mode, or the end of the thread. *)
Inductive TrapEnd := ToUser | Exited (code : Z).

Section trap.
Context {S : Type} `{!TrapKernel S}.

(** [current_trap_cx()] *)
Definition current_trap_cx : K S Z := s ← kget; kunwrap (tk_frame s).

Definition current_add_signal (signal : Z) : K S unit := kmodify (tk_add_signal signal).

Definition check_signals_of_current : K S (option Z) := s ← kget; mret (check_error (tk_signals s)).

(** The arm of [UserEnvCall]; [false] when the thread does not return. *)
Definition trap_syscall : K S bool :=
  ppn ← current_trap_cx;
  s ← kget;
  let cx := get_trap_cx (tk_mem s) ppn in
  kmodify (tk_write (λ m, store64 m (pa_from_ppn ppn + 8 * 33) (sepc cx +w 4))) ;;
  let r := get_reg (general_regs cx) in
  result ← syscall tk_call (r r_a7) (r r_a0, r r_a1, r r_a2, r r_a3, r r_a4, r r_a5);
  match result with
  | Some result =>
      ppn ← current_trap_cx;
      kmodify (tk_write (λ m, put_reg m ppn r_a0 (wrap64 result))) ;;
      mret true
  | None => mret false
  end.

(** The [match] on the cause. *)
Definition trap_dispatch (c : Cause) : K S bool :=
  match c with
  | CException UserEnvCall => trap_syscall
  | CException (StoreFault | StorePageFault | LoadFault | LoadPageFault | InstructionFault | InstructionPageFault) =>
      current_add_signal SIGSEGV ;; mret true
  | CException IllegalInstruction => current_add_signal SIGILL ;; mret true
  | CInterrupt SupervisorTimer => tk_timer ;; tk_suspend ;; mret true
  | _ => kpanic
  end.

(** The last part of the handler. *)
Definition trap_finish : K S (option TrapEnd) :=
  tk_leave ;;
  e ← check_signals_of_current;
  match e with
  | Some errno => tk_exit errno ;; mret (Some (Exited errno))
  | None => mret (Some ToUser)
  end.

(** [None] when the thread does not return from a system call. *)
Definition trap_handler (c : Cause) : K S (option TrapEnd) :=
  tk_enter ;;
  continues ← trap_dispatch c;
  if (continues : bool) then trap_finish else mret None.

(** From kernel mode only the timer is served, and nobody is scheduled. *)
Definition trap_from_kernel (c : Cause) : K S unit :=
  match c with
  | CInterrupt SupervisorTimer => tk_timer
  | _ => kpanic
  end.

(** ** Theorems *)

Lemma fault_fatal s e : e ∈ [SIGSEGV; SIGILL] → ∃ code, check_error (Z.lor s e) = Some code ∧ code < 0 ∧
  (signals_is_empty s = true → code = if decide (e = SIGSEGV) then -11 else -4).
Proof.
  intros He. unfold check_error, SIGINT, SIGABRT, SIGFPE in *. rewrite !elem_of_cons, elem_of_nil in He.
  destruct He as [->|[->|[]]]; unfold SIGSEGV, SIGILL; rewrite !contains_shl, !Z.lor_spec by lia.
  all: repeat match goal with |- context [Z.testbit (Z.shiftl 1 ?a) ?b] =>
      let v := eval vm_compute in (Z.testbit (Z.shiftl 1 a) b) in change (Z.testbit (Z.shiftl 1 a) b) with v end.
  all: rewrite ?orb_false_r, ?orb_true_r; unfold signals_is_empty.
  all: repeat case_match; eexists; (split; [done|]); (split; [lia|]); intros ->%Z.eqb_eq; done.
Qed.

(** The exceptions that stand for a bad memory access. *)
Definition mem_faults : list Exception :=
  [StoreFault; StorePageFault; LoadFault; LoadPageFault; InstructionFault; InstructionPageFault].

Lemma trap_finish_ok s : check_error (tk_signals s) = None →
  ∃ s', trap_finish s = Done (Some ToUser, s') ∧ tk_leave s = Done ((), s') ∧ tk_mem s' = tk_mem s ∧ tk_frame s' = tk_frame s.
Proof.
  intros Hn. destruct (tk_leave_law s) as (s'&Hl&Hm&Hf&Hs). exists s'. unfold trap_finish, check_signals_of_current.
  unfold mbind, K_bind, kget, mret, K_ret. rewrite Hl. cbn beta iota. by rewrite Hs, Hn.
Qed.

Lemma trap_finish_exit s code : check_error (tk_signals s) = Some code →
  ∃ s', tk_mem s' = tk_mem s ∧ trap_finish s = (tk_exit code ;; mret (Some (Exited code))) s'.
Proof.
  intros Hn. destruct (tk_leave_law s) as (s'&Hl&Hm&Hf&Hs). exists s'. split; [done|]. unfold trap_finish, check_signals_of_current.
  unfold mbind, K_bind, kget, mret, K_ret. rewrite Hl. cbn beta iota. by rewrite Hs, Hn.
Qed.

Lemma trap_handler_split c s : ∃ s1, tk_enter s = Done ((), s1) ∧ tk_mem s1 = tk_mem s ∧ tk_frame s1 = tk_frame s ∧ tk_signals s1 = tk_signals s ∧
  trap_handler c s = (continues ← trap_dispatch c; if (continues : bool) then trap_finish else mret None) s1.
Proof.
  destruct (tk_enter_law s) as (s1&He&?&?&?). exists s1. split; [done|]. split; [done|]. split; [done|]. split; [done|].
  unfold trap_handler. unfold mbind at 1, K_bind at 1. by rewrite He.
Qed.

Lemma sepc_word m ppn v : is_usize v →
  get_trap_cx (store64 m (pa_from_ppn ppn + 8 * 33) v) ppn =
  let cx := get_trap_cx m ppn in mkTC (general_regs cx) (sstatus cx) v (kernel_satp cx) (kernel_sp cx) (trap_handler_addr cx).
Proof. intros Hv. apply tc_words_inj; [done|]. apply (put_word_words m ppn 33); [done|lia]. Qed.

(** The state in which the handler of the call runs. *)
Definition past_call (ppn : Z) (cx : TrapContext) : S → S :=
  tk_write (λ m, store64 m (pa_from_ppn ppn + 8 * 33) (sepc cx +w 4)).

Lemma dispatch_call s ppn c :
  tk_frame s = Some ppn →
  let cx := get_trap_cx (tk_mem s) ppn in let r := get_reg (general_regs cx) in
  decode (r r_a7) (r r_a0, r r_a1, r r_a2, r r_a3, r r_a4, r r_a5) = Some c →
  trap_dispatch (CException UserEnvCall) s = (res ← tk_call c;
    match res with
    | Some res => ppn ← current_trap_cx; kmodify (tk_write (λ m, put_reg m ppn r_a0 (wrap64 res))) ;; mret true
    | None => mret false
    end) (past_call ppn cx s).
Proof.
  intros Hf cx r Hc. unfold trap_dispatch, trap_syscall, current_trap_cx, syscall.
  unfold mbind, K_bind, kget, kmodify, kunwrap, mret, K_ret. rewrite Hf. cbn beta iota. fold cx. fold r. by rewrite Hc.
Qed.

(** A call that returns: where it runs, what the handler of the call finds, and what the
    thread that is current afterwards finds. *)
Lemma handler_call s ppn c :
  tk_frame s = Some ppn →
  let cx := get_trap_cx (tk_mem s) ppn in let r := get_reg (general_regs cx) in
  decode (r r_a7) (r r_a0, r r_a1, r r_a2, r r_a3, r r_a4, r r_a5) = Some c →
  ∃ s1, (∃ s0, tk_enter s = Done ((), s0) ∧ s1 = past_call ppn cx s0) ∧ tk_frame s1 = Some ppn ∧ tk_signals s1 = tk_signals s ∧
    get_trap_cx (tk_mem s1) ppn = mkTC (general_regs cx) (sstatus cx) (sepc cx +w 4) (kernel_satp cx) (kernel_sp cx) (trap_handler_addr cx) ∧
    (∀ x, x < pa_from_ppn ppn + 264 ∨ pa_from_ppn ppn + 272 <= x → tk_mem s1 x = tk_mem s x) ∧
    (tk_call c s1 = Panic → trap_handler (CException UserEnvCall) s = Panic) ∧
    ∀ res s2 ppn2, tk_call c s1 = Done (Some res, s2) → tk_frame s2 = Some ppn2 → check_error (tk_signals s2) = None →
      ∃ s3, trap_handler (CException UserEnvCall) s = Done (Some ToUser, s3) ∧ (∃ g, tk_leave (tk_write g s2) = Done ((), s3)) ∧
        let cx2 := get_trap_cx (tk_mem s2) ppn2 in
        get_trap_cx (tk_mem s3) ppn2 = with_regs cx2 (set_reg (general_regs cx2) r_a0 (wrap64 res)) ∧
        ∀ x, x < pa_from_ppn ppn2 + 80 ∨ pa_from_ppn ppn2 + 88 <= x → tk_mem s3 x = tk_mem s2 x.
Proof.
  intros Hf cx r Hc. destruct (trap_handler_split (CException UserEnvCall) s) as (s0&E0&M0&F0&G0&->).
  rewrite Hf in F0. pose proof (dispatch_call s0 ppn c F0) as Hd. rewrite M0 in Hd. specialize (Hd Hc). fold cx in Hd.
  exists (past_call ppn cx s0). split; [eauto|]. unfold past_call at 1 2 3 4. rewrite tk_frame_write, tk_signals_write, tk_mem_write, M0, G0.
  split; [done|]. split; [done|]. split; [by rewrite sepc_word by apply wadd_range|]. split; [intros x Hx; apply store64_out; lia|].
  split; [intros Hp; unfold mbind at 1, K_bind at 1; rewrite Hd; unfold mbind, K_bind; by rewrite Hp|].
  intros res s2 ppn2 Hres Hf2 Hsig. set (s3 := tk_write (λ m, put_reg m ppn2 r_a0 (wrap64 res)) s2).
  destruct (trap_finish_ok s3) as (s4&E4&L4&M4&_); [unfold s3; by rewrite tk_signals_write|]. exists s4. split; [|split; [by eexists|]].
  - unfold mbind at 1, K_bind at 1. rewrite Hd. unfold mbind, K_bind. rewrite Hres. cbn beta iota.
    unfold current_trap_cx, mbind, K_bind, kget, kunwrap, kmodify, mret, K_ret. rewrite Hf2. cbn beta iota. exact E4.
  - rewrite M4. unfold s3. rewrite tk_mem_write. split.
    + apply get_put_reg; [apply wrap64_range|unfold r_a0; lia].
    + intros x Hx. apply store64_out. unfold r_a0. lia.
Qed.

(** C27: a trap from user mode.  A system call is made with the number in [a7]
    and the arguments in [a0] to [a5], with the program counter already past
    the call; when it returns, the result is in [a0] of the context of the
    thread that is then current, and nothing else of that context changes.  A
    number that is not served panics the kernel.  A bad access or instruction
    ends the process, with the code of the signal if no other was pending.  Any
    other exception panics. *)
Theorem trap_handler_correct (s : S) (ppn : Z) :
  tk_frame s = Some ppn →
  let cx := get_trap_cx (tk_mem s) ppn in let r := get_reg (general_regs cx) in
  let call := decode (r r_a7) (r r_a0, r r_a1, r r_a2, r r_a3, r r_a4, r r_a5) in
  (∀ c, call = Some c → ∃ s1, tk_frame s1 = Some ppn ∧ tk_signals s1 = tk_signals s ∧
     get_trap_cx (tk_mem s1) ppn = mkTC (general_regs cx) (sstatus cx) (sepc cx +w 4) (kernel_satp cx) (kernel_sp cx) (trap_handler_addr cx) ∧
     (∀ x, x < pa_from_ppn ppn + 264 ∨ pa_from_ppn ppn + 272 <= x → tk_mem s1 x = tk_mem s x) ∧
     ∀ res s2 ppn2, tk_call c s1 = Done (Some res, s2) → tk_frame s2 = Some ppn2 → check_error (tk_signals s2) = None →
       ∃ s3, trap_handler (CException UserEnvCall) s = Done (Some ToUser, s3) ∧
         let cx2 := get_trap_cx (tk_mem s2) ppn2 in
         get_trap_cx (tk_mem s3) ppn2 = with_regs cx2 (set_reg (general_regs cx2) r_a0 (wrap64 res)) ∧
         ∀ x, x < pa_from_ppn ppn2 + 80 ∨ pa_from_ppn ppn2 + 88 <= x → tk_mem s3 x = tk_mem s2 x) ∧
  (call = None → trap_handler (CException UserEnvCall) s = Panic) ∧
  (∀ e, e ∈ IllegalInstruction :: mem_faults → ∃ code s', code < 0 ∧ tk_mem s' = tk_mem s ∧
     trap_handler (CException e) s = (tk_exit code ;; mret (Some (Exited code))) s' ∧
     (tk_signals s = 0 → code = if decide (e = IllegalInstruction) then -4 else -11)) ∧
  (∀ e, e ∉ UserEnvCall :: IllegalInstruction :: mem_faults → trap_handler (CException e) s = Panic).
Proof.
  intros Hf cx r call. split; [|split; [|split]].
  - intros c Hc. destruct (handler_call s ppn c Hf Hc) as (s1&_&H1&H2&H3&H4&_&H). exists s1. repeat (split; [done|]).
    intros res s2 ppn2 Hr Hf2 Hs. destruct (H res s2 ppn2 Hr Hf2 Hs) as (s3&E&_&H5). by exists s3.
  - intros Hc. destruct (trap_handler_split (CException UserEnvCall) s) as (s0&_&M0&F0&G0&->).
    unfold trap_dispatch, trap_syscall, current_trap_cx, syscall, mbind, K_bind, kget, kmodify, kunwrap, mret, K_ret. rewrite F0, Hf. cbn beta iota.
    rewrite M0. fold cx r. unfold call in Hc. by rewrite Hc.
  - intros e He. destruct (trap_handler_split (CException e) s) as (s0&_&M0&F0&G0&->).
    assert (Hsig : ∃ sg, sg ∈ [SIGSEGV; SIGILL] ∧ (sg = SIGILL ↔ e = IllegalInstruction) ∧
      trap_dispatch (CException e) s0 = Done (true, tk_add_signal sg s0)).
    { unfold mem_faults in He. rewrite !elem_of_cons, elem_of_nil in He.
      destruct He as [->|He]; [exists SIGILL; split; [right; left|done]|]. exists SIGSEGV. split; [left|].
      repeat destruct He as [->|He]; done. }
    destruct Hsig as (sg&Hin&Hiff&Hd). destruct (fault_fatal (tk_signals s0) sg Hin) as (code&Hce&Hneg&Hcode).
    destruct (trap_finish_exit (tk_add_signal sg s0) code) as (s'&Hm&E); [by rewrite tk_signals_add|].
    exists code, s'. split; [done|]. split; [by rewrite Hm, tk_mem_add|]. split.
    + unfold mbind at 1, K_bind at 1. rewrite Hd. exact E.
    + rewrite <- G0. intros Hz. rewrite Hcode by (unfold signals_is_empty; by rewrite Hz).
      destruct (decide (e = IllegalInstruction)) as [He'|He'].
      * rewrite decide_False; [done|]. apply Hiff in He'. by rewrite He'.
      * rewrite decide_True; [done|]. revert Hin. rewrite !elem_of_cons, elem_of_nil. intros [?|[?%Hiff|[]]]; done.
  - intros e He. destruct (trap_handler_split (CException e) s) as (s0&_&M0&F0&G0&->).
    unfold mbind, K_bind. destruct e; try done; exfalso; apply He; unfold mem_faults; rewrite !elem_of_cons; tauto.
Qed.
End trap.

(** ** An instance: a kernel with one thread that serves [getpid] *)

Record MiniKernel := mkMini { mk_mem : mem; mk_signals : Z; mk_exit : option Z }.

#[refine] Instance mini_kernel : TrapKernel MiniKernel := {
  tk_mem := mk_mem;
  tk_write f s := mkMini (f (mk_mem s)) (mk_signals s) (mk_exit s);
  tk_frame _ := Some 0x80400;
  tk_signals := mk_signals;
  tk_add_signal sg s := mkMini (mk_mem s) (Z.lor (mk_signals s) sg) (mk_exit s);
  tk_call c := match c with Cgetpid => mret (Some 2) | _ => mret (Some (-1)) end;
  tk_enter := mret ();
  tk_leave := mret ();
  tk_timer := mret ();
  tk_suspend := mret ();
  tk_exit code := kmodify (λ s, mkMini (mk_mem s) (mk_signals s) (Some code));
}.
Proof. all: try done; intros s; exists s; done. Defined.

(** A thread about to call [getpid]. *)
Definition mini : MiniKernel := mkMini (put_reg (λ _, 0) 0x80400 r_a7 172) 0 None.

Lemma trap_handler_correct_witness :
  (∃ s, trap_handler (CException UserEnvCall) mini = Done (Some ToUser, s) ∧
     get_reg (general_regs (get_trap_cx (mk_mem s) 0x80400)) r_a0 = 2) ∧
  (∃ code s', trap_handler (CException LoadPageFault) mini = (tk_exit code ;; mret (Some (Exited code))) s' ∧ code = -11).
Proof.
  assert (Hf : tk_frame mini = Some 0x80400) by reflexivity.
  destruct (trap_handler_correct mini 0x80400 Hf) as (Hcall&_&Hfault&_). split.
  - destruct (Hcall Cgetpid) as (s1&Hf1&Hs1&_&_&H); [vm_compute; reflexivity|].
    assert (Hce : check_error (tk_signals s1) = None) by (rewrite Hs1; reflexivity).
    destruct (H 2 s1 0x80400 eq_refl Hf1 Hce) as (s3&E&Hcx&_). exists s3. split; [exact E|].
    change (mk_mem s3) with (tk_mem s3). rewrite Hcx. unfold get_reg, with_regs, set_reg. cbn [general_regs].
    rewrite list_lookup_insert_eq; [reflexivity|]. change (length _) with 32%nat. unfold r_a0. lia.
  - destruct (Hfault LoadPageFault) as (code&s'&_&_&E&Hc); [unfold mem_faults; rewrite !elem_of_cons; tauto|].
    exists code, s'. split; [exact E|]. apply Hc. reflexivity.
Defined.
