(* ===== verification/UserRun.v ===== *)
(** * Programs between traps, and their system calls from end to end

    A program in user mode changes its registers and stores where the memory
    management unit lets it; it cannot leave its own memory.  A call of its library
    ([syscall] of [user/src/syscall.rs]) passes the assembly of [trap.S], the
    handler of [trap/mod.rs] and the call itself, and comes back with the result. *)

From S2P Require Import Prelude Address PhysMem IdAlloc FrameAlloc PageTable Sv39 UserMem MemorySet MapAreaSpec.
From S2P Require Import MemorySetSpec MemorySetOps Mmap Fork Elf TrapCx UserRes StackProps SpaceProps Mmu Asm TrapPath ExecProps Timer Signal ProcCalls Syscall Trap.

(** ** A program in user mode *)

(** Registers and the program counter change freely; a store writes a byte through
    the tables; the control registers are out of reach. *)
Inductive user_step (c : Cpu) : Cpu → Prop :=
| us_regs x a : user c = true → (∀ r, is_usize (x r)) → is_usize a → user_step c (mkCpu x (cs c) (cm c) true a)
| us_store va pa b : user c = true → mmu (cm c) (cs c SATP) true AWrite va = Some pa → is_byte b →
    user_step c (set_cm (store_bytes (cm c) pa [b]) c).

(** What a process runs with: the tables of its thread, every area in frames of its
    own, none of which the kernel's space uses. *)
Record user_space (s : KMem) (msu msk : MemorySet SV39PageTable) (tid f st : Z) : Prop := {
  ur_tables : thread_tables s msu msk tid f st;
  ur_framed : ∀ a, a ∈ areas msu → map_type a = Framed;
  ur_apart : ∀ p, p ∈ ms_frames msu → p ∉ ms_frames msk;
}.

(** Page [v] of the space lies in frame [p] and allows the program the access. *)
Definition user_page (ms : MemorySet SV39PageTable) (acc : Access) (v p : Z) : Prop :=
  ∃ a, a ∈ areas ms ∧ in_area a v ∧ data_frames a !! v = Some p ∧ permits (map_perm a) true acc = true.

(** The frames that the program may write. *)
Definition writable_frame (ms : MemorySet SV39PageTable) (p : Z) : Prop := ∃ v, user_page ms AWrite v p.

Lemma ms_view_inv (ms : MemorySet SV39PageTable) v ppn perm :
  ms_view ms v = Some (ppn, perm) → ∃ a, a ∈ areas ms ∧ in_area a v ∧ area_target a v = Some ppn ∧ map_perm a = perm.
Proof.
  unfold ms_view. destruct (list_find _ _) as [[i a]|] eqn:Hl; [|done]. apply list_find_Some in Hl as (Ha&Hin&_). cbn [mbind option_bind].
  destruct (area_target a v) eqn:Ht; [|done]. intros [= <- <-]. exists a. split; [by eapply list_elem_of_lookup_2|done].
Qed.

Lemma tramp_no_user s (ms : MemorySet SV39PageTable) st acc va :
  ms_ok s ms → tramp_ok st → pt_lookup (km_mem s) (page_table ms) TRAMP_VPN = Some (tramp_pte (T := SV39PageTable) st) →
  canonical va → va_vpn va = TRAMP_VPN → mmu (km_mem s) (token ms) true acc va = None.
Proof.
  intros Hok Hst Hl Hc Hv. destruct (tramp_ppn_eq st Hst) as [_ Hp]. change (token ms) with (sv39_token (page_table ms)).
  rewrite mmu_lookup by (done || apply Hok). rewrite Hv.
  change (sv39_lookup (km_mem s) (page_table ms) TRAMP_VPN) with (pt_lookup (km_mem s) (page_table ms) TRAMP_VPN). rewrite Hl.
  change (tramp_pte st) with (sv39_pte_new (st / 4096) (Z.lor (Z.lor PERM_R PERM_X) PTE_V)). by rewrite hw_access_perm by (done || by vm_compute).
Qed.

Section space.
Context (s : KMem) (msu msk : MemorySet SV39PageTable) (tid f st : Z) (Hus : user_space s msu msk tid f st).

(** A frame that the program may reach holds neither its trap context nor a table. *)
Lemma user_page_apart acc v p :
  user_page msu acc v p → p ≠ f ∧ p ∈ ms_frames msu ∧ p ∉ pt_frames (page_table msu) ∧ p ∉ pt_frames (page_table msk).
Proof using Hus.
  intros (a&Ha&Hin&Hd&Hp). destruct Hus as [Htt Hfr Hap]. pose proof (tt_user _ _ _ _ _ _ Htt) as Hok.
  assert (Hf : p ∈ area_frames a) by (apply elem_of_area_frames; eauto).
  assert (Hm : p ∈ ms_frames msu) by (unfold ms_frames; apply elem_of_app; right; apply elem_of_areas_frames; eauto).
  split; [|split; [done|split; [by apply (ms_area_frame _ _ _ _ Hok Ha)|intros Hk%ms_frames_pt; by apply (Hap p)]]].
  intros ->. destruct (tt_slot _ _ _ _ _ _ Htt) as (b&Hb&(_&_&HP)&Hbf).
  destruct (frame_page s msu a b _ _ f Hok Ha Hb Hd Hbf) as [-> _]. rewrite HP in Hp. by destruct acc.
Qed.

Lemma writable_apart p :
  writable_frame msu p → p ≠ f ∧ p ∈ ms_frames msu ∧ p ∉ pt_frames (page_table msu) ∧ p ∉ pt_frames (page_table msk).
Proof using Hus. intros [v Hp]. by eapply user_page_apart. Qed.

(** What the processor lets the program reach. *)
Lemma user_reach acc va pa :
  mmu (km_mem s) (token msu) true acc va = Some pa ↔
  canonical va ∧ va_vpn va ≠ TRAMP_VPN ∧ pa mod 4096 = va mod 4096 ∧ user_page msu acc (va_vpn va) (pa / 4096).
Proof using Hus.
  destruct Hus as [Htt Hfr Hap]. pose proof (tt_user _ _ _ _ _ _ Htt) as Hok. split.
  - intros Hm. assert (Hc : canonical va) by (unfold mmu in Hm; destruct (bool_decide_reflect (canonical va)); [done|by cbn in Hm]).
    destruct (decide (va_vpn va = TRAMP_VPN)) as [Hv|Hv].
    { by rewrite (tramp_no_user s msu st acc va Hok (tt_st _ _ _ _ _ _ Htt) (tt_utramp _ _ _ _ _ _ Htt) Hc Hv) in Hm. }
    rewrite (mmu_view s msu true acc va Hok Hc Hv) in Hm. destruct (ms_view msu (va_vpn va)) as [[ppn perm]|] eqn:Hview; [|done].
    destruct (permits perm true acc) eqn:Hp; [|done]. injection Hm as <-.
    destruct (ms_view_inv _ _ _ _ Hview) as (a&Ha&Hin&Ht&<-). unfold area_target in Ht. rewrite (Hfr a Ha) in Ht.
    split; [done|]. split; [done|]. split; [zdiv_lia|]. exists a. by replace ((ppn * 4096 + va mod 4096) / 4096) with ppn by zdiv_lia.
  - intros (Hc&Hv&Hmod&(a&Ha&Hin&Hd&Hp)). rewrite (mmu_view s msu true acc va Hok Hc Hv).
    destruct (ms_view_area s msu a _ Hok Ha (Hfr a Ha) Hin) as (p&Hd'&_&_&->). rewrite Hp. f_equal. assert (p = pa / 4096) as -> by congruence. zdiv_lia.
Qed.

(** Such stores keep the spaces. *)
Lemma user_space_same m :
  same_outside (writable_frame msu) (km_mem s) m → user_space (with_mem (λ _, m) s) msu msk tid f st.
Proof using Hus.
  intros Hm. pose proof Hus as [Htt Hfr Hap]. split; [|done|done]. pose proof Htt as [H1 H2 H3 H4 H5 H6 H7 H8].
  assert (Hpt : ∀ x, x / 4096 ∈ pt_frames (page_table msu) → m x = km_mem s x) by (intros x Hx; apply Hm; by intros (_&_&?&_)%writable_apart).
  assert (Hkt : ∀ x, x / 4096 ∈ pt_frames (page_table msk) → m x = km_mem s x) by (intros x Hx; apply Hm; by intros (_&_&_&?)%writable_apart).
  assert (Hv : is_vpn TRAMP_VPN) by (unfold is_vpn, TRAMP_VPN; lia). split; try done.
  - apply (ms_ok_frame s); [done|apply H1|done].
  - apply (ms_ok_frame s); [done|apply H2|done].
  - rewrite <- H7. apply (pt_frame (km_mem s)); [apply H1|done|done].
  - rewrite <- H8. apply (pt_frame (km_mem s)); [apply H2|done|done].
Qed.
End space.

(** The state between two steps of the program. *)
Record user_runs (s : KMem) (msu msk : MemorySet SV39PageTable) (tid f st : Z) (c : Cpu) : Prop := {
  un_space : user_space s msu msk tid f st;
  un_mode : in_user_mode c msu msk tid f;
  un_mem : cm c = km_mem s;
  un_regs : ∀ r, is_usize (xr c r);
  un_pc : is_usize (pc c);
}.

Lemma user_step_keeps s msu msk tid f st c c' :
  user_runs s msu msk tid f st c → user_step c c' →
  user_runs (with_mem (λ _, cm c') s) msu msk tid f st c' ∧ same_outside (writable_frame msu) (cm c) (cm c') ∧ cs c' = cs c.
Proof.
  intros [Hus Hmode Hcm Hr Hpc] Hstep.
  assert (Hw : same_outside (writable_frame msu) (cm c) (cm c') ∧ cs c' = cs c ∧ user c' = true ∧ (∀ r, is_usize (xr c' r)) ∧ is_usize (pc c')).
  { destruct Hstep as [x a Hu Hx Ha|va pa b Hu Hm Hb].
    - split; [apply same_outside_refl|done].
    - split; [|done]. rewrite (iu_satp _ _ _ _ _ Hmode), Hcm in Hm. pose proof (proj1 (user_reach _ _ _ _ _ _ Hus _ _ _) Hm) as (_&_&_&Hwf).
      intros y Hy. cbn [cm set_cm]. apply store_bytes_out. simpl. destruct (decide (y = pa)) as [->|]; [|lia]. destruct Hy. by eexists. }
  destruct Hw as (Hw&Hcs&Hu'&Hr'&Hpc'). split; [|done].
  assert (Hus' : user_space (with_mem (λ _, cm c') s) msu msk tid f st) by (apply user_space_same; [done|by rewrite <- Hcm]).
  split; [done| |done|done|done].
  assert (Hcx : get_trap_cx (cm c') f = get_trap_cx (cm c) f).
  { apply get_trap_cx_kept; [apply (cx_frame _ _ _ _ _ _ (ur_tables _ _ _ _ _ _ Hus))|]. intros x Hx. apply Hw. rewrite Hx.
    by intros (?&_)%(writable_apart _ _ _ _ _ _ Hus). }
  destruct Hmode as [I1 I2 I3 I4 I5 I6]. split; rewrite ?Hcx, ?Hcs; done.
Qed.

Lemma user_steps_keep s msu msk tid f st c c' :
  user_runs s msu msk tid f st c → rtc user_step c c' →
  user_runs (with_mem (λ _, cm c') s) msu msk tid f st c' ∧ same_outside (writable_frame msu) (cm c) (cm c') ∧ cs c' = cs c.
Proof.
  intros Hrun Hsteps. revert s Hrun. induction Hsteps as [c|c c1 c' Hstep Hsteps IH]; intros s Hrun.
  - split; [|split; [apply same_outside_refl|done]]. rewrite (un_mem _ _ _ _ _ _ _ Hrun). by destruct s.
  - destruct (user_step_keeps _ _ _ _ _ _ _ _ Hrun Hstep) as (Hr1&Hm1&Hc1). destruct (IH _ Hr1) as (Hr2&Hm2&Hc2).
    split; [exact Hr2|]. split; [eapply same_outside_trans; eauto|congruence].
Qed.

(** The trap context is not in reach. *)
Lemma user_steps_cx s msu msk tid f st c c' :
  user_runs s msu msk tid f st c → rtc user_step c c' → get_trap_cx (cm c') f = get_trap_cx (cm c) f.
Proof.
  intros Hrun Hsteps. destruct (user_steps_keep _ _ _ _ _ _ _ _ Hrun Hsteps) as (_&Hm&_). destruct Hrun as [Hus _ _ _ _].
  apply get_trap_cx_kept; [apply (cx_frame _ _ _ _ _ _ (ur_tables _ _ _ _ _ _ Hus))|]. intros x Hx. apply Hm. rewrite Hx.
  by intros (?&_)%(writable_apart _ _ _ _ _ _ Hus).
Qed.

(** Whatever it does between two traps, a program changes only bytes of its own
    writable pages.  Its page tables, the trap context of its thread, the tables of
    the kernel and the frames of every other address space stay as they are, the
    control registers too, so that its next trap finds the kernel. *)
Theorem user_isolated s msu msk tid f st c c' :
  user_runs s msu msk tid f st c → rtc user_step c c' →
  user_runs (with_mem (λ _, cm c') s) msu msk tid f st c' ∧ cs c' = cs c ∧
  same_outside (writable_frame msu) (cm c) (cm c') ∧
  (∀ p, writable_frame msu p → p ≠ f ∧ p ∉ pt_frames (page_table msu) ∧ p ∉ pt_frames (page_table msk)) ∧
  ∀ ms, ms_ok s ms → (∀ p, p ∈ ms_frames ms → p ∉ ms_frames msu) →
    ms_ok (with_mem (λ _, cm c') s) ms ∧ ∀ y, y / 4096 ∈ ms_frames ms → cm c' y = cm c y.
Proof.
  intros Hrun Hsteps. destruct (user_steps_keep _ _ _ _ _ _ _ _ Hrun Hsteps) as (Hr&Hm&Hc).
  split; [done|]. split; [done|]. pose proof (un_space _ _ _ _ _ _ _ Hrun) as Hus.
  split; [done|]. split; [intros p Hw; by destruct (writable_apart _ _ _ _ _ _ Hus p Hw) as (?&_&?&?)|].
  intros ms Hok Hap. assert (Hs : ∀ y, y / 4096 ∈ ms_frames ms → cm c' y = cm c y).
  { intros y Hin. apply Hm. intros (_&?&_)%(writable_apart _ _ _ _ _ _ Hus). by eapply Hap. }
  split; [|done]. apply (ms_ok_frame s); [done|apply Hok|]. intros x Hx. rewrite <- (un_mem _ _ _ _ _ _ _ Hrun). apply Hs. by apply ms_frames_pt.
Qed.

(** ** System calls *)

(** [syscall] of the user library: the operands of its [ecall]. *)
Definition ecall_regs (u : ucall) (c : Cpu) : Cpu :=
  let '(a0, a1, a2, a3, a4, a5) := u.2 in
  set_x r_a7 u.1 (set_x r_a5 a5 (set_x r_a4 a4 (set_x r_a3 a3 (set_x r_a2 a2 (set_x r_a1 a1 (set_x r_a0 a0 c)))))).

Definition arg_words (u : ucall) : list Z := let '(a0, a1, a2, a3, a4, a5) := u.2 in [u.1; a0; a1; a2; a3; a4; a5].

(** The registers that the call sets; the others keep their values. *)
Lemma ecall_frame u c : cs (ecall_regs u c) = cs c ∧ cm (ecall_regs u c) = cm c ∧ user (ecall_regs u c) = user c ∧ pc (ecall_regs u c) = pc c.
Proof. unfold ecall_regs. destruct u as [n [[[[[a0 a1] a2] a3] a4] a5]]. done. Qed.

Lemma ecall_usize u c : Forall is_usize (arg_words u) → (∀ r, is_usize (xr c r)) → ∀ r, is_usize (xr (ecall_regs u c) r).
Proof.
  destruct u as [n [[[[[a0 a1] a2] a3] a4] a5]]. unfold arg_words, ecall_regs. cbn [fst snd]. rewrite !Forall_cons. intros (?&?&?&?&?&?&?&_) Hc r.
  cbn [xr set_x]. repeat (destruct (decide _); [done|]). apply Hc.
Qed.

(** The context that the trap saves passes on the words of the call. *)
Lemma ecall_decode u c g : length g = 32%nat →
  let r := get_reg (saved_regs (ecall_regs u c) g) in
  decode (r r_a7) (r r_a0, r r_a1, r r_a2, r r_a3, r r_a4, r r_a5) = sent u.
Proof.
  intros Hg r. assert (Hr : ∀ k : nat, k ∈ [10; 11; 12; 13; 14; 15; 17]%nat → r k = xr (ecall_regs u c) k).
  { intros k Hk. unfold r, get_reg, saved_regs. rewrite list_lookup_imap. rewrite !elem_of_cons, elem_of_nil in Hk.
    destruct (lookup_lt_is_Some_2 g k) as [w ->]; [lia|]. simpl. by rewrite decide_False by lia. }
  rewrite !Hr by (rewrite !elem_of_cons; unfold r_a0, r_a1, r_a2, r_a3, r_a4, r_a5, r_a7; lia).
  unfold sent, ecall_regs. by destruct u as [n [[[[[a0 a1] a2] a3] a4] a5]].
Qed.

(** A space that grows by an area, and one that loses an area other than the trap
    context, keep what the thread runs with. *)
Section change.
Context (s : KMem) (msu msk : MemorySet SV39PageTable) (tid f st : Z) (Hus : user_space s msu msk tid f st).

Lemma cx_frames : f ∈ ms_frames msu ∧ f ∉ pt_frames (page_table msu) ∧ fa_owned (km_fa s) f.
Proof using Hus.
  destruct Hus as [Htt _ _]. destruct (tt_slot _ _ _ _ _ _ Htt) as (b&Hb&_&Hd). pose proof (tt_user _ _ _ _ _ _ Htt) as Hok.
  assert (Hf : f ∈ area_frames b) by (apply elem_of_area_frames; eauto). destruct (ms_area_frame _ _ _ _ Hok Hb Hf) as [H1 H2].
  split; [|done]. unfold ms_frames. apply elem_of_app. right. apply elem_of_areas_frames. eauto.
Qed.

Lemma kernel_tables_kept s' (P : Z → Prop) :
  owns s' (ms_frames msk) → same_outside P (km_mem s) (km_mem s') → (∀ p, P p → p ∉ ms_frames msk) →
  ms_ok s' msk ∧ pt_lookup (km_mem s') (page_table msk) TRAMP_VPN = Some (tramp_pte (T := SV39PageTable) st).
Proof using Hus.
  intros Ho Hm HP. destruct Hus as [Htt _ _]. pose proof (tt_kernel _ _ _ _ _ _ Htt) as Hok.
  assert (Hx : ∀ x, x / 4096 ∈ pt_frames (page_table msk) → km_mem s' x = km_mem s x).
  { intros x Hx. apply Hm. intros Hp. by apply (HP _ Hp), ms_frames_pt. }
  split; [by apply (ms_ok_frame s)|]. rewrite <- (tt_ktramp _ _ _ _ _ _ Htt). apply (pt_frame (km_mem s)); [apply Hok|done|unfold is_vpn, TRAMP_VPN; lia].
Qed.

Lemma grow_keeps new s' msu' a :
  ms_grow s msu new s' msu' → ms_ok s' msu' → areas msu' = areas msu ++ [a] → map_type a = Framed →
  user_space s' msu' msk tid f st ∧ get_trap_cx (km_mem s') f = get_trap_cx (km_mem s) f.
Proof using Hus.
  intros G Hok' Ha Hty. destruct cx_frames as (Hf1&Hf2&Hf3). pose proof Hus as [Htt Hfr Hap]. pose proof Htt as [H1 H2 (b&Hb&Hsl&Hd) H4 H5 H6 H7 H8].
  destruct G as [Gg Gf _ _ Gm Gt]. pose proof (gr_fresh _ _ _ Gg) as Hfresh.
  assert (Hnk : ∀ p, p ∈ pt_frames (page_table msu) ∨ p ∈ new → p ∉ ms_frames msk).
  { intros p [Hp|Hp] Hk; [apply (Hap p); [by apply ms_frames_pt|done]|]. apply (Hfresh p Hp). by apply (mo_owned _ _ H2). }
  assert (Ho : owns s' (ms_frames msk)) by (intros p Hp; apply (gr_owned _ _ _ Gg); right; by apply (mo_owned _ _ H2)).
  destruct (kernel_tables_kept s' _ Ho Gm Hnk) as [Hk1 Hk2].
  split.
  - split; [split; try done| |].
    + exists b. split; [rewrite Ha; apply elem_of_app; by left|done].
    + by rewrite Gt.
    + intros a'. rewrite Ha, elem_of_app, list_elem_of_singleton. intros [?| ->]; [by apply Hfr|done].
    + intros p. rewrite Gf, elem_of_app. intros [Hp|Hp]; [by apply Hap|]. apply Hnk. by right.
  - apply get_trap_cx_kept; [apply (cx_frame _ _ _ _ _ _ Htt)|]. intros x Hx. apply Gm. rewrite Hx. intros [?|Hn]; [done|]. by apply (Hfresh f Hn).
Qed.
End change.

Lemma user_space_frame s msu msk tid f st m :
  user_space s msu msk tid f st → same_outside (λ p, p = f) (km_mem s) m → user_space (with_mem (λ _, m) s) msu msk tid f st.
Proof. intros [Htt Hfr Hap] Hm. split; [by apply thread_tables_frame|done|done]. Qed.

Section calls.
Context {S : Type} `{!TrapKernel S}.

(** The way of a call into the kernel and back; [k] is the state of the kernel when
    its handler begins, [k1] the one in which the call runs. *)
Lemma call_path y st s msu msk tid f c u call :
  syms_ok y → user_runs s msu msk tid f st c → is_usize (cs c SSTATUS) → pc c mod 2 = 0 → pc c + 4 < 2 ^ 64 →
  Forall is_usize (arg_words u) → sent u = Some call →
  let cx := get_trap_cx (km_mem s) f in let c0 := ecall_regs u c in
  let cx1 := mkTC (saved_regs c0 (general_regs cx)) (trapped true (cs c SSTATUS)) (pc c + 4) (kernel_satp cx) (kernel_sp cx) (trap_handler_addr cx) in
  ∃ c1, resume y st (hw_trap c0) = Some c1 ∧
    (user c1 = false ∧ pc c1 = trap_handler_addr cx ∧ xr c1 r_sp = kernel_sp cx ∧ cs c1 SATP = token msk) ∧
    same_outside (λ p, p = f) (km_mem s) (cm c1) ∧
    ∀ k, tk_mem k = cm c1 → tk_frame k = Some f → ∃ k1, (∃ k0 g, tk_enter k = Done ((), k0) ∧ k1 = tk_write g k0) ∧
      tk_frame k1 = Some f ∧ tk_signals k1 = tk_signals k ∧ get_trap_cx (tk_mem k1) f = cx1 ∧
      same_outside (λ p, p = f) (km_mem s) (tk_mem k1) ∧
      (tk_call call k1 = Panic → trap_handler (CException UserEnvCall) k = Panic) ∧
      ∀ res k2 s2 msu2, tk_call call k1 = Done (Some res, k2) → tk_frame k2 = Some f → check_error (tk_signals k2) = None →
        get_trap_cx (tk_mem k2) f = cx1 → km_mem s2 = tk_mem k2 → thread_tables s2 msu2 msk tid f st →
        ∃ k3, trap_handler (CException UserEnvCall) k = Done (Some ToUser, k3) ∧ (∃ g, tk_leave (tk_write g k2) = Done ((), k3)) ∧
          same_outside (λ p, p = f) (tk_mem k2) (tk_mem k3) ∧
          ∀ c2, cm c2 = tk_mem k3 → cs c2 SATP = token msk →
            ∃ c3, resume y st (cpu_trap_return y (trap_cx_user_va tid) (token msu2) c2) = Some c3 ∧
              in_user_mode c3 msu2 msk tid f ∧ cm c3 = tk_mem k3 ∧ pc c3 = pc c + 4 ∧ xr c3 r_a0 = wrap64 res ∧
              Z.testbit (cs c3 SSTATUS) SIE = Z.testbit (cs c SSTATUS) SIE ∧
              (∀ r, (0 < r < 32)%nat → r ≠ r_a0 → r ≠ 4%nat → xr c3 r = xr c0 r) ∧
              ((∀ r, is_usize (xr c2 r)) → cpu_words c3).
Proof.
  intros Hy [Hus Hin Hcm Hr Hpc] Hst Hev Hpc4 Ha Hsent cx c0 cx1. pose proof (ur_tables _ _ _ _ _ _ Hus) as Htt.
  destruct (ecall_frame u c) as (F1&F2&F3&F4). fold c0 in F1, F2, F3, F4.
  assert (Hin0 : in_user_mode c0 msu msk tid f) by (destruct Hin as [I1 I2 I3 I4 I5 I6]; split; rewrite ?F1, ?F2, ?F3; done).
  destruct (trap_enters s msu msk tid f st c0 Htt Hin0) as (c1&E1&(Hc1&Hc2&Hc3&Hc4&_)&Hcx&Hm1);
    [by rewrite F2|by apply ecall_usize|by rewrite F1|by rewrite F4|]. fold cx in Hc2, Hc3, Hcx. rewrite F1, F4 in Hcx.
  pose proof (proj1 (cx_frame _ _ _ _ _ _ Htt)) as Hf.
  exists c1. split; [rewrite resume_alltraps; [exact E1|done|apply Hin0]|]. split; [done|]. split; [done|]. intros k Hk Hfk.
  assert (Hlen : length (general_regs cx) = 32%nat) by done.
  assert (Hpa : pa_from_ppn f = f * 4096) by (apply pa_from_ppn_eq; unfold is_ppn in Hf; lia).
  destruct (handler_call k f call Hfk) as (k1&(k0&G0&Ek1)&G1&G2&G3&G4&Gp&G5).
  { rewrite Hk, Hcx. cbn [general_regs]. exact (eq_trans (ecall_decode u c (general_regs cx) Hlen) Hsent). }
  rewrite Hk, Hcx in G3. cbn [general_regs sstatus sepc kernel_satp kernel_sp trap_handler_addr] in G3.
  rewrite wadd_small in G3 by (unfold is_usize in Hpc; lia). exists k1. split; [exists k0; eexists; split; [exact G0|exact Ek1]|]. split; [done|]. split; [done|]. split; [exact G3|]. split.
  { eapply same_outside_trans; [exact Hm1| |done|done]. intros x Hx. rewrite G4, Hk; [done|]. rewrite Hpa. zdiv_lia. }
  split; [exact Gp|].
  intros res k2 s2 msu2 Hcall Hf2 Hsig Hcx2 Hs2 Htt2. destruct (G5 res k2 f Hcall Hf2 Hsig) as (k3&T1&T0&T2&T3). rewrite Hcx2 in T2.
  exists k3. split; [done|]. split; [done|].
  assert (Hm3 : same_outside (λ p, p = f) (tk_mem k2) (tk_mem k3)) by (intros x Hx; apply T3; rewrite Hpa; zdiv_lia).
  split; [done|]. intros c2 Hcm2 Hsatp2. rewrite <- Hcm2.
  assert (Htt3 : thread_tables (with_mem (λ _, tk_mem k3) s2) msu2 msk tid f st) by (apply thread_tables_frame; [done|]; rewrite Hs2; exact Hm3).
  destruct Hin as [_ _ _ _ I5 I6]. rewrite Hcm in I5, I6. fold cx in I5, I6.
  destruct (trap_back _ msu2 msk tid f st y c0 cx (wrap64 res) (pc c + 4) c2 Hy Htt3 Hcm2 Hsatp2 Hlen I5 I6) as (c3&R1&R2&R3&R4&R5&R6&R7&R8).
  { zdiv_lia. }
  { cbn [km_mem with_mem]. rewrite T2, F1. reflexivity. }
  exists c3. rewrite F1 in R6. repeat (split; [done|]). apply R8; [|apply wrap64_range]. split; [by apply ecall_usize|by rewrite F1].
Qed.
End calls.

(** ** A process and its memory calls *)

Record Proc := mkProc { pr_km : KMem; pr_ms : MemorySet SV39PageTable; pr_pid : Z; pr_frame : Z; pr_signals : Z; pr_exit : option Z }.

Definition on_memory_set (f : MemorySet SV39PageTable → K KMem (MemorySet SV39PageTable * Z)) : K Proc (option Z) := λ p,
  match f (pr_ms p) (pr_km p) with
  | Done ((ms, r), km) => Done (Some r, mkProc km ms (pr_pid p) (pr_frame p) (pr_signals p) (pr_exit p))
  | Panic => Panic
  end.

(** The calls on the address space; the process has no open files. *)
Definition memory_call (c : Call) : K Proc (option Z) :=
  match c with
  | Cbrk addr => on_memory_set (λ ms, sys_brk ms addr)
  | Cmunmap start len => on_memory_set (λ ms, sys_munmap ms start len)
  | Cmmap start len prot flags fd off => on_memory_set (λ ms, sys_mmap [] ms start len prot flags fd off)
  | Cgetpid => λ p, Done (Some (sys_getpid (pr_pid p)), p)
  | _ => kpanic
  end.

Definition write_mem (f : mem → mem) (p : Proc) : Proc :=
  mkProc (with_mem f (pr_km p)) (pr_ms p) (pr_pid p) (pr_frame p) (pr_signals p) (pr_exit p).

#[refine] Instance proc_kernel : TrapKernel Proc := {
  tk_mem p := km_mem (pr_km p);
  tk_write := write_mem;
  tk_frame p := Some (pr_frame p);
  tk_signals := pr_signals;
  tk_add_signal sg p := mkProc (pr_km p) (pr_ms p) (pr_pid p) (pr_frame p) (Z.lor (pr_signals p) sg) (pr_exit p);
  tk_call := memory_call;
  tk_enter := mret ();
  tk_leave := mret ();
  tk_timer := mret ();
  tk_suspend := mret ();
  tk_exit code := kmodify (λ p, mkProc (pr_km p) (pr_ms p) (pr_pid p) (pr_frame p) (pr_signals p) (Some code));
}.
Proof. all: try done; intros s; exists s; done. Defined.

(** [brk] beyond the end of the heap, in terms of the areas. *)
Lemma sys_brk_grows s (ms : MemorySet SV39PageTable) addr :
  fa_wf (km_fa s) → ms_ok s ms → 0 <= brk ms → brk ms < addr < 2 ^ 38 - 4096 → heap_page (brk ms) < heap_page addr →
  (∀ a v, a ∈ areas ms → heap_page (brk ms) <= v < heap_page addr → ¬ in_area a v) →
  3 * (heap_page addr - heap_page (brk ms)) <= fa_free (km_fa s) →
  wp (sys_brk ms addr) s (λ '(ms', r) s', r = addr ∧ brk ms' = addr ∧ ms_ok s' ms' ∧
    ∃ a new, ms_grow s ms new s' ms' ∧ areas ms' = areas ms ++ [a] ∧
      area_spec a (heap_page (brk ms)) (heap_page addr) (Z.lor (Z.lor PERM_R PERM_W) PERM_U) ∧
      ∀ v, in_area a v → zero_page (km_mem s') new a v).
Proof.
  intros Hfa Hok Hb Ha Hlt Hway Hfree. unfold sys_brk. rewrite (proj2 (Z.eqb_neq _ _)), (proj2 (Z.ltb_ge _ _)) by lia. wp_steps.
  eapply wp_mono; [apply expand_heap_wp; done || lia|]. intros [ms1 r] s1 [-> H1]. fold (heap_page (brk ms)) (heap_page addr) in H1.
  rewrite decide_True in H1 by done. destruct H1 as (a&new&a'&(HR&HY&HP)&P). destruct (pp_attrs _ _ _ _ _ _ _ P) as (HR'&HY'&HP'). wp_steps.
  assert (Hin : ∀ v, in_area a' v ↔ in_area a v) by (intros v; unfold in_area; by rewrite HR').
  split; [rewrite <- (as_isize_small addr) at 2 by lia; f_equal; symmetry; apply Z.mod_small; lia|]. split; [done|]. split; [apply ms_ok_brk, P|].
  exists a', new. split; [destruct (pp_grow _ _ _ _ _ _ _ P); split; done|]. split; [apply P|]. split; [split_and!; congruence|].
  intros v Hv%Hin. by apply (pp_zero _ _ _ _ _ _ _ P).
Qed.

(** A page that the program could reach stays where it was and keeps its bytes when
    the space grows and the context is written. *)
Lemma grown_page s msu msk tid f st new s' msu' a m va pa :
  user_space s msu msk tid f st → ms_grow s msu new s' msu' → user_space (with_mem (λ _, m) s') msu' msk tid f st →
  areas msu' = areas msu ++ [a] → same_outside (λ p, p = f) (km_mem s') m →
  mmu (km_mem s) (token msu) true ARead va = Some pa →
  mmu m (token msu') true ARead va = Some pa ∧ m pa = km_mem s pa.
Proof.
  intros Hus G Hus' Ha Hm Hr. destruct (proj1 (user_reach _ _ _ _ _ _ Hus _ _ _) Hr) as (Hc&Hv&Hmod&Hp).
  destruct (user_page_apart _ _ _ _ _ _ Hus _ _ _ Hp) as (Hf&Hin&Hpt&_). split.
  - change m with (km_mem (with_mem (λ _, m) s')). apply (user_reach _ _ _ _ _ _ Hus'). destruct Hp as (b&Hb&?&?&?).
    split; [done|]. split; [done|]. split; [done|]. exists b. split; [rewrite Ha; apply elem_of_app; by left|done].
  - rewrite (Hm pa Hf). apply (mg_same _ _ _ _ _ G). intros [?|Hn]; [done|].
    apply (gr_fresh _ _ _ (mg_grows _ _ _ _ _ G) _ Hn), (mo_owned _ _ (tt_user _ _ _ _ _ _ (ur_tables _ _ _ _ _ _ Hus))), Hin.
Qed.

(** The pages of a new area that the program may use. *)
Lemma fresh_page s msu msk tid f st new a m va :
  user_space (with_mem (λ _, m) s) msu msk tid f st → a ∈ areas msu → map_perm a = Z.lor (Z.lor PERM_R PERM_W) PERM_U →
  same_outside (λ p, p = f) (km_mem s) m → 0 <= va < 2 ^ 38 - 4096 → zero_page (km_mem s) new a (va / 4096) → in_area a (va / 4096) →
  ∃ pa, mmu m (token msu) true AWrite va = Some pa ∧ mmu m (token msu) true ARead va = Some pa ∧ m pa = 0.
Proof.
  intros Hus Ha HP Hm Hva (ppn&Hd&Hn&Hz) Hin. assert (Hvv : va_vpn va = va / 4096) by (unfold va_vpn; zdiv_lia).
  assert (Hp : ∀ acc, acc ≠ AExec → user_page msu acc (va / 4096) ppn) by (intros acc Hacc; exists a; rewrite HP; by destruct acc).
  assert (Hr : ∀ acc, acc ≠ AExec → mmu m (token msu) true acc va = Some (ppn * 4096 + va mod 4096)).
  { intros acc Hacc. apply (user_reach _ _ _ _ _ _ Hus). rewrite Hvv. split; [left; lia|]. split; [unfold TRAMP_VPN; zdiv_lia|].
    split; [zdiv_lia|]. replace ((ppn * 4096 + va mod 4096) / 4096) with ppn by zdiv_lia. by apply Hp. }
  exists (ppn * 4096 + va mod 4096). split; [by apply Hr|]. split; [by apply Hr|].
  destruct (user_page_apart _ _ _ _ _ _ Hus _ _ _ (Hp ARead ltac:(done))) as (Hf&_).
  assert (Hpp : (ppn * 4096 + va mod 4096) / 4096 = ppn) by zdiv_lia. rewrite (Hm _) by (by rewrite Hpp). by apply Hz.
Qed.

(** C4: A program asks for heap.  From the [ecall] of [brk] the processor reaches the
    handler, the handler grows the space, and the program goes on after the call
    with the new end in [a0] and its other registers as they were; every page of
    the new heap can then be read and written and holds zeros, and every byte
    that the program could read before is where it was. *)
Theorem heap_from_program y st p msk tid c addr :
  let ms := pr_ms p in let c0 := ecall_regs (u_brk addr) c in
  syms_ok y → user_runs (pr_km p) ms msk tid (pr_frame p) st c → is_usize (cs c SSTATUS) → pc c mod 2 = 0 → pc c + 4 < 2 ^ 64 →
  fa_wf (km_fa (pr_km p)) → check_error (pr_signals p) = None →
  0 <= brk ms → brk ms < addr < 2 ^ 38 - 4096 → heap_page (brk ms) < heap_page addr →
  (∀ a v, a ∈ areas ms → heap_page (brk ms) <= v < heap_page addr → ¬ in_area a v) →
  3 * (heap_page addr - heap_page (brk ms)) <= fa_free (km_fa (pr_km p)) →
  ∃ c1 p3, resume y st (hw_trap c0) = Some c1 ∧ pc c1 = trap_handler_addr (get_trap_cx (cm c) (pr_frame p)) ∧
    trap_handler (CException UserEnvCall) (write_mem (λ _, cm c1) p) = Done (Some ToUser, p3) ∧ brk (pr_ms p3) = addr ∧
    ∀ c2, cm c2 = km_mem (pr_km p3) → cs c2 SATP = token msk →
      ∃ c3, resume y st (cpu_trap_return y (trap_cx_user_va tid) (token (pr_ms p3)) c2) = Some c3 ∧
        user c3 = true ∧ pc c3 = pc c + 4 ∧ xr c3 r_a0 = addr ∧ (∀ r, (0 < r < 32)%nat → r ≠ r_a0 → r ≠ 4%nat → xr c3 r = xr c0 r) ∧
        (∀ va, heap_page (brk ms) * 4096 <= va < heap_page addr * 4096 →
           ∃ pa, mmu (cm c3) (cs c3 SATP) true AWrite va = Some pa ∧ mmu (cm c3) (cs c3 SATP) true ARead va = Some pa ∧ cm c3 pa = 0) ∧
        ∀ va pa, mmu (cm c) (cs c SATP) true ARead va = Some pa → mmu (cm c3) (cs c3 SATP) true ARead va = Some pa ∧ cm c3 pa = cm c pa.
Proof.
  intros ms c0 Hy Hrun Hst Hev Hpc Hfa Hsig Hb Haddr Hlt Hway Hfree. pose proof Hrun as [Hus Hmode Hcm Hregs _].
  assert (Hargs : Forall is_usize (arg_words (u_brk addr))) by (repeat constructor; unfold is_usize; simpl; lia).
  destruct (call_path y st _ _ _ _ _ c (u_brk addr) (Cbrk addr) Hy Hrun Hst Hev Hpc Hargs eq_refl) as (c1&E1&(_&Hpc1&_&_)&Hm1&Hk).
  destruct (Hk (write_mem (λ _, cm c1) p) eq_refl eq_refl) as (k1&(k0&g&Hk0&->)&_&Hs1&Hcx1&Hmk1&_&Hret).
  injection Hk0 as <-. set (km1 := with_mem g (with_mem (λ _, cm c1) (pr_km p))) in *.
  assert (Hus1 : user_space km1 ms msk tid (pr_frame p) st) by exact (user_space_frame (pr_km p) _ _ _ _ _ (km_mem km1) Hus Hmk1).
  destruct (proj1 (wp_done _ _ _) (sys_brk_grows km1 ms addr Hfa (tt_user _ _ _ _ _ _ (ur_tables _ _ _ _ _ _ Hus1)) Hb Haddr Hlt Hway Hfree))
    as ([ms' r]&s'&Hbrk&->&Hb'&Hok'&a&new&G&Ha'&(HR&HY&HP)&Hzero).
  destruct (grow_keeps _ _ _ _ _ _ Hus1 _ _ _ _ G Hok' Ha' HY) as [Hus2 Hcx2].
  set (k2 := mkProc s' ms' (pr_pid p) (pr_frame p) (pr_signals p) (pr_exit p)).
  assert (Hcall : memory_call (Cbrk addr) (tk_write g (write_mem (λ _, cm c1) p)) = Done (Some addr, k2)).
  { unfold memory_call, on_memory_set. change (sys_brk _ _ _) with (sys_brk ms addr km1). by rewrite Hbrk. }
  destruct (Hret addr k2 s' ms' Hcall eq_refl Hsig (eq_trans Hcx2 Hcx1) eq_refl (ur_tables _ _ _ _ _ _ Hus2)) as (k3&E3&(g3&[= <-])&Hm3&Hback).
  exists c1, (write_mem g3 k2). split; [exact E1|]. split; [by rewrite Hcm|]. split; [exact E3|]. split; [exact Hb'|].
  set (m3 := g3 (km_mem s')) in *.
  assert (Hus3 : user_space (with_mem (λ _, m3) s') ms' msk tid (pr_frame p) st) by exact (user_space_frame _ _ _ _ _ _ _ Hus2 Hm3).
  intros c2 Hcm2 Hsatp2. destruct (Hback c2 Hcm2 Hsatp2) as (c3&R1&R2&R3&R4&R5&_&R7&_). exists c3. split; [exact R1|]. split; [apply R2|]. split; [done|].
  split; [rewrite R5; apply Z.mod_small; lia|]. split; [exact R7|]. change (cm c3 = m3) in R3. rewrite R3, (iu_satp _ _ _ _ _ R2). split.
  - intros va Hva. unfold heap_page in Hva. assert (Hin : in_area a (va / 4096)) by (unfold in_area; rewrite HR; simpl; unfold heap_page; zdiv_lia).
    eapply fresh_page; [exact Hus3|rewrite Ha'; apply elem_of_app; right; left|exact HP|exact Hm3|zdiv_lia|by apply Hzero|done].
  - intros va pa Hr. rewrite Hcm, (iu_satp _ _ _ _ _ Hmode) in Hr. destruct (proj1 (user_reach _ _ _ _ _ _ Hus _ _ _) Hr) as (Hc&Hv&Hmod&Hp).
    destruct (user_page_apart _ _ _ _ _ _ Hus _ _ _ Hp) as (Hf&_). rewrite Hcm, <- (Hmk1 pa Hf).
    apply (grown_page km1 ms msk tid (pr_frame p) st new s' ms' a m3 va pa Hus1 G Hus3 Ha' Hm3). by apply (user_reach _ _ _ _ _ _ Hus1).
Qed.

(** ** The trap context in reach of [munmap] *)

(** The address of the trap context as an argument of [munmap]. *)
Lemma cx_target (ms : MemorySet SV39PageTable) a tid i :
  0 <= tid < 1000 → areas ms !! i = Some a → is_slot a (tcx tid) → munmap_target ms (trap_cx_user_va tid) 4096 i a.
Proof.
  intros Ht Hi (HR&_). destruct (cx_va_facts tid Ht) as [Hva _]. unfold munmap_target. rewrite Hva.
  replace (2 ^ 64 - (2 + tid) * 4096 + 4096) with (2 ^ 64 - (1 + tid) * 4096) by lia.
  assert (E1 : va_from_usize (2 ^ 64 - (2 + tid) * 4096) = 2 ^ 39 - (2 + tid) * 4096) by (rewrite va_from_usize_mod; zdiv_lia).
  assert (E2 : va_from_usize (2 ^ 64 - (1 + tid) * 4096) = 2 ^ 39 - (1 + tid) * 4096) by (rewrite va_from_usize_mod; zdiv_lia).
  assert (F1 : va_floor (2 ^ 39 - (2 + tid) * 4096) = TRAMP_VPN - 1 - tid) by (unfold va_floor, PAGE_SIZE, TRAMP_VPN; zdiv_lia).
  assert (F2 : va_ceil (2 ^ 39 - (1 + tid) * 4096) = TRAMP_VPN - tid) by (rewrite va_ceil_eq by lia; unfold TRAMP_VPN; zdiv_lia).
  rewrite E1, E2, F1, F2. split; [done|]. split; [|split; [lia|split; [lia|split; [done|]]]].
  - unfold va_aligned. rewrite va_page_offset_mod. apply Z.eqb_eq. zdiv_lia.
  - unfold area_is. by rewrite HR.
Qed.

(** Code fails if it fails after its first instruction, or at it. *)
Lemma run_stuck pages i code c :
  match i with Jr _ | Jalr _ _ | Sret => False | _ => True end →
  (∀ c', exec1 i c = Some c' → cpu_run pages code c' = None) → cpu_run pages (i :: code) c = None.
Proof.
  intros Hi H. destruct (exec1 i c) as [c'|] eqn:E; [pose proof (H c' eq_refl) as Hn|];
    destruct i; try done; cbn [cpu_run]; rewrite E; destruct (fetch _ _ _); done.
Qed.

(** A program may unmap the trap context of its own thread: the call returns 0, the
    frame goes back to the allocator, and the return to the program faults in the
    kernel at the first load of [__restore]. *)
Lemma munmap_takes_context s msu msk tid f st :
  user_space s msu msk tid f st → fa_wf (km_fa s) →
  wp (sys_munmap msu (trap_cx_user_va tid) 4096) s (λ '(ms', r) s', r = 0 ∧ ¬ fa_owned (km_fa s') f ∧
    ∀ y c, cm c = km_mem s' → cpu_run (tramp_pages st) restore (cpu_trap_return y (trap_cx_user_va tid) (token ms') c) = None).
Proof.
  intros [Htt Hfr _] Hfa. pose proof Htt as [Hok _ (a&[i Hi]%list_elem_of_lookup&Hsl&Hd) Ht _ _ _ _]. unfold sys_munmap. wp_steps.
  pose proof (cx_target msu a tid i Ht Hi Hsl) as Htarget. pose proof Hsl as (HR&HY&HP).
  eapply wp_mono; [by apply munmap_wp|]. intros [ms' [u|e]] s'; [|intros (_&_&_&Hno); by destruct (Hno i a)].
  intros (j&b&(_&_&_&_&Hj&Hb)&R). wp_steps. destruct Htarget as (_&_&_&_&_&Ha).
  assert (Hin : in_area a (TRAMP_VPN - 1 - tid)) by (unfold in_area; rewrite HR; simpl; lia).
  assert (Hin' : in_area b (TRAMP_VPN - 1 - tid)).
  { destruct Ha as [Ha1 Ha2], Hb as [Hb1 Hb2]. unfold in_area in *. by rewrite Hb1, Hb2, <- Ha1, <- Ha2. }
  assert (i = j) as <- by (eapply (mo_disj _ _ Hok i j); eassumption). assert (b = a) as -> by congruence.
  split; [done|]. split; [intros [_ Hn]%(rp_owned _ _ _ _ _ _ R); apply Hn, elem_of_area_frames; eauto|].
  intros y c Hcm. destruct (cx_va_facts tid Ht) as [Hva Hfacts]. set (va := trap_cx_user_va tid) in *.
  assert (Hw : va +w 32 * 8 = va + 8 * 32) by (rewrite wadd_small; lia).
  destruct (Hfacts (va + 8 * 32)) as (Hc&Hv&H8&_); [exists 32; lia|].
  assert (Hnone : mmu (km_mem s') (token ms') false ARead (va + 8 * 32) = None).
  { change (token ms') with (sv39_token (page_table ms')). rewrite mmu_lookup by (apply (rp_ok _ _ _ _ _ _ R) || done). rewrite Hv.
    change (sv39_lookup _ _ _) with (pt_lookup (km_mem s') (page_table ms') (TRAMP_VPN - 1 - tid)). by rewrite (rp_gone _ _ _ _ _ _ R _ Hin). }
  unfold restore. cbn [app]. do 4 (apply run_stuck; [done|]; intros ? [= <-]). apply run_stuck; [done|]. intros c' Hc'. exfalso.
  cbn [exec1] in Hc'. set (c4 := set_x r_sp _ _) in Hc'. assert (Ha4 : xreg c4 r_sp +w 32 * 8 = va + 8 * 32) by exact Hw.
  unfold mem_access in Hc'. rewrite Ha4, H8 in Hc'. change (cm c4) with (cm c) in Hc'. change (cs c4 SATP) with (token ms') in Hc'.
  rewrite Hcm, Hnone in Hc'. done.
Qed.

(** ** An example *)

Definition demo_cx : TrapContext := mkTC (replicate 32 7) 0 0 (token demo.1) 0x80300000 0x80202000.

Lemma demo_cx_ok : tc_ok demo_cx.
Proof.
  destruct demo_facts as (_&Hkok&_). pose proof (token_usize _ _ Hkok) as Ht. split; [reflexivity|].
  change (Forall is_usize (replicate 32 7 ++ [0; 0; token demo.1; 0x80300000; 0x80202000])). generalize dependent (token demo.1). intros t Ht.
  apply Forall_app. split; [apply Forall_replicate; unfold is_usize; lia|]. unfold is_usize in *. repeat (apply Forall_cons; split; [lia|]). apply Forall_nil_2.
Qed.

Lemma with_mem_same s : with_mem (λ _, km_mem s) s = s.
Proof. by destruct s. Qed.

(** The thread of the example, about to leave address [0x10000]. *)
Definition demo_cpu (s : KMem) (msu : MemorySet SV39PageTable) : Cpu :=
  mkCpu (λ _, 7) (λ k, match k with SSTATUS => 2 | SEPC => 0 | SSCRATCH => trap_cx_user_va 0 | SATP => token msu | STVEC => TRAMPOLINE | SIER => 32 end)
    (km_mem s) true 0x10000.

Lemma demo_cpu_runs s msu f :
  user_space s msu demo.1 0 f demo_st → get_trap_cx (km_mem s) f = demo_cx → user_runs s msu demo.1 0 f demo_st (demo_cpu s msu).
Proof.
  intros Hus Hcx. split; [exact Hus| |reflexivity|intros r; unfold is_usize; simpl; lia|unfold is_usize; simpl; lia].
  split; [reflexivity|reflexivity|reflexivity|reflexivity|change (cm (demo_cpu s msu)) with (km_mem s); rewrite Hcx; reflexivity|].
  change (cm (demo_cpu s msu)) with (km_mem s). rewrite Hcx. reflexivity.
Qed.

(** It has no memory of its own yet. *)
Lemma demo_running : ∃ s msu f, user_space s msu demo.1 0 f demo_st ∧ get_trap_cx (km_mem s) f = demo_cx ∧ demo_process_ok msu s.
Proof.
  destruct demo_process as (msu&s0&f&Htt&Hd). pose proof (thread_tables_write _ _ _ _ _ _ demo_cx Htt demo_cx_ok) as Htt1.
  exists (with_mem (λ m, put_trap_cx m f demo_cx) s0), msu, f. split; [|split; [apply get_put_trap_cx, demo_cx_ok|exact Hd]].
  destruct Hd as ((a&Ha&(_&Hty&_))&_&_&_&Hap). split; [exact Htt1| |exact Hap]. rewrite Ha. intros b [->|[]%elem_of_nil]%elem_of_cons. exact Hty.
Qed.

(** The way of a heap of 10 KB is free. *)
Lemma demo_heap_free msu s : demo_process_ok msu s →
  (∀ a v, a ∈ areas msu → heap_page (brk msu) <= v < heap_page 0x2800 → ¬ in_area a v) ∧
  3 * (heap_page 0x2800 - heap_page (brk msu)) <= fa_free (km_fa s).
Proof.
  intros ((a&Ha&(HR&_))&Hb&_&Hf&_). rewrite Hb. split; [|change (3 * _) with 9; lia]. intros b v. rewrite Ha.
  intros [->|[]%elem_of_nil]%elem_of_cons. unfold in_area. rewrite HR. change (heap_page 0x2800) with 3. simpl. unfold TRAMP_VPN. lia.
Qed.

(** After it asked for 10 KB of heap, it stores a byte at [0x1234]. *)
Lemma user_isolated_witness :
  ∃ s msu f c c' pa, user_runs s msu demo.1 0 f demo_st c ∧ rtc user_step c c' ∧ cm c pa = 0 ∧ cm c' pa = 5 ∧
    same_outside (writable_frame msu) (cm c) (cm c') ∧ pc c' = 0x10008.
Proof.
  destruct demo_running as (s0&msu0&f&Hus0&Hcx0&Hd). destruct (demo_heap_free _ _ Hd) as [Hway Hfree]. destruct Hd as (_&Hb&Hfa&_&_).
  destruct (proj1 (wp_done _ _ _) (sys_brk_grows s0 msu0 0x2800 Hfa (tt_user _ _ _ _ _ _ (ur_tables _ _ _ _ _ _ Hus0)) ltac:(lia) ltac:(lia)
    ltac:(rewrite Hb; by vm_compute) Hway Hfree)) as ([msu r]&s&_&_&_&Hok&a&new&G&Ha&(HR&HY&HP)&Hz).
  destruct (grow_keeps _ _ _ _ _ _ Hus0 _ _ _ _ G Hok Ha HY) as [Hus Hcx]. rewrite Hcx0 in Hcx.
  assert (Hin : in_area a (0x1234 / 4096)) by (unfold in_area; rewrite HR, Hb; split; vm_compute; congruence).
  destruct (fresh_page s msu demo.1 0 f demo_st new a (km_mem s) 0x1234) as (pa&Hw&_&H0);
    [rewrite with_mem_same; exact Hus|rewrite Ha; apply elem_of_app; right; left|exact HP|apply same_outside_refl|lia|exact (Hz _ Hin)|exact Hin|].
  set (c := demo_cpu s msu). pose proof (demo_cpu_runs s msu f Hus Hcx) as Hrun. fold c in Hrun.
  set (c1 := set_cm (store_bytes (cm c) pa [5]) c). set (c' := mkCpu (λ _, 9) (cs c1) (cm c1) true 0x10008).
  assert (Hsteps : rtc user_step c c').
  { eapply rtc_l; [exact (us_store c 0x1234 pa 5 eq_refl Hw ltac:(unfold is_byte; lia))|]. apply rtc_once, us_regs; [reflexivity|intros q; unfold is_usize; lia|unfold is_usize; lia]. }
  destruct (user_isolated s msu demo.1 0 f demo_st c c' Hrun Hsteps) as (_&_&Hsame&_).
  exists s, msu, f, c, c', pa. split; [exact Hrun|]. split; [exact Hsteps|]. split; [exact H0|]. split; [|split; [exact Hsame|reflexivity]].
  change (store_bytes (km_mem s) pa [5] pa = 5). rewrite <- (Z.add_0_r pa) at 2. exact (store_bytes_in _ pa [5] 0 5 eq_refl).
Defined.

Lemma heap_from_program_witness :
  ∃ p c c1 p3 c3, pc c = 0x10000 ∧ resume demo_trap_syms demo_st (hw_trap (ecall_regs (u_brk 0x2800) c)) = Some c1 ∧ pc c1 = 0x80202000 ∧
    trap_handler (CException UserEnvCall) (write_mem (λ _, cm c1) p) = Done (Some ToUser, p3) ∧
    pc c3 = 0x10004 ∧ xr c3 r_a0 = 0x2800 ∧ ∃ pa, mmu (cm c3) (cs c3 SATP) true AWrite 0x1234 = Some pa ∧ cm c3 pa = 0.
Proof.
  destruct demo_running as (s&msu&f&Hus&Hcx&Hd). destruct (demo_heap_free _ _ Hd) as [Hway Hfree]. destruct Hd as (_&Hb&Hfa&_&_).
  set (p := mkProc s msu 1 f 0 None). set (c := demo_cpu s msu).
  destruct (heap_from_program demo_trap_syms demo_st p demo.1 0 c 0x2800) as (c1&p3&E1&Hpc1&E3&_&Hret).
  - exact demo_trap_syms_ok.
  - exact (demo_cpu_runs s msu f Hus Hcx).
  - split; vm_compute; congruence.
  - reflexivity.
  - vm_compute. reflexivity.
  - exact Hfa.
  - reflexivity.
  - change (pr_ms p) with msu. lia.
  - change (pr_ms p) with msu. lia.
  - change (pr_ms p) with msu. rewrite Hb. reflexivity.
  - exact Hway.
  - exact Hfree.
  - set (c2 := mkCpu (λ _, 0) (λ k, match k with SATP => token demo.1 | _ => 0 end) (km_mem (pr_km p3)) false 0x80202000).
    destruct (Hret c2 eq_refl eq_refl) as (c3&_&_&Hpc3&Ha0&_&Hheap&_). change (pr_ms p) with msu in Hheap. rewrite Hb in Hheap.
    destruct (Hheap 0x1234 ltac:(split; vm_compute; congruence)) as (pa&Hw&_&Hz). exists p, c, c1, p3, c3.
    split; [reflexivity|]. split; [exact E1|]. split; [rewrite Hpc1; change (cm c) with (km_mem s); change (pr_frame p) with f; rewrite Hcx; reflexivity|].
    split; [exact E3|]. split; [exact Hpc3|]. split; [exact Ha0|]. exists pa. split; [exact Hw|exact Hz].
Defined.
