(* ===== verification/UserLife.v ===== *)
(** * The life of a process: any program, any sequence of memory calls

    Steps of a program in user mode and its calls of [brk], [mmap], [munmap] and
    [getpid], in any order and with any arguments, each call through the assembly,
    the handler and back.  Whatever the program does, the other address spaces
    keep their frames and their bytes, or the kernel panics. *)

From S2P Require Import Prelude Address PhysMem IdAlloc FrameAlloc PageTable Sv39 UserMem MemorySet MapAreaSpec.
From S2P Require Import MemorySetSpec MemorySetOps Mmap Fork Elf TrapCx UserRes StackProps SpaceProps Mmu Asm TrapPath ExecProps Timer Signal FdTable ProcCalls Syscall Trap UserRun.

Implicit Types ms msu msk : MemorySet SV39PageTable.

(** ** The rest of memory *)

(** Every space that shares no frame with the process stays intact and apart. *)
Definition contained (s : KMem) msu (s' : KMem) msu' : Prop :=
  ∀ ms, ms_ok s ms → (∀ p, p ∈ ms_frames ms → p ∉ ms_frames msu) →
    ms_ok s' ms ∧ (∀ p, p ∈ ms_frames ms → p ∉ ms_frames msu') ∧ ∀ y, y / 4096 ∈ ms_frames ms → km_mem s' y = km_mem s y.

Lemma contained_trans s1 m1 s2 m2 s3 m3 : contained s1 m1 s2 m2 → contained s2 m2 s3 m3 → contained s1 m1 s3 m3.
Proof.
  intros H1 H2 ms Hok Hap. destruct (H1 ms Hok Hap) as (Hok2&Hap2&Hm2). destruct (H2 ms Hok2 Hap2) as (Hok3&Hap3&Hm3).
  split; [done|]. split; [done|]. intros y Hy. by rewrite Hm3, Hm2.
Qed.

(** Only frames of the process and free ones are written or taken, and only frames of
    the process are given back. *)
Lemma contained_intro s msu s' msu' :
  let mine p := p ∈ ms_frames msu ∨ ¬ fa_owned (km_fa s) p in
  (∀ p, fa_owned (km_fa s) p → p ∉ ms_frames msu → fa_owned (km_fa s') p) →
  (∀ p, p ∈ ms_frames msu' → mine p) → same_outside mine (km_mem s) (km_mem s') → contained s msu s' msu'.
Proof.
  intros mine Ho Hf Hm ms Hok Hap. assert (Hno : ∀ p, p ∈ ms_frames ms → ¬ mine p).
  { intros p Hp [?|Hn]; [by eapply Hap|]. by apply Hn, (mo_owned _ _ Hok). }
  assert (Hs : ∀ y, y / 4096 ∈ ms_frames ms → km_mem s' y = km_mem s y) by (intros y Hy; by apply Hm, Hno).
  split; [|split; [intros p Hp Hp'; by apply (Hno p Hp), Hf|done]].
  apply (ms_ok_frame s); [done| |intros x Hx; by apply Hs, ms_frames_pt].
  intros p Hp. apply Ho; [by apply (mo_owned _ _ Hok)|by apply Hap].
Qed.

Lemma contained_write s msu m : same_outside (λ p, p ∈ ms_frames msu) (km_mem s) m → contained s msu (with_mem (λ _, m) s) msu.
Proof. intros Hm. apply contained_intro; [done|by left|]. eapply same_outside_mono; [exact Hm|]. by left. Qed.

Lemma contained_grow s msu new s' msu' : ms_grow s msu new s' msu' → contained s msu s' msu'.
Proof.
  intros [G F _ _ M _]. pose proof (gr_fresh _ _ _ G) as Hn. apply contained_intro.
  - intros p Hp _. apply (gr_owned _ _ _ G). by right.
  - intros p. rewrite F, elem_of_app. intros [?|?%Hn]; auto.
  - eapply same_outside_mono; [exact M|]. intros p [?%ms_frames_pt|?%Hn]; auto.
Qed.

Lemma remove_frames s msu i a s' msu' p :
  areas msu !! i = Some a → remove_post s msu i a s' msu' → p ∈ ms_frames msu' ∨ p ∈ area_frames a → p ∈ ms_frames msu.
Proof.
  intros Hi R. unfold ms_frames. rewrite (rp_table _ _ _ _ _ _ R), (rp_areas _ _ _ _ _ _ R), !elem_of_app, !elem_of_areas_frames.
  intros [[?|(b&(j&_&Hj)%elem_of_delete&Hb)]|Hp]; [by left|right; exists b|right; exists a]; (split; [by eapply list_elem_of_lookup_2|done]).
Qed.

Lemma contained_remove s msu i a s' msu' : areas msu !! i = Some a → remove_post s msu i a s' msu' → contained s msu s' msu'.
Proof.
  intros Hi R. apply contained_intro.
  - intros p Hp Hn. apply (rp_owned _ _ _ _ _ _ R). split; [done|]. intros Ha. apply Hn. by eapply remove_frames; [..|right].
  - intros p Hp. left. by eapply remove_frames; [..|left].
  - eapply same_outside_mono; [apply (rp_same _ _ _ _ _ _ R)|]. intros p ?%ms_frames_pt. by left.
Qed.

(** ** The calls *)

(** What a call leaves behind: the process can go on, the others are not touched. *)
Record call_keeps (s : KMem) msu msk (tid f st : Z) (s' : KMem) msu' : Prop := {
  ck_space : user_space s' msu' msk tid f st;
  ck_cx : get_trap_cx (km_mem s') f = get_trap_cx (km_mem s) f;
  ck_fa : fa_wf (km_fa s');
  ck_rest : contained s msu s' msu';
}.

Lemma user_space_brk s msu msk tid f st b h :
  user_space s msu msk tid f st → user_space s (mkMS (page_table msu) (areas msu) b h) msk tid f st.
Proof. intros [[H1 H2 H3 H4 H5 H6 H7 H8] Hfr Hap]. split; [split|..]; try done. by apply ms_ok_brk. Qed.

Section calls.
Context (s : KMem) (msu msk : MemorySet SV39PageTable) (tid f st : Z).
Context (Hus : user_space s msu msk tid f st) (Hfa : fa_wf (km_fa s)).

Let Hok : ms_ok s msu := tt_user _ _ _ _ _ _ (ur_tables _ _ _ _ _ _ Hus).
Let Htr := tt_utramp _ _ _ _ _ _ (ur_tables _ _ _ _ _ _ Hus).

Lemma adds_keeps s' msu' : ms_adds s msu s' msu' → call_keeps s msu msk tid f st s' msu'.
Proof using Hus Hfa.
  intros [(Hp&Ha&->)|(new&a&G&Hok'&Ha&Hty)].
  - destruct msu' as [t l b h]. cbn in Hp, Ha. subst t l. split; [by apply user_space_brk|done|done|].
    intros ms Hms Hap. done.
  - destruct (grow_keeps _ _ _ _ _ _ Hus _ _ _ _ G Hok' Ha Hty) as [Hus' Hcx].
    split; [done|done|apply (mg_grows _ _ _ _ _ G)|by eapply contained_grow].
Qed.

Lemma remove_keeps i a s' msu' :
  areas msu !! i = Some a → get_start (vpn_range a) ≠ TRAMP_VPN - 1 - tid → remove_post s msu i a s' msu' →
  call_keeps s msu msk tid f st s' msu'.
Proof using Hus Hfa.
  intros Hi Hst R. destruct (cx_frames _ _ _ _ _ _ Hus) as (_&Hfp&_). pose proof Hus as [[H1 H2 (b&Hb&Hsl&Hd) H4 H5 H6 H7 H8] Hfr Hap].
  assert (Ho : owns s' (ms_frames msk)).
  { intros p Hp. apply (rp_owned _ _ _ _ _ _ R). split; [by apply (mo_owned _ _ H2)|]. intros Ha.
    apply (Hap p); [by eapply remove_frames; [..|right]|done]. }
  assert (Hnk : ∀ p, p ∈ pt_frames (page_table msu) → p ∉ ms_frames msk) by (intros p Hp%ms_frames_pt; by apply Hap).
  destruct (kernel_tables_kept _ _ _ _ _ _ Hus s' _ Ho (rp_same _ _ _ _ _ _ R) Hnk) as [Hk1 Hk2].
  split; [split; [split; try done|..]|..].
  - apply R.
  - exists b. split; [|done]. rewrite (rp_areas _ _ _ _ _ _ R). apply list_elem_of_lookup in Hb as [j Hj].
    eapply elem_of_delete_2; [exact Hj|]. intros ->. assert (b = a) as -> by congruence. by destruct Hsl as [HR _]; rewrite HR in Hst.
  - rewrite <- H7. apply (rp_other _ _ _ _ _ _ R); [unfold is_vpn, TRAMP_VPN; lia|].
    intros Hin. destruct (in_area_vpn a TRAMP_VPN) as [_ ?]; [|done|done]. apply (mo_areas _ _ H1). by eapply list_elem_of_lookup_2.
  - rewrite (rp_areas _ _ _ _ _ _ R). intros a' (j&_&Hj)%elem_of_delete. apply Hfr. by eapply list_elem_of_lookup_2.
  - intros p Hp. apply Hap. by eapply remove_frames; [..|left].
  - apply get_trap_cx_kept; [apply (cx_frame _ _ _ _ _ _ (ur_tables _ _ _ _ _ _ Hus))|]. intros x Hx. apply (rp_same _ _ _ _ _ _ R). by rewrite Hx.
  - apply R.
  - by eapply contained_remove.
Qed.

Lemma brk_keeps addr : wlp (sys_brk msu addr) s (λ '(msu', _) s', call_keeps s msu msk tid f st s' msu').
Proof using All.
  unfold sys_brk. destruct (_ =? _); [wlp_steps; by apply adds_keeps; left|]. destruct (_ <? _); [wlp_steps; by apply adds_keeps; left|].
  wlp_next. eapply wlp_mono; [by eapply expand_heap_any|]. intros [ms' r] s' [-> H]. wlp_steps. apply adds_keeps.
  apply (ms_adds_brk s msu s' ms' (brk msu) (heap_start msu)). clear -H. destruct msu. exact H.
Qed.

Lemma mmap_keeps start len prot flags fd off :
  wlp (sys_mmap [] msu start len prot flags fd off) s (λ '(msu', _) s', call_keeps s msu msk tid f st s' msu').
Proof using All.
  unfold sys_mmap. replace (if 0 <=? fd then get_fd [] fd else None) with (@None MappedFile) by (destruct (0 <=? fd); [|done]; unfold get_fd; by destruct (0 <=? fd)).
  wlp_next. eapply wlp_mono; [by eapply mmap_any|]. intros [ms' r] s' H. wlp_steps. by apply adds_keeps.
Qed.

Lemma munmap_keeps start len :
  va_floor (va_from_usize start) ≠ TRAMP_VPN - 1 - tid →
  wlp (sys_munmap msu start len) s (λ '(msu', _) s', call_keeps s msu msk tid f st s' msu').
Proof using All.
  intros Hst. unfold sys_munmap. wlp_next. apply (cwp_wlp True), wp_cwp. eapply wp_mono; [by apply munmap_wp|].
  intros [ms' [u|e]] s'.
  - intros (i&a&(_&_&_&_&Hi&Ha&_)&R). wlp_steps. eapply remove_keeps; [exact Hi|by rewrite Ha|exact R].
  - intros (_&->&->&_). wlp_steps. by apply adds_keeps; left.
Qed.
End calls.

(** Any call but a [munmap] of the trap context. *)
Definition spares_cx (tid : Z) (call : Call) : Prop :=
  match call with Cmunmap start _ => va_floor (va_from_usize start) ≠ TRAMP_VPN - 1 - tid | _ => True end.

Lemma memory_call_keeps p msk tid st call :
  user_space (pr_km p) (pr_ms p) msk tid (pr_frame p) st → fa_wf (km_fa (pr_km p)) → spares_cx tid call →
  wlp (memory_call call) p (λ r p', is_Some r ∧ pr_frame p' = pr_frame p ∧ pr_signals p' = pr_signals p ∧
    call_keeps (pr_km p) (pr_ms p) msk tid (pr_frame p) st (pr_km p') (pr_ms p')).
Proof.
  intros Hus Hfa Hcx. assert (Hon : ∀ g, wlp (g (pr_ms p)) (pr_km p) (λ '(ms', _) s', call_keeps (pr_km p) (pr_ms p) msk tid (pr_frame p) st s' ms') →
    wlp (on_memory_set g) p (λ r p', is_Some r ∧ pr_frame p' = pr_frame p ∧ pr_signals p' = pr_signals p ∧
      call_keeps (pr_km p) (pr_ms p) msk tid (pr_frame p) st (pr_km p') (pr_ms p'))).
  { intros g Hg. unfold wlp, on_memory_set in *. destruct (g (pr_ms p) (pr_km p)) as [[[ms' r] s']|]; [|done]. split; [by eexists|done]. }
  destruct call; try done; cbn [memory_call]; apply Hon; [by apply brk_keeps|by apply munmap_keeps|by apply mmap_keeps].
Qed.

(** ** Runs *)

Section life.
Context (y : TrapSymbols) (st : Z) (msk : MemorySet SV39PageTable) (tid : Z).

(** A step of the program, or a call: the trap, the handler, and the return from
    whatever state [c2] the code of the kernel leaves the processor in.  Where the
    kernel panics there is no step. *)
Inductive life_step : Proc * Cpu → Proc * Cpu → Prop :=
| life_user p c c' : user_step c c' → life_step (p, c) (write_mem (λ _, cm c') p, c')
| life_call p c u call c1 p3 c2 c3 :
    pc c mod 2 = 0 → pc c + 4 < 2 ^ 64 → Forall is_usize (arg_words u) → sent u = Some call → spares_cx tid call →
    resume y st (hw_trap (ecall_regs u c)) = Some c1 →
    trap_handler (CException UserEnvCall) (write_mem (λ _, cm c1) p) = Done (Some ToUser, p3) →
    cm c2 = km_mem (pr_km p3) → cs c2 SATP = token msk → (∀ r, is_usize (xr c2 r)) →
    resume y st (cpu_trap_return y (trap_cx_user_va tid) (token (pr_ms p3)) c2) = Some c3 →
    life_step (p, c) (p3, c3).

(** The process runs in its own space and has no fatal signal. *)
Record life_inv (p : Proc) (c : Cpu) : Prop := {
  li_run : user_runs (pr_km p) (pr_ms p) msk tid (pr_frame p) st c;
  li_fa : fa_wf (km_fa (pr_km p));
  li_status : is_usize (cs c SSTATUS);
  li_signals : check_error (pr_signals p) = None;
}.

(** A call from such a state reaches the handler; unless the kernel panics there, the
    program goes on after the call. *)
Lemma call_result p c u call :
  syms_ok y → life_inv p c → pc c mod 2 = 0 → pc c + 4 < 2 ^ 64 → Forall is_usize (arg_words u) → sent u = Some call → spares_cx tid call →
  ∃ c1, resume y st (hw_trap (ecall_regs u c)) = Some c1 ∧ pc c1 = trap_handler_addr (get_trap_cx (cm c) (pr_frame p)) ∧
    ((trap_handler (CException UserEnvCall) (write_mem (λ _, cm c1) p) = Panic ∧ ∃ p1, pr_ms p1 = pr_ms p ∧ memory_call call p1 = Panic) ∨
     ∃ p3 res, trap_handler (CException UserEnvCall) (write_mem (λ _, cm c1) p) = Done (Some ToUser, p3) ∧
       pr_frame p3 = pr_frame p ∧ contained (pr_km p) (pr_ms p) (pr_km p3) (pr_ms p3) ∧
       ∀ c2, cm c2 = km_mem (pr_km p3) → cs c2 SATP = token msk → (∀ r, is_usize (xr c2 r)) →
         ∃ c3, resume y st (cpu_trap_return y (trap_cx_user_va tid) (token (pr_ms p3)) c2) = Some c3 ∧ life_inv p3 c3 ∧
           pc c3 = pc c + 4 ∧ xr c3 r_a0 = wrap64 res ∧ ∀ r, (0 < r < 32)%nat → r ≠ r_a0 → r ≠ 4%nat → xr c3 r = xr (ecall_regs u c) r).
Proof.
  intros Hy [Hrun Hfa Hst Hsig] Hev Hpc Hargs Hsent Hsp. pose proof Hrun as [Hus Hmode Hcm _ Hpu].
  destruct (call_path y st _ _ _ _ _ c u call Hy Hrun Hst Hev Hpc Hargs Hsent) as (c1&E1&(_&Hpc1&_&_)&Hm1&Hk).
  destruct (Hk (write_mem (λ _, cm c1) p) eq_refl eq_refl) as (k1&(k0&g&Hk0&->)&_&Hs1&Hcx1&Hmk1&Hpan&Hret).
  injection Hk0 as <-. exists c1. split; [exact E1|]. split; [by rewrite Hcm|]. set (k1 := tk_write g (write_mem (λ _, cm c1) p)) in *.
  assert (Hus1 : user_space (pr_km k1) (pr_ms p) msk tid (pr_frame p) st) by exact (user_space_frame (pr_km p) _ _ _ _ _ (km_mem (pr_km k1)) Hus Hmk1).
  destruct (tk_call call k1) as [[r k2]|] eqn:Ecall; [right|left; split; [by apply Hpan|by exists k1]].
  pose proof (wlp_done _ _ _ _ _ (memory_call_keeps k1 msk tid st call Hus1 Hfa Hsp) Ecall) as ([res ->]&Hf2&Hs2&[Hus2 Hcx2 Hfa2 Hrest]).
  assert (Hsig2 : check_error (tk_signals k2) = None) by (change (tk_signals k2) with (pr_signals k2); by rewrite Hs2).
  assert (Hf2' : tk_frame k2 = Some (pr_frame p)) by (change (tk_frame k2) with (Some (pr_frame k2)); by rewrite Hf2).
  destruct (Hret res k2 (pr_km k2) (pr_ms k2) eq_refl Hf2' Hsig2 (eq_trans Hcx2 Hcx1) eq_refl (ur_tables _ _ _ _ _ _ Hus2)) as (k3&E3&(g3&[= <-])&Hm3&Hback).
  exists (write_mem g3 k2), res. split; [exact E3|]. split; [exact Hf2|].
  assert (Hin : ∀ s ms, user_space s ms msk tid (pr_frame p) st → ∀ m, same_outside (λ q, q = pr_frame p) (km_mem s) m → contained s ms (with_mem (λ _, m) s) ms).
  { intros s ms H m Hm. apply contained_write. eapply same_outside_mono; [exact Hm|]. intros q ->. apply (cx_frames _ _ _ _ _ _ H). }
  split.
  { eapply contained_trans; [exact (Hin _ _ Hus _ Hmk1)|]. eapply contained_trans; [exact Hrest|]. exact (Hin _ _ Hus2 _ Hm3). }
  intros c2 Hcm2 Hsatp2 Hu2. destruct (Hback c2 Hcm2 Hsatp2) as (c3&R1&R2&R3&R4&R5&_&R7&R8). destruct (R8 Hu2) as [Hu3 Hst3].
  exists c3. split; [exact R1|]. split; [|done]. split; [|exact Hfa2|done|by change (pr_signals (write_mem g3 k2)) with (pr_signals k2); rewrite Hs2].
  change (pr_frame (write_mem g3 k2)) with (pr_frame k2). rewrite Hf2.
  split; [exact (user_space_frame _ _ _ _ _ _ _ Hus2 Hm3)|exact R2|exact R3|exact Hu3|]. rewrite R4. unfold is_usize in *. lia.
Qed.

Lemma life_step_keeps p c p' c' :
  syms_ok y → life_inv p c → life_step (p, c) (p', c') →
  life_inv p' c' ∧ pr_frame p' = pr_frame p ∧ contained (pr_km p) (pr_ms p) (pr_km p') (pr_ms p').
Proof.
  intros Hy Hinv Hstep. inversion Hstep as [p0 c0 c0' Hu|p0 c0 u call c1 p3 c2 c3 Hev Hpc Ha Hs Hsp E1 E3 Hcm2 Hsatp Hu2 E4]; subst.
  - destruct Hinv as [Hrun Hfa Hst Hsig]. destruct (user_step_keeps _ _ _ _ _ _ _ _ Hrun Hu) as (Hr&Hm&Hc).
    split; [split; [exact Hr|done|by rewrite Hc|done]|]. split; [done|]. apply contained_write.
    rewrite <- (un_mem _ _ _ _ _ _ _ Hrun). eapply same_outside_mono; [exact Hm|].
    by intros q (_&?&_)%(writable_apart _ _ _ _ _ _ (un_space _ _ _ _ _ _ _ Hrun)).
  - destruct (call_result p c u call Hy Hinv Hev Hpc Ha Hs Hsp) as (c1'&E1'&_&[[Hp _]|(p3'&res&E3'&Hf&Hco&Hret)]).
    + assert (c1' = c1) as -> by congruence. congruence.
    + assert (c1' = c1) as -> by congruence. assert (p3' = p') as -> by congruence.
      destruct (Hret c2 Hcm2 Hsatp Hu2) as (c3'&E4'&Hinv'&_). assert (c3' = c') as -> by congruence. done.
Qed.

End life.

(** ** An example *)

