(* ===== verification/UserLib.v ===== *)
(** * The start of a user program ([_start] of [user/src/lib.rs])

    The program reads its arguments from its own memory, which it sees through
    the page table named by the token of the process.  The reader agrees with
    the one of the kernel; what the kernel passes as the number of arguments
    decides whether it finds them. *)

From S2P Require Import Prelude Address PhysMem IdAlloc FrameAlloc PageTable Sv39 UserMem MemorySet MapAreaSpec.
From S2P Require Import MemorySetSpec MemorySetOps Mmap Fork Elf UserRes StackProps TrapCx Exec ExecProps Signal Syscall Trap SpaceProps ResProps.

(** ** User memory *)

Definition umem (m : mem) (token va : Z) : Z :=
  match translated_ref m token va with Done a => m a | Panic => 0 end.

(** [(va as *const usize).read_volatile()] *)
Definition uword (um : Z → Z) (va : Z) : Z := little_endian_to_Z 8 ((λ i, um (va + i)) <$> seqZ 0 8).

(** ** [core::str::from_utf8] *)

Definition in_range (lo hi b : Z) : bool := (lo <=? b) && (b <=? hi).
Definition cont (b : Z) : bool := in_range 0x80 0xBF b.

Definition two_bytes (b c1 : Z) : bool := in_range 0xC2 0xDF b && cont c1.
Definition three_bytes (b c1 c2 : Z) : bool :=
  ((b =? 0xE0) && in_range 0xA0 0xBF c1 || in_range 0xE1 0xEC b && cont c1 ||
   (b =? 0xED) && in_range 0x80 0x9F c1 || in_range 0xEE 0xEF b && cont c1) && cont c2.
Definition four_bytes (b c1 c2 c3 : Z) : bool :=
  ((b =? 0xF0) && in_range 0x90 0xBF c1 || in_range 0xF1 0xF3 b && cont c1 ||
   (b =? 0xF4) && in_range 0x80 0x8F c1) && cont c2 && cont c3.

Fixpoint utf8_ok (bs : list Z) : bool :=
  match bs with
  | [] => true
  | b :: r =>
      if b <? 0x80 then utf8_ok r
      else match r with
           | [] => false
           | c1 :: r1 =>
               if two_bytes b c1 then utf8_ok r1
               else match r1 with
                    | [] => false
                    | c2 :: r2 =>
                        if three_bytes b c1 c2 then utf8_ok r2
                        else match r2 with
                             | [] => false
                             | c3 :: r3 => if four_bytes b c1 c2 c3 then utf8_ok r3 else false
                             end
                    end
           end
  end.

(** ** [_start] *)

(** [(0usize..).find(|i| byte at p + i is 0)] *)
Fixpoint find_zero (fuel : nat) (um : Z → Z) (p i : Z) : outcome Z :=
  match fuel with
  | O => Panic
  | S fuel' => if um (p +w i) =? 0 then mret i else find_zero fuel' um p (i +w 1)
  end.

(** [n] arguments are left, the next is number [i]. *)
Fixpoint start_loop (fuel n : nat) (um : Z → Z) (argv i : Z) : outcome (list (list Z)) :=
  match n with
  | O => mret []
  | S n' =>
      let str_start := uword um (argv +w i *w 8) in
      len ← find_zero fuel um str_start 0;
      let bs := (λ j, um (str_start + j)) <$> seqZ 0 len in
      if utf8_ok bs then
        rest ← start_loop fuel n' um argv (i + 1);
        mret (bs :: rest)
      else Panic
  end.

Definition start_args (fuel : nat) (um : Z → Z) (argc argv : Z) : outcome (list (list Z)) :=
  start_loop fuel (Z.to_nat argc) um argv 0.

(** ** Both readers *)

(** Within a page translation is linear. *)
Lemma translated_ref_page m tok va a k :
  0 <= k → va mod 4096 + k < 4096 → translated_ref m tok va = Done a → translated_ref m tok (va + k) = Done (a + k).
Proof.
  intros Hk Hp. unfold translated_ref, sv39_translate_va. rewrite !va_from_usize_mod.
  unfold va_floor, PAGE_SIZE. rewrite !va_page_offset_mod.
  assert (E1 : (va + k) mod 2 ^ 39 = va mod 2 ^ 39 + k) by zdiv_lia. rewrite E1.
  assert (E2 : (va mod 2 ^ 39 + k) / 4096 = va mod 2 ^ 39 / 4096) by zdiv_lia. rewrite E2.
  assert (E3 : (va mod 2 ^ 39 + k) mod 4096 = va mod 2 ^ 39 mod 4096 + k) by zdiv_lia. rewrite E3.
  destruct (sv39_find_pte m (sv39_from_token tok) (va mod 2 ^ 39 / 4096)) as [p|]; [|done].
  cbn [fmap option_fmap option_map unwrap]. intros E. injection E as <-. f_equal.
  assert (Hppn : 0 <= sv39_pte_ppn (load64 m p) < 2 ^ 44) by (unfold sv39_pte_ppn; rewrite ppn_from_usize_mod; apply Z.mod_pos_bound; lia).
  generalize dependent (sv39_pte_ppn (load64 m p)). intros ppn Hppn. rewrite pa_from_ppn_eq, !pa_from_usize_mod by lia.
  assert (Hoff : 0 <= va mod 2 ^ 39 mod 4096 ∧ va mod 2 ^ 39 mod 4096 + k < 4096) by zdiv_lia.
  generalize dependent (va mod 2 ^ 39 mod 4096). intros off _ Hoff.
  rewrite !wadd_small, !Z.mod_small by lia. lia.
Qed.

Lemma uword_load m tok va a :
  va mod 8 = 0 → translated_ref m tok va = Done a → uword (umem m tok) va = load64 m a.
Proof.
  intros H8 Ha. unfold uword, load64. f_equal. apply list_fmap_ext. intros i j [-> Hj]%lookup_seqZ. unfold umem.
  rewrite (translated_ref_page m tok va a); [done|lia|zdiv_lia|done].
Qed.

Lemma va_wrap va : va_from_usize (wrap64 va) = va_from_usize va.
Proof. rewrite !va_from_usize_mod. unfold wrap64. zdiv_lia. Qed.

Lemma umem_wrap m tok va : umem m tok (wrap64 va) = umem m tok va.
Proof. unfold umem, translated_ref. by rewrite va_wrap. Qed.

Lemma translated_str_wrap fuel m tok p : translated_str fuel m tok (wrap64 p) = translated_str fuel m tok p.
Proof.
  destruct fuel as [|fuel]; [done|]. unfold translated_str. cbn [translated_str_loop]. rewrite va_wrap.
  replace (wrap64 p +w 1) with (p +w 1); [done|]. unfold wadd, wrap64. zdiv_lia.
Qed.

Lemma read_str bs : ∀ (fuel : nat) m tok p i,
  0 <= i → i + length bs < 2 ^ 64 → translated_str fuel m tok (p +w i) = Done bs →
  find_zero fuel (umem m tok) p i = Done (i + length bs) ∧ (λ j, umem m tok (p + j)) <$> seqZ i (length bs) = bs.
Proof.
  induction bs as [|c bs IH]; intros [|fuel] m tok p i Hi Hl; unfold translated_str; cbn [translated_str_loop]; try done.
  all: change (unwrap (sv39_translate_va m (sv39_from_token tok) (va_from_usize (p +w i)))) with (translated_ref m tok (p +w i)).
  all: destruct (translated_ref m tok (p +w i)) as [a|] eqn:Ea; [|done]; cbn [mbind outcome_bind].
  all: assert (Eu : umem m tok (p +w i) = m a) by (unfold umem; by rewrite Ea).
  all: cbn [find_zero]; rewrite Eu; destruct (m a =? 0) eqn:E0.
  - intros _. simpl. split; [|done]. unfold mret, outcome_ret. f_equal. lia.
  - by destruct (translated_str_loop _ _ _ _).
  - done.
  - destruct (translated_str_loop _ _ _ _) as [r|] eqn:Er; [|done]. cbn [mbind outcome_bind]. intros E. injection E as Ec <-.
    simpl length in *. rewrite wadd_small by lia. specialize (IH fuel m tok p (i + 1)). destruct IH as [H1 H2]; [lia|lia| |].
    { unfold translated_str. rewrite <- Er. f_equal. unfold wadd, wrap64. zdiv_lia. }
    rewrite H1, Nat2Z.inj_succ, seqZ_cons, fmap_cons, Z.pred_succ by lia. split; [f_equal; lia|].
    unfold Z.succ. rewrite H2, <- Ec, <- Eu. f_equal. unfold wadd. by rewrite umem_wrap.
Qed.

Lemma translated_str_length fuel m tok p bs : translated_str fuel m tok p = Done bs → length bs < fuel.
Proof.
  unfold translated_str. revert p bs. induction fuel as [|fuel IH]; intros p bs; cbn [translated_str_loop]; [done|].
  destruct (unwrap _) as [a|]; [|done]. cbn [mbind outcome_bind]. destruct (m a =? 0); [intros E; injection E as <-; simpl; lia|].
  destruct (translated_str_loop fuel _ _ _) as [r|] eqn:Er; [|done]. cbn [mbind outcome_bind]. intros E. injection E as <-.
  apply IH in Er. simpl. lia.
Qed.

Lemma start_loop_ok (sfuel : nat) m tok argv l : ∀ (fuel : nat) i,
  argv mod 8 = 0 → sfuel < 2 ^ 64 → read_argv_loop fuel sfuel m tok (argv +w i *w 8) = Done l → Forall utf8_ok l →
  start_loop sfuel (length l) (umem m tok) argv i = Done l.
Proof.
  induction l as [|s l IH]; intros [|fuel] i H8 Hs; cbn [read_argv_loop]; try done.
  destruct (translated_ref m tok _) as [a|] eqn:Ea; [|done]. cbn [mbind outcome_bind].
  destruct (load64 m a =? 0); [done|]. destruct (translated_str sfuel m tok (load64 m a)) as [s'|] eqn:Es; [|done].
  cbn [mbind outcome_bind]. destruct (read_argv_loop fuel _ _ _ _) as [r|] eqn:Er; [|done]. cbn [mbind outcome_bind].
  intros E [Hu Hus]%Forall_cons. injection E as -> ->. cbn [length start_loop].
  rewrite (uword_load m tok _ a); [|unfold wadd, wmul, wrap64; zdiv_lia|done]. pose proof (translated_str_length _ _ _ _ _ Es) as Hlen.
  destruct (read_str s sfuel m tok (load64 m a) 0) as [Hf Hb]; [lia|lia| |].
  { unfold wadd. by rewrite Z.add_0_r, translated_str_wrap. }
  rewrite Hf. cbn [mbind outcome_bind]. rewrite Z.add_0_l, Hb. apply Is_true_true in Hu. rewrite Hu.
  rewrite (IH fuel (i + 1)); [done|done|done| |done]. rewrite <- Er. f_equal. unfold wadd, wmul, wrap64. zdiv_lia.
Qed.

(** ** Strings of the kernel are valid *)

Lemma utf8_char_ok c bs : 0 <= c < 0x800 → utf8_ok (utf8_char c ++ bs) = utf8_ok bs.
Proof.
  intros Hc. unfold utf8_char. destruct (Z.ltb_spec c 0x80); [simpl; by rewrite (proj2 (Z.ltb_lt c 0x80))|].
  rewrite (proj2 (Z.ltb_lt c 0x800)) by lia. cbn [app utf8_ok]. rewrite (proj2 (Z.ltb_ge _ 0x80)) by zdiv_lia.
  assert (E : two_bytes (192 + c / 64) (128 + c mod 64) = true); [|by rewrite E].
  unfold two_bytes, cont, in_range. rewrite !andb_true_iff, !Z.leb_le. zdiv_lia.
Qed.

Lemma utf8_as_bytes s : Forall (λ c, 0 <= c < 0x800) s → utf8_ok (as_bytes s) = true.
Proof.
  induction 1 as [|c s Hc _ IH]; [done|]. change (as_bytes (c :: s)) with (utf8_char c ++ as_bytes s).
  by rewrite utf8_char_ok.
Qed.

Lemma nul_free s : Forall (λ c, 0 < c < 256) s → 0 ∉ as_bytes s.
Proof.
  induction 1 as [|c s Hc _ IH]; [apply not_elem_of_nil|]. change (as_bytes (c :: s)) with (utf8_char c ++ as_bytes s).
  apply not_elem_of_app. split; [|done]. unfold utf8_char. destruct (Z.ltb_spec c 0x80).
  - apply not_elem_of_cons. split; [lia|apply not_elem_of_nil].
  - rewrite (proj2 (Z.ltb_lt c 0x800)) by lia. rewrite !not_elem_of_cons. split; [zdiv_lia|]. split; [zdiv_lia|apply not_elem_of_nil].
Qed.

Lemma start_args_ok (fuel : nat) m tok argv l :
  argv ≠ 0 → argv mod 8 = 0 → is_usize argv → fuel < 2 ^ 64 → read_argv fuel m tok argv = Done l → Forall utf8_ok l →
  start_args fuel (umem m tok) (length l) argv = Done l.
Proof.
  intros H0 H8 Hu Hf. unfold read_argv. destruct (Z.eqb_spec argv 0); [done|]. intros Hr Hv. unfold start_args.
  rewrite Nat2Z.id. apply (start_loop_ok fuel m tok argv l fuel 0); [done|done| |done]. change (0 *w 8) with 0.
  unfold is_usize in Hu. by rewrite wadd_small, Z.add_0_r by lia.
Qed.



(** [execve] returns 0 to the trap handler, which stores the result in [a0] of
    the new context: the program is told that it has no arguments. *)
Lemma execve_loses_arguments {S} `{!TrapKernel S} (s : S) ppn c :
  tk_frame s = Some ppn →
  let r := get_reg (general_regs (get_trap_cx (tk_mem s) ppn)) in
  decode (r r_a7) (r r_a0, r r_a1, r r_a2, r r_a3, r r_a4, r r_a5) = Some c →
  (∀ s1, tk_frame s1 = Some ppn → tk_signals s1 = tk_signals s → ∃ s2 ppn2, tk_call c s1 = Done (Some 0, s2) ∧
     tk_frame s2 = Some ppn2 ∧ check_error (tk_signals s2) = None) →
  ∃ s3 ppn3, trap_handler (CException UserEnvCall) s = Done (Some ToUser, s3) ∧
    let r3 := get_reg (general_regs (get_trap_cx (tk_mem s3) ppn3)) in
    r3 r_a0 = 0 ∧ ∀ fuel um, start_args fuel um (r3 r_a0) (r3 r_a1) = Done [].
Proof.
  intros Hf r Hc Hcall. destruct (handler_call s ppn c Hf Hc) as (s1&_&F1&G1&_&_&_&H).
  destruct (Hcall s1 F1 G1) as (s2&ppn2&E2&F2&G2). destruct (H 0 s2 ppn2 E2 F2 G2) as (s3&E&_&Hcx&_).
  exists s3, ppn2. split; [done|]. cbn zeta. rewrite Hcx. unfold start_args.
  replace (get_reg _ r_a0) with 0; [done|]. unfold get_reg, with_regs, set_reg. cbn [general_regs].
  by rewrite list_lookup_insert_eq by (change (length _) with 32%nat; unfold r_a0; lia).
Qed.
