(* ===== verification/Stdio.v ===== *)
(** * The console ([os/src/console.rs], [os/src/fs/stdio.rs]) and the system
    calls [read] and [write] ([os/src/syscall/fs.rs])

    What the kernel prints is the sequence of calls it makes of the firmware;
    what it reads is the sequence of answers the firmware gives.  User text
    reaches the console in the pieces in which its pages cut it. *)

From S2P Require Import Prelude Address PhysMem IdAlloc FrameAlloc PageTable Sv39 UserMem MemorySet MapAreaSpec.
From S2P Require Import MemorySetSpec MemorySetOps Mmap Fork UserCopy Path FdTable Pipe Vfs UserLib SpaceProps VfsProps.

(** ** Printing *)

Inductive ConEvent := Putchar (c : Z) | Flush.

(** [core::str::from_utf8] followed by [chars]; [None] is the error. *)
Fixpoint utf8_chars (bs : list Z) : option (list Z) :=
  match bs with
  | [] => Some []
  | b :: r =>
      if b <? 0x80 then cons b <$> utf8_chars r
      else match r with
           | [] => None
           | c1 :: r1 =>
               if two_bytes b c1 then cons ((b - 0xC0) * 64 + (c1 - 0x80)) <$> utf8_chars r1
               else match r1 with
                    | [] => None
                    | c2 :: r2 =>
                        if three_bytes b c1 c2
                        then cons (((b - 0xE0) * 64 + (c1 - 0x80)) * 64 + (c2 - 0x80)) <$> utf8_chars r2
                        else match r2 with
                             | [] => None
                             | c3 :: r3 =>
                                 if four_bytes b c1 c2 c3
                                 then cons ((((b - 0xF0) * 64 + (c1 - 0x80)) * 64 + (c2 - 0x80)) * 64 + (c3 - 0x80))
                                        <$> utf8_chars r3
                                 else None
                             end
                    end
           end
  end.

(** The loop of [write_str] with [i] characters since the last flush. *)
Fixpoint write_chars (cs : list Z) (i : Z) : list ConEvent :=
  match cs with
  | [] => if i =? 0 then [] else [Flush]
  | c :: cs' =>
      Putchar c :: if 4 <=? i + 1 then Flush :: write_chars cs' 0 else write_chars cs' (i + 1)
  end.

Definition write_str (cs : list Z) : list ConEvent := write_chars cs 0.

(** ** The standard streams *)

(** [Stdout::write]: [from_utf8(..).unwrap()] of each slice is printed. *)
Fixpoint stdout_print (m : mem) (b : list uslice) (tr : list ConEvent) : outcome (list ConEvent) :=
  match b with
  | [] => mret tr
  | s :: b' =>
      cs ← unwrap (utf8_chars (load_bytes m s.1 s.2));
      stdout_print m b' (tr ++ write_str cs)
  end.

Definition stdout_write (m : mem) (b : list uslice) (tr : list ConEvent) : outcome (Z * list ConEvent) :=
  tr' ← stdout_print m b tr; mret (ub_len b, tr').

(** [usize::MAX] means that no character is there. *)
Definition NO_CHAR : Z := 2 ^ 64 - 1.

(** The loop of [Stdin::read] over the answers of [console_getchar]; [None] when
    they end before a character came. *)
Fixpoint poll (answers : list Z) : option (Z * list Z) :=
  match answers with
  | [] => None
  | c :: rest => if c =? NO_CHAR then poll rest else Some (c, rest)
  end.

(** The first slice is indexed, the byte stored at its address. *)
Definition stdin_read (b : list uslice) (m : mem) (answers : list Z) : outcome (option (Z * mem * list Z)) :=
  if ub_len b =? 1 then
    match poll answers with
    | None => mret None
    | Some (ch, rest) =>
        s ← unwrap (b !! 0%nat);
        mret (Some (1, store_bytes m s.1 [ch mod 256], rest))
    end
  else Panic.

(** ** [sys_write] and [sys_read] *)

Section calls.
Context {FS DirH FileH : Type} `{!FatFs FS DirH FileH}.
Notation V := (Vfs (FS := FS) (DirH := DirH) (FileH := FileH)).
Notation F := (FileObj (DirH := DirH) (FileH := FileH)).
Implicit Types v : V.

(** What the calls change: the open files, the memory, and the console. *)
Record Io := mkIo { io_vfs : V; io_mem : mem; io_tr : list ConEvent; io_in : list Z }.

Definition set_tr (tr : list ConEvent) (s : Io) : Io := mkIo (io_vfs s) (io_mem s) tr (io_in s).
Definition set_iomem (m : mem) (s : Io) : Io := mkIo (io_vfs s) m (io_tr s) (io_in s).
Definition set_in (answers : list Z) (s : Io) : Io := mkIo (io_vfs s) (io_mem s) (io_tr s) answers.
Definition set_vfs v (s : Io) : Io := mkIo v (io_mem s) (io_tr s) (io_in s).

Definition set_file (n : nat) (f : F) v : V :=
  mkVfs (v_fs v) (<[n := f]> (v_files v)) (v_rings v) (v_cwd v) (v_cwd_inode v) (v_fds v).
Definition set_ring (n : nat) (r : PipeRingBuffer) v : V :=
  mkVfs (v_fs v) (v_files v) (<[n := r]> (v_rings v)) (v_cwd v) (v_cwd_inode v) (v_fds v).

(** A call that lets other tasks run: its file, its buffer and the bytes it has
    moved so far. *)
Record IoCall := mkCall { ic_file : nat; ic_buf : list uslice; ic_moved : list Z }.

Inductive IoEnd := IoRet (n : Z) | IoMore (c : IoCall).

(** The bytes that [file.read] or the iterator of the buffer stores. *)
Fixpoint store_addrs (A bs : list Z) (m : mem) : mem :=
  match A, bs with
  | a :: A', b :: bs' => store_addrs A' bs' (store_bytes m a [b])
  | _, _ => m
  end.

(** [File::write] until it returns or lets other tasks run; a pipe goes on with
    the bytes of the buffer after those moved. *)
Definition file_write (c : IoCall) (s : Io) : outcome (IoEnd * Io) :=
  let v := io_vfs s in
  let b := ic_buf c in
  f ← unwrap (v_files v !! ic_file c);
  match f with
  | FStdin => Panic
  | FStdout => '(n, tr') ← stdout_write (io_mem s) b (io_tr s); Done (IoRet n, set_tr tr' s)
  | FInode i =>
      '(n, i', fs') ← inode_write (v_fs v) i ((λ x : uslice, load_bytes (io_mem s) x.1 x.2) <$> b);
      Done (IoRet n, set_vfs (set_file (ic_file c) (FInode i') (set_fs fs' v)) s)
  | FPipe e k =>
      r ← unwrap (v_rings v !! k);
      let sent := length (ic_moved c) in
      '(r', w, t) ← pipe_write e r (mkWrite (ub_len b) sent (drop sent (ub_bytes (io_mem s) b)));
      let moved := ic_moved c ++ take (Z.to_nat (wc_sent w) - sent) (drop sent (ub_bytes (io_mem s) b)) in
      Done (match t with Pipe.Returned n => IoRet n | Suspended => IoMore (mkCall (ic_file c) b moved) end,
            set_vfs (set_ring k r' v) s)
  end.

(** [File::read]; [alive] says of which pipes a write end is open. *)
Definition file_read (alive : nat → bool) (c : IoCall) (s : Io) : outcome (IoEnd * Io) :=
  let v := io_vfs s in
  let b := ic_buf c in
  f ← unwrap (v_files v !! ic_file c);
  match f with
  | FStdin =>
      r ← stdin_read b (io_mem s) (io_in s);
      Done match r with
           | Some (n, m', rest) => (IoRet n, set_in rest (set_iomem m' s))
           | None => (IoMore c, set_in [] s)
           end
  | FStdout => Panic
  | FInode i =>
      '(bs, i') ← inode_read (v_fs v) i (snd <$> b);
      Done (IoRet (length bs), set_vfs (set_file (ic_file c) (FInode i') v) (set_iomem (store_addrs (uaddrs b) bs (io_mem s)) s))
  | FPipe e k =>
      r ← unwrap (v_rings v !! k);
      '(r', rc, t) ← pipe_read e (alive k) r (mkRead (ub_len b) (ic_moved c));
      let got := length (ic_moved c) in
      Done (match t with Pipe.Returned n => IoRet n | Suspended => IoMore (mkCall (ic_file c) b (rc_got rc)) end,
            set_vfs (set_ring k r' v) (set_iomem (store_addrs (drop got (uaddrs b)) (drop got (rc_got rc)) (io_mem s)) s))
  end.

(** [as isize] of what the file returned *)
Definition io_result (r : IoEnd * Io) : IoEnd * Io :=
  (match r.1 with IoRet n => IoRet (as_isize n) | IoMore c => IoMore c end, r.2).

Definition sys_write (token fd buf len : Z) (s : Io) : outcome (IoEnd * Io) :=
  match sys_write_target (io_vfs s) fd, get_fd (v_fds (io_vfs s)) fd with
  | Some _, Some n =>
      b ← translated_byte_buffer (io_mem s) token buf len;
      r ← file_write (mkCall n b []) s;
      Done (io_result r)
  | _, _ => Done (IoRet (-1), s)
  end.

Definition sys_read (alive : nat → bool) (token fd buf len : Z) (s : Io) : outcome (IoEnd * Io) :=
  match sys_read_target (io_vfs s) fd, get_fd (v_fds (io_vfs s)) fd with
  | Some _, Some n =>
      b ← translated_byte_buffer (io_mem s) token buf len;
      r ← file_read alive (mkCall n b []) s;
      Done (io_result r)
  | _, _ => Done (IoRet (-1), s)
  end.

(** The call goes on after other tasks ran. *)
Definition write_more (c : IoCall) (s : Io) : outcome (IoEnd * Io) := r ← file_write c s; Done (io_result r).
Definition read_more (alive : nat → bool) (c : IoCall) (s : Io) : outcome (IoEnd * Io) :=
  r ← file_read alive c s; Done (io_result r).

(** The descriptor leads to a file that may be written (read). *)
Lemma write_target_inv v fd f :
  sys_write_target v fd = Some f → ∃ n, get_fd (v_fds v) fd = Some n ∧ v_files v !! n = Some f ∧ file_writable f = true.
Proof.
  unfold sys_write_target, file_at. destruct (_ <=? _); [done|]. destruct (get_fd (v_fds v) fd) as [n|]; [|done]. simpl.
  destruct (v_files v !! n) as [g|] eqn:Hg; [|done]. destruct (file_writable g) eqn:Hw; [|done]. intros [= <-]. by exists n.
Qed.

Lemma read_target_inv v fd f :
  sys_read_target v fd = Some f → ∃ n, get_fd (v_fds v) fd = Some n ∧ v_files v !! n = Some f ∧ file_readable f = true.
Proof.
  unfold sys_read_target, file_at. destruct (_ <=? _); [done|]. destruct (get_fd (v_fds v) fd) as [n|]; [|done]. simpl.
  destruct (v_files v !! n) as [g|] eqn:Hg; [|done]. destruct (file_readable g) eqn:Hw; [|done]. intros [= <-]. by exists n.
Qed.
End calls.

(** ** What is printed *)

Definition puts (tr : list ConEvent) : list Z :=
  omap (λ e, match e with Putchar c => Some c | Flush => None end) tr.

(** The characters the firmware may still hold back, [i] at the start. *)
Definition pending (i : Z) (tr : list ConEvent) : Z :=
  foldl (λ i e, match e with Putchar _ => i + 1 | Flush => 0 end) i tr.

Lemma puts_app t1 t2 : puts (t1 ++ t2) = puts t1 ++ puts t2.
Proof. apply omap_app. Qed.

Lemma write_chars_puts cs : ∀ i, puts (write_chars cs i) = cs.
Proof.
  induction cs as [|c cs IH]; intros i; simpl; [by destruct (i =? 0)|]. f_equal.
  destruct (4 <=? i + 1); apply IH.
Qed.

(** A flush follows at the latest after four characters, and ends the string. *)
Lemma write_chars_flush cs : ∀ i t, 0 <= i < 4 →
  (t `prefix_of` write_chars cs i → pending i t <= 4) ∧ pending i (write_chars cs i) = 0.
Proof.
  induction cs as [|c cs IH]; intros i t Hi; cbn [write_chars].
  - destruct (Z.eqb_spec i 0) as [->|]; split; try done.
    + intros Ht. by apply prefix_nil_inv in Ht as ->.
    + destruct t as [|e t]; [simpl; lia|]. intros [k Hk]. injection Hk as <- Hk.
      destruct t; [simpl; lia|done].
  - destruct t as [|e t].
    { split; [simpl; lia|]. destruct (Z.leb_spec 4 (i + 1)); [exact (proj2 (IH 0 [] ltac:(lia)))|exact (proj2 (IH (i + 1) [] ltac:(lia)))]. }
    destruct (Z.leb_spec 4 (i + 1)) as [Hge|Hlt].
    + split; [|exact (proj2 (IH 0 [] ltac:(lia)))]. intros [k Hk]. injection Hk as <- Hk.
      destruct t as [|e t]; [simpl; lia|]. injection Hk as <- Hk.
      apply (proj1 (IH 0 t ltac:(lia))). by exists k.
    + split; [|exact (proj2 (IH (i + 1) [] ltac:(lia)))]. intros [k Hk]. injection Hk as <- Hk.
      apply (proj1 (IH (i + 1) t ltac:(lia))). by exists k.
Qed.

Lemma pending_app i t1 t2 : pending i (t1 ++ t2) = pending (pending i t1) t2.
Proof. apply foldl_app. Qed.

Lemma utf8_ascii bs : Forall (λ b, b < 128) bs → utf8_chars bs = Some bs.
Proof.
  induction 1 as [|b bs Hb _ IH]; [done|]. cbn [utf8_chars]. rewrite (proj2 (Z.ltb_lt _ _)) by lia. by rewrite IH.
Qed.

(** The text of [start, stop) as the page boundaries cut it. *)
Fixpoint page_pieces (fuel : nat) (um : Z → Z) (start stop : Z) : list (list Z) :=
  match fuel with
  | O => []
  | S fuel' =>
      if start <? stop then
        (um <$> seqZ start (next_stop start stop - start)) :: page_pieces fuel' um (next_stop start stop) stop
      else []
  end.

Definition ubyte (m : mem) (token va : Z) : Z := m (phys m (sv39_from_token token) va).

Lemma stdout_print_eq m b : ∀ tr,
  stdout_print m b tr =
  match mapM utf8_chars ((λ s : uslice, load_bytes m s.1 s.2) <$> b) with
  | Some css => Done (tr ++ concat (write_str <$> css))
  | None => Panic
  end.
Proof.
  induction b as [|s b IH]; intros tr; [cbn; by rewrite app_nil_r|]. cbn [stdout_print fmap list_fmap mapM].
  destruct (utf8_chars _) as [cs|]; [|done]. cbn [unwrap mbind outcome_bind option_bind]. rewrite IH.
  unfold fmap. destruct (mapM _ _) as [css|]; [|done]. simpl. by rewrite <- app_assoc.
Qed.

Lemma load_bytes_seqZ (m : mem) a n : load_bytes m a n = m <$> seqZ a n.
Proof.
  unfold load_bytes. replace (seqZ a n) with (seqZ (a + 0) n) by (f_equal; lia).
  by rewrite <- fmap_add_seqZ, <- list_fmap_compose.
Qed.

Lemma tbb_loop_pieces m pt stop : ∀ (fuel : nat) start b,
  user_range m pt start stop → stop < 2 ^ 38 → tbb_loop fuel m pt start stop = Done b →
  (λ s : uslice, load_bytes m s.1 s.2) <$> b = page_pieces fuel (λ va, m (phys m pt va)) start stop.
Proof.
  induction fuel as [|fuel IH]; intros start b [Hlo Hhi Hmap] Hlim; [done|].
  cbn [tbb_loop page_pieces]. destruct (Z.ltb_spec start stop) as [Hlt|Hge]; [|by intros [= <-]].
  destruct (Hmap start) as [e He]; [lia|]. rewrite (tbb_step_eq m pt start stop e) by done.
  assert (Hn : start < next_stop start stop <= stop) by (unfold next_stop; zdiv_lia).
  cbn [mbind outcome_bind]. destruct (tbb_loop fuel m pt _ stop) as [b'|] eqn:Hb; [|done]. intros [= <-].
  cbn [fmap list_fmap]. f_equal.
  - rewrite load_bytes_seqZ. cbn [fst snd]. pose proof (phys_page m pt start (next_stop start stop - start)) as Hp.
    rewrite He in Hp. rewrite <- Hp by (unfold next_stop in *; zdiv_lia). by rewrite <- list_fmap_compose.
  - apply IH; [|done|done]. split; [lia|done|]. intros va Hva. apply Hmap. lia.
Qed.

(** The fuel of [translated_byte_buffer]. *)
Definition text_pieces (m : mem) (token lo n : Z) : list (list Z) :=
  page_pieces (Z.to_nat (n / 4096) + 3) (ubyte m token) lo (lo + n).

Lemma page_pieces_concat um stop : ∀ (fuel : nat) start,
  pages_left start stop < fuel → concat (page_pieces fuel um start stop) = um <$> seqZ start (stop - start).
Proof.
  induction fuel as [|fuel IH]; intros start Hf; cbn [page_pieces].
  { unfold pages_left in Hf. destruct (Z.ltb_spec start stop); zdiv_lia. }
  destruct (Z.ltb_spec start stop) as [Hlt|Hge]; [|by rewrite seqZ_nil by lia].
  assert (Hn : start < next_stop start stop <= stop) by (unfold next_stop; zdiv_lia).
  cbn [concat]. rewrite IH, <- fmap_app, (seqZ_split start (stop - start) (next_stop start stop - start)) by
    (lia || (unfold pages_left, next_stop in *; destruct (Z.ltb_spec start stop); [|lia];
     destruct (Z.ltb_spec (Z.min ((start / 4096 + 1) * 4096) stop) stop); [rewrite Z.min_l by lia|]; zdiv_lia)).
  do 3 f_equal; lia.
Qed.

Lemma ascii_pieces bss :
  Forall (λ b, b < 128) (concat bss) → mapM utf8_chars bss = Some bss.
Proof.
  induction bss as [|bs bss IH]; [done|]. intros [H1 H2]%Forall_app. simpl. by rewrite utf8_ascii, (IH H2) by done.
Qed.

Lemma writes_concat css :
  puts (concat (write_str <$> css)) = concat css ∧ pending 0 (concat (write_str <$> css)) = 0.
Proof.
  induction css as [|cs css [IH1 IH2]]; [done|]. cbn [fmap list_fmap concat].
  rewrite puts_app, pending_app. unfold write_str at 1 3. rewrite write_chars_puts.
  destruct (write_chars_flush cs 0 [] ltac:(lia)) as [_ ->]. by rewrite IH1.
Qed.

Section console.
Context {FS DirH FileH : Type} `{!FatFs FS DirH FileH}.
Notation F := (FileObj (DirH := DirH) (FileH := FileH)).
Implicit Types v : Vfs (FS := FS) (DirH := DirH) (FileH := FileH).

(** [write] to the console from a mapped user range prints the text of the
    range in order, piece by piece as the page boundaries cut it, and returns its
    length; every character has been flushed at the end.  It panics exactly when
    one of the pieces is not UTF-8 by itself, which never happens for ASCII
    text and does for a longer character that a page boundary divides. *)
Theorem console_write_correct v s (ms : MemorySet SV39PageTable) a fd lo n tr answers :
  ms_ok s ms → a ∈ areas ms → map_type a = Framed → 0 <= lo → 0 < n → lo + n < 2 ^ 38 →
  (∀ va, lo <= va < lo + n → in_area a (va / 4096)) → sys_write_target v fd = Some FStdout →
  let text := ubyte (km_mem s) (token ms) <$> seqZ lo n in
  let pieces := text_pieces (km_mem s) (token ms) lo n in
  let call := sys_write (token ms) fd lo n (mkIo v (km_mem s) tr answers) in
  let printed := λ out, Done (IoRet n, mkIo v (km_mem s) (tr ++ out) answers) in
  concat pieces = text ∧
  match mapM utf8_chars pieces with
  | Some css => ∃ out, call = printed out ∧ puts out = concat css ∧ pending 0 out = 0
  | None => call = Panic
  end ∧
  (Forall (λ b, b < 128) text → ∃ out, call = printed out ∧ puts out = text ∧ pending 0 out = 0).
Proof.
  intros Hok Ha Hty Hlo Hn Hlim Hin Ht text pieces call printed.
  pose proof (range_user s ms a Hok Ha Hty lo n Hlo Hlim Hin (km_mem s) (same_outside_refl _ _)) as Hr.
  assert (Hcat : concat pieces = text).
  { unfold pieces, text_pieces. rewrite page_pieces_concat; [unfold text; do 2 f_equal; lia|].
    unfold pages_left. destruct (Z.ltb_spec lo (lo + n)); zdiv_lia. }
  assert (Hcall : call = match mapM utf8_chars pieces with
    | Some css => printed (concat (write_str <$> css)) | None => Panic end).
  { unfold call, sys_write. cbn [io_vfs io_mem]. rewrite Ht. destruct (write_target_inv v fd _ Ht) as (k&->&Hk&_).
    destruct (tbb_ok (km_mem s) (token ms) lo n Hr) as (b&Hb&Hu&Hall); [lia|lia|]. rewrite Hb.
    unfold translated_byte_buffer in Hb. rewrite wadd_small in Hb by lia.
    apply tbb_loop_pieces in Hb; [|done|lia]. cbn [mbind outcome_bind]. unfold file_write. cbn [io_vfs io_mem io_tr ic_file ic_buf]. rewrite Hk.
    cbn [unwrap mbind outcome_bind]. unfold stdout_write.
    rewrite stdout_print_eq, Hb. change (page_pieces _ _ lo (lo + n)) with pieces.
    destruct (mapM utf8_chars pieces) as [css|]; [|done]. cbn [mbind outcome_bind].
    rewrite ub_len_length by (eapply Forall_impl; [done|]; simpl; lia). rewrite Hu, length_fmap, length_seqZ.
    unfold mret, outcome_ret, io_result. cbn [mbind outcome_bind fst snd]. rewrite Z2Nat.id by lia.
    pose proof (as_isize_small n ltac:(lia)) as Hi. unfold wrap64 in Hi. rewrite Z.mod_small in Hi by lia. by rewrite Hi. }
  split; [done|]. rewrite Hcall. split.
  - destruct (mapM utf8_chars pieces) as [css|]; [|done]. eexists. split; [done|]. apply writes_concat.
  - intros Hasc. rewrite <- Hcat in Hasc |- *. rewrite (ascii_pieces _ Hasc). eexists. split; [done|]. apply writes_concat.
Qed.

(** [read] of one character from the console skips the answers that say that
    there is none, stores the low byte of the first other answer in the user's
    byte and changes no other; without such an answer it is still waiting. *)
Theorem console_read_correct alive v s (ms : MemorySet SV39PageTable) a fd lo tr answers :
  ms_ok s ms → a ∈ areas ms → map_type a = Framed → 0 <= lo → lo + 1 < 2 ^ 38 → in_area a (lo / 4096) →
  sys_read_target v fd = Some FStdin →
  ∃ call, sys_read alive (token ms) fd lo 1 (mkIo v (km_mem s) tr answers) =
  Done match list_find (λ c, c ≠ NO_CHAR) answers with
       | Some (i, ch) => (IoRet 1, mkIo v (store_bytes (km_mem s) (phys (km_mem s) (sv39_from_token (token ms)) lo) [ch mod 256])
                                        tr (drop (S i) answers))
       | None => (IoMore call, mkIo v (km_mem s) tr [])
       end.
Proof.
  intros Hok Ha Hty Hlo Hlim Hin Ht. unfold sys_read. cbn [io_vfs io_mem]. rewrite Ht. destruct (read_target_inv v fd _ Ht) as (k&->&Hk&_).
  assert (Hin' : ∀ va, lo <= va < lo + 1 → in_area a (va / 4096)) by (intros va ?; by replace va with lo by lia).
  destruct (range_user s ms a Hok Ha Hty lo 1 Hlo Hlim Hin' (km_mem s) (same_outside_refl _ _)) as [_ _ Hmap].
  destruct (Hmap lo) as [e He]; [lia|].
  assert (Hb : translated_byte_buffer (km_mem s) (token ms) lo 1 =
    Done [(phys (km_mem s) (sv39_from_token (token ms)) lo, 1)]).
  { unfold translated_byte_buffer. rewrite wadd_small by lia. change (Z.to_nat (1 / 4096) + 3)%nat with 3%nat.
    assert (Hns : next_stop lo (lo + 1) = lo + 1) by (unfold next_stop; zdiv_lia).
    cbn [tbb_loop]. rewrite (proj2 (Z.ltb_lt _ _)) by lia. rewrite (tbb_step_eq _ _ _ _ e) by (done || lia).
    rewrite Hns. cbn [mbind outcome_bind]. rewrite Z.ltb_irrefl. cbn. do 3 f_equal. lia. }
  rewrite Hb. cbn [mbind outcome_bind]. eexists. unfold file_read. cbn [io_vfs io_mem io_in ic_file ic_buf]. rewrite Hk.
  cbn [unwrap mbind outcome_bind]. unfold stdin_read. cbn [ub_len foldl snd]. simpl Z.eqb. cbn iota.
  set (ph := phys _ _ _). assert (Hp : poll answers = option_map (λ '(i, ch), (ch, drop (S i) answers)) (list_find (λ c, c ≠ NO_CHAR) answers)).
  { clear. induction answers as [|c l IH]; [done|]. cbn [poll list_find].
    destruct (Z.eqb_spec c NO_CHAR) as [->|Hc]; [|by rewrite decide_True by done].
    rewrite decide_False by auto. rewrite IH. by destruct (list_find _ l) as [[i ch]|]. }
  rewrite Hp. by destruct (list_find _ answers) as [[i ch]|].
Qed.

(** Any other length of the buffer panics. *)
Lemma console_read_length alive v m tk fd lo n tr answers b :
  sys_read_target v fd = Some FStdin → translated_byte_buffer m tk lo n = Done b → ub_len b ≠ 1 →
  sys_read alive tk fd lo n (mkIo v m tr answers) = Panic.
Proof.
  intros Ht Hb Hn. unfold sys_read. cbn [io_vfs io_mem]. rewrite Ht. destruct (read_target_inv v fd _ Ht) as (k&->&Hk&_).
  rewrite Hb. cbn [mbind outcome_bind]. unfold file_read. cbn [io_vfs io_mem io_in ic_file ic_buf]. rewrite Hk.
  cbn [unwrap mbind outcome_bind]. unfold stdin_read. by rewrite (proj2 (Z.eqb_neq _ _) Hn).
Qed.
End console.

(** "hi", written to the page at 0x10000 of the example process, and a two-byte
    character across the boundary of its two pages. *)
Definition text_at (bs : list Z) (lo : Z) : mem :=
  match copy_to_user (token demo.1) bs lo (km_mem demo.2) with Done m => m | Panic => km_mem demo.2 end.

Lemma text_at_ok bs lo :
  0 < Z.of_nat (length bs) → 0x10000 <= lo → lo + length bs <= 0x12000 →
  ms_ok (with_mem (λ _, text_at bs lo) demo.2) demo.1.
Proof.
  intros Hn Hlo Hhi. destruct demo_facts as (_&Hok&_&_&a&Ha&HR&HY&_).
  assert (Hin : ∀ va, lo <= va < lo + length bs → in_area a (va / 4096)).
  { intros va Hva. unfold in_area. rewrite HR. simpl. zdiv_lia. }
  destruct (copy_roundtrip demo.2 demo.1 a Hok ltac:(rewrite Ha; left) HY lo (length bs) ltac:(lia) Hn ltac:(lia) Hin
    bs eq_refl) as (m'&Hc&Hm&_&_).
  unfold text_at. rewrite Hc. eapply ms_ok_write; [done|done|]. eapply same_outside_mono; [exact Hm|].
  intros p. apply elem_areas_frames. rewrite Ha. left.
Qed.

Lemma console_write_correct_witness :
  (∃ out, sys_write (token demo.1) 1 0x10fff 2 (mkIo (vfs_init fs0) (text_at [104; 105] 0x10fff) [] []) =
    Done (IoRet 2, mkIo (vfs_init fs0) (text_at [104; 105] 0x10fff) out []) ∧ puts out = [104; 105]) ∧
  sys_write (token demo.1) 1 0x10fff 2 (mkIo (vfs_init fs0) (text_at [0xC3; 0xA9] 0x10fff) [] []) = Panic ∧
  utf8_chars [0xC3; 0xA9] = Some [0xE9].
Proof.
  destruct demo_facts as (_&_&_&_&a&Ha&HR&HY&_).
  assert (Hin : ∀ va, 0x10fff <= va < 0x10fff + 2 → in_area a (va / 4096)).
  { intros va Hva. unfold in_area. rewrite HR. simpl. zdiv_lia. }
  split; [|split; [|reflexivity]].
  - destruct (console_write_correct (vfs_init fs0) (with_mem (λ _, text_at [104; 105] 0x10fff) demo.2)
      demo.1 a 1 0x10fff 2 [] []) as (_&_&Hasc);
      [apply text_at_ok; simpl; lia|rewrite Ha; left|exact HY|lia|lia|lia|exact Hin|reflexivity|].
    destruct Hasc as (out&Hc&Hp&_); [vm_compute; repeat constructor; lia|].
    exists out. split; [exact Hc|]. rewrite Hp. vm_compute. reflexivity.
  - destruct (console_write_correct (vfs_init fs0) (with_mem (λ _, text_at [0xC3; 0xA9] 0x10fff) demo.2)
      demo.1 a 1 0x10fff 2 [] []) as (_&Hc&_);
      [apply text_at_ok; simpl; lia|rewrite Ha; left|exact HY|lia|lia|lia|exact Hin|reflexivity|].
    assert (Hp : mapM utf8_chars (text_pieces (text_at [0xC3; 0xA9] 0x10fff) (token demo.1) 0x10fff 2) = None)
      by (vm_compute; reflexivity).
    cbn [km_mem with_mem] in Hc. rewrite Hp in Hc. exact Hc.
Defined.
