(* ===== verification/FileIO.v ===== *)
(** * [read] and [write] of files and pipes through user memory
    ([os/src/syscall/fs.rs], [os/src/fs/inode.rs], [os/src/fs/pipe.rs])

    The system calls end to end: the buffer of the user is translated, the file
    moves bytes between it and the disk or the ring of a pipe, and for a pipe the
    two processes take turns. *)

From S2P Require Import Prelude Address PhysMem IdAlloc FrameAlloc PageTable Sv39 UserMem MemorySet MapAreaSpec.
From S2P Require Import MemorySetSpec MemorySetOps Mmap Fork UserCopy Path FdTable Pipe Vfs UserLib SpaceProps VfsProps Stdio.

(** ** Bytes at addresses *)

Lemma store_addrs_out A : ∀ bs m x, x ∉ A → store_addrs A bs m x = m x.
Proof.
  induction A as [|a A IH]; intros bs m x Hx; [done|]. destruct bs as [|b bs]; [done|]. apply not_elem_of_cons in Hx as [Hne Hx].
  cbn [store_addrs]. rewrite IH, store_bytes_at by done. simpl. rewrite decide_False by lia. done.
Qed.

Lemma store_addrs_bytes A : ∀ bs m, NoDup A → (length bs <= length A)%nat →
  bytes_at (store_addrs A bs m) A = bs ++ drop (length bs) (bytes_at m A).
Proof.
  induction A as [|a A IH]; intros [|b bs] m Hnd Hl; [done|simpl in Hl; lia|done|].
  apply NoDup_cons in Hnd as [Ha Hnd]. cbn [store_addrs bytes_at fmap list_fmap]. simpl in Hl. fold (bytes_at (store_addrs A bs (store_bytes m a [b])) A).
  rewrite IH, store_addrs_out, store_bytes_at by (done || lia). simpl. rewrite decide_True by lia. rewrite Z.sub_diag. simpl. do 2 f_equal.
  fold (bytes_at m A). f_equal. apply list_fmap_ext. intros i x Hx. rewrite store_bytes_at, decide_False; [done|].
  apply list_elem_of_lookup_2 in Hx. simpl. intros ?. assert (x = a) as -> by lia. done.
Qed.

Lemma bytes_at_ext m m' A : (∀ x, x ∈ A → m' x = m x) → bytes_at m' A = bytes_at m A.
Proof. intros H. apply list_fmap_ext. intros i x Hx. by eapply H, list_elem_of_lookup_2. Qed.

Lemma concat_load m b : concat ((λ x : uslice, load_bytes m x.1 x.2) <$> b) = ub_bytes m b.
Proof.
  unfold ub_bytes, bytes_at. induction b as [|s b IH]; [done|]. cbn [fmap list_fmap concat]. rewrite IH, load_bytes_seqZ, uaddrs_cons, fmap_app. done.
Qed.

Lemma sum_snd (b : list uslice) : Forall (λ s : uslice, 0 < s.2) b → foldr Z.add 0 (snd <$> b) = length (uaddrs b).
Proof. induction 1 as [|s b Hs _ IH]; [done|]. rewrite fmap_cons. cbn [foldr]. rewrite IH, uaddrs_cons, length_app, length_seqZ. lia. Qed.

(** ** Buffers of user ranges *)

Section range.
Context (s : KMem) (ms : MemorySet SV39PageTable) (a : MapArea).
Context (Hok : ms_ok s ms) (Ha : a ∈ areas ms) (Hty : map_type a = Framed).
Context (lo n : Z) (Hlo : 0 <= lo) (Hn : 0 < n) (Hlim : lo + n < 2 ^ 38).
Context (Hin : ∀ va, lo <= va < lo + n → in_area a (va / 4096)).

Lemma range_buffer : ∃ b, translated_byte_buffer (km_mem s) (token ms) lo n = Done b ∧ uaddrs b = range_addrs s ms lo n ∧
  Forall (λ x : uslice, 0 < x.2) b ∧ NoDup (uaddrs b) ∧ Z.of_nat (length (uaddrs b)) = n ∧
  (∀ x, x ∈ uaddrs b → x / 4096 ∈ area_frames a) ∧ ub_bytes (km_mem s) b = ubyte (km_mem s) (token ms) <$> seqZ lo n.
Proof using All.
  destruct (tbb_ok (km_mem s) (token ms) lo n (range_user s ms a Hok Ha Hty lo n Hlo Hlim Hin (km_mem s) (same_outside_refl _ _))) as (b&Hb&Hu&Hall);
    [lia|lia|]. exists b. split; [done|]. change (phys _ _ <$> seqZ lo n) with (range_addrs s ms lo n) in Hu.
  assert (Hnd : NoDup (uaddrs b)) by (rewrite Hu; by eapply range_addrs_nodup). split; [done|]. split; [|split; [done|split; [|split]]].
  - eapply Forall_impl; [exact Hall|]. simpl. lia.
  - rewrite Hu. apply range_addrs_length; lia.
  - rewrite Hu. by eapply range_addrs_frames.
  - unfold ub_bytes, bytes_at. rewrite Hu. unfold range_addrs. by rewrite <- list_fmap_compose.
Qed.

(** What the user sees in a memory that differs only in the buffer. *)
Lemma range_view m b : uaddrs b = range_addrs s ms lo n → (∀ x, x ∉ uaddrs b → m x = km_mem s x) →
  (ubyte m (token ms) <$> seqZ lo n) = ub_bytes m b ∧ ms_ok (with_mem (λ _, m) s) ms ∧
  same_outside (λ f, f ∈ area_frames a) (km_mem s) m.
Proof using All.
  intros Hu Hout. assert (Hsame : same_outside (λ f, f ∈ area_frames a) (km_mem s) m).
  { intros x Hx. apply Hout. rewrite Hu. intros Hx'. by apply Hx, (range_addrs_frames s ms a Hok Ha Hty lo n Hin). }
  split; [|split; [|done]].
  - change (ubyte m (token ms)) with (m ∘ phys m (sv39_from_token (token ms))). rewrite list_fmap_compose.
    rewrite (range_addrs_eq s ms a Hok Ha Hty lo n Hin m Hsame). unfold ub_bytes. by rewrite Hu.
  - eapply ms_ok_write; [done|done|]. eapply same_outside_mono; [exact Hsame|]. intros f Hf. by eapply elem_areas_frames.
Qed.
End range.

Section io.
Context {FS DirH FileH : Type} `{!FatFs FS DirH FileH}.
Notation V := (Vfs (FS := FS) (DirH := DirH) (FileH := FileH)).
Notation F := (FileObj (DirH := DirH) (FileH := FileH)).
Notation IO := (Io (FS := FS) (DirH := DirH) (FileH := FileH)).
Implicit Types v : V.

(** ** A pipe between two buffers *)

(** The two calls and what they share. *)
Record Xfer := mkXfer { x_write : IoEnd; x_read : IoEnd; x_io : IO }.

(** The writer ([true]) or the reader takes a turn, unless its call has returned. *)
Definition xturn (alive : nat → bool) (who : bool) (x : Xfer) : outcome Xfer :=
  if who then
    match x_write x with
    | IoMore c => '(e, s) ← write_more c (x_io x); Done (mkXfer e (x_read x) s)
    | IoRet _ => Done x
    end
  else
    match x_read x with
    | IoMore c => '(e, s) ← read_more alive c (x_io x); Done (mkXfer (x_write x) e s)
    | IoRet _ => Done x
    end.

Fixpoint xrun (alive : nat → bool) (l : list bool) (x : Xfer) : outcome Xfer :=
  match l with [] => Done x | who :: l => x' ← xturn alive who x; xrun alive l x' end.

(** How often the reader runs after the writer. *)
Fixpoint handovers (l : list bool) (w : bool) : nat :=
  match l with
  | [] => O
  | true :: l => handovers l true
  | false :: l => (if w then 1 else 0) + handovers l false
  end.

Section transfer.
Context (alive : nat → bool) (k p q : nat) (bw br : list uslice) (text old : list Z) (m0 : mem).
Context (e1 e2 : PipeEnd) (He1 : pe_writable e1 = true ∧ pe_nonblocking e1 = false).
Context (He2 : pe_readable e2 = true ∧ pe_nonblocking e2 = false) (Hal : alive k = true).
Context (Hbw : Forall (λ s : uslice, 0 < s.2) bw) (Hbr : Forall (λ s : uslice, 0 < s.2) br).
Context (Hnd : NoDup (uaddrs br)) (Hdis : ∀ x, x ∈ uaddrs bw → x ∉ uaddrs br).
Context (Hlw : length (uaddrs bw) = length text) (Hlr : length (uaddrs br) = length text).
Context (Hn : (0 < length text)%nat) (Hmax : Z.of_nat (length text) < 2 ^ 63).

Definition call_state (file : nat) (b : list uslice) (moved : list Z) : IoEnd :=
  if decide (length moved = length text) then IoRet (length text) else IoMore (mkCall file b moved).

Record xinv (x : Xfer) (r : PipeRingBuffer) (got : list Z) : Prop := {
  xi_ring : v_rings (io_vfs (x_io x)) !! k = Some r;
  xi_wf : ring_wf r ∧ write_end r = true;
  xi_files : v_files (io_vfs (x_io x)) !! p = Some (FPipe e1 k) ∧ v_files (io_vfs (x_io x)) !! q = Some (FPipe e2 k);
  xi_sent : (got ++ contents r) `prefix_of` text;
  xi_write : x_write x = call_state p bw (got ++ contents r);
  xi_read : x_read x = call_state q br got;
  xi_text : ub_bytes (io_mem (x_io x)) bw = text;
  xi_got : ub_bytes (io_mem (x_io x)) br = got ++ drop (length got) old;
  xi_out : ∀ x', x' ∉ uaddrs br → io_mem (x_io x) x' = m0 x';
}.

Lemma as_isize_len (n : nat) : (n <= length text)%nat → as_isize n = n.
Proof using Hmax.
  intros H. clear -H Hmax. pose proof (as_isize_small n ltac:(lia)) as E. unfold wrap64 in E. by rewrite Z.mod_small in E by lia.
Qed.

(** A turn of the writer. *)
Lemma xturn_write x r got :
  xinv x r got → ∃ x' r', xturn alive true x = Done x' ∧ xinv x' r' got ∧ (contents r' ≠ [] ∨ length got = length text).
Proof using He1 Hbw Hlw Hlr Hn Hmax.
  intros [Hr [Hwf Hwe] [Hp Hq] Hs Hw Hrd Ht Hg Ho]. unfold xturn. rewrite Hw. unfold call_state at 1. case_decide as Hd.
  - exists x, r. split; [done|]. split; [split; try done; by rewrite Hw; unfold call_state; rewrite decide_True|].
    destruct (contents r) eqn:E; [right|by left]. by rewrite app_nil_r in Hd.
  - unfold write_more, file_write. cbn [ic_file ic_buf ic_moved]. rewrite Hp. cbn [unwrap mbind outcome_bind]. rewrite Hr. cbn [unwrap mbind outcome_bind].
    set (sent := got ++ contents r) in *. rewrite ub_len_length, Hlw by done. rewrite Ht. pose proof (prefix_length _ _ Hs) as Hle.
    set (c := mkWrite _ _ _). destruct He1 as [Hpw Hnb].
    destruct (pipe_write_spec e1 r c Hwf) as (r'&E&Hwf'&Hc'&Hwe'); [split; simpl; rewrite ?length_drop; lia|done|].
    set (j := Nat.min _ _) in *. rewrite Hnb in E.
    assert (Hj : j = Nat.min (32 - length (contents r)) (length text - length sent)) by (unfold j; simpl; by rewrite length_drop).
    assert (Hcap : (length (contents r) <= 32)%nat) by (pose proof (length_contents r Hwf); pose proof (available_read_range r Hwf); lia).
    assert (Hmoved : sent ++ take j (drop (length sent) text) = take (length sent + j) text).
    { destruct Hs as [z Hz]. rewrite Hz, drop_app_length. by rewrite take_app_add. }
    assert (Hsent' : got ++ contents r' = take (length sent + j) text) by (by rewrite Hc', app_assoc).
    assert (Hlen' : length (got ++ contents r') = (length sent + j)%nat) by (rewrite Hsent', length_take; lia).
    rewrite (decide_ext _ (length (got ++ contents r') = length text)) in E.
    2: { rewrite Hlen'. unfold c. cbn [wc_left]. rewrite drop_drop, <- length_zero_iff_nil, length_drop. lia. }
    rewrite E. cbn [mbind outcome_bind wc_want wc_sent wc_left].
    eexists _, r'. split; [reflexivity|]. split; [split; simpl; try done|].
    + apply list_lookup_insert_eq. by eapply lookup_lt_Some.
    + split; [done|congruence].
    + rewrite Hsent'. eexists. symmetry. apply take_drop.
    + unfold call_state. case_decide; [by rewrite as_isize_len|]. replace (Z.to_nat (length sent + j) - length sent)%nat with j by lia.
      by rewrite Hmoved, Hsent'.
    + left. rewrite Hc'. intros Hnil. apply (f_equal length) in Hnil. rewrite length_app, length_take in Hnil. simpl in Hnil.
      rewrite length_drop in Hnil. lia.
Qed.

(** A turn of the reader: when there is something to read it gets at least a byte. *)
Lemma xturn_read x r got :
  xinv x r got → ∃ x' r' got', xturn alive false x = Done x' ∧ xinv x' r' got' ∧ (length got <= length got')%nat ∧
    (contents r ≠ [] ∨ length got = length text → (length got < length got')%nat ∨ length got' = length text).
Proof using All.
  intros [Hr [Hwf Hwe] [Hp Hq] Hs Hw Hrd Ht Hg Ho]. unfold xturn. rewrite Hrd. unfold call_state at 1. case_decide as Hd.
  - exists x, r, got. split; [done|]. split; [split; try done; by rewrite Hrd; unfold call_state; rewrite decide_True|]. split; [done|]. by right.
  - unfold read_more, file_read. cbn [ic_file ic_buf ic_moved]. rewrite Hq. cbn [unwrap mbind outcome_bind]. rewrite Hr. cbn [unwrap mbind outcome_bind].
    rewrite ub_len_length, Hlr, Hal by done. pose proof (prefix_length _ _ Hs) as Hle. rewrite length_app in Hle. destruct He2 as [Hpr Hnb].
    destruct (pipe_read_spec e2 true r (mkRead (length text) got) Hwf Hwe) as (r'&E&Hwf'&Hc'&Hwe'); [unfold call_ok; simpl; lia|done|].
    cbn [rc_got rc_want] in E, Hc'. set (j := Nat.min _ _) in *. set (got' := got ++ take j (contents r)) in *.
    assert (Hj : j = length (contents r)) by (unfold j; lia).
    assert (Hgot' : got' = got ++ contents r) by (unfold got'; by rewrite Hj, firstn_all). rewrite Hj, drop_all in Hc'.
    assert (Hlen' : length got' = (length got + length (contents r))%nat) by (by rewrite Hgot', length_app).
    rewrite Hnb in E. cbn [orb negb] in E. rewrite (decide_ext _ (length got' = length text)) in E.
    2: { split; [lia|]. intros He. split; [|lia]. intros Hnil. rewrite Hnil in Hlen'. simpl in Hlen'. lia. }
    rewrite E. cbn [mbind outcome_bind rc_got]. eexists _, r', got'. split; [reflexivity|]. split; [|split; [lia|]].
    2: { intros [Hne|?]; [|lia]. left. rewrite Hlen'. destruct (contents r); [done|simpl; lia]. }
    set (m := io_mem (x_io x)) in *. set (A := uaddrs br) in *.
    assert (Hdrop : drop (length got) got' = contents r) by (by rewrite Hgot', drop_app_length).
    assert (HndD : NoDup (drop (length got) A)) by (rewrite <- (take_drop (length got) A) in Hnd; by apply NoDup_app in Hnd as (_&_&?)).
    assert (Hsub : ∀ y, y ∉ A → y ∉ drop (length got) A) by (intros y Hy Hin; apply Hy; by eapply (subseteq_drop (length got))).
    split; cbn [io_vfs io_mem x_io x_write x_read set_vfs set_iomem set_ring v_rings v_files].
    + apply list_lookup_insert_eq. by eapply lookup_lt_Some.
    + done.
    + done.
    + by rewrite Hc', app_nil_r, Hgot'.
    + by rewrite Hw, Hc', app_nil_r, Hgot'.
    + unfold call_state. case_decide; [cbn; by rewrite as_isize_len|done].
    + rewrite <- Ht. apply bytes_at_ext. intros y Hy. apply store_addrs_out. auto.
    + assert (Hsplit : ub_bytes (store_addrs (drop (length got) A) (drop (length got) got') m) br =
        bytes_at m (take (length got) A) ++ bytes_at (store_addrs (drop (length got) A) (drop (length got) got') m) (drop (length got) A)).
      { unfold ub_bytes. fold A. rewrite <- (take_drop (length got) A) at 2. unfold bytes_at at 1. rewrite fmap_app. f_equal.
        apply bytes_at_ext. intros y Hy. apply store_addrs_out. rewrite <- (take_drop (length got) A) in Hnd.
        apply NoDup_app in Hnd as (_&Hd'&_). by apply Hd'. }
      etransitivity; [exact Hsplit|]. rewrite store_addrs_bytes by (rewrite ?Hdrop, ?length_drop; (lia || done)).
      assert (Htake : ∀ i, bytes_at m (drop i A) = drop i (ub_bytes m br) ∧ bytes_at m (take i A) = take i (ub_bytes m br))
        by (intros i; unfold ub_bytes, bytes_at; by rewrite fmap_drop, fmap_take).
      rewrite (proj1 (Htake _)), (proj2 (Htake _)), Hg, take_app_length, drop_app_length, Hdrop, drop_drop, Hlen', Hgot', <- app_assoc. done.
    + intros y Hy. etransitivity; [apply store_addrs_out; by apply Hsub|by apply Ho].
Qed.

Lemma xrun_ok l : ∀ x r got w,
  xinv x r got → (w = true → contents r ≠ [] ∨ length got = length text) →
  ∃ x' r' got', xrun alive l x = Done x' ∧ xinv x' r' got' ∧ (Nat.min (length text) (length got + handovers l w) <= length got')%nat.
Proof using All.
  induction l as [|who l IH]; intros x r got w Hi Hw; [exists x, r, got; split; [done|]; split; [done|simpl; lia]|]. cbn [xrun].
  destruct who.
  - destruct (xturn_write x r got Hi) as (x1&r1&->&Hi1&Hc1). destruct (IH x1 r1 got true Hi1 ltac:(done)) as (x'&r'&got'&?&?&?).
    exists x', r', got'. done.
  - destruct (xturn_read x r got Hi) as (x1&r1&got1&->&Hi1&Hle&Hc1). destruct (IH x1 r1 got1 false Hi1 ltac:(done)) as (x'&r'&got'&?&?&Hl).
    exists x', r', got'. split; [done|]. split; [done|]. cbn [handovers]. destruct w; [destruct (Hc1 (Hw eq_refl))|]; lia.
Qed.
End transfer.

(** A system call on an open file begins by the turn of its file. *)
Lemma sys_write_starts v m tk fd lo n tr answers f k b :
  sys_write_target v fd = Some f → get_fd (v_fds v) fd = Some k → translated_byte_buffer m tk lo n = Done b →
  sys_write tk fd lo n (mkIo v m tr answers) = write_more (mkCall k b []) (mkIo v m tr answers).
Proof. intros Ht Hk Hb. unfold sys_write. cbn [io_vfs io_mem]. by rewrite Ht, Hk, Hb. Qed.

Lemma sys_read_starts alive v m tk fd lo n tr answers f k b :
  sys_read_target v fd = Some f → get_fd (v_fds v) fd = Some k → translated_byte_buffer m tk lo n = Done b →
  sys_read alive tk fd lo n (mkIo v m tr answers) = read_more alive (mkCall k b []) (mkIo v m tr answers).
Proof. intros Ht Hk Hb. unfold sys_read. cbn [io_vfs io_mem]. by rewrite Ht, Hk, Hb. Qed.

(** C16: what one process writes to a pipe another one reads, across their
    address spaces and however long it is: in every schedule in which the reader
    runs [n] times after the writer, a [write] of [n] bytes and a [read] of [n]
    bytes on the two ends both return [n], the buffer of the reader then holds the
    bytes of the buffer of the writer, and no other memory has changed. *)
Theorem pipe_transfer_correct alive v s (msA msB : MemorySet SV39PageTable) aA aB wfd rfd la lb n k e1 e2 r sent l tr answers :
  ms_ok s msA → aA ∈ areas msA → map_type aA = Framed → 0 <= la → la + n < 2 ^ 38 →
  (∀ va, la <= va < la + n → in_area aA (va / 4096)) →
  ms_ok s msB → aB ∈ areas msB → map_type aB = Framed → 0 <= lb → lb + n < 2 ^ 38 →
  (∀ va, lb <= va < lb + n → in_area aB (va / 4096)) →
  (∀ f, f ∈ area_frames aA → f ∉ area_frames aB) → 0 < n →
  sys_write_target v wfd = Some (FPipe e1 k) → sys_read_target v rfd = Some (FPipe e2 k) →
  pe_nonblocking e1 = false → pe_nonblocking e2 = false → alive k = true →
  v_rings v !! k = Some r → pipe_reach r sent sent → n <= handovers l false →
  let io := mkIo v (km_mem s) tr answers in
  ∃ cw cr io', sys_write (token msA) wfd la n io = write_more cw io ∧
    sys_read alive (token msB) rfd lb n io = read_more alive cr io ∧
    xrun alive l (mkXfer (IoMore cw) (IoMore cr) io) = Done (mkXfer (IoRet n) (IoRet n) io') ∧
    (ubyte (io_mem io') (token msB) <$> seqZ lb n) = (ubyte (km_mem s) (token msA) <$> seqZ la n) ∧
    same_outside (λ f, f ∈ area_frames aB) (km_mem s) (io_mem io').
Proof.
  intros HokA HaA HtyA HlA HmA HinA HokB HaB HtyB HlB HmB HinB Hdis Hn Hw Hr Hnb1 Hnb2 Hal Hring Hreach Hl io.
  destruct (range_buffer s msA aA HokA HaA HtyA la n HlA Hn HmA HinA) as (bw&Hbw&_&Hpw&_&Hlw&Hfw&Htext).
  destruct (range_buffer s msB aB HokB HaB HtyB lb n HlB Hn HmB HinB) as (br&Hbr&Hur&Hpr&Hnd&Hlr&Hfr&_).
  destruct (write_target_inv v wfd _ Hw) as (p&Hp&Hfp&He1). destruct (read_target_inv v rfd _ Hr) as (q&Hq&Hfq&He2).
  exists (mkCall p bw []), (mkCall q br []). set (text := ub_bytes (km_mem s) bw) in *.
  assert (Hlt : Z.of_nat (length text) = n) by (by unfold text, ub_bytes, bytes_at; rewrite length_fmap).
  apply pipe_reach_inv in Hreach as (Hwf&Hwe&Hc). assert (Hnil : contents r = []).
  { apply (f_equal length) in Hc. rewrite length_app in Hc. apply nil_length_inv. lia. }
  destruct (xrun_ok alive k p q bw br text (ub_bytes (km_mem s) br) (km_mem s) e1 e2) with
    (l := l) (x := mkXfer (IoMore (mkCall p bw [])) (IoMore (mkCall q br [])) io) (r := r) (got := @nil Z) (w := false)
    as (x'&r'&got&Hrun&[_ _ _ Hs Hxw Hxr _ Hg Hout]&Hlen); try done; try lia.
  - intros x Hx Hx'. by apply (Hdis (x / 4096)); auto.
  - split; rewrite ?Hnil; [done|done|done|by exists text|..|done|done|done]; unfold call_state; simpl; by rewrite decide_False by lia.
  - assert (Hgl : length got = length text) by (pose proof (prefix_length _ _ Hs); rewrite length_app in *; simpl in Hlen; lia).
    assert (Hgot : got ++ contents r' = text /\ got = text).
    { destruct Hs as [z Hz]. assert (contents r' ++ z = []) as [Hr0 Hz0]%app_eq_nil.
      { apply nil_length_inv. apply (f_equal length) in Hz. rewrite !length_app in Hz. rewrite length_app. lia. }
      rewrite Hr0, Hz0, !app_nil_r in Hz. by rewrite Hr0, app_nil_r. }
    destruct Hgot as [Hsent ->]. exists (x_io x'). destruct (range_view s msB aB HokB HaB HtyB lb n HlB Hn HmB HinB (io_mem (x_io x')) br Hur Hout) as (Hv&_&Hsame).
    split; [by eapply sys_write_starts|]. split; [by eapply sys_read_starts|]. split; [|split; [|done]].
    + rewrite Hrun. destruct x' as [xw xr xio]. simpl in *. subst xw xr. rewrite Hsent. unfold call_state. rewrite !decide_True by done. by rewrite Hlt.
    + rewrite Hv, Hg, <- Htext. rewrite drop_ge, app_nil_r; [done|]. unfold ub_bytes, bytes_at. rewrite length_fmap. lia.
Qed.

(** ** Files *)


(** ** Errors *)

Lemma not_open_file v fd : 0 <= fd → opened (v_fds v) (Z.to_nat fd) = None → get_fd (v_fds v) fd = None ∧ file_at v fd = None.
Proof. intros H0 Hc. unfold file_at. rewrite get_fd_opened by done. by rewrite Hc. Qed.

Lemma base_of_closed v dirfd :
  0 <= dirfd → dirfd ≠ AT_FDCWD → opened (v_fds v) (Z.to_nat dirfd) = None → base_of v dirfd = Done None.
Proof.
  intros H0 Hne Hc. unfold base_of. rewrite (proj2 (Z.eqb_neq _ _) Hne). by destruct (not_open_file v dirfd H0 Hc) as [_ ->].
Qed.

(** C18: on a descriptor that is not open every call answers [-1] and changes
    nothing: reading, writing, listing, duplicating and closing, and opening,
    creating and removing relative to it.  So do reading a file that is not
    readable and writing one that is not writable.  The exception is [fstat]: it
    answers [-1] for a free descriptor inside the table, and panics the kernel
    for one beyond its end. *)
Theorem descriptor_errors alive v m tk fd buf len tr answers :
  0 <= fd →
  let io := mkIo v m tr answers in
  (opened (v_fds v) (Z.to_nat fd) = None →
     sys_read alive tk fd buf len io = Done (IoRet (-1), io) ∧ sys_write tk fd buf len io = Done (IoRet (-1), io) ∧
     sys_getdents64 v fd len = Done (-1, None) ∧ sys_dup (v_fds v) fd = (-1, v_fds v) ∧ sys_close (v_fds v) fd = (-1, v_fds v) ∧
     (∀ new, sys_dup3 (v_fds v) fd new 0 = Done (-1, v_fds v)) ∧
     (fd ≠ AT_FDCWD →
        (∀ path flags mode, sys_openat v fd path flags mode = Done (-1, v)) ∧
        (∀ path, starts_with_slash path = false → sys_mkdirat v fd path = Done (-1, v)) ∧
        (∀ path flags, sys_unlinkat v fd path flags = Done (-1, v)) ∧
        sys_fstat v fd = if fd <? length (v_fds v) then Done (-1, None) else Panic)) ∧
  (∀ f, file_at v fd = Some f →
     (file_readable f = false → sys_read alive tk fd buf len io = Done (IoRet (-1), io)) ∧
     (file_writable f = false → sys_write tk fd buf len io = Done (IoRet (-1), io))).
Proof.
  intros H0 io. split.
  - intros Hc. destruct (not_open_file v fd H0 Hc) as [Hg Hf]. destruct (fd_table_errors (v_fds v) fd 0 H0 Hc) as (Hd&_&Hcl).
    unfold sys_read, sys_write, sys_read_target, sys_write_target, sys_getdents64. cbn [io io_vfs]. rewrite Hf.
    split; [by destruct (_ <=? fd)|]. split; [by destruct (_ <=? fd)|]. split; [by destruct (_ <=? fd)|]. split; [done|]. split; [done|].
    split; [intros new; by destruct (fd_table_errors (v_fds v) fd new H0 Hc) as (_&?&_)|]. intros Hcwd.
    pose proof (base_of_closed v fd H0 Hcwd Hc) as Hb. unfold sys_openat, sys_mkdirat, sys_unlinkat, sys_fstat. rewrite Hb.
    rewrite (proj2 (Z.eqb_neq _ _) Hcwd). split; [intros; by case_match|]. split; [by intros path ->|]. split; [intros [] ?; done|].
    unfold opened in Hc. destruct (Z.ltb_spec fd (length (v_fds v))) as [Hlt|Hge].
    + destruct (v_fds v !! Z.to_nat fd) as [o|] eqn:E; [|apply lookup_ge_None in E; lia]. simpl in Hc. by subst o.
    + by rewrite (proj2 (lookup_ge_None _ _)) by lia.
  - intros f Hf. unfold sys_read, sys_write, sys_read_target, sys_write_target. cbn [io io_vfs]. rewrite Hf.
    split; intros ->; by destruct (_ <=? fd).
Qed.
End io.

(** A pipe on descriptors 3 and 4, and a file of seven bytes on 5. *)
Definition piped_vfs : Vfs :=
  match sys_pipe2 (vfs_init fs0) 0 with
  | Done (_, _, v) => match add_file v (FInode inode0) with Done (_, v') => v' | Panic => v end
  | Panic => vfs_init fs0
  end.

(** A process and its copy: 40 bytes go from the one to the other. *)
Lemma pipe_transfer_correct_witness :
  ∃ (child : MemorySet SV39PageTable) s cw cr io',
    let io := mkIo piped_vfs (km_mem s) [] [] in
    sys_write (token demo.1) 4 0x10ff0 40 io = write_more cw io ∧ sys_read (λ _, true) (token child) 3 0x11000 40 io = read_more (λ _, true) cr io ∧
    xrun (λ _, true) (concat (replicate 40 [true; false])) (mkXfer (IoMore cw) (IoMore cr) io) = Done (mkXfer (IoRet 40) (IoRet 40) io') ∧
    (ubyte (io_mem io') (token child) <$> seqZ 0x11000 40) = (ubyte (km_mem s) (token demo.1) <$> seqZ 0x10ff0 40).
Proof.
  destruct demo_facts as (Hfa&Hok&_&Hfree&a&Ha&HR&HY&_).
  destruct (proj1 (wp_done _ _ _) (from_existed_user_wp demo_st demo.1 demo.2 Hfa Hok
    ltac:(intros b; rewrite Ha, list_elem_of_singleton; intros ->; exact HY) demo_tramp
    ltac:(rewrite Ha; simpl; rewrite app_nil_r; unfold area_pages; rewrite HR; change (3 + 3 * _) with 9; lia))) as (child&s&_&F).
  pose proof (fk_copied _ _ _ _ _ F) as HF. rewrite Ha in HF. destruct (areas child) as [|b [|? ?]] eqn:Hb; [by apply Forall2_length in HF| |by apply Forall2_length in HF].
  apply Forall2_cons in HF as [[(HR'&HY'&_) _] _].
  assert (HaA : a ∈ areas demo.1) by (rewrite Ha; left). assert (HaB : b ∈ areas child) by (rewrite Hb; left).
  exists child, s. destruct (pipe_transfer_correct (λ _, true) piped_vfs s demo.1 child a b 4 3 0x10ff0 0x11000 40 0
    write_end_with_buffer read_end_with_buffer make_pipe.1.1 [] (concat (replicate 40 [true; false])) [] []) as (cw&cr&io'&H1&H2&H3&H4&_).
  - exact (fk_parent _ _ _ _ _ F).
  - exact HaA.
  - exact HY.
  - lia.
  - lia.
  - intros va Hva. unfold in_area. rewrite HR. simpl. zdiv_lia.
  - exact (fk_child _ _ _ _ _ F).
  - exact HaB.
  - rewrite HY'. exact HY.
  - lia.
  - lia.
  - intros va Hva. unfold in_area. rewrite HR', HR. simpl. zdiv_lia.
  - intros f HfA HfB. apply (frames_apart _ _ _ _ _ f F Hok); by eapply ms_frames_area.
  - lia.
  - reflexivity.
  - reflexivity.
  - reflexivity.
  - reflexivity.
  - reflexivity.
  - reflexivity.
  - apply reach_new.
  - vm_compute. congruence.
  - exists cw, cr, io'. split; [exact H1|]. split; [exact H2|]. split; [exact H3|exact H4].
Defined.


Lemma descriptor_errors_witness :
  sys_fstat piped_vfs 6 = Panic ∧ sys_close (v_fds piped_vfs) 6 = (-1, v_fds piped_vfs) ∧
  sys_write 0 3 0 8 (mkIo piped_vfs (λ _, 0) [] []) = Done (IoRet (-1), mkIo piped_vfs (λ _, 0) [] []).
Proof.
  destruct (descriptor_errors (λ _, true) piped_vfs (λ _, 0) 0 6 0 8 [] [] ltac:(lia)) as [Hc _].
  destruct (descriptor_errors (λ _, true) piped_vfs (λ _, 0) 0 3 0 8 [] [] ltac:(lia)) as [_ Hp].
  destruct (Hc eq_refl) as (_&_&_&_&Hcl&_&Hd). destruct (Hd ltac:(vm_compute; congruence)) as (_&_&_&Hs).
  split; [exact Hs|]. split; [exact Hcl|]. exact (proj2 (Hp (FPipe read_end_with_buffer 0) eq_refl) eq_refl).
Defined.
