(* ===== verification/FileStat.v ===== *)
(** * What [fstat] and [getdents64] store for the user ([os/src/fs/file.rs],
      [os/src/syscall/fs.rs])

    The records [UserStat] and [LinuxDirent64] with their C layout, and the two
    system calls with the copy to the user's memory. *)

From S2P Require Import Prelude Address PhysMem IdAlloc FrameAlloc PageTable Sv39 UserMem MemorySet MapAreaSpec.
From S2P Require Import MemorySetSpec MemorySetOps Mmap Fork UserCopy TrapCx SpaceProps Path FdTable Pipe Vfs VfsProps Timer ProcCalls UserLib Stdio FileIO.

(** ** Records *)

Record UserStat := mkStat {
  us_dev : Z; us_ino : Z; us_mode : Z; us_nlink : Z; us_uid : Z; us_gid : Z; us_rdev : Z; us_pad : Z; us_size : Z;
  us_blksize : Z; us_pad2 : Z; us_blocks : Z; us_atime_sec : Z; us_atime_nsec : Z; us_mtime_sec : Z; us_mtime_nsec : Z;
  us_ctime_sec : Z; us_ctime_nsec : Z; us_unused0 : Z; us_unused1 : Z;
}.

Definition BLK_SIZE : Z := 512.

(** [get_stat] of files, directories and pipes: the other fields never change. *)
Definition user_stat (mode size blocks : Z) : UserStat :=
  mkStat 0 0 mode 1 0 0 0 0 size BLK_SIZE 0 blocks 0 0 0 0 0 0 0 0.

(** The fields in order, with their sizes in bytes. *)
Definition stat_fields (st : UserStat) : list (Z * Z) :=
  [(8, us_dev st); (8, us_ino st); (4, us_mode st); (4, us_nlink st); (4, us_uid st); (4, us_gid st); (8, us_rdev st); (8, us_pad st);
   (8, us_size st); (4, us_blksize st); (4, us_pad2 st); (8, us_blocks st); (8, us_atime_sec st); (8, us_atime_nsec st);
   (8, us_mtime_sec st); (8, us_mtime_nsec st); (8, us_ctime_sec st); (8, us_ctime_nsec st); (4, us_unused0 st); (4, us_unused1 st)].

(** [repr(C)]: every field lies at a multiple of its size without padding. *)
Definition field_bytes (f : Z * Z) : list Z := Z_to_little_endian f.1 8 f.2.
Definition stat_bytes (st : UserStat) : list Z := stat_fields st ≫= field_bytes.

(** [d_ino], [d_off], [d_reclen], [d_type], [d_name]; the last bytes are padding
    that the kernel does not set. *)
Definition dirent_fields : list (Z * Z) := [(8, 1); (8, 0); (2, DIRENT_SIZE); (1, 4)].
Definition dirent_bytes (pad name : list Z) : list Z :=
  (dirent_fields ≫= field_bytes) ++ name ++ replicate (256 - length name) 0 ++ pad.

(** ** The system calls *)

Section calls.
Context {FS DirH FileH : Type} `{!FatFs FS DirH FileH}.
Notation V := (Vfs (FS := FS) (DirH := DirH) (FileH := FileH)).

Definition fstat_call (m : mem) (token : Z) (v : V) (fd statbuf : Z) : outcome (Z * mem) :=
  '(r, st) ← sys_fstat v fd;
  match st with
  | Some (mode, size, blocks) => m' ← copy_to_user token (stat_bytes (user_stat mode size blocks)) statbuf m; Done (0, m')
  | None => Done (r, m)
  end.

Definition getdents64_call (m : mem) (token : Z) (v : V) (pad : list Z) (fd buf len : Z) : outcome (Z * mem) :=
  '(r, name) ← sys_getdents64 v fd len;
  match name with
  | Some name => m' ← copy_to_user token (dirent_bytes pad name) buf m; Done (DIRENT_SIZE, m')
  | None => Done (r, m)
  end.
End calls.

(** ** The layout *)

Lemma length_field f : 0 <= f.1 → Z.of_nat (length (field_bytes f)) = f.1.
Proof. intros Hf. unfold field_bytes. by rewrite length_Z_to_little_endian by lia. Qed.

(** The offset of field [k], and the end of the last field. *)
Definition field_off (l : list (Z * Z)) (k : nat) : Z := foldr (λ f n, f.1 + n) 0 (take k l).
Definition widths_ok (l : list (Z * Z)) : Prop := Forall (λ f, 0 <= f.1) l.

Lemma length_fields l : widths_ok l → Z.of_nat (length (l ≫= field_bytes)) = field_off l (length l).
Proof.
  unfold field_off. induction 1 as [|f l Hf _ IH]; [done|]. cbn [mbind list_bind length take foldr].
  rewrite length_app, Nat2Z.inj_add, IH, length_field by done. lia.
Qed.

Lemma fields_split l : ∀ k f, widths_ok l → l !! k = Some f →
  ∃ l1 l2, l ≫= field_bytes = l1 ++ field_bytes f ++ l2 ∧ Z.of_nat (length l1) = field_off l k.
Proof.
  unfold field_off. induction l as [|g l IH]; intros k f Hw Hk; [done|]. apply Forall_cons in Hw as [Hg Hw]. destruct k as [|k].
  - injection Hk as ->. by exists [], (l ≫= field_bytes).
  - destruct (IH k f Hw Hk) as (l1&l2&E&Hl). exists (field_bytes g ++ l1), l2. cbn [mbind list_bind]. split; [rewrite E; by rewrite !app_assoc|].
    cbn [take foldr]. rewrite length_app, Nat2Z.inj_add, length_field by done. lia.
Qed.

Lemma stat_widths st : widths_ok (stat_fields st).
Proof. repeat constructor; simpl; lia. Qed.

Lemma stat_bytes_length st : length (stat_bytes st) = 128%nat.
Proof. apply Nat2Z.inj. unfold stat_bytes. rewrite length_fields by apply stat_widths. done. Qed.

Lemma dirent_bytes_length pad name : length pad = 5%nat → (length name <= 255)%nat → length (dirent_bytes pad name) = 280%nat.
Proof.
  intros Hp Hn. unfold dirent_bytes. rewrite !length_app, length_replicate, Hp.
  change (length (dirent_fields ≫= field_bytes)) with 19%nat. lia.
Qed.

(** ** What the user sees *)

Section user.
Context {FS DirH FileH : Type} `{!FatFs FS DirH FileH}.
Context (s : KMem) (ms : MemorySet SV39PageTable) (a : MapArea).
Context (Hok : ms_ok s ms) (Ha : a ∈ areas ms) (Hty : map_type a = Framed).
Notation V := (Vfs (FS := FS) (DirH := DirH) (FileH := FileH)).

(** The number of [w] bytes at a user address. *)
Definition unum (m : mem) (va w : Z) : Z := little_endian_to_Z 8 (ProcCalls.ubyte s ms m <$> seqZ va w).

Lemma unum_answered lo n src l1 l2 w x m :
  answered s ms lo n [(lo, src)] m → src = l1 ++ field_bytes (w, x) ++ l2 → 0 <= w →
  unum m (lo + length l1) w = x mod 2 ^ (8 * w).
Proof using Type.
  intros (_&_&Hb) -> Hw. unfold unum.
  assert (E : ProcCalls.ubyte s ms m <$> seqZ (lo + length l1) w = field_bytes (w, x)).
  { apply list_eq. intros i. rewrite list_lookup_fmap. pose proof (length_field (w, x) Hw) as Hl. simpl in Hl. destruct (decide (i < w)) as [Hi|Hi].
    - rewrite lookup_seqZ_lt by lia. destruct (lookup_lt_is_Some_2 (field_bytes (w, x)) i) as [c Hc]; [lia|]. rewrite Hc. simpl. f_equal.
      replace (lo + length l1 + i) with (lo + (length l1 + i)%nat) by lia. apply (Hb lo (l1 ++ field_bytes (w, x) ++ l2)); [left|].
      rewrite lookup_app_r by lia. rewrite Nat.add_comm, Nat.add_sub. by rewrite lookup_app_l by lia.
    - rewrite lookup_seqZ_ge by lia. symmetry. apply lookup_ge_None. lia. }
  rewrite E. unfold field_bytes. cbn [fst snd]. rewrite little_endian_to_Z_to_little_endian by lia. by rewrite Z.mul_comm.
Qed.

(** C19: [fstat] of an open file, directory or pipe stores its 128 bytes: each field of
    the record lies at the offset the user's headers give it and has its value, and
    nothing else changes.  [getdents64] of a directory stores one record for its
    first entry - of the kind directory, whatever the entry is - with the first
    255 bytes of the name and a zero after them. *)
Theorem stat_calls_correct (v : V) :
  (field_off (stat_fields (user_stat 0 0 0)) <$> seq 0 20) = [0; 8; 16; 20; 24; 28; 32; 40; 48; 56; 60; 64; 72; 80; 88; 96; 104; 112; 120; 124] ∧
  (∀ fd f mode size blocks buf, fd ≠ AT_FDCWD → file_at v fd = Some f → file_get_stat f = Done (mode, size, blocks) → in_user a buf 128 →
     let st := user_stat mode size blocks in
     ∃ m', fstat_call (km_mem s) (token ms) v fd buf = Done (0, m') ∧ answered s ms buf 128 [(buf, stat_bytes st)] m' ∧
       ∀ k w x, stat_fields st !! k = Some (w, x) → unum m' (buf + field_off (stat_fields st) k) w = x mod 2 ^ (8 * w)) ∧
  (∀ fd i name d l buf len pad, file_at v fd = Some (FInode i) → i_is_directory i = true → list_dir (v_fs v) i = Ok ((name, d) :: l) →
     DIRENT_SIZE <= len → length pad = 5%nat → in_user a buf DIRENT_SIZE →
     ∃ m', getdents64_call (km_mem s) (token ms) v pad fd buf len = Done (DIRENT_SIZE, m') ∧
       answered s ms buf DIRENT_SIZE [(buf, dirent_bytes pad (take 255 name))] m' ∧
       unum m' buf 8 = 1 ∧ unum m' (buf + 16) 2 = 280 ∧ unum m' (buf + 18) 1 = 4 ∧
       (∀ (j : nat) c, take 255 name !! j = Some c → ProcCalls.ubyte s ms m' (buf + 19 + j) = c) ∧
       ProcCalls.ubyte s ms m' (buf + 19 + length (take 255 name)) = 0).
Proof using Hok Ha Hty.
  split; [reflexivity|]. split.
  - intros fd f mode size blocks buf Hne Hf Hst Hu st.
    assert (Hu' : in_user a buf (length (stat_bytes st))) by (by rewrite stat_bytes_length).
    destruct (copy_answered s ms a Hok Ha Hty buf (stat_bytes st) Hu') as (m'&Hc&Hans). rewrite stat_bytes_length in Hans.
    exists m'. split; [|split; [exact Hans|]].
    + unfold fstat_call, sys_fstat. rewrite (proj2 (Z.eqb_neq _ _) Hne). unfold file_at, get_fd in Hf.
      destruct (0 <=? fd); [|done]. destruct (v_fds v !! Z.to_nat fd) as [[n|]|]; [|done|done]. simpl in Hf. cbn [unwrap mbind outcome_bind].
      rewrite Hf. cbn [unwrap mbind outcome_bind]. rewrite Hst. cbn [mbind outcome_bind]. fold st. by rewrite Hc.
    + intros k w x Hk. destruct (fields_split _ k (w, x) (stat_widths st) Hk) as (l1&l2&E&<-).
      apply (unum_answered buf 128 (stat_bytes st) l1 l2 w x m' Hans E).
      pose proof (stat_widths st) as Hw. unfold widths_ok in Hw. rewrite Forall_forall in Hw. by apply (Hw (w, x)), list_elem_of_lookup_2 with k.
  - intros fd i name d l buf len pad Hf Hd Hl Hlen Hp Hu. set (nm := take 255 name).
    assert (Hnm : (length nm <= 255)%nat) by (unfold nm; rewrite length_take; lia).
    assert (Hu' : in_user a buf (length (dirent_bytes pad nm))) by (by rewrite dirent_bytes_length).
    destruct (copy_answered s ms a Hok Ha Hty buf (dirent_bytes pad nm) Hu') as (m'&Hc&Hans). rewrite dirent_bytes_length in Hans by done.
    exists m'. split; [|split; [exact Hans|]].
    + unfold getdents64_call, sys_getdents64. unfold file_at, get_fd in Hf |- *. destruct (Z.leb_spec 0 fd); [|done].
      destruct (v_fds v !! Z.to_nat fd) as [[n|]|] eqn:En; [|done|done]. apply lookup_lt_Some in En.
      rewrite (proj2 (Z.leb_gt _ _)) by lia. cbn [mjoin option_join mbind option_bind] in Hf |- *. rewrite Hf. unfold file_is_dir. rewrite Hd.
      cbn [mbind outcome_bind negb]. rewrite (proj2 (Z.ltb_ge _ _)) by lia. rewrite Hl. cbn [mbind outcome_bind]. fold nm. by rewrite Hc.
    + assert (Hfield : ∀ k w x, dirent_fields !! k = Some (w, x) → 0 <= w → unum m' (buf + field_off dirent_fields k) w = x mod 2 ^ (8 * w)).
      { intros k w x Hk Hw. destruct (fields_split dirent_fields k (w, x) ltac:(repeat constructor; simpl; lia) Hk) as (l1&l2&E&<-).
        apply (unum_answered buf 280 (dirent_bytes pad nm) l1 (l2 ++ nm ++ replicate (256 - length nm) 0 ++ pad)); [done| |done].
        unfold dirent_bytes. rewrite E. by rewrite <- !app_assoc. }
      assert (Hname : ∀ (j : nat) c, (nm ++ replicate (256 - length nm) 0) !! j = Some c → ProcCalls.ubyte s ms m' (buf + 19 + j) = c).
      { intros j c Hj. replace (buf + 19 + j) with (buf + (19 + j)%nat) by lia. apply (proj2 (proj2 Hans) buf (dirent_bytes pad nm)); [left|].
        unfold dirent_bytes. rewrite lookup_app_r by (change (length (dirent_fields ≫= field_bytes)) with 19%nat; lia).
        change (length (dirent_fields ≫= field_bytes)) with 19%nat. replace (19 + j - 19)%nat with j by lia.
        rewrite app_assoc. by apply lookup_app_l_Some. }
      split; [pose proof (Hfield 0%nat 8 1 eq_refl ltac:(lia)) as E; by rewrite Z.add_0_r in E|].
      split; [exact (Hfield 2%nat 2 280 eq_refl ltac:(lia))|]. split; [exact (Hfield 3%nat 1 4 eq_refl ltac:(lia))|]. split.
      * intros j c Hj. apply Hname. by apply lookup_app_l_Some.
      * apply Hname. rewrite lookup_app_r by lia. rewrite Nat.sub_diag. apply lookup_replicate_2. lia.
Qed.
End user.

(** The file of the example process, described into a buffer that crosses a page. *)
Lemma stat_calls_correct_witness :
  ∃ m', fstat_call (km_mem demo.2) (token demo.1) piped_vfs 5 0x10fc0 = Done (0, m') ∧
    unum demo.2 demo.1 m' (0x10fc0 + 16) 4 = 33206 (* 0o100666 *) ∧ unum demo.2 demo.1 m' (0x10fc0 + 56) 4 = 512.
Proof.
  destruct demo_facts as (_&Hok&_&_&a&Ha&HR&HY&_).
  destruct (stat_calls_correct demo.2 demo.1 a Hok ltac:(rewrite Ha; left) HY piped_vfs) as (_&Hs&_).
  destruct (Hs 5 (FInode inode0) 33206 0 0 0x10fc0) as (m'&E&_&Hf).
  - vm_compute. congruence.
  - reflexivity.
  - reflexivity.
  - split; [lia|]. split; [lia|]. split; [lia|]. intros va Hva. unfold in_area. rewrite HR. simpl. zdiv_lia.
  - exists m'. split; [exact E|]. split; [exact (Hf 2%nat 4 33206 eq_refl)|exact (Hf 9%nat 4 512 eq_refl)].
Defined.
