(* ===== verification/Uart.v ===== *)
(** * The serial console ([os/src/drivers/serial/ns16550a.rs],
    [os/src/hal/arch/loongarch/sbi.rs])

    The driver stores characters without looking whether the port can take them;
    [write_str] flushes after every fourth.  The port is a parameter with the
    behaviour of its data sheet. *)

From S2P Require Import Prelude PhysMem Address Stdio.

(** ** Registers *)

Definition RBR : Z := 0x0.
Definition THR : Z := 0x0.
Definition LSR : Z := 0x5.
Definition THRE : Z := Z.shiftl 1 5.
Definition DR : Z := 1.

(** A 16550 at address [base]: [rx d] are the characters that have arrived,
    [fifo d] those stored but not yet sent, [sent d] those on the line; [depth] is
    the size of the transmit buffer, and [busy d] bounds the polls until it is
    empty.  Reading the status takes time, in which the port sends. *)
Class SerialPort (D : Type) := {
  base : Z;
  depth : nat;
  reg_read : Z → D → Z * D;
  reg_write : Z → Z → D → D;
  rx : D → list Z;
  fifo : D → list Z;
  sent : D → list Z;
  busy : D → nat;
  lsr_byte d : let '(b, d') := reg_read (base +w LSR) d in
    (Z.land b DR = 0 ↔ rx d' = []) ∧ (Z.land b THRE = 0 ↔ fifo d' ≠ []);
  lsr_sends d : let '(b, d') := reg_read (base +w LSR) d in
    rx d `prefix_of` rx d' ∧ sent d' ++ fifo d' = sent d ++ fifo d ∧ sent d `prefix_of` sent d' ∧
    (fifo d' ≠ [] → (busy d' < busy d)%nat);
  rbr_takes d c l : rx d = c :: l → let '(b, d') := reg_read (base +w RBR) d in
    b = c ∧ rx d' = l ∧ sent d' = sent d ∧ fifo d' = fifo d;
  thr_stores w d : (length (fifo d) < depth)%nat → let d' := reg_write (base +w THR) w d in
    fifo d' = fifo d ++ [w] ∧ sent d' = sent d ∧ rx d' = rx d;
}.

Section uart.
Context {D : Type} `{!SerialPort D}.
Implicit Types d : D.

(** [Read::read]; [None] is [WouldBlock]. *)
Definition ns_read d : option Z * D :=
  let '(b, d) := reg_read (base +w LSR) d in
  let pending := Z.land b DR in
  if negb (pending =? 0) then let '(word, d) := reg_read (base +w RBR) d in (Some word, d) else (None, d).

Definition ns_write (word : Z) d : D := reg_write (base +w THR) word d.

(** [Write::flush]; [false] is [WouldBlock]. *)
Definition ns_flush d : bool * D :=
  let '(b, d) := reg_read (base +w LSR) d in
  let pending := Z.land b THRE in
  (negb (pending =? 0), d).

(** ** The console *)

Definition console_putchar (c : Z) d : D := ns_write (c mod 256) d.

Definition console_getchar d : Z * D :=
  match ns_read d with (Some i, d) => (i, d) | (None, d) => (wrap64 (- 1), d) end.

(** [while UART.flush().is_err() {}] with at most [fuel] polls *)
Fixpoint flush_loop (fuel : nat) d : option D :=
  match fuel with
  | O => None
  | S fuel' => let '(ok, d) := ns_flush d in if ok : bool then Some d else flush_loop fuel' d
  end.

Definition console_flush d : option D := flush_loop (S (busy d)) d.

(** The calls that [write_str] makes. *)
Fixpoint emit (tr : list ConEvent) d : option D :=
  match tr with
  | [] => Some d
  | Putchar c :: tr' => emit tr' (console_putchar c d)
  | Flush :: tr' => d ← console_flush d; emit tr' d
  end.

Lemma flush_loop_ok (fuel : nat) : ∀ d, (busy d < fuel)%nat →
  ∃ d', flush_loop fuel d = Some d' ∧ fifo d' = [] ∧ sent d' = sent d ++ fifo d.
Proof.
  induction fuel as [|fuel IH]; intros d Hb; [lia|]. cbn [flush_loop]. unfold ns_flush.
  pose proof (lsr_byte d) as Hl. pose proof (lsr_sends d) as Hs. destruct (reg_read (base +w LSR) d) as [b d1].
  destruct Hl as [_ Ht], Hs as (_&Hsf&_&Hbusy). destruct (Z.eqb_spec (Z.land b THRE) 0) as [Hz|Hz]; simpl.
  - apply Ht in Hz as Hne. destruct (IH d1) as (d'&?&?&Hd'); [specialize (Hbusy Hne); lia|].
    exists d'. by rewrite Hd', Hsf.
  - assert (Hf : fifo d1 = []) by (destruct (fifo d1) eqn:E; [done|]; exfalso; apply Hz, Ht; congruence).
    exists d1. by rewrite <- Hsf, Hf, app_nil_r.
Qed.

Lemma play_write_chars (H4 : (4 <= depth)%nat) cs : ∀ i d,
  0 <= i < 4 → Z.of_nat (length (fifo d)) <= i → (i = 0 → fifo d = []) →
  ∃ d', emit (write_chars cs i) d = Some d' ∧ fifo d' = [] ∧
    sent d' = (sent d ++ fifo d) ++ ((λ c, c mod 256) <$> cs).
Proof.
  induction cs as [|c cs IH]; intros i d Hi Hlen H0; cbn [write_chars].
  - destruct (Z.eqb_spec i 0) as [->|Hne]; cbn [emit].
    + exists d. by rewrite (H0 eq_refl), !app_nil_r.
    + destruct (flush_loop_ok (S (busy d)) d ltac:(lia)) as (d'&E&Hf&Hs). unfold console_flush. rewrite E. exists d'.
      by rewrite app_nil_r.
  - cbn [emit]. set (d1 := console_putchar c d).
    destruct (thr_stores (c mod 256) d) as (Hf&Hs&_); [lia|]. fold (ns_write (c mod 256) d) in Hf, Hs. fold (console_putchar c d) d1 in Hf, Hs.
    destruct (Z.leb_spec 4 (i + 1)) as [Hge|Hlt]; cbn [emit].
    + destruct (flush_loop_ok (S (busy d1)) d1 ltac:(lia)) as (d2&E&Hf2&Hs2). unfold console_flush. rewrite E. cbn [mbind option_bind].
      destruct (IH 0 d2) as (d'&E'&Hf'&Hs'); [lia|by rewrite Hf2|done|]. exists d'. split; [done|]. split; [done|].
      rewrite Hs', Hf2, Hs2, Hf, Hs, app_nil_r, !app_assoc. cbn [fmap list_fmap]. by rewrite <- (app_assoc _ [_]).
    + destruct (IH (i + 1) d1) as (d'&E'&Hf'&Hs'); [lia|rewrite Hf, length_app; simpl; lia|lia|]. exists d'. split; [done|]. split; [done|].
      rewrite Hs', Hf, Hs, !app_assoc. cbn [fmap list_fmap]. by rewrite <- (app_assoc _ [_]).
Qed.

(** A string printed on a port whose transmit buffer holds four characters
    goes out complete and in order, one byte for each character, although the
    driver never looks whether the port is ready: the flushes of [write_str]
    come in time, and each ends.  Characters that arrive are returned in order,
    and [usize::MAX] when there is none. *)
Theorem serial_console_correct (d : D) cs :
  (4 <= depth)%nat → fifo d = [] →
  (∃ d', emit (write_str cs) d = Some d' ∧ fifo d' = [] ∧ sent d' = sent d ++ ((λ c, c mod 256) <$> cs)) ∧
  (let '(c, d') := console_getchar d in ∃ arrived, rx d `prefix_of` arrived ∧ sent d' = sent d ∧
     match arrived with [] => c = 2 ^ 64 - 1 ∧ rx d' = [] | w :: l => c = w ∧ rx d' = l end).
Proof.
  intros H4 Hf. split.
  - destruct (play_write_chars H4 cs 0 d) as (d'&?&?&Hs); [lia|by rewrite Hf|done|]. exists d'. by rewrite Hs, Hf, app_nil_r.
  - unfold console_getchar, ns_read. pose proof (lsr_byte d) as Hl. pose proof (lsr_sends d) as Hs.
    destruct (reg_read (base +w LSR) d) as [b d1]. destruct Hl as [Hdr _], Hs as (Hrx&Hsf&Hse&_).
    assert (Hsent : sent d1 = sent d).
    { rewrite Hf, app_nil_r in Hsf. destruct Hse as [k Hk]. rewrite Hk in Hsf |- *. rewrite <- app_assoc in Hsf.
      destruct k; [by rewrite app_nil_r|]. apply (f_equal length) in Hsf. rewrite !length_app in Hsf. simpl in Hsf. lia. }
    destruct (Z.eqb_spec (Z.land b DR) 0) as [Hz|Hz]; simpl.
    + exists []. apply Hdr in Hz. rewrite Hz in Hrx. done.
    + destruct (rx d1) as [|w l] eqn:E; [by destruct Hz; apply Hdr|]. pose proof (rbr_takes d1 w l E) as Ht.
      destruct (reg_read (base +w RBR) d1) as [b' d2]. destruct Ht as (->&Hl&Hs2&_). exists (w :: l). by rewrite Hs2.
Qed.
End uart.

(** ** A port

    A port with a transmit buffer of [n] characters that sends one of them between
    two reads of the status; a character stored in a full buffer is lost. *)

Record Port16550 := mkPort { pt_rx : list Z; pt_fifo : list Z; pt_sent : list Z }.

Definition port_send (p : Port16550) : Port16550 :=
  match pt_fifo p with
  | [] => p
  | c :: l => mkPort (pt_rx p) l (pt_sent p ++ [c])
  end.

Definition port_read (off : Z) (p : Port16550) : Z * Port16550 :=
  if off =? 5 then
    let p' := port_send p in
    ((if decide (pt_rx p' = []) then 0 else 1) + (if decide (pt_fifo p' = []) then 32 else 0), p')
  else match pt_rx p with [] => (0, p) | c :: l => (c, mkPort l (pt_fifo p) (pt_sent p)) end.

Definition port_write (n : nat) (off w : Z) (p : Port16550) : Port16550 :=
  if (off =? 0) && bool_decide (length (pt_fifo p) < n)%nat
  then mkPort (pt_rx p) (pt_fifo p ++ [w]) (pt_sent p) else p.

#[refine] Instance port_instance (n : nat) : SerialPort Port16550 := {
  base := 0;
  depth := n;
  reg_read := port_read;
  reg_write := port_write n;
  rx := pt_rx;
  fifo := pt_fifo;
  sent := pt_sent;
  busy p := length (pt_fifo p);
}.
Proof.
  all: [> intros [r f s]|intros [r f s]|intros [r f s] c l|intros w [r f s]].
  - destruct f as [|? f], r; simpl; repeat case_decide; try done; destruct f; simpl; repeat case_decide; done.
  - destruct f as [|c f]; simpl; [by rewrite app_nil_r|]. rewrite <- app_assoc. split_and!; [done|done|by exists [c]|lia].
  - simpl. by intros ->.
  - intros Hl. unfold port_write. simpl in *. by rewrite bool_decide_eq_true_2.
Defined.

Lemma serial_console_correct_witness :
  let H := port_instance 16 in
  ∃ d' : Port16550, emit (write_str [104; 101; 108; 108; 111; 0x4F60; 33]) (mkPort [65] [] [42]) = Some d' ∧
    pt_sent d' = [42; 104; 101; 108; 108; 111; 0x60; 33].
Proof.
  intros H. destruct (serial_console_correct (D := Port16550) (mkPort [65] [] [42]) [104; 101; 108; 108; 111; 0x4F60; 33]) as [(d'&E&_&Hs) _];
    [simpl; lia|done|]. exists d'. split; [exact E|exact Hs].
Defined.

(** A port whose buffer holds one character loses three of four. *)
Example serial_overrun :
  let H := port_instance 1 in
  pt_sent <$> emit (write_str [97; 98; 99; 100]) (mkPort [] [] []) = Some [97].
Proof. reflexivity. Qed.
