(* ===== verification/Fmt.v ===== *)
(** * Text that the kernel prints

    Characters are code points.  Numbers are printed as [core::fmt] does it, in
    decimal ([{}]) and in hexadecimal with a prefix ([{:#x}]). *)

From Stdlib Require Import Ascii String.
From S2P Require Import Prelude.

(** The characters of a literal. *)
Definition chars (s : string) : list Z := (λ a, Z.of_N (N_of_ascii a)) <$> list_ascii_of_string s.

Definition NL : Z := 10.
Definition ESC : Z := 27.

(** ** Numbers *)

Definition digit (d : Z) : Z := if d <? 10 then 48 + d else 87 + d.

(** The digits of [n] to the base [b], from the last to the first, before [acc]. *)
Fixpoint digits (fuel : nat) (b n : Z) (acc : list Z) : list Z :=
  match fuel with
  | O => acc
  | S fuel' => let acc' := digit (n mod b) :: acc in if n / b =? 0 then acc' else digits fuel' b (n / b) acc'
  end.

(** A [usize] has at most 64 digits to any base. *)
Definition show_dec (n : Z) : list Z := digits 64 10 n [].
Definition show_hex (n : Z) : list Z := chars "0x" ++ digits 64 16 n [].

(** ** Reading them back *)

Definition digit_value (c : Z) : Z := if c <? 58 then c - 48 else c - 87.
Definition read_digits (b : Z) (cs : list Z) : Z := foldl (λ v c, v * b + digit_value c) 0 cs.

Lemma digit_value_digit d : 0 <= d < 16 → digit_value (digit d) = d.
Proof. intros Hd. unfold digit, digit_value. destruct (Z.ltb_spec d 10); [rewrite (proj2 (Z.ltb_lt _ _))|rewrite (proj2 (Z.ltb_ge _ _))]; lia. Qed.

Lemma read_digits_from b cs : ∀ v, foldl (λ v c, v * b + digit_value c) v cs = v * b ^ length cs + read_digits b cs.
Proof.
  unfold read_digits. induction cs as [|c cs IH]; intros v; cbn [foldl length]; [lia|]. rewrite IH, (IH (0 * b + _)).
  rewrite Nat2Z.inj_succ, Z.pow_succ_r by lia. lia.
Qed.

Lemma read_digits_cons b c cs : read_digits b (c :: cs) = digit_value c * b ^ length cs + read_digits b cs.
Proof. unfold read_digits at 1. cbn [foldl]. rewrite read_digits_from. lia. Qed.

Lemma digits_read (fuel : nat) b : 2 <= b <= 16 → ∀ n acc, 0 <= n < 2 ^ fuel →
  read_digits b (digits fuel b n acc) = n * b ^ length acc + read_digits b acc.
Proof.
  intros Hb. induction fuel as [|fuel IH]; intros n acc Hn; [simpl in *; assert (n = 0) as -> by lia; lia|].
  rewrite Nat2Z.inj_succ, Z.pow_succ_r in Hn by lia. cbn [digits].
  pose proof (Z.mod_pos_bound n b ltac:(lia)) as Hm. pose proof (Z.div_mod n b ltac:(lia)) as Hdm.
  destruct (Z.eqb_spec (n / b) 0) as [H0|H0].
  - rewrite read_digits_cons, digit_value_digit by lia. rewrite H0 in Hdm. f_equal. f_equal. lia.
  - rewrite IH.
    + rewrite read_digits_cons, digit_value_digit by lia. simpl length. rewrite Nat2Z.inj_succ, Z.pow_succ_r by lia. nia.
    + split; [apply Z.div_pos; lia|]. apply Z.div_lt_upper_bound; nia.
Qed.

Definition is_digit (c : Z) : Prop := 48 <= c < 58 ∨ 97 <= c < 103.

Lemma digits_are b fuel : 2 <= b <= 16 → ∀ n acc, Forall is_digit acc → Forall is_digit (digits fuel b n acc).
Proof.
  intros Hb. induction fuel as [|fuel IH]; intros n acc Ha; [done|]. cbn [digits].
  assert (Hd : Forall is_digit (digit (n mod b) :: acc)).
  { constructor; [|done]. pose proof (Z.mod_pos_bound n b ltac:(lia)). unfold digit, is_digit. destruct (Z.ltb_spec (n mod b) 10); lia. }
  case_match; [done|]. by apply IH.
Qed.

(** A number that is printed can be read back, in both forms. *)
Lemma show_read n : is_usize n → read_digits 10 (show_dec n) = n ∧ read_digits 16 (drop 2 (show_hex n)) = n ∧
  Forall is_digit (show_dec n) ∧ Forall is_digit (drop 2 (show_hex n)).
Proof.
  intros Hn. unfold is_usize in Hn. unfold show_dec, show_hex. change (drop 2 (chars "0x" ++ digits 64 16 n [])) with (digits 64 16 n []).
  assert (H : ∀ b, 2 <= b <= 16 → read_digits b (digits 64 b n []) = n).
  { intros b Hb. rewrite digits_read by (done || (change (Z.of_nat 64) with 64; lia)). change (read_digits b []) with 0. cbn [length]. lia. }
  split; [apply H; lia|]. split; [apply H; lia|]. split; apply digits_are; lia || constructor.
Qed.

(** Digits contain no newline. *)
Lemma digits_line b n : 2 <= b <= 16 → NL ∉ digits 64 b n [].
Proof.
  intros Hb Hin. pose proof (digits_are b 64 Hb n [] ltac:(constructor)) as Hd. rewrite Forall_forall in Hd.
  specialize (Hd _ Hin). unfold is_digit, NL in Hd. lia.
Qed.
