(* ===== verification/Panic.v ===== *)
(** * The firmware, the log and the end of the kernel
    ([os/src/hal/arch/riscv/sbi.rs], [os/src/console.rs], [os/src/lang_items.rs])

    Calls of the firmware, what the logger prints, and the panic handler with its
    stack trace.  The firmware is a parameter with the behaviour of the legacy SBI
    calls. *)

From Stdlib Require Import String.
From S2P Require Import Prelude Address PhysMem IdAlloc FrameAlloc PageTable Sv39 MemorySet UserRes SpaceProps Mmu Asm TrapPath Stdio Fmt Timer Signal Syscall.

(** ** [sbi.rs] *)

Definition SBI_SET_TIMER : Z := 0.
Definition SBI_CONSOLE_PUTCHAR : Z := 1.
Definition SBI_CONSOLE_GETCHAR : Z := 2.
Definition SBI_SHUTDOWN : Z := 8.

(** [fw_call which a0 a1 a2] is an [ecall] to the firmware, with [None] when the
    machine is switched off; [fw_out] is what it has printed, [fw_in] what has been
    typed, [fw_timer] the time of the next interrupt. *)
Class Firmware (F : Type) := {
  fw_call : Z → Z → Z → Z → F → option (Z * F);
  fw_out : F → list Z;
  fw_in : F → list Z;
  fw_timer : F → option Z;
  fw_set_timer t f : ∃ r f', fw_call SBI_SET_TIMER t 0 0 f = Some (r, f') ∧
    fw_timer f' = Some t ∧ fw_out f' = fw_out f ∧ fw_in f' = fw_in f;
  fw_putchar c f : ∃ r f', fw_call SBI_CONSOLE_PUTCHAR c 0 0 f = Some (r, f') ∧
    fw_out f' = fw_out f ++ [c mod 256] ∧ fw_in f' = fw_in f ∧ fw_timer f' = fw_timer f;
  fw_getchar f : ∃ r f', fw_call SBI_CONSOLE_GETCHAR 0 0 0 f = Some (r, f') ∧ fw_out f' = fw_out f ∧ fw_timer f' = fw_timer f ∧
    match fw_in f with [] => r = NO_CHAR ∧ fw_in f' = [] | c :: l => r = c ∧ fw_in f' = l end;
  fw_shutdown f : fw_call SBI_SHUTDOWN 0 0 0 f = None;
}.

(** Code that runs on the firmware returns, ends with the machine switched off, or
    panics. *)
Inductive Ran (F A : Type) := Goes (a : A) (f : F) | PowerOff (f : F) | Panics (f : F).
Arguments Goes {_ _}.
Arguments PowerOff {_ _}.
Arguments Panics {_ _}.

Definition Fw (F A : Type) : Type := F → Ran F A.
#[global] Instance Fw_ret F : MRet (Fw F) := λ A a f, Goes a f.
#[global] Instance Fw_bind F : MBind (Fw F) := λ A B k m f,
  match m f with Goes a f' => k a f' | PowerOff f' => PowerOff f' | Panics f' => Panics f' end.

Section kernel.
Context {F : Type} `{!Firmware F}.
Notation M := (Fw F).

Definition panics {A} : M A := Panics.
Definition fw_unwrap {A} (o : option A) : M A := match o with Some a => mret a | None => panics end.

Definition sbi_call (which arg0 arg1 arg2 : Z) : M Z := λ f,
  match fw_call which arg0 arg1 arg2 f with Some (ret, f') => Goes ret f' | None => PowerOff f end.

Definition sbi_set_timer (timer : Z) : M unit := sbi_call SBI_SET_TIMER timer 0 0 ;; mret ().
Definition sbi_putchar (c : Z) : M unit := sbi_call SBI_CONSOLE_PUTCHAR c 0 0 ;; mret ().
Definition sbi_getchar : M Z := sbi_call SBI_CONSOLE_GETCHAR 0 0 0.
Definition sbi_flush : M unit := mret ().

(** The calls that [write_str] makes. *)
Fixpoint sbi_emit (tr : list ConEvent) : M unit :=
  match tr with
  | [] => mret ()
  | Putchar c :: tr' => sbi_putchar c ;; sbi_emit tr'
  | Flush :: tr' => sbi_flush ;; sbi_emit tr'
  end.

(** [print(format_args!(..))]: the literal pieces and the arguments, each written by
    itself. *)
Definition print (pieces : list (list Z)) : M unit := sbi_emit (concat (write_str <$> pieces)).

Definition sbi_shutdown {A} : M A :=
  print [chars "run shutdown" ++ [NL]] ;;
  sbi_call SBI_SHUTDOWN 0 0 0 ;;
  panics.

(** [set_next_trigger] of [timer.rs] *)
Definition program_timer (now : Z) : M unit := sbi_set_timer (set_next_trigger now).

(** ** The logger *)

Inductive Level := LError | LWarn | LInfo | LDebug | LTrace.

Definition level_to_color_code (l : Level) : Z :=
  match l with LError => 31 | LWarn => 93 | LInfo => 34 | LDebug => 32 | LTrace => 90 end.

Definition level_rank (l : Level) : Z := match l with LError => 1 | LWarn => 2 | LInfo => 3 | LDebug => 4 | LTrace => 5 end.

(** [init]: the level of the variable [LOG] at compile time; [None] is off. *)
Definition max_level (log : option string) : option Level :=
  match log with
  | Some "error"%string => Some LError
  | Some "warn"%string => Some LWarn
  | Some "info"%string => Some LInfo
  | Some "debug"%string => Some LDebug
  | Some "trace"%string => Some LTrace
  | _ => None
  end.

(** A record passes if it is not more verbose than the level set. *)
Definition level_passes (max : option Level) (l : Level) : bool :=
  match max with Some m => level_rank l <=? level_rank m | None => false end.

(** [Logger::log]; [task] is the current task with the id in its resources, which an
    exited task no longer has. *)
Definition log_record (level : Level) (task : option (option Z)) (args : list Z) : M unit :=
  print [[ESC] ++ chars "["; show_dec (level_to_color_code level); chars "m"] ;;
  match task with
  | Some tid => print [chars "pid "; show_dec (default usize_max tid); chars ": "; args; [NL]]
  | None => print [chars "kernel: "; args; [NL]]
  end ;;
  print [[ESC] ++ chars "[0m"].

(** [log::log!]: the test of the level that the crate makes before the logger. *)
Definition log_at (max : option Level) (level : Level) (task : option (option Z)) (args : list Z) : M unit :=
  if level_passes max level then log_record level task args else mret ().

(** ** The panic handler *)

Record PanicInfo := mkInfo { pi_location : option (list Z * Z * Z); pi_message : option (list Z) }.

Definition print_location (location : option (list Z * Z * Z)) : M unit :=
  match location with
  | Some (file, line, column) =>
      print [chars "[kernel] panicked at "; file; chars ":"; show_dec line; chars ":"; show_dec column; [NL]]
  | None => mret ()
  end.

Definition print_message (message : option (list Z)) : M unit :=
  match message with
  | Some msg => print [chars "[kernel] Message: "; msg; [NL]]
  | None => mret ()
  end.

(** A load of a word by the kernel; [None] is a fault. *)
Definition kread (m : mem) (satp va : Z) : option Z :=
  if va mod 8 =? 0 then pa ← mmu m satp false ARead va; Some (load64 m pa) else None.

(** [current_kstack_top]; [kstack] is the kernel stack of the current task. *)
Definition current_kstack_top (kstack : option Z) : M Z := id ← fw_unwrap kstack; mret (get_top id).

Section trace.
Context (m : mem) (satp : Z).

(** The loop from [i] on, with [n] rounds left. *)
Fixpoint backtrace_loop (n : nat) (i stop fp : Z) : M unit :=
  match n with
  | O => mret ()
  | S n' =>
      if fp =? stop then mret ()
      else
        ra ← fw_unwrap (kread m satp (fp -w 8));
        print [chars "#"; show_dec i; chars ":ra="; show_hex ra; [NL]] ;;
        fp' ← fw_unwrap (kread m satp (fp -w 16));
        backtrace_loop n' (i + 1) stop fp'
  end.

Definition backtrace (kstack : option Z) (s0 : Z) : M unit :=
  stop ← current_kstack_top kstack;
  let fp := s0 in
  print [[NL] ++ chars "----START BACKTRACE----" ++ [NL]] ;;
  backtrace_loop 10 0 stop fp ;;
  print [chars "----END OF BACKTRACE----" ++ [NL]].

Definition panic_body (kstack : option Z) (s0 : Z) (info : PanicInfo) : M unit :=
  print [[NL] ++ chars "[kernel] PANIC!" ++ [NL]] ;;
  print_location (pi_location info) ;;
  print_message (pi_message info) ;;
  backtrace kstack s0 ;;
  sbi_shutdown.

(** A panic inside the handler enters it again: [entries] are the information and the
    frame pointer of the first entry and of those that would follow; [None] when
    the handler is still running after all of them. *)
Fixpoint panic (kstack : option Z) (entries : list (PanicInfo * Z)) (f : F) : option F :=
  match entries with
  | [] => None
  | (info, s0) :: rest =>
      match panic_body kstack s0 info f with
      | PowerOff f' => Some f'
      | Panics f' => panic kstack rest f'
      | Goes _ _ => None
      end
  end.
End trace.

(** ** What is printed *)

Definition sent_bytes (cs : list Z) : list Z := (λ c, c mod 256) <$> cs.

(** [m] returns and prints the characters [cs]. *)
Definition prints (m : M unit) (cs : list Z) : Prop :=
  ∀ f, ∃ f', m f = Goes () f' ∧ fw_out f' = fw_out f ++ sent_bytes cs ∧ fw_in f' = fw_in f ∧ fw_timer f' = fw_timer f.

Lemma prints_nil : prints (mret ()) [].
Proof. intros f. exists f. by rewrite app_nil_r. Qed.

Lemma prints_seq m1 m2 t1 t2 : prints m1 t1 → prints m2 t2 → prints (m1 ;; m2) (t1 ++ t2).
Proof.
  intros H1 H2 f. destruct (H1 f) as (f1&E1&O1&I1&T1). destruct (H2 f1) as (f2&E2&O2&I2&T2). exists f2.
  unfold mbind, Fw_bind. rewrite E1, E2. unfold sent_bytes in *. rewrite O2, O1, fmap_app, app_assoc, I2, T2. done.
Qed.

Lemma sbi_putchar_prints c : prints (sbi_putchar c) [c].
Proof.
  intros f. destruct (fw_putchar c f) as (r&f'&E&O&I&T). exists f'. unfold sbi_putchar, sbi_call, mbind, Fw_bind. by rewrite E.
Qed.

Lemma sbi_emit_prints tr : prints (sbi_emit tr) (puts tr).
Proof.
  induction tr as [|[c|] tr IH]; cbn [sbi_emit]; [exact prints_nil| |exact IH].
  change (puts (Putchar c :: tr)) with ([c] ++ puts tr). apply prints_seq; [apply sbi_putchar_prints|exact IH].
Qed.

Lemma print_prints pieces : prints (print pieces) (concat pieces).
Proof. unfold print. rewrite <- (proj1 (writes_concat pieces)). apply sbi_emit_prints. Qed.

Lemma prints_fw {A} m (k : M A) cs f : prints m cs →
  ∃ f', (m ;; k) f = k f' ∧ fw_out f' = fw_out f ++ sent_bytes cs ∧ fw_in f' = fw_in f ∧ fw_timer f' = fw_timer f.
Proof. intros H. destruct (H f) as (f'&E&O). exists f'. unfold mbind, Fw_bind. by rewrite E. Qed.

(** A record that passes is one line in the colour of its level, with the thread it
    comes from; one that does not pass prints nothing. *)
Lemma log_prints max level task args :
  prints (log_at max level task args)
    (if level_passes max level then
       [ESC] ++ chars "[" ++ show_dec (level_to_color_code level) ++ chars "m" ++
       (match task with Some tid => chars "pid " ++ show_dec (default usize_max tid) ++ chars ": " | None => chars "kernel: " end) ++
       args ++ [NL] ++ [ESC] ++ chars "[0m"
     else []).
Proof.
  unfold log_at. destruct (level_passes max level); [|exact prints_nil]. unfold log_record.
  match goal with |- prints _ ?t => set (text := t) end.
  assert (E : text = concat [[ESC] ++ chars "["; show_dec (level_to_color_code level); chars "m"] ++
    concat (match task with Some tid => [chars "pid "; show_dec (default usize_max tid); chars ": "; args; [NL]] | None => [chars "kernel: "; args; [NL]] end) ++
    concat [[ESC] ++ chars "[0m"]).
  { unfold text. destruct task; cbn [concat]; by rewrite ?app_nil_r, <- ?app_assoc. }
  rewrite E. apply prints_seq; [apply print_prints|]. apply prints_seq; [destruct task; apply print_prints|apply print_prints].
Qed.

(** ** The stack trace *)

Section chain.
Context (m : mem) (satp : Z).

(** The frames from [fp] up to the top of the stack, with their return addresses. *)
Fixpoint frames (stop fp : Z) (ras : list Z) : Prop :=
  match ras with
  | [] => fp = stop
  | ra :: rest => fp ≠ stop ∧ kread m satp (fp -w 8) = Some ra ∧ ∃ fp', kread m satp (fp -w 16) = Some fp' ∧ frames stop fp' rest
  end.

Fixpoint trace_lines (i : Z) (ras : list Z) : list Z :=
  match ras with
  | [] => []
  | ra :: rest => (chars "#" ++ show_dec i ++ chars ":ra=" ++ show_hex ra ++ [NL]) ++ trace_lines (i + 1) rest
  end.

Lemma backtrace_loop_prints n : ∀ i stop fp ras, frames stop fp ras → prints (backtrace_loop m satp n i stop fp) (trace_lines i (take n ras)).
Proof.
  induction n as [|n IH]; intros i stop fp ras Hf; [destruct ras; exact prints_nil|]. cbn [backtrace_loop].
  destruct ras as [|ra ras]; cbn [frames] in Hf; [rewrite (proj2 (Z.eqb_eq _ _) Hf); exact prints_nil|].
  destruct Hf as (Hne&Hra&fp'&Hfp&Hf). rewrite (proj2 (Z.eqb_neq _ _) Hne), Hra, Hfp. cbn [fw_unwrap take trace_lines].
  apply (prints_seq _ _ _ _ (print_prints [chars "#"; show_dec i; chars ":ra="; show_hex ra; [NL]]) (IH (i + 1) stop fp' ras Hf)).
Qed.
End chain.

Definition backtrace_text (ras : list Z) : list Z :=
  [NL] ++ chars "----START BACKTRACE----" ++ [NL] ++ trace_lines 0 (take 10 ras) ++ chars "----END OF BACKTRACE----" ++ [NL].

Definition location_text (location : option (list Z * Z * Z)) : list Z :=
  match location with
  | Some (file, line, column) => chars "[kernel] panicked at " ++ file ++ chars ":" ++ show_dec line ++ chars ":" ++ show_dec column ++ [NL]
  | None => []
  end.

Definition message_text (message : option (list Z)) : list Z :=
  match message with Some msg => chars "[kernel] Message: " ++ msg ++ [NL] | None => [] end.

Definition info_text (info : PanicInfo) : list Z :=
  [NL] ++ chars "[kernel] PANIC!" ++ [NL] ++ location_text (pi_location info) ++ message_text (pi_message info).

Lemma location_prints location : prints (print_location location) (location_text location).
Proof.
  destruct location as [[[file line] column]|]; [|exact prints_nil].
  exact (print_prints [chars "[kernel] panicked at "; file; chars ":"; show_dec line; chars ":"; show_dec column; [NL]]).
Qed.

Lemma message_prints message : prints (print_message message) (message_text message).
Proof. destruct message as [msg|]; [|exact prints_nil]. exact (print_prints [chars "[kernel] Message: "; msg; [NL]]). Qed.

Lemma backtrace_prints m satp id s0 ras :
  frames m satp (get_top id) s0 ras → prints (backtrace m satp (Some id) s0) (backtrace_text ras).
Proof.
  intros Hf. unfold backtrace, current_kstack_top. cbn [fw_unwrap].
  replace (backtrace_text ras) with (concat [[NL] ++ chars "----START BACKTRACE----" ++ [NL]] ++ trace_lines 0 (take 10 ras) ++
    concat [chars "----END OF BACKTRACE----" ++ [NL]]) by (unfold backtrace_text; cbn [concat]; by rewrite !app_nil_r, <- !app_assoc).
  apply prints_seq; [apply print_prints|]. apply prints_seq; [by apply backtrace_loop_prints|apply print_prints].
Qed.

Lemma info_prints {A} (k : M A) info f : ∃ f',
  (print [[NL] ++ chars "[kernel] PANIC!" ++ [NL]] ;; print_location (pi_location info) ;; print_message (pi_message info) ;; k) f = k f' ∧
  fw_out f' = fw_out f ++ sent_bytes (info_text info).
Proof.
  destruct (prints_fw _ (print_location (pi_location info) ;; print_message (pi_message info) ;; k) _ f
    (print_prints [[NL] ++ chars "[kernel] PANIC!" ++ [NL]])) as (f1&E1&O1&_).
  destruct (prints_fw _ (print_message (pi_message info) ;; k) _ f1 (location_prints (pi_location info))) as (f2&E2&O2&_).
  destruct (prints_fw _ k _ f2 (message_prints (pi_message info))) as (f3&E3&O3&_). exists f3. split; [by rewrite E1, E2|].
  rewrite O3, O2, O1. unfold info_text, sent_bytes. cbn [concat]. by rewrite app_nil_r, !fmap_app, !app_assoc.
Qed.

Lemma shutdown_off {A} f : ∃ f', sbi_shutdown (A := A) f = PowerOff f' ∧ fw_out f' = fw_out f ++ sent_bytes (chars "run shutdown" ++ [NL]).
Proof.
  destruct (prints_fw _ (sbi_call SBI_SHUTDOWN 0 0 0 ;; panics (A := A)) _ f (print_prints [chars "run shutdown" ++ [NL]])) as (f'&E&O&_).
  exists f'. cbn [concat] in O. rewrite app_nil_r in O. split; [|exact O]. unfold sbi_shutdown. rewrite E.
  unfold mbind, Fw_bind, sbi_call. by rewrite fw_shutdown.
Qed.

(** C30: A panic.  In a task whose frames can be followed up to the top of its kernel
    stack, the handler prints where and why, the return addresses of the innermost
    ten frames, and switches the machine off; every address can be read back from
    its line.  Outside a task - before the first one runs, or in the loop of the
    scheduler - the handler panics itself, however often it is entered, and the
    machine is never switched off. *)
Theorem panic_reports m satp :
  (∀ id s0 ras info rest f, frames m satp (get_top id) s0 ras → Forall is_usize ras →
     ∃ f', panic m satp (Some id) ((info, s0) :: rest) f = Some f' ∧
       fw_out f' = fw_out f ++ sent_bytes (info_text info ++ backtrace_text ras ++ chars "run shutdown" ++ [NL]) ∧
       Forall (λ ra, read_digits 16 (drop 2 (show_hex ra)) = ra ∧ NL ∉ show_hex ra) ras) ∧
  (∀ entries f, panic m satp None entries f = None).
Proof.
  assert (Hx : NL ∉ chars "0x") by (apply (bool_decide_unpack _); by vm_compute). split.
  - intros id s0 ras info rest f Hf Hu. cbn [panic]. unfold panic_body.
    destruct (info_prints (backtrace m satp (Some id) s0 ;; sbi_shutdown (A := ())) info f) as (f1&E1&O1). rewrite E1.
    destruct (prints_fw _ (sbi_shutdown (A := ())) _ f1 (backtrace_prints m satp id s0 ras Hf)) as (f2&E2&O2&_). rewrite E2.
    destruct (shutdown_off (A := ()) f2) as (f3&E3&O3). rewrite E3. exists f3. split; [done|]. split.
    + rewrite O3, O2, O1. unfold sent_bytes. by rewrite !fmap_app, !app_assoc.
    + eapply Forall_impl; [exact Hu|]. intros ra Hra. destruct (show_read ra Hra) as (_&?&_). split; [done|].
      unfold show_hex. rewrite elem_of_app. intros [Hin|Hin]; [by apply Hx|]. by apply (digits_line 16 ra).
  - intros entries. induction entries as [|[info s0] rest IH]; intros f; [done|]. cbn [panic]. unfold panic_body.
    destruct (info_prints (backtrace m satp None s0 ;; sbi_shutdown (A := ())) info f) as (f1&E1&_). rewrite E1. cbn. apply IH.
Qed.
End kernel.

(** ** An instance: a console that records what is sent to it *)

Record FwConsole := mkFw { fc_out : list Z; fc_in : list Z; fc_timer : option Z }.

Definition fc_call (which a0 a1 a2 : Z) (f : FwConsole) : option (Z * FwConsole) :=
  if which =? SBI_SET_TIMER then Some (0, mkFw (fc_out f) (fc_in f) (Some a0))
  else if which =? SBI_CONSOLE_PUTCHAR then Some (0, mkFw (fc_out f ++ [a0 mod 256]) (fc_in f) (fc_timer f))
  else if which =? SBI_CONSOLE_GETCHAR then
    match fc_in f with
    | [] => Some (NO_CHAR, f)
    | c :: l => Some (c, mkFw (fc_out f) l (fc_timer f))
    end
  else None.

#[refine] Instance fw_console : Firmware FwConsole := { fw_call := fc_call; fw_out := fc_out; fw_in := fc_in; fw_timer := fc_timer }.
Proof.
  - intros t f. by eexists _, _.
  - intros c f. by eexists _, _.
  - intros [o i t]. destruct i as [|c i]; by eexists _, _.
  - done.
Defined.

(** One frame in a page that the kernel sees, whose caller is at the top of stack 0. *)
Lemma panic_reports_witness :
  ∃ m satp f', panic m satp (Some 0) [(mkInfo (Some (chars "main.rs", 5, 9)) None, trap_cx_user_va 0 + 16)] (mkFw [] [] None) = Some f' ∧
    fc_out f' = sent_bytes (info_text (mkInfo (Some (chars "main.rs", 5, 9)) None) ++ backtrace_text [0x80201234] ++ chars "run shutdown" ++ [NL]) ∧
    trace_lines 0 [0x80201234] = chars "#0:ra=0x80201234" ++ [NL].
Proof.
  destruct demo_thread as (msu&s&f&Htt&Hp). set (va := trap_cx_user_va 0).
  assert (Hva : va = 2 ^ 64 - 8192) by (vm_compute; reflexivity).
  assert (Hr : 0 <= (0 : Z) < 1000) by lia. pose proof (cx_words_ok 0 f Hr) as Hw. pose proof (cx_visible _ _ _ _ _ _ Htt) as Hvis.
  set (D := block va 37). set (τ := cx_phys 0 f). set (m := store64 (store64 (km_mem s) (τ va) TRAMPOLINE) (τ (va + 8)) 0x80201234).
  assert (D0 : D va) by (exists 0; lia). assert (D8 : D (va + 8)) by (exists 1; lia).
  assert (Hnear : near D τ (km_mem s) m) by (apply near_store; [apply near_store; [apply near_start|done]|done]).
  assert (Hk : ∀ a, D a → a mod 8 = 0 → kread m (token msu) a = Some (load64 m (τ a))).
  { intros a Ha Hal. unfold kread. rewrite Hal. cbn [Z.eqb]. rewrite (vi_data _ _ _ _ _ Hvis m a ARead Hnear Ha) by done. reflexivity. }
  assert (H8 : kread m (token msu) (va + 8) = Some 0x80201234).
  { rewrite Hk by (done || (rewrite Hva; reflexivity)). f_equal. unfold m. rewrite (load_store D τ Hw) by (done || (unfold is_usize; lia)).
    by rewrite decide_True by lia. }
  assert (H0 : kread m (token msu) va = Some TRAMPOLINE).
  { rewrite Hk by (done || (rewrite Hva; reflexivity)). f_equal. unfold m. rewrite !(load_store D τ Hw) by (done || (unfold is_usize, TRAMPOLINE; lia)).
    rewrite decide_False by lia. by rewrite decide_True by lia. }
  assert (Hf : frames m (token msu) (get_top 0) (va + 16) [0x80201234]).
  { cbn [frames]. assert (Etop : get_top 0 = TRAMPOLINE) by (vm_compute; reflexivity). rewrite Etop.
    rewrite !wsub_small by lia. replace (va + 16 - 8) with (va + 8) by lia. replace (va + 16 - 16) with va by lia.
    split; [rewrite Hva; unfold TRAMPOLINE, PAGE_SIZE; lia|]. split; [exact H8|]. exists TRAMPOLINE. split; [exact H0|reflexivity]. }
  destruct (panic_reports (F := FwConsole) m (token msu)) as [Hrep _].
  destruct (Hrep 0 (va + 16) [0x80201234] (mkInfo (Some (chars "main.rs", 5, 9)) None) [] (mkFw [] [] None) Hf) as (f'&E&O&_).
  { repeat constructor; unfold is_usize; lia. }
  exists m, (token msu), f'. split; [exact E|]. split; [exact O|]. vm_compute. reflexivity.
Defined.

(** ** A panic of a user program ([user/src/lang_items.rs]) *)

Definition STDIN : Z := 0.
Definition STDOUT : Z := 1.

(** [print]: a call of [write] for each piece of text, here its address and length. *)
Definition user_print (pieces : list (Z * Z)) : list ucall := (λ p, u_write STDOUT p.1 p.2) <$> pieces.

(** [getchar]: a call of [read] for the byte at [c], which the caller returns. *)
Definition user_getchar (c : Z) : ucall := u_read STDIN c 1.

(** [SignalFlags] of the user library, the flag of signal [n] at position [n], from
    [SIGDEF] to [SIGSYS]; as an [i32] the last one is negative. *)
Definition user_signal_flags : list Z := ((λ n, Z.shiftl 1 n) <$> seqZ 0 31) ++ [- 2 ^ 31].
Definition USER_SIGABRT : Z := Z.shiftl 1 6.

(** The calls of the handler; [getpid] has answered [pid]. *)
Definition user_panic (pieces : list (Z * Z)) (pid : Z) : list ucall := user_print pieces ++ [u_getpid; u_kill (wrap64 pid) USER_SIGABRT].

(** The handler ends with a call that the kernel does not serve: the panic of a
    program is a panic of the kernel. *)
Lemma user_panic_stops_kernel {S} (handle : Call → K S (option Z)) pieces pid s :
  ∃ u, last (user_panic pieces pid) = Some u ∧ syscall handle u.1 u.2 s = Panic.
Proof. exists (u_kill (wrap64 pid) USER_SIGABRT). unfold user_panic. by rewrite last_app. Qed.

(** The flags of the library are not the kernel's: signal [n] is bit [n] of the one
    and bit [n - 1] of the other. The number that the handler passes to [kill] is
    such a flag, and no signal of the kernel has it. *)
Lemma user_flags_shifted :
  (∀ n f, 1 <= n <= 30 → from_signum n = Some f → f ≠ signals_empty → user_signal_flags !! Z.to_nat n = Some (2 * f)) ∧
  user_signal_flags !! 6%nat = Some USER_SIGABRT ∧ from_signum 6 = Some SIGABRT ∧
  from_signum USER_SIGABRT = Some signals_empty.
Proof.
  split_and!; [|reflexivity..]. intros n f Hn.
  assert (Hall : forallb (λ n, match from_signum n with
    Some f => bool_decide (f = signals_empty ∨ user_signal_flags !! Z.to_nat n = Some (2 * f)) | None => true end) (seqZ 1 30) = true) by (vm_compute; reflexivity).
  rewrite forallb_forall in Hall. intros Ef Hf.
  assert (Hin : In n (seqZ 1 30)) by (apply list_elem_of_In, elem_of_seqZ; lia).
  specialize (Hall n Hin). rewrite Ef in Hall. by destruct (bool_decide_eq_true_1 _ Hall).
Qed.
