(* ===== verification/Preempt.v ===== *)
(** * Time slices ([machine_init] of [os/src/hal/arch/riscv/mod.rs],
      [os/src/hal/arch/riscv/timer.rs])

    The start of the clock interrupt, and that no program escapes it. *)

From S2P Require Import Prelude Address PhysMem IdAlloc FrameAlloc PageTable Sv39 UserMem MemorySet MapAreaSpec.
From S2P Require Import MemorySetSpec MemorySetOps TrapCx UserRes SpaceProps Mmu Asm TrapPath Timer UserRun Fmt Panic.

Section timer.
Context {F : Type} `{!Firmware F}.

(** [trap::init], [enable_timer_interrupt], [set_next_trigger] at time [now] *)
Definition machine_init (y : TrapSymbols) (now : Z) (c : Cpu) : Fw F Cpu :=
  let c := set_kernel_trap_entry y c in
  let c := enable_timer_interrupt c in
  program_timer now ;;
  mret c.

(** When the processor takes a clock interrupt: the firmware's time has come, [sie]
    enables it, and the mode is user or interrupts are on. *)
Definition timer_interrupt (c : Cpu) (now : Z) (f : F) : bool :=
  match fw_timer f with Some t => t <=? now | None => false end && Z.testbit (cs c SIER) STIE && (user c || Z.testbit (cs c SSTATUS) SIE).

Definition SLICE : Z := CLOCK_FREQ / TICKS_PER_SEC.

Lemma program_timer_sets now f : 0 <= now → now + SLICE < 2 ^ 64 →
  ∃ f', program_timer now f = Goes () f' ∧ fw_timer f' = Some (now + SLICE) ∧ fw_out f' = fw_out f.
Proof.
  intros H0 H1. destruct (fw_set_timer (set_next_trigger now) f) as (r&f'&E&T&O&_). exists f'.
  unfold program_timer, sbi_set_timer, sbi_call, mbind, Fw_bind. rewrite E. split; [done|]. split; [|done]. rewrite T.
  unfold set_next_trigger. fold SLICE. change SLICE with 500000 in *. rewrite wadd_small by lia. done.
Qed.

(** C29: Start-up sets the trap entry of the kernel, enables the clock interrupt and
    programs the first one.  Whatever a program does from a return to user mode on,
    the interrupt comes exactly when 40 ms have passed since the clock was last
    programmed, and takes the processor to the handler of the kernel with the
    registers of the program saved. *)
Theorem time_slice y st (c : Cpu) t (f : F) :
  syms_ok y → 0 <= t → t + SLICE < 2 ^ 64 →
  SLICE * 1000 = 40 * CLOCK_FREQ ∧
  (∃ c' f', machine_init y t c f = Goes c' f' ∧ cs c' STVEC = in_trampoline y (a_alltraps_k y) ∧ Z.testbit (cs c' SIER) STIE = true ∧
     fw_timer f' = Some (t + SLICE) ∧ xr c' = xr c ∧ cm c' = cm c) ∧
  ∃ f', program_timer t f = Goes () f' ∧
    ∀ s msu msk tid fr c', user_runs s msu msk tid fr st c → Z.testbit (cs c SIER) STIE = true → is_usize (cs c SSTATUS) → rtc user_step c c' →
      (∀ now, timer_interrupt c' now f' = (t + SLICE <=? now)) ∧
      ∃ c1, resume y st (hw_trap c') = Some c1 ∧ user c1 = false ∧ cs c1 SATP = token msk ∧
        let cx := get_trap_cx (km_mem s) fr in
        pc c1 = trap_handler_addr cx ∧ xr c1 r_sp = kernel_sp cx ∧
        get_trap_cx (cm c1) fr = mkTC (saved_regs c' (general_regs cx)) (trapped true (cs c SSTATUS)) (pc c') (kernel_satp cx) (kernel_sp cx) (trap_handler_addr cx).
Proof.
  intros Hy H0 H1. split; [reflexivity|]. destruct (program_timer_sets t f H0 H1) as (f'&E&T&_). split.
  - eexists _, f'. unfold machine_init, mbind at 1, Fw_bind at 1. rewrite E. split; [reflexivity|]. split; [done|]. split; [|done].
    cbn [cs enable_timer_interrupt set_csr set_kernel_trap_entry]. rewrite decide_True by done. rewrite put_bit_testbit by (unfold STIE; lia). done.
  - exists f'. split; [exact E|]. intros s msu msk tid fr c' Hrun Hen Hst Hsteps.
    destruct (user_steps_keep _ _ _ _ _ _ _ _ Hrun Hsteps) as (Hrun'&Hsame&Hcs).
    pose proof Hrun' as [Hus Hmode Hcm Hregs Hpc]. split.
    + intros now. unfold timer_interrupt. rewrite T, Hcs, Hen, (iu_user _ _ _ _ _ Hmode). by rewrite !andb_true_r.
    + destruct (trap_enters _ msu msk tid fr st c' (ur_tables _ _ _ _ _ _ Hus) Hmode Hcm Hregs) as (c1&E1&(C1&C2&C3&C4&_)&Hcx&_);
        [by rewrite Hcs|done|].
      assert (Hsc : get_trap_cx (km_mem (with_mem (λ _, cm c') s)) fr = get_trap_cx (km_mem s) fr).
      { cbn [km_mem with_mem]. rewrite <- (un_mem _ _ _ _ _ _ _ Hrun). by eapply user_steps_cx. }
      rewrite Hsc in C2, C3, Hcx. exists c1. split; [rewrite resume_alltraps; [exact E1|done|apply Hmode]|].
      split; [done|]. split; [done|]. split; [done|]. split; [done|]. by rewrite Hcx, Hcs.
Qed.
End timer.

(** The example process is interrupted 40 ms after the clock was programmed at time 0. *)
Lemma time_slice_witness :
  ∃ c f', program_timer 0 (mkFw [] [] None) = Goes () f' ∧ user c = true ∧
    timer_interrupt c 499999 f' = false ∧ timer_interrupt c 500000 f' = true ∧ ∃ c1, resume demo_trap_syms demo_st (hw_trap c) = Some c1.
Proof.
  destruct demo_running as (s&msu&f&Hus&Hcx&_). pose proof (demo_cpu_runs s msu f Hus Hcx) as Hrun. set (c := demo_cpu s msu) in *.
  destruct (time_slice demo_trap_syms demo_st c 0 (mkFw [] [] None) demo_trap_syms_ok) as (_&_&f'&E&H); [lia|vm_compute; reflexivity|].
  destruct (H s msu demo.1 0 f c Hrun) as (Hint&c1&E1&_); [reflexivity|unfold is_usize; simpl; lia|apply rtc_refl|].
  exists c, f'. split; [exact E|]. split; [reflexivity|]. split; [rewrite Hint; reflexivity|]. split; [rewrite Hint; reflexivity|]. exists c1. exact E1.
Defined.
