(* ===== verification/Shell.v ===== *)
(** * The shell ([user/src/bin/user_shell.rs])

    A line is edited, cut into commands, and run as a pipeline: the shell makes
    a pipe between neighbours, every child connects its standard streams to the
    pipes, opens its input file, closes the pipes and calls [exec].  Descriptor
    tables are those of [FdTable]; what the shell calls is the kernel's [close],
    [dup], [pipe] and [open], the last two as arguments. *)

From S2P Require Import Prelude FdTable.

(** ** Reading a line *)

Definition LF : Z := 0x0a.
Definition CR : Z := 0x0d.
Definition DL : Z := 0x7f.
Definition BS : Z := 0x08.

(** The line and the characters after it; [None] when no line ends. *)
Fixpoint read_line (line input : list Z) : option (list Z * list Z) :=
  match input with
  | [] => None
  | c :: input' =>
      if (c =? CR) || (c =? LF) then Some (line, input')
      else if (c =? BS) || (c =? DL) then read_line (take (length line - 1) line) input'
      else read_line (line ++ [c]) input'
  end.

(** ** Commands; a [&str] is a list of characters *)

(** [char::is_whitespace] below U+0100 *)
Definition is_whitespace (c : Z) : bool := (9 <=? c) && (c <=? 13) || (c =? 32) || (c =? 0x85) || (c =? 0xA0).

(** The pieces between the characters that satisfy [p]. *)
Fixpoint split_by (p : Z → bool) (s : list Z) : list (list Z) :=
  match s with
  | [] => [[]]
  | c :: s' =>
      if p c then [] :: split_by p s'
      else match split_by p s' with
           | [] => [[c]]
           | w :: ws => (c :: w) :: ws
           end
  end.

Lemma split_by_length p s : (0 < length (split_by p s))%nat.
Proof. induction s as [|c s IH]; simpl; [lia|]. destruct (p c); simpl; [lia|]. destruct (split_by p s); simpl; lia. Qed.

Definition split_whitespace (s : list Z) : list (list Z) := filter (λ w, w ≠ []) (split_by is_whitespace s).

(** *** Editing *)

Definition plain (c : Z) : Prop := c ∉ [CR; LF; BS; DL].

Lemma read_plain line c input : plain c → read_line line (c :: input) = read_line (line ++ [c]) input.
Proof.
  unfold plain. rewrite !not_elem_of_cons. intros (H1&H2&H3&H4&_). simpl.
  by rewrite !(proj2 (Z.eqb_neq c _)) by done.
Qed.

(** Characters that are typed make the line; a character that is erased was not typed. *)
Lemma read_line_typed s : ∀ line rest, Forall plain s → read_line line (s ++ LF :: rest) = Some (line ++ s, rest).
Proof.
  induction s as [|c s IH]; intros line rest Hs; [by rewrite app_nil_r|]. apply Forall_cons in Hs as [Hc Hs].
  cbn [app]. rewrite read_plain, IH by done. by rewrite <- app_assoc.
Qed.

Lemma read_line_erased line c e input :
  plain c → e ∈ [BS; DL] → read_line line (c :: e :: input) = read_line line input.
Proof.
  intros Hc He. rewrite read_plain by done. rewrite !elem_of_cons, elem_of_nil in He.
  destruct He as [->|[->|[]]]; simpl; rewrite length_app, Nat.add_sub, take_app_length; done.
Qed.

Record Command := mkCommand { args_copy : list (list Z); cmd_input : list Z; cmd_output : list Z }.

(** [args.iter().position(|arg| arg == ..)] *)
Definition position (x : list Z) (l : list (list Z)) : option nat := option_map fst (list_find (λ y, y = x) l).

Definition Command_new (cmd_str : list Z) : Command :=
  let args := (λ arg, arg ++ [0]) <$> split_whitespace cmd_str in
  match position [60; 0] args with
  | Some i =>
      match args !! (i + 1)%nat with
      | Some input => mkCommand (take i args ++ drop (i + 2) args) input []
      | None => mkCommand args [] []
      end
  | None => mkCommand args [] []
  end.

Definition PIPE : Z := 124.
Definition parse_line (line : list Z) : list Command := Command_new <$> split_by (λ c, c =? PIPE) line.

(** ** Redirection *)

Section tables.
Context {F : Type}.
Notation Table := (list (option F)).

Definition redirect (l : Table) (old_fd new_fd : Z) : Table :=
  let l := (sys_close l new_fd).2 in
  let l := (sys_dup l old_fd).2 in
  (sys_close l old_fd).2.

Definition close_pipes (l : Table) (pipes : list (Z * Z)) : Table :=
  foldl (λ l p, (sys_close (sys_close l p.1).2 p.2).2) l pipes.

Lemma close_opened (l : Table) (fd m : nat) :
  opened (sys_close l fd).2 m = if decide (m = fd) then None else opened l m.
Proof.
  destruct (opened l fd) as [f|] eqn:E.
  - destruct (sys_close_ok l fd f) as (l'&->&H); [lia|by rewrite Nat2Z.id|]. rewrite Nat2Z.id in H. apply H.
  - destruct (fd_errors l fd 0) as (_&_&->); [lia|by rewrite Nat2Z.id|]. simpl. case_decide; [by subst|done].
Qed.

Lemma close_length (l : Table) fd : length (sys_close l fd).2 = length l.
Proof. unfold sys_close. case_match; [done|]. case_match; [|done]. apply length_insert. Qed.

Lemma dup_length (l : Table) fd : (length (sys_dup l fd).2 <= S (length l))%nat.
Proof.
  unfold sys_dup. case_match; [simpl; lia|]. case_match; [|simpl; lia]. cbn [snd]. case_bool_decide.
  - rewrite length_app. simpl. lia.
  - rewrite length_insert. lia.
Qed.

Lemma redirect_length (l : Table) a b : (length (redirect l a b) <= S (length l))%nat.
Proof. unfold redirect. rewrite close_length. etrans; [apply dup_length|]. by rewrite close_length. Qed.

Lemma least_free_unique (l : Table) n n' : least_free l n → least_free l n' → n = n'.
Proof.
  intros [Hn Hlt] [Hn' Hlt']. destruct (Nat.lt_trichotomy n n') as [H|[H|H]]; [|done|].
  - by destruct (Hlt' n H).
  - by destruct (Hlt n' H).
Qed.

(** Below [new] everything is open. *)
Lemma redirect_opened (l : Table) (old new : nat) f m :
  opened l old = Some f → (new < old)%nat → (∀ k, (k < new)%nat → opened l k ≠ None) →
  opened (redirect l old new) m = if decide (m = new) then Some f else if decide (m = old) then None else opened l m.
Proof.
  intros Hf Hlt Hlow. unfold redirect. set (l1 := (sys_close l new).2).
  assert (H1 : ∀ k, opened l1 k = if decide (k = new) then None else opened l k) by (intros; apply close_opened).
  destruct (sys_dup_ok l1 old f) as (n&l2&->&Hn&H2); [lia|rewrite Nat2Z.id, H1; by rewrite decide_False by lia|].
  assert (n = new) as ->.
  { apply (least_free_unique l1); [done|]. split; [by rewrite H1, decide_True|]. intros k Hk.
    rewrite H1, decide_False by lia. by apply Hlow. }
  cbn [snd]. rewrite close_opened, H2, H1. repeat case_decide; subst; done || lia.
Qed.

Lemma install_length (l : Table) f fd l' : install l f = Done (fd, l') → (length l' <= S (length l))%nat.
Proof.
  unfold install, alloc_fd. destruct (position_none l) as [n|]; unfold set_fd; (case_match; [|done]).
  all: cbn [mbind outcome_bind]; intros E; injection E as _ <-; rewrite length_insert, ?length_app; simpl; lia.
Qed.

Definition fds_of (ps : list (nat * nat)) : list nat := ps ≫= λ p, [p.1; p.2].
Definition words_of (ps : list (nat * nat)) : list (Z * Z) := (λ p, (Z.of_nat p.1, Z.of_nat p.2)) <$> ps.

Lemma fds_of_lookup (ps : list (nat * nat)) k p : ps !! k = Some p → p.1 ∈ fds_of ps ∧ p.2 ∈ fds_of ps.
Proof. intros Hp%list_elem_of_lookup_2. split; apply list_elem_of_bind; exists p; rewrite !elem_of_cons; tauto. Qed.

Lemma close_pipes_opened ps : ∀ (l : Table) m,
  opened (close_pipes l (words_of ps)) m = if decide (m ∈ fds_of ps) then None else opened l m.
Proof.
  induction ps as [|[r w] ps IH]; intros l m; [done|]. change (fds_of ((r, w) :: ps)) with (r :: w :: fds_of ps).
  change (close_pipes l (words_of ((r, w) :: ps))) with (close_pipes (sys_close (sys_close l r).2 w).2 (words_of ps)).
  rewrite IH, !close_opened. repeat case_decide; subst; try done; exfalso; set_solver.
Qed.
End tables.

(** ** Running a line *)

Section shell.
Context {F : Type}.
Notation Table := (list (option F)).

(** [open path flags]: the descriptor or -1, and the new table. *)
Context (open : list Z → Z → Table → Z * Table).
(** [pipe]: what the two words of the array hold, and the new table. *)
Context (pipe : Table → outcome ((Z * Z) * Table)).

Definition open_onto (l : Table) (name : list Z) (flags new_fd : Z) : Table :=
  match name with
  | [] => l
  | _ :: _ =>
      let path := take (length name - 1) name in
      let '(fd, l) := open path flags l in
      if negb (fd =? -1) then redirect l (wrap64 fd) new_fd else l
  end.

(** [RDONLY] is 0, [CREATE | WRONLY] is 65. *)
Definition handle_file_redirection (l : Table) (input output : list Z) : Table :=
  open_onto (open_onto l input 0 0) output 65 1.

(** The table with which command [i] of [num] runs. *)
Definition child_table (l : Table) (pipes : list (Z * Z)) (i num : nat) (cmd : Command) : outcome Table :=
  l ← (if (0 <? i)%nat then p ← unwrap (pipes !! (i - 1)%nat); Done (redirect l p.1 0) else Done l);
  l ← (if (i <? num - 1)%nat then p ← unwrap (pipes !! i); Done (redirect l p.2 1) else Done l);
  let l := handle_file_redirection l (cmd_input cmd) (cmd_output cmd) in
  Done (close_pipes l pipes).

(** The child up to [exec]: its table, the program and the arguments. *)
Definition shell_child (l : Table) (pipes : list (Z * Z)) (i num : nat) (cmd : Command)
    : outcome (Table * list Z * list (list Z)) :=
  l ← child_table l pipes i num cmd;
  path ← unwrap (args_copy cmd !! 0%nat);
  Done (l, path, args_copy cmd).

Fixpoint make_pipes (n : nat) (l : Table) : outcome (list (Z * Z) * Table) :=
  match n with
  | O => Done ([], l)
  | S n' =>
      '(fd, l) ← pipe l;
      '(fds, l) ← make_pipes n' l;
      Done (fd :: fds, l)
  end.

(** A turn of the main loop after the line was read: the children, each with a
    copy of the table, and the table of the shell when it begins to wait. *)
Definition shell_line (l : Table) (line : list Z)
    : outcome (list (outcome (Table * list Z * list (list Z))) * Table) :=
  match line with
  | [] => Done ([], l)
  | _ :: _ =>
      let commands := parse_line line in
      let num := length commands in
      '(pipes, l) ← make_pipes (num - 1) l;
      let children := imap (λ i cmd, shell_child (copy_fd_table l) pipes i num cmd) commands in
      Done (children, close_pipes l pipes)
  end.


(** ** What the calls promise *)

(** [is_pipe a b]: the files are the two ends of one pipe. *)
Context (is_pipe : F → F → Prop) (file_of : list Z → option F).

Hypothesis pipe_law : ∀ l, ∃ a b r l1 w l2, is_pipe a b ∧
  install l a = Done (r, l1) ∧ install l1 b = Done (w, l2) ∧ pipe l = Done ((r, w), l2).
Hypothesis open_law : ∀ path l,
  match file_of path with
  | Some f => ∃ fd l', install l f = Done (fd, l') ∧ open path 0 l = (fd, l')
  | None => open path 0 l = (-1, l)
  end.

Definition streams_open (l : Table) : Prop := opened l 0 ≠ None ∧ opened l 1 ≠ None.

Lemma free_above_streams (l : Table) n : streams_open l → least_free l n → (2 <= n)%nat.
Proof. intros [H0 H1] [Hn _]. destruct n as [|[|n]]; [done|done|lia]. Qed.

(** The pipes of a line: [ps] are the descriptors, [ends] the files behind them. *)
Record piped (l : Table) (ps : list (nat * nat)) (ends : list (F * F)) (l' : Table) : Prop := {
  pd_len : length ends = length ps;
  pd_pipes : Forall (λ e, is_pipe e.1 e.2) ends;
  pd_nodup : NoDup (fds_of ps);
  pd_new n : n ∈ fds_of ps → (2 <= n)%nat ∧ opened l n = None;
  pd_ends k p : ps !! k = Some p → ∃ e, ends !! k = Some e ∧ opened l' p.1 = Some e.1 ∧ opened l' p.2 = Some e.2;
  pd_old n : n ∉ fds_of ps → opened l' n = opened l n;
  pd_length : (length l' <= length l + 2 * length ps)%nat;
}.

Lemma make_pipes_ok n : ∀ l, streams_open l →
  ∃ ps ends l', make_pipes n l = Done (words_of ps, l') ∧ length ps = n ∧ piped l ps ends l'.
Proof using pipe_law.
  induction n as [|n IH]; intros l Hl.
  { exists [], [], l. split; [done|]. split; [done|]. split; try done; [apply NoDup_nil_2|intros ? []%elem_of_nil|simpl; lia]. }
  destruct (pipe_law l) as (a&b&r'&l1&w'&l2&Hab&I1&I2&Hp).
  destruct (install_ok l a) as (r&?&E1&Hr&O1). rewrite I1 in E1. injection E1 as -> <-.
  destruct (install_ok l1 b) as (w&?&E2&Hw&O2). rewrite I2 in E2. injection E2 as -> <-.
  pose proof (free_above_streams _ _ Hl Hr) as Hr2.
  assert (Hl1 : streams_open l1) by (split; rewrite O1; rewrite decide_False by lia; apply Hl).
  pose proof (free_above_streams _ _ Hl1 Hw) as Hw2. destruct Hr as [Hr _], Hw as [Hw _].
  assert (Hwr : w ≠ r) by (intros ->; rewrite O1, decide_True in Hw; done).
  assert (Hl2 : streams_open l2) by (split; rewrite O2, decide_False by lia; apply Hl1).
  destruct (IH l2 Hl2) as (ps&ends&l'&E&Hlen&[P1 P2 P3 P4 P5 P6 P7]).
  assert (H2 : ∀ m, opened l2 m = if decide (m = w) then Some b else if decide (m = r) then Some a else opened l m).
  { intros m. rewrite O2. case_decide; [done|]. apply O1. }
  assert (Hrn : r ∉ fds_of ps) by (intros [_ H]%P4; by rewrite H2, decide_False, decide_True in H).
  assert (Hwn : w ∉ fds_of ps) by (intros [_ H]%P4; by rewrite H2, decide_True in H).
  pose proof (install_length _ _ _ _ I1). pose proof (install_length _ _ _ _ I2).
  exists ((r, w) :: ps), ((a, b) :: ends), l'. split; [cbn [make_pipes]; rewrite Hp; cbn; by rewrite E|].
  split; [simpl; lia|]. split; change (fds_of ((r, w) :: ps)) with (r :: w :: fds_of ps).
  - simpl. lia.
  - by constructor.
  - repeat constructor; [|done|done]. by apply not_elem_of_cons.
  - intros n'. rewrite !elem_of_cons. intros [->|[->|Hn']]; [done| |].
    + split; [done|]. rewrite O1, decide_False in Hw; done.
    + destruct (P4 n' Hn') as [? Hn]. split; [done|]. rewrite H2 in Hn. repeat case_decide; done.
  - intros [|k] p Hk; simpl in Hk; [|by apply P5]. injection Hk as <-. exists (a, b). split; [done|]. simpl.
    rewrite !P6, !H2, (decide_True (P := w = w)), (decide_False (P := r = w)), decide_True by done. done.
  - intros n'. rewrite !not_elem_of_cons. intros (Hnr&Hnw&Hn'). by rewrite P6, H2, !decide_False.
  - simpl. lia.
Qed.

(** ** A child *)

Lemma fds_apart (ps : list (nat * nat)) j k p q :
  NoDup (fds_of ps) → ps !! j = Some p → ps !! k = Some q → p.2 = q.1 → False.
Proof.
  intros Hn. revert j k Hn. induction ps as [|[r w] ps IH]; intros j k Hn Hj Hk E; [done|].
  change (fds_of ((r, w) :: ps)) with (r :: w :: fds_of ps) in Hn. rewrite !NoDup_cons, not_elem_of_cons in Hn.
  destruct Hn as ((Hrw&Hr)&Hw&Hn).
  destruct j as [|j], k as [|k]; simpl in *.
  - injection Hj as <-. injection Hk as <-. simpl in E. congruence.
  - injection Hj as <-. simpl in E. subst w. by apply Hw, (fds_of_lookup ps k).
  - injection Hk as <-. simpl in E. rewrite <- E in Hr. by apply Hr, (fds_of_lookup ps j).
  - eauto.
Qed.

Definition child_stdin (l : Table) (ends : list (F * F)) (i : nat) (input : list Z) : option F :=
  let piped := match i with O => opened l 0 | S k => fst <$> ends !! k end in
  match input with
  | [] => piped
  | _ :: _ => match file_of (take (length input - 1) input) with Some f => Some f | None => piped end
  end.

Definition child_stdout (l : Table) (ends : list (F * F)) (i num : nat) : option F :=
  if (i <? num - 1)%nat then snd <$> ends !! i else opened l 1.

(** [t] has the streams [x] and [y]; descriptors outside [D] are those of [l]. *)
Definition linked (l : Table) (D : list nat) (x y : option F) (t : Table) : Prop :=
  x ≠ None ∧ y ≠ None ∧ opened t 0 = x ∧ opened t 1 = y ∧ ∀ m, (2 <= m)%nat → m ∉ D → opened t m = opened l m.

Lemma linked_stdin l D x y t (fd : nat) f :
  linked l D x y t → opened t fd = Some f → (2 <= fd)%nat → (fd ∈ D ∨ opened l fd = None) →
  linked l D (Some f) y (redirect t fd 0) ∧ ∀ m, (2 <= m)%nat → m ≠ fd → opened (redirect t fd 0) m = opened t m.
Proof.
  intros (_&Hy&_&H1&Hm) Hf Hfd HD.
  assert (E : ∀ m, opened (redirect t fd 0) m = if decide (m = 0%nat) then Some f else if decide (m = fd) then None else opened t m).
  { intros m. apply (redirect_opened t fd 0 f m); [done|lia|lia]. }
  split; [split; [done|]; split; [done|]; split; [by rewrite E|]; split; [by rewrite E, !decide_False by lia|]|].
  - intros m H2 Hn. rewrite E, decide_False by lia. case_decide; [subst; destruct HD as [?|?]; done|auto].
  - intros m H2 Hn. by rewrite E, !decide_False by lia.
Qed.

Lemma linked_stdout l D x y t (fd : nat) f :
  linked l D x y t → opened t fd = Some f → (2 <= fd)%nat → fd ∈ D → linked l D x (Some f) (redirect t fd 1).
Proof.
  intros (Hx&_&H0&_&Hm) Hf Hfd HD.
  assert (E : ∀ m, opened (redirect t fd 1) m = if decide (m = 1%nat) then Some f else if decide (m = fd) then None else opened t m).
  { intros m. apply (redirect_opened t fd 1 f m); [done|lia|]. intros k Hk. replace k with 0%nat by lia. congruence. }
  split; [done|]; split; [done|]; split; [by rewrite E, !decide_False by lia|]; split; [by rewrite E|].
  intros m H2 Hn. rewrite E, decide_False by lia. case_decide; [by subst|auto].
Qed.

Lemma open_onto_stdin l D x y t input :
  linked l D x y t → length t < 2 ^ 64 → (∀ m, m ∈ D → opened l m = None) →
  linked l D (match input with [] => x | _ => match file_of (take (length input - 1) input) with Some f => Some f | None => x end end) y
    (open_onto t input 0 0).
Proof using open_law.
  intros HL Hlen HD. unfold open_onto. destruct input as [|c input]; [done|]. set (path := take _ _).
  pose proof (open_law path t) as Ho. destruct (file_of path) as [f|]; [|by rewrite Ho].
  destruct Ho as (fd&t'&Hi&->). destruct (install_ok t f) as (n&?&E&Hn&O). rewrite Hi in E. injection E as -> <-.
  pose proof HL as (Hx&Hy&H0&H1&Hm). assert (Hst : streams_open t) by (split; congruence).
  pose proof (free_above_streams _ _ Hst Hn) as Hn2. destruct Hn as [Hn Hlow].
  assert (Hnl : (n <= length t)%nat).
  { destruct (decide (n <= length t)%nat) as [|Hgt]; [done|]. exfalso. apply (Hlow (length t)); [lia|]. unfold opened. by rewrite lookup_ge_None_2. }
  assert (Hw : wrap64 n = Z.of_nat n) by (apply Z.mod_small; lia).
  rewrite (proj2 (Z.eqb_neq n (-1))) by lia. cbn [negb]. rewrite Hw.
  assert (HL' : linked l (n :: D) x y t').
  { split; [done|]; split; [done|]; split; [by rewrite O, decide_False by lia|]; split; [by rewrite O, decide_False by lia|].
    intros m H2 [Hne HmD]%not_elem_of_cons. rewrite O, decide_False by done. auto. }
  destruct (linked_stdin l (n :: D) x y t' n f HL') as [(A1&A2&A3&A4&A5) _]; [by rewrite O, decide_True|done|left; left|].
  split; [done|]; split; [done|]; split; [done|]; split; [done|]. intros m H2 HmD.
  destruct (decide (m = n)) as [->|Hmn]; [|apply A5; [done|by apply not_elem_of_cons]].
  etrans; [apply (redirect_opened t' n 0 f n); [by rewrite O, decide_True|lia|lia]|].
  rewrite decide_False, decide_True, <- (Hm n) by (done || lia). done.
Qed.

Lemma child_table_ok l ps ends l' (i num : nat) cmd :
  piped l ps ends l' → streams_open l → (i < num)%nat → num = S (length ps) → cmd_output cmd = [] →
  length l + 2 * num + 2 < 2 ^ 64 →
  ∃ lc, child_table l' (words_of ps) i num cmd = Done lc ∧
    opened lc 0 = child_stdin l ends i (cmd_input cmd) ∧ opened lc 1 = child_stdout l ends i num ∧
    ∀ m, (2 <= m)%nat → opened lc m = opened l m.
Proof using open_law.
  intros [P1 P2 P3 P4 P5 P6 P7] [H0 H1] Hi Hnum Hout Hlen.
  assert (HD : ∀ m, m ∈ fds_of ps → opened l m = None) by (intros m Hm; by apply P4).
  assert (HL0 : linked l (fds_of ps) (opened l 0) (opened l 1) l').
  { assert (Hno : ∀ m, (m < 2)%nat → m ∉ fds_of ps) by (intros m ? [? _]%P4; lia).
    split; [done|]; split; [done|]; split; [apply P6, Hno; lia|]; split; [apply P6, Hno; lia|]. intros m _. apply P6. }
  (* the pipe before *)
  assert (S1 : ∃ t, (if (0 <? i)%nat then p ← unwrap (words_of ps !! (i - 1)%nat); Done (redirect l' p.1 0) else Done l') = Done t ∧
    linked l (fds_of ps) (match i with O => opened l 0 | S k => fst <$> ends !! k end) (opened l 1) t ∧ (length t <= S (length l'))%nat ∧
    ∀ p e, ps !! i = Some p → ends !! i = Some e → opened t p.2 = Some e.2).
  { assert (Hw : ∀ p e, ps !! i = Some p → ends !! i = Some e → opened l' p.2 = Some e.2).
    { intros p e Hp He. destruct (P5 i p Hp) as (e'&He'&_&?). congruence. }
    destruct i as [|k]; [exists l'; split; [done|]; split; [done|]; split; [lia|done]|].
    destruct (lookup_lt_is_Some_2 ps k) as [q Hq]; [lia|]. destruct (P5 k q Hq) as (e&He&Hr&_). destruct (fds_of_lookup ps k q Hq) as [Hq1 _].
    destruct (linked_stdin _ _ _ _ _ q.1 e.1 HL0) as [HL Hk]; [done|by apply P4|by left|].
    exists (redirect l' q.1 0). split; [|split; [by rewrite He|split; [apply redirect_length|]]].
    - simpl. rewrite Nat.sub_0_r. unfold words_of. by rewrite list_lookup_fmap, Hq.
    - intros p e' Hp He'. rewrite Hk; [by apply Hw|by apply P4, (fds_of_lookup ps (S k))|]. intros Hpq. by eapply (fds_apart ps (S k) k). }
  destruct S1 as (t1&E1&HL1&Hl1&Hw). set (x := match i with O => opened l 0 | S k => fst <$> ends !! k end) in *.
  (* the pipe after *)
  assert (S2 : ∃ t, (if (i <? num - 1)%nat then p ← unwrap (words_of ps !! i); Done (redirect t1 p.2 1) else Done t1) = Done t ∧
    linked l (fds_of ps) x (child_stdout l ends i num) t ∧ (length t <= S (length t1))%nat).
  { unfold child_stdout. destruct (Nat.ltb_spec i (num - 1)) as [Hlt|Hge]; [|exists t1; split; [done|]; split; [done|lia]].
    destruct (lookup_lt_is_Some_2 ps i) as [q Hq]; [lia|]. destruct (P5 i q Hq) as (e&He&_). destruct (fds_of_lookup ps i q Hq) as [_ Hq2].
    exists (redirect t1 q.2 1). split; [unfold words_of; by rewrite list_lookup_fmap, Hq|]. split; [|apply redirect_length].
    rewrite He. apply (linked_stdout l (fds_of ps) x (opened l 1)); [done|by apply Hw|by apply P4|done]. }
  destruct S2 as (t2&E2&HL2&Hl2).
  pose proof (open_onto_stdin l (fds_of ps) x _ t2 (cmd_input cmd) HL2 ltac:(lia) HD) as (_&_&A0&A1&A2).
  eexists. split.
  { unfold child_table. rewrite E1. cbn [mbind outcome_bind]. rewrite E2. cbn [mbind outcome_bind]. reflexivity. }
  unfold handle_file_redirection. rewrite Hout. cbn [open_onto]. rewrite !close_pipes_opened.
  rewrite !decide_False by (intros [? _]%P4; lia). split; [exact A0|]. split; [exact A1|]. intros m Hm.
  rewrite close_pipes_opened. case_decide as Hin; [by rewrite HD|by apply A2].
Qed.

Lemma Command_new_output str : cmd_output (Command_new str) = [].
Proof. unfold Command_new. by repeat case_match. Qed.

End shell.

(** ** Parsing *)

(** The words with [sep] between them. *)
Fixpoint join_with (sep : Z) (ws : list (list Z)) : list Z :=
  match ws with
  | [] => []
  | [w] => w
  | w :: ws' => w ++ sep :: join_with sep ws'
  end.

Lemma split_by_app (p : Z → bool) w sep s :
  Forall (λ c, p c = false) w → p sep = true → split_by p (w ++ sep :: s) = w :: split_by p s.
Proof. intros Hw Hs. induction Hw as [|c w Hc _ IH]; simpl; [by rewrite Hs|]. by rewrite Hc, IH. Qed.

Lemma split_by_word (p : Z → bool) w : Forall (λ c, p c = false) w → split_by p w = [w].
Proof. induction 1 as [|c w Hc _ IH]; simpl; [done|]. by rewrite Hc, IH. Qed.

Lemma split_by_join (p : Z → bool) sep ws :
  p sep = true → Forall (Forall (λ c, p c = false)) ws → ws ≠ [] → split_by p (join_with sep ws) = ws.
Proof.
  intros Hs. induction 1 as [|w ws Hw Hws IH]; intros Hne; [done|]. destruct ws as [|w' ws]; [by apply split_by_word|].
  change (join_with sep (w :: w' :: ws)) with (w ++ sep :: join_with sep (w' :: ws)). by rewrite split_by_app, IH.
Qed.

Definition is_word (w : list Z) : Prop := w ≠ [] ∧ Forall (λ c, is_whitespace c = false) w.

Lemma split_whitespace_join ws : Forall is_word ws → split_whitespace (join_with 32 ws) = ws.
Proof.
  intros Hws. unfold split_whitespace. destruct (decide (ws = [])) as [->|Hne]; [done|].
  rewrite split_by_join; [|done|eapply Forall_impl; [done|by intros w []]|done].
  clear Hne. induction Hws as [|w ws [Hw _] _ IH]; [done|]. by rewrite filter_cons_True, IH.
Qed.

Lemma position_app x a b : x ∉ a → position x (a ++ x :: b) = Some (length a).
Proof.
  intros Hx. unfold position. rewrite list_find_app_r.
  - simpl. rewrite decide_True by done. done.
  - apply list_find_None, Forall_forall. intros y Hy ->. done.
Qed.

Lemma position_not_in x l : x ∉ l → position x l = None.
Proof. intros Hx. unfold position. rewrite (proj2 (list_find_None _ l)); [done|]. apply Forall_forall. by intros y Hy ->. Qed.

Lemma no_bar ws :
  Forall (λ w, is_word w ∧ PIPE ∉ w) ws → Forall (λ c, (c =? PIPE) = false) (join_with 32 ws).
Proof.
  assert (Hb : ∀ w : list Z, PIPE ∉ w → Forall (λ c, (c =? PIPE) = false) w).
  { intros w Hw. apply Forall_forall. intros c Hc. apply Z.eqb_neq. by intros ->. }
  induction 1 as [|w ws [_ Hw] _ IH]; [done|]. destruct ws as [|w' ws]; [by apply Hb|].
  change (join_with 32 (w :: w' :: ws)) with (w ++ 32 :: join_with 32 (w' :: ws)).
  apply Forall_app. split; [by apply Hb|]. by constructor.
Qed.

(** A line that is made of commands with bars between them, each made of
    words with blanks between them, is cut into these words; the first [<] of a
    command that is followed by a word names its input. *)
Theorem shell_parse_correct (wss : list (list (list Z))) :
  wss ≠ [] → Forall (Forall (λ w, is_word w ∧ PIPE ∉ w)) wss →
  let nul := fmap (λ w : list Z, w ++ [0]) in
  let cmds := parse_line (join_with PIPE (join_with 32 <$> wss)) in
  length cmds = length wss ∧
    ∀ i ws, wss !! i = Some ws →
      ([60] ∉ ws → cmds !! i = Some (mkCommand (nul ws) [] [])) ∧
      (∀ a f b, ws = a ++ [60] :: f :: b → [60] ∉ a → cmds !! i = Some (mkCommand (nul (a ++ b)) (f ++ [0]) [])).
Proof.
  intros Hne Hws nul. cbn zeta. unfold parse_line. rewrite split_by_join.
  2: done.
  2: { apply Forall_fmap. eapply Forall_impl; [exact Hws|]. intros ws Hw. by apply no_bar. }
  2: by destruct wss.
  rewrite <- list_fmap_compose. split; [by rewrite length_fmap|]. intros i ws Hi.
  assert (Hw : Forall is_word ws).
  { rewrite Forall_forall in Hws. eapply Forall_impl; [apply Hws; by eapply list_elem_of_lookup_2|by intros w []]. }
  rewrite list_lookup_fmap, Hi. cbn [fmap option_fmap option_map]. unfold compose, Command_new.
  rewrite split_whitespace_join by done. split.
  - intros Hno. rewrite position_not_in; [done|]. intros (w&E&Hin)%list_elem_of_fmap.
    apply (app_inj_2 [60] w [0] [0]) in E as [<- _]; done.
  - intros a f b -> Ha. rewrite fmap_app, !fmap_cons, position_app.
    2: { intros (w&E&Hin)%list_elem_of_fmap. apply (app_inj_2 [60] w [0] [0]) in E as [<- _]; done. }
    rewrite length_fmap. assert (Hn : length ((λ w : list Z, w ++ [0]) <$> a) = length a) by apply length_fmap.
    rewrite lookup_app_r by lia. replace (length a + 1 - _)%nat with 1%nat by lia. simpl.
    rewrite take_app_length' by done. rewrite drop_app_ge by lia. replace (length a + 2 - _)%nat with 2%nat by lia.
    unfold nul. by rewrite fmap_app.
Qed.

(** ** Instances *)

Lemma shell_parse_correct_witness :
  parse_line [99; 97; 116; 32; 60; 32; 102; 124; 119; 99] =
    [mkCommand [[99; 97; 116; 0]] [102; 0] []; mkCommand [[119; 99; 0]] [] []].
Proof.
  assert (Hw : Forall (Forall (λ w, is_word w ∧ PIPE ∉ w)) [[[99; 97; 116]; [60]; [102]]; [[119; 99]]]).
  { repeat constructor; try congruence; unfold PIPE; rewrite ?not_elem_of_cons; repeat split; try lia; apply not_elem_of_nil. }
  destruct (shell_parse_correct [[[99; 97; 116]; [60]; [102]]; [[119; 99]]] ltac:(congruence) Hw) as [Hl H].
  destruct (H 0%nat _ eq_refl) as [_ H0]. destruct (H 1%nat _ eq_refl) as [H1 _].
  specialize (H0 [[99; 97; 116]] [102] [] eq_refl ltac:(rewrite not_elem_of_cons; split; [congruence|apply not_elem_of_nil])).
  specialize (H1 ltac:(rewrite not_elem_of_cons; split; [congruence|apply not_elem_of_nil])).
  change (join_with PIPE _) with [99; 97; 116; 32; 60; 32; 102; 124; 119; 99] in *.
  destruct (parse_line _) as [|c0 [|c1 [|]]]; try discriminate Hl. simpl in H0, H1. congruence.
Defined.

(** Files are numbers; every path opens file 7, the ends of a pipe are 100 and 101. *)
Definition demo_open (path : list Z) (flags : Z) (l : list (option nat)) : Z * list (option nat) :=
  match install l 7%nat with Done (fd, l') => (fd, l') | Panic => (-1, l) end.
Definition demo_pipe (words : Z → Z → Z * Z) (l : list (option nat)) : outcome ((Z * Z) * list (option nat)) :=
  '(r, l1) ← install l 100%nat;
  '(w, l2) ← install l1 101%nat;
  Done (words r w, l2).

Definition demo_table : list (option nat) := [Some 0%nat; Some 1%nat; Some 2%nat].

(** [cat < f|wc] *)
Definition demo_line : list Z := [99; 97; 116; 32; 60; 32; 102; 124; 119; 99].


(** ** What the kernel does

    [sys_pipe2] stores two 32-bit descriptors; the array of the user holds two
    64-bit words. *)

Definition pipe_words (read_fd write_fd : Z) : Z * Z :=
  let bytes := Z_to_little_endian 4 8 read_fd ++ Z_to_little_endian 4 8 write_fd ++ replicate 8 0 in
  (little_endian_to_Z 8 (take 8 bytes), little_endian_to_Z 8 (drop 8 bytes)).

(** The second command of a pipeline then runs without a standard input, and
    the shell keeps the pipe open. *)
Lemma kernel_pipe_breaks_pipeline :
  pipe_words 3 4 = (0x400000003, 0) ∧
  ∃ children l' lc, shell_line demo_open (demo_pipe pipe_words) demo_table demo_line = Done (children, l') ∧
    opened l' 3 = Some 100%nat ∧ children !! 1%nat = Some (Done (lc, [119; 99; 0], [[119; 99; 0]])) ∧
    opened lc 0 = None ∧ opened lc 3 = Some 100%nat.
Proof. split; [done|]. do 3 eexists. split; [vm_compute; reflexivity|]. done. Qed.
