(* ===== verification/IntrCell.v ===== *)
(** * Cells with interrupts masked
    ([os/src/hal/arch/riscv/sync.rs], [os/src/sync/up.rs])

    [UPIntrFreeCell] masks interrupts while its content is borrowed.  The code is
    modelled statement by statement, because an interrupt can arrive between
    any two statements while interrupts are enabled; the handler of the interrupt
    uses the same cells and may not find one borrowed. *)

From S2P Require Import Prelude.

(** ** Without interrupts *)

Record IntrMaskingInfo := mkIM { nested_level : Z; sie_before_masking : bool }.

Definition intr_new : IntrMaskingInfo := mkIM 0 false.

(** [sie] is the bit of [sstatus]. *)
Definition enter (sie : bool) (i : IntrMaskingInfo) : bool * IntrMaskingInfo :=
  (false, mkIM (nested_level i +w 1) (if nested_level i =? 0 then sie else sie_before_masking i)).

Definition exit (sie : bool) (i : IntrMaskingInfo) : bool * IntrMaskingInfo :=
  let n := nested_level i -w 1 in
  (if (n =? 0) && sie_before_masking i then true else sie, mkIM n (sie_before_masking i)).

(** ** Statements *)

Inductive Stmt :=
| SReadSie                 (** [let sie = sstatus::read().sie()] *)
| SClearSie                (** [sstatus::clear_sie()] *)
| SSave                    (** [if nested_level == 0 { sie_before_masking = sie }] *)
| SInc                     (** [nested_level += 1] *)
| SBorrow (c : nat)        (** [inner.borrow_mut()] *)
| SRelease (c : nat)       (** [self.0 = None] *)
| SDec                     (** [nested_level -= 1] *)
| SRestore.                (** [if nested_level == 0 && sie_before_masking { set_sie() }] *)

Definition enter_code : list Stmt := [SReadSie; SClearSie; SSave; SInc].
Definition leave_code : list Stmt := [SDec; SRestore].

(** What kernel code does with cells: take a guard, drop a guard. *)
Inductive Act := Access (c : nat) | Release (c : nat).

Definition exclusive_access (c : nat) : list Stmt := enter_code ++ [SBorrow c].
Definition drop_guard (c : nat) : list Stmt := SRelease c :: leave_code.
Definition act_code (a : Act) : list Stmt :=
  match a with Access c => exclusive_access c | Release c => drop_guard c end.

(** [exclusive_session(f)], where [f] itself does [body]. *)
Definition exclusive_session (c : nat) (body : list Act) : list Act := Access c :: body ++ [Release c].

(** A flow of control: the rest of the current operation, what follows it, the
    local variable [sie], the guards it holds, and the state of interrupts in
    which it began. *)
Record Flow := mkFlow { fl_code : list Stmt; fl_todo : list Act; fl_sie : bool; fl_held : list nat; fl_base : bool }.

(** The flows are the interrupted code below its interrupt handlers. *)
Record Hart := mkHart { h_sie : bool; h_info : IntrMaskingInfo; h_borrowed : list nat; h_flows : list Flow }.

(** One statement of the running flow; [Panic] is the panic of [borrow_mut]. *)
Definition stmt_step (sie : bool) (i : IntrMaskingInfo) (b : list nat) (st : Stmt) (f : Flow)
    : outcome (bool * IntrMaskingInfo * list nat * Flow) :=
  let '(mkFlow code todo loc held base) := f in
  match st with
  | SReadSie => Done (sie, i, b, mkFlow code todo sie held base)
  | SClearSie => Done (false, i, b, f)
  | SSave => Done (sie, (if nested_level i =? 0 then mkIM (nested_level i) loc else i), b, f)
  | SInc => Done (sie, mkIM (nested_level i +w 1) (sie_before_masking i), b, f)
  | SBorrow c => if bool_decide (c ∈ b) then Panic else Done (sie, i, c :: b, mkFlow code todo loc (c :: held) base)
  | SRelease c => Done (sie, i, list_difference b [c], mkFlow code todo loc (list_difference held [c]) base)
  | SDec => Done (sie, mkIM (nested_level i -w 1) (sie_before_masking i), b, f)
  | SRestore => Done (if (nested_level i =? 0) && sie_before_masking i then true else sie, i, b, f)
  end.

(** Code takes a guard it does not hold and drops guards it holds; handlers
    drop all their guards. *)
Fixpoint acts_ok (held : list nat) (acts : list Act) : Prop :=
  match acts with
  | [] => held = []
  | Access c :: acts' => c ∉ held ∧ acts_ok (c :: held) acts'
  | Release c :: acts' => c ∈ held ∧ acts_ok (list_difference held [c]) acts'
  end.

Definition program_ok (acts : list Act) : Prop := acts_ok [] acts ∧ length acts < 2 ^ 64.

Inductive hstep : Hart → outcome Hart → Prop :=
| HFetch sie i b a todo loc held base fl :
    hstep (mkHart sie i b (mkFlow [] (a :: todo) loc held base :: fl))
          (Done (mkHart sie i b (mkFlow (act_code a) todo loc held base :: fl)))
| HStmt sie i b st code todo loc held base fl sie' i' b' f' :
    stmt_step sie i b st (mkFlow code todo loc held base) = Done (sie', i', b', f') →
    hstep (mkHart sie i b (mkFlow (st :: code) todo loc held base :: fl)) (Done (mkHart sie' i' b' (f' :: fl)))
| HPanic sie i b st code todo loc held base fl :
    stmt_step sie i b st (mkFlow code todo loc held base) = Panic →
    hstep (mkHart sie i b (mkFlow (st :: code) todo loc held base :: fl)) Panic
(** An interrupt: the hardware clears the bit; [sret] sets it again. *)
| HInterrupt i b fl handler :
    program_ok handler →
    hstep (mkHart true i b fl) (Done (mkHart false i b (mkFlow [] handler false [] false :: fl)))
| HReturn sie i b loc base f fl :
    hstep (mkHart sie i b (mkFlow [] [] loc [] base :: f :: fl)) (Done (mkHart true i b (f :: fl))).

Definition start (sie : bool) (acts : list Act) : Hart := mkHart sie intr_new [] [mkFlow [] acts false [] sie].

Inductive hreach (h : Hart) : Hart → Prop :=
| HR_refl : hreach h h
| HR_step h1 h2 : hreach h h1 → hstep h1 (Done h2) → hreach h h2.

(** ** Invariant *)

(** Where the running flow is: outside of an operation or before the bit is
    cleared, the bit is that of the flow if it holds no guard; inside it is clear. *)
Inductive phase (sie : bool) (i : IntrMaskingInfo) : Flow → Prop :=
| PIdle code todo loc held base :
    (code = [] ∨ ∃ c, code = exclusive_access c ∧ c ∉ held ∧ acts_ok (c :: held) todo) →
    (code = [] → acts_ok held todo) →
    nested_level i = length held → sie = (if decide (held = []) then base else false) →
    (held ≠ [] → sie_before_masking i = base) → phase sie i (mkFlow code todo loc held base)
| PRead c todo held base :
    c ∉ held → acts_ok (c :: held) todo →
    nested_level i = length held → sie = (if decide (held = []) then base else false) →
    (held ≠ [] → sie_before_masking i = base) → phase sie i (mkFlow [SClearSie; SSave; SInc; SBorrow c] todo sie held base)
| PClear c todo loc held base :
    c ∉ held → acts_ok (c :: held) todo → sie = false →
    nested_level i = length held → (held = [] → loc = base) →
    (held ≠ [] → sie_before_masking i = base) → phase sie i (mkFlow [SSave; SInc; SBorrow c] todo loc held base)
| PSave c todo loc held base :
    c ∉ held → acts_ok (c :: held) todo → sie = false →
    nested_level i = length held → sie_before_masking i = base → phase sie i (mkFlow [SInc; SBorrow c] todo loc held base)
| PInc c todo loc held base :
    c ∉ held → acts_ok (c :: held) todo → sie = false →
    nested_level i = length held + 1 → sie_before_masking i = base → phase sie i (mkFlow [SBorrow c] todo loc held base)
| PRelease c todo loc held base :
    c ∈ held → acts_ok (list_difference held [c]) todo → sie = false →
    nested_level i = length held → sie_before_masking i = base → phase sie i (mkFlow (drop_guard c) todo loc held base)
| PDec todo loc held base :
    acts_ok held todo → sie = false →
    nested_level i = length held + 1 → sie_before_masking i = base → phase sie i (mkFlow leave_code todo loc held base)
| PRestore todo loc held base :
    acts_ok held todo → sie = false →
    nested_level i = length held → sie_before_masking i = base → phase sie i (mkFlow [SRestore] todo loc held base).

(** An interrupted flow: it holds no guard, its interrupts were enabled. *)
Definition waiting (f : Flow) : Prop :=
  fl_held f = [] ∧ fl_base f = true ∧ ∀ i, nested_level i = 0 → phase true i f.

Definition is_borrow (st : Stmt) : bool := match st with SBorrow _ => true | _ => false end.

(** The guards a flow holds and can still take are fewer than [usize::MAX]. *)
Definition flow_ok (f : Flow) : Prop :=
  NoDup (fl_held f) ∧ length (fl_held f) + length (fl_todo f) + (if existsb is_borrow (fl_code f) then 1 else 0) < 2 ^ 64.

Record intr_inv (b0 : bool) (h : Hart) (f : Flow) (rest : list Flow) : Prop := {
  ii_flows : h_flows h = f :: rest;
  ii_phase : phase (h_sie h) (h_info h) f;
  ii_borrowed : h_borrowed h = fl_held f;
  ii_ok : flow_ok f;
  ii_rest : Forall (λ g, waiting g ∧ flow_ok g) rest;
  ii_base : rest = [] ∧ fl_base f = b0 ∨ fl_base f = false ∧ ∃ g, rest = [g] ∧ fl_base g = b0;
}.

Lemma remove_length (l : list nat) c : NoDup l → c ∈ l → Z.of_nat (length (list_difference l [c])) = length l - 1.
Proof.
  intros Hl Hc. assert (P : c :: list_difference l [c] ≡ₚ l).
  { apply NoDup_Permutation; [constructor; [|by apply NoDup_list_difference]|done|].
    - rewrite list_elem_of_difference, list_elem_of_singleton. tauto.
    - intros x. rewrite elem_of_cons, list_elem_of_difference, list_elem_of_singleton. destruct (decide (x = c)); naive_solver. }
  apply Permutation_length in P. simpl in P. lia.
Qed.

(** Where interrupts are enabled a flow can be left and taken up again. *)
Lemma phase_enabled i f : phase true i f → waiting f ∧ nested_level i = 0.
Proof.
  intros H. inversion H; subst; try congruence.
  all: destruct (decide (held = [])) as [->|]; [|done]; subst base; simpl in *.
  all: split; [|done]; split; [done|]; split; [done|]; intros i' Hi'; simpl in *.
  - by constructor.
  - by constructor.
Qed.

(** A statement never panics and keeps the phase. *)
Lemma stmt_inv sie i st code todo loc held base :
  phase sie i (mkFlow (st :: code) todo loc held base) → flow_ok (mkFlow (st :: code) todo loc held base) →
  ∃ sie' i' b' f', stmt_step sie i held st (mkFlow code todo loc held base) = Done (sie', i', b', f') ∧ b' = fl_held f' ∧
    phase sie' i' f' ∧ flow_ok f' ∧ fl_base f' = base.
Proof.
  intros H [Hnd Hb]. cbn [fl_held fl_todo fl_code] in Hnd, Hb. inversion H; subst; simpl in Hb.
  - match goal with Hc : _ ∨ _ |- _ => destruct Hc as [|(c&E&Hc&Hok)]; [done|] end. injection E as -> ->. simpl in Hb.
    do 4 eexists. split; [reflexivity|]. split; [reflexivity|]. split; [by apply PRead|]. split; [by split|done].
  - do 4 eexists. split; [reflexivity|]. split; [reflexivity|]. split; [|by split; [split|]].
    apply PClear; try done. intros ->. done.
  - do 4 eexists. split; [reflexivity|]. split; [reflexivity|]. split; [|by split; [split|]]. destruct (Z.eqb_spec (nested_level i) 0) as [E|E].
    + assert (held = []) as -> by (destruct held; [done|simpl in *; lia]). apply PSave; auto.
    + apply PSave; try done. match goal with Hh : held ≠ [] → _ |- _ => apply Hh end. intros ->. simpl in *. lia.
  - do 4 eexists. split; [reflexivity|]. split; [reflexivity|]. split; [|by split; [split|]]. apply PInc; try done. simpl. rewrite wadd_small by lia. lia.
  - simpl. rewrite bool_decide_false by done. do 4 eexists. split; [reflexivity|]. split; [reflexivity|]. split.
    + apply PIdle; try done; [by left|simpl; lia].
    + split; [|done]. split; [by constructor|simpl; lia].
  - do 4 eexists. split; [reflexivity|]. split; [reflexivity|]. pose proof (remove_length held c Hnd ltac:(done)) as Hl. split.
    + apply PDec; try done. simpl. lia.
    + split; [|done]. split; [by apply NoDup_list_difference|simpl; lia].
  - do 4 eexists. split; [reflexivity|]. split; [reflexivity|]. split; [|by split; [split|]]. apply PRestore; try done. simpl. rewrite wsub_small by lia. lia.
  - do 4 eexists. split; [reflexivity|]. split; [reflexivity|]. split; [|by split; [split|]].
    apply PIdle; try done; [by left|]. destruct (decide (held = [])) as [->|Hne].
    + simpl in *. destruct (Z.eqb_spec (nested_level i) 0); [|lia]. simpl. by destruct (sie_before_masking i).
    + destruct (Z.eqb_spec (nested_level i) 0); [|done]. destruct held; [done|simpl in *; lia].
Qed.

Lemma hstep_inv b0 h f rest o : intr_inv b0 h f rest → hstep h o → ∃ h' f' rest', o = Done h' ∧ intr_inv b0 h' f' rest'.
Proof.
  intros [Hf Hp Hb Hok Hr Hbase] Hs. inversion Hs; subst h o; cbn [h_flows h_sie h_info h_borrowed] in *.
  - injection Hf as <- <-. do 3 eexists. split; [done|]. inversion Hp; subst. cbn [fl_held] in *.
    match goal with Ha : [] = [] → _ |- _ => specialize (Ha eq_refl); rename Ha into Hacts end.
    split; cbn [h_flows h_sie h_info h_borrowed]; [done| |done| |done|done].
    + destruct a as [c|c]; destruct Hacts as [Hc Hacts].
      * apply PIdle; try done. right. by exists c.
      * assert (held ≠ []) by (intros ->; by apply elem_of_nil in Hc).
        apply PRelease; [done|done|by rewrite decide_False by done|done|auto].
    + destruct Hok as [Hnd Hlt]. split; [done|]. simpl in *. destruct a; simpl; lia.
  - injection Hf as <- <-. cbn [fl_held] in Hb. subst b.
    destruct (stmt_inv _ _ _ _ _ _ _ _ Hp Hok) as (sie1&i1&b1&f1&E&Hb1&Hp1&Hok1&Hbs). rewrite E in H. injection H as <- <- <- <-.
    do 3 eexists. split; [done|]. split; cbn [h_flows h_sie h_info h_borrowed]; try done. by rewrite Hbs.
  - injection Hf as <- <-. cbn [fl_held] in Hb. subst b.
    destruct (stmt_inv _ _ _ _ _ _ _ _ Hp Hok) as (sie1&i1&b1&f1&E&_). congruence.
  - subst. apply phase_enabled in Hp as [Hw Hn]. do 3 eexists. split; [done|].
    destruct H as [Hacts Hlen]. destruct Hw as (Hheld&Hbt&Hw). split; cbn [h_flows h_sie h_info h_borrowed]; [done| |exact Hheld| | |].
    + apply PIdle; try done. by left.
    + split; [apply NoDup_nil_2|simpl; lia].
    + by constructor.
    + right. split; [done|]. destruct Hbase as [[-> Hb0]|[Hbf _]]; [by exists f|congruence].
  - injection Hf as <- <-. inversion Hp; subst. apply Forall_cons in Hr as [[(Hheld&Hbs&Hw) Hok0] Hr].
    do 3 eexists. split; [done|]. split; cbn [h_flows h_sie h_info h_borrowed]; [done|by apply Hw|by rewrite Hheld|done|done|].
    destruct Hbase as [[? _]|(_&g&E&Hg)]; [done|]. injection E as -> ->. by left.
Qed.

Lemma start_inv b0 acts : program_ok acts → intr_inv b0 (start b0 acts) (mkFlow [] acts false [] b0) [].
Proof.
  intros [Hok Hlen]. split; cbn [start h_flows h_sie h_info h_borrowed]; try done.
  - apply PIdle; try done. by left.
  - split; [apply NoDup_nil_2|simpl; lia].
  - by left.
Qed.

Lemma hreach_inv b0 acts h : program_ok acts → hreach (start b0 acts) h → ∃ f rest, intr_inv b0 h f rest.
Proof.
  intros Hok. induction 1 as [|h1 h2 _ (f&rest&IH) Hs]; [by eexists _, _; apply start_inv|].
  destruct (hstep_inv _ _ _ _ _ IH Hs) as (h'&f'&rest'&E&IH'). injection E as ->. by exists f', rest'.
Qed.

(** The running flow is at its end, or it can go on. *)
Lemma flow_progress b0 h f rest : intr_inv b0 h f rest →
  (fl_code f = [] ∧ fl_todo f = [] ∧ rest = []) ∨ ∃ h', hstep h (Done h').
Proof.
  destruct h as [sie i b fl], f as [code todo loc held base]. intros [Hf Hp Hb Hok Hr Hbase].
  cbn [h_flows h_sie h_info h_borrowed fl_held fl_code fl_todo] in *. subst fl b. destruct code as [|st code].
  - destruct todo as [|a todo]; [|right; eexists; apply HFetch]. destruct rest as [|g rest]; [by left|right].
    assert (held = []) as -> by (inversion Hp; subst; match goal with Ha : [] = [] → _ |- _ => exact (Ha eq_refl) end). eexists. apply HReturn.
  - right. destruct (stmt_inv _ _ _ _ _ _ _ _ Hp Hok) as (sie1&i1&b1&f1&E&_). eexists. by apply HStmt.
Qed.

(** The statements of an operation one after the other. *)
Fixpoint run_stmts (code : list Stmt) (sie : bool) (i : IntrMaskingInfo) (loc : bool) : bool * IntrMaskingInfo :=
  match code with
  | [] => (sie, i)
  | st :: code' =>
      match stmt_step sie i [] st (mkFlow [] [] loc [] false) with
      | Done (sie', i', _, f) => run_stmts code' sie' i' (fl_sie f)
      | Panic => (sie, i)
      end
  end.

Lemma enter_statements sie i loc : run_stmts enter_code sie i loc = enter sie i.
Proof. destruct i as [n b]. unfold enter. simpl. by destruct (n =? 0). Qed.
Lemma exit_statements sie i loc : run_stmts leave_code sie i loc = exit sie i.
Proof. done. Qed.

(** C32: interrupts and cells.  Kernel code that takes and drops guards, and
    interrupts that arrive between any two statements whenever they are enabled
    and whose handlers use the same cells: no borrow ever conflicts and the code
    always gets to its end; while a guard is held, interrupts are masked, so
    that handlers start with every cell free and do not nest; between
    operations the level is the number of guards, and without a guard the state
    of interrupts is the one in which the code began. *)
Theorem interrupts_masked (b0 : bool) (acts : list Act) (h : Hart) :
  program_ok acts → hreach (start b0 acts) h →
  ¬ hstep h Panic ∧
  (h_borrowed h ≠ [] → h_sie h = false) ∧
  ∃ f rest, h_flows h = f :: rest ∧
    ((fl_code f = [] ∧ fl_todo f = [] ∧ rest = []) ∨ ∃ h', hstep h (Done h')) ∧
    (rest = [] ∧ fl_base f = b0 ∨ fl_base f = false ∧ ∃ g, rest = [g] ∧ fl_held g = [] ∧ fl_base g = b0) ∧
    h_borrowed h = fl_held f ∧
    (fl_code f = [] → nested_level (h_info h) = length (fl_held f) ∧
       h_sie h = if decide (fl_held f = []) then fl_base f else false).
Proof.
  intros Hok Hre. destruct (hreach_inv _ _ _ Hok Hre) as (f&rest&I). pose proof I as [Hf Hp Hb Hfok Hr Hbase].
  split; [intros Hs; by destruct (hstep_inv _ _ _ _ _ I Hs) as (?&?&?&?&_)|].
  split; [rewrite Hb; intros Hne; inversion Hp; subst; try done; cbn [fl_held] in Hne;
    match goal with E : h_sie h = _ |- _ => rewrite E end; by rewrite decide_False by done|].
  exists f, rest. split; [done|]. split; [by eapply flow_progress|]. split; [|split; [done|]].
  - destruct Hbase as [|(Hbf&g&->&Hg)]; [by left|]. right. split; [done|]. exists g. split; [done|].
    apply Forall_cons in Hr as [[[? _] _] _]. done.
  - intros Hc. inversion Hp; subst; done.
Qed.

(** Two nested guards, with a handler that uses the first cell as soon as it may. *)
Definition demo_acts : list Act := exclusive_session 1 (exclusive_session 2 []).

Lemma interrupts_masked_witness :
  ∃ h, hreach (start true demo_acts) h ∧ length (h_flows h) = 2%nat ∧ ¬ hstep h Panic.
Proof.
  set (h := mkHart false intr_new [] [mkFlow [] (exclusive_session 1 []) false [] false;
    mkFlow [SClearSie; SSave; SInc; SBorrow 1] (exclusive_session 2 [] ++ [Release 1]) true [] true]).
  assert (Hp : program_ok demo_acts).
  { split; [|vm_compute; reflexivity]. simpl. repeat split; set_solver. }
  assert (Hr : hreach (start true demo_acts) h).
  { eapply HR_step; [eapply HR_step; [eapply HR_step; [apply HR_refl|apply HFetch]|apply HStmt; reflexivity]|].
    apply HInterrupt. split; [|vm_compute; reflexivity]. simpl. repeat split; set_solver. }
  exists h. split; [exact Hr|]. split; [reflexivity|]. apply (interrupts_masked true demo_acts h Hp Hr).
Defined.
