(* ===== verification/LaTrap.v ===== *)
(** * LoongArch: memory accesses that are not aligned
    ([os/src/hal/arch/loongarch/trap/mem_access.rs], [trap/mod.rs], [trap/context.rs], [tlb.rs])

    A load or store in the kernel whose address is not aligned traps, and the
    handler carries out the instruction byte by byte. *)

From S2P Require Import Prelude PhysMem Syscall.

(** ** Registers: word 0 of [GeneralRegs] is the program counter *)

Notation LaRegs := (list Z) (only parsing).
Definition la_pc (gr : list Z) : Z := default 0 (gr !! 0%nat).

Definition la_index (gr : list Z) (index : Z) : outcome Z :=
  if negb (index =? 0) then unwrap (gr !! Z.to_nat index) else Done 0.

Definition la_index_mut (gr : list Z) (index v : Z) : outcome LaRegs :=
  if index =? 0 then Panic
  else if index <? length gr then Done (<[Z.to_nat index := v]> gr) else Panic.

(** ** Instructions *)

Inductive OpCode :=
| LdPtrW | StPtrW | LdPtrD | StPtrD
| LdB | LdH | LdW | LdD | StB | StH | StW | StD | LdBU | LdHU | LdWU | FLdS | FStS | FLdD | FStD
| LdXB | LdXH | LdXW | LdXD | StXB | StXH | StXW | StXD | LdXBU | LdXHU | LdXWU | FLdXS | FLdXD | FStXS | FStXD.

#[global] Instance OpCode_eq_dec : EqDecision OpCode.
Proof. solve_decision. Defined.

Definition all_opcodes : list OpCode :=
  [LdPtrW; StPtrW; LdPtrD; StPtrD;
   LdB; LdH; LdW; LdD; StB; StH; StW; StD; LdBU; LdHU; LdWU; FLdS; FStS; FLdD; FStD;
   LdXB; LdXH; LdXW; LdXD; StXB; StXH; StXW; StXD; LdXBU; LdXHU; LdXWU; FLdXS; FLdXD; FStXS; FStXD].

Definition opcode_val (op : OpCode) : Z :=
  match op with
  | LdPtrW => 0x24 | StPtrW => 0x25 | LdPtrD => 0x26 | StPtrD => 0x27
  | LdB => 0xA0 | LdH => 0xA1 | LdW => 0xA2 | LdD => 0xA3
  | StB => 0xA4 | StH => 0xA5 | StW => 0xA6 | StD => 0xA7
  | LdBU => 0xA8 | LdHU => 0xA9 | LdWU => 0xAA
  | FLdS => 0xAC | FStS => 0xAD | FLdD => 0xAE | FStD => 0xAF
  | LdXB => 0x7000 | LdXH => 0x7008 | LdXW => 0x7010 | LdXD => 0x7018
  | StXB => 0x7020 | StXH => 0x7028 | StXW => 0x7030 | StXD => 0x7038
  | LdXBU => 0x7040 | LdXHU => 0x7048 | LdXWU => 0x7050
  | FLdXS => 0x7060 | FLdXD => 0x7068 | FStXS => 0x7070 | FStXD => 0x7078
  end.

(** [OpCode::try_from] *)
Definition opcode_try_from (v : Z) : option OpCode := snd <$> list_find (λ op, opcode_val op = v) all_opcodes.

Definition or_else {A} (x y : option A) : option A := match x with Some a => Some a | None => y end.

Definition get_op_code (bits : Z) : option OpCode :=
  or_else (opcode_try_from (Z.shiftr bits (32 - 8)))
    (or_else (opcode_try_from (Z.shiftr bits (32 - 10))) (opcode_try_from (Z.shiftr bits (32 - 17)))).

(** [bits.get_bits(beg..beg + n)] *)
Definition field (bits beg n : Z) : Z := Z.land (Z.shiftr bits beg) (Z.ones n).

Definition get_rd_num (bits : Z) : Z := field bits 0 5.
Definition get_rj_num (bits : Z) : Z := field bits 5 5.
Definition get_rk_num (bits : Z) : Z := field bits 10 5.
Definition get_si12 (bits : Z) : Z := field bits 10 12.
Definition get_si14 (bits : Z) : Z := field bits 10 14.

(** [v as u16 as i16 as usize] *)
Definition u16_i16_usize (v : Z) : Z :=
  let w := v mod 2 ^ 16 in wrap64 (if w <? 2 ^ 15 then w else w - 2 ^ 16).

Definition reg_or_zero (gp : LaRegs) (r : Z) : outcome Z := if negb (r =? 0) then la_index gp r else Done 0.

Definition get_addr (bits : Z) (gp : LaRegs) : outcome (option Z) :=
  match get_op_code bits with
  | None => Done None
  | Some (LdPtrW | StPtrW | LdPtrD | StPtrD) =>
      rj ← reg_or_zero gp (get_rj_num bits);
      Done (Some (rj +w u16_i16_usize (wshl (get_si14 bits) 2)))
  | Some (LdB | LdH | LdW | LdD | StB | StH | StW | StD | LdBU | LdHU | LdWU | FLdS | FStS | FLdD | FStD) =>
      rj ← reg_or_zero gp (get_rj_num bits);
      Done (Some (rj +w Z.shiftr (u16_i16_usize (wshl (get_si12 bits) 4)) 4))
  | Some _ =>
      rj ← reg_or_zero gp (get_rj_num bits);
      rk ← reg_or_zero gp (get_rk_num bits);
      Done (Some (rj +w rk))
  end.

Definition is_store (op : OpCode) : bool :=
  match op with
  | LdPtrW | LdPtrD | LdB | LdH | LdW | LdD | LdBU | LdHU | LdWU | FLdS | FLdD
  | LdXB | LdXH | LdXW | LdXD | LdXBU | LdXHU | LdXWU | FLdXS | FLdXD => false
  | StPtrW | StPtrD | StB | StH | StW | StD | FStS | FStD | StXB | StXH | StXW | StXD | FStXS | FStXD => true
  end.

Definition get_size (op : OpCode) : Z :=
  match op with
  | LdB | StB | LdBU | LdXB | StXB | LdXBU => 1
  | LdH | StH | LdHU | LdXH | StXH | LdXHU => 2
  | LdPtrW | StPtrW | LdW | StW | LdWU | FLdS | FStS | LdXW | StXW | LdXWU | FLdXS | FStXS => 4
  | LdPtrD | StPtrD | LdD | StD | FLdD | FStD | LdXD | StXD | FLdXD | FStXD => 8
  end.

Definition is_float_op (op : OpCode) : bool :=
  match op with FLdS | FStS | FLdD | FStD | FLdXS | FLdXD | FStXS | FStXD => true | _ => false end.

Definition is_unsigned_ld (op : OpCode) : bool :=
  match op with LdBU | LdHU | LdWU | LdXBU | LdXHU | LdXWU => true | _ => false end.

(** ** [trap_from_kernel], exception [AddressNotAligned] *)

(** [for i in 0..sz { *(addr + i) = rd as u8; rd >>= 8 }] *)
Fixpoint store_bytewise (n : nat) (m : mem) (addr i rd : Z) : mem :=
  match n with
  | O => m
  | S n' => store_bytewise n' (store_bytes m (addr +w i) [rd mod 256]) addr (i + 1) (Z.shiftr rd 8)
  end.

(** [for i in (0..n).rev() { rd <<= 8; rd |= *(addr + i) }] *)
Fixpoint load_bytewise (n : nat) (m : mem) (addr rd : Z) : Z :=
  match n with
  | O => rd
  | S n' => load_bytewise n' m addr (Z.lor (wshl rd 8) (m (addr +w n')))
  end.

Definition extend_signed (sz rd : Z) : outcome Z :=
  if sz =? 2 then Done (u16_i16_usize rd)
  else if sz =? 4 then Done (wrap64 (as_i32 rd))
  else if sz =? 8 then Done rd
  else Panic.

Definition load32 (m : mem) (a : Z) : Z := little_endian_to_Z 8 (load_bytes m a 4).

(** [badv] is the bad address; the memory and the registers afterwards. *)
Definition trap_not_aligned (m : mem) (gr : list Z) (badv : Z) : outcome (mem * LaRegs) :=
  let ins := load32 m (la_pc gr) in
  match get_op_code ins with
  | None => Panic
  | Some op =>
      let sz := get_size op in
      if badv mod sz =? 0 then Panic
      else if negb ((sz =? 2) || (sz =? 4) || (sz =? 8)) then Panic
      else if is_store op then
        rd ← la_index gr (get_rd_num ins);
        Done (store_bytewise (Z.to_nat sz) m badv 0 rd, <[0%nat := la_pc gr +w 4]> gr)
      else
        let rd := load_bytewise (Z.to_nat sz) m badv 0 in
        rd ← (if negb (is_unsigned_ld op) then extend_signed sz rd else Done rd);
        gr' ← la_index_mut gr (get_rd_num ins) rd;
        Done (m, <[0%nat := la_pc gr' +w 4]> gr')
  end.

(** ** [get_bits] of [tlb.rs] *)

Definition get_bits (value start stop : Z) : outcome Z :=
  if negb (start <? stop) then Panic
  else if negb (stop <=? 64) then Panic
  else
    let width := stop -w start in
    if width =? 64 then Done value
    else
      let mask := wshl 1 width -w 1 in
      Done (Z.land (Z.shiftr value start) mask).

(** ** Decoding *)

(** The length of the code at the top of the word. *)
Definition op_width (op : OpCode) : Z :=
  match op with
  | LdPtrW | StPtrW | LdPtrD | StPtrD => 8
  | LdB | LdH | LdW | LdD | StB | StH | StW | StD | LdBU | LdHU | LdWU | FLdS | FStS | FLdD | FStD => 10
  | _ => 17
  end.

(** An instruction with the operands [x] below its code. *)
Definition encode (op : OpCode) (x : Z) : Z := opcode_val op * 2 ^ (32 - op_width op) + x.

Lemma shiftr_const bits k v : 0 <= k → v * 2 ^ k <= bits < (v + 1) * 2 ^ k → Z.shiftr bits k = v.
Proof. intros Hk H. rewrite Z.shiftr_div_pow2 by done. symmetry. apply (Z.div_unique bits (2 ^ k) v (bits - v * 2 ^ k)); lia. Qed.

(** Evaluates the powers and quotients of the operation codes. *)
Ltac zconst := cbn [opcode_val op_width] in *;
  repeat match goal with
  | |- context [?a / ?b] => let v := eval vm_compute in (a / b) in change (a / b) with v
  | |- context [2 ^ ?b] => let v := eval vm_compute in (2 ^ b) in change (2 ^ b) with v
  | H : context [2 ^ ?b] |- _ => let v := eval vm_compute in (2 ^ b) in change (2 ^ b) with v in H
  end; lia.

Lemma decode_encode op x : 0 <= x < 2 ^ (32 - op_width op) → get_op_code (encode op x) = Some op.
Proof.
  intros Hx. unfold get_op_code, encode.
  rewrite (shiftr_const _ (32 - 8) (opcode_val op / 2 ^ (op_width op - 8))) by (lia || (destruct op; try done; zconst)).
  destruct (decide (op_width op = 8)) as [H8|H8]; [by destruct op|].
  rewrite (shiftr_const _ (32 - 10) (opcode_val op / 2 ^ (op_width op - 10))) by (lia || (destruct op; try done; zconst)).
  destruct (decide (op_width op = 10)) as [H10|H10]; [by destruct op|].
  rewrite (shiftr_const _ (32 - 17) (opcode_val op)) by (lia || (destruct op; try done; zconst)).
  by destruct op.
Qed.

(** ** Bytes *)

(** The [n] bytes at [a] as a number, the lowest first. *)
Fixpoint le_value (n : nat) (m : mem) (a : Z) : Z :=
  match n with O => 0 | S n' => le_value n' m a + m (a + n') * 256 ^ n' end.

Lemma le_value_range (n : nat) m a : (∀ i, 0 <= i < n → is_byte (m (a + i))) → 0 <= le_value n m a < 256 ^ n.
Proof.
  induction n as [|n IH]; intros Hb; [simpl; lia|]. cbn [le_value].
  specialize (IH ltac:(intros i Hi; apply Hb; lia)). pose proof (Hb n ltac:(lia)) as Hn. unfold is_byte in Hn.
  rewrite Nat2Z.inj_succ, Z.pow_succ_r by lia. nia.
Qed.

Lemma load_bytewise_eq (n : nat) m a : ∀ rd,
  (∀ i, 0 <= i < n → is_byte (m (a + i))) → 0 <= a → a + n < 2 ^ 64 → 0 <= rd → rd * 256 ^ n + 256 ^ n <= 2 ^ 64 →
  load_bytewise n m a rd = rd * 256 ^ n + le_value n m a.
Proof.
  induction n as [|n IH]; intros rd Hb Ha Hlim Hrd Hsz; [simpl; lia|]. cbn [load_bytewise le_value].
  pose proof (Hb n ltac:(lia)) as Hn. unfold is_byte in Hn. rewrite wadd_small by lia.
  assert (Hpos : 0 < 256 ^ n) by (apply Z.pow_pos_nonneg; lia).
  assert (Hs : 256 ^ S n = 256 * 256 ^ n) by (rewrite Nat2Z.inj_succ, Z.pow_succ_r by lia; done). rewrite Hs in Hsz.
  assert (Hw : wshl rd 8 = Z.shiftl rd 8) by (unfold wshl, wrap64; rewrite Z.shiftl_mul_pow2 by lia; apply Z.mod_small; nia).
  rewrite Hw, lor_shiftl_add by lia. rewrite IH; [rewrite Hs; change (2 ^ 8) with 256; ring|intros i Hi; apply Hb; lia|lia|lia|nia|nia].
Qed.

Lemma store_bytewise_at (n : nat) : ∀ m a i rd x, 0 <= a → 0 <= i → a + i + n < 2 ^ 64 → 0 <= rd →
  store_bytewise n m a i rd x = if decide (a + i <= x < a + i + n) then (rd / 256 ^ (x - a - i)) mod 256 else m x.
Proof.
  induction n as [|n IH]; intros m a i rd x Ha Hi Hlim Hrd; cbn [store_bytewise]; [by rewrite decide_False by lia|].
  assert (Hsh : Z.shiftr rd 8 = rd / 256) by (by rewrite Z.shiftr_div_pow2).
  rewrite IH by (rewrite ?Hsh; zdiv_lia). rewrite wadd_small by lia. destruct (decide (x = a + i)) as [->|Hx].
  - rewrite decide_False, decide_True by lia. replace (a + i) with (a + i + 0%nat) at 2 by lia.
    rewrite (store_bytes_in m (a + i) [rd mod 256] 0 (rd mod 256) eq_refl). replace (a + i - a - i) with 0 by lia. by rewrite Z.pow_0_r, Z.div_1_r.
  - rewrite (store_bytes_out m (a + i)) by (simpl; lia). case_decide as H1; case_decide as H2; try (done || lia).
    rewrite Hsh, Z.div_div by (try apply Z.pow_pos_nonneg; lia).
    replace (x - a - i) with (Z.succ (x - a - (i + 1))) by lia. by rewrite Z.pow_succ_r by lia.
Qed.

(** Bytes of [v], lowest first, give [v] back. *)
Lemma le_value_digits (n : nat) m a v : 0 <= v → (∀ i, 0 <= i < n → m (a + i) = (v / 256 ^ i) mod 256) → le_value n m a = v mod 256 ^ n.
Proof.
  intros Hv. induction n as [|n IH]; intros Hm; cbn [le_value]; [by rewrite Z.mod_1_r|].
  rewrite IH, (Hm n) by (lia || (intros i Hi; apply Hm; lia)).
  rewrite Nat2Z.inj_succ, Z.pow_succ_r, (Z.mul_comm 256 (256 ^ n)), (Z.rem_mul_r v (256 ^ n) 256) by (lia || apply Z.pow_nonzero; lia). ring.
Qed.

(** ** The handler *)

(** What a load of the value [v] puts into its register. *)
Definition la_loaded (op : OpCode) (v : Z) : Z :=
  let bits := 8 * get_size op in
  if is_unsigned_ld op then v else wrap64 (if v <? 2 ^ (bits - 1) then v else v - 2 ^ bits).

Lemma extend_loaded op v : is_unsigned_ld op = false → get_size op ≠ 1 → 0 <= v < 256 ^ get_size op →
  extend_signed (get_size op) v = Done (la_loaded op v).
Proof.
  intros Hu Hs Hv. unfold la_loaded, extend_signed. rewrite Hu.
  assert (Hc : get_size op = 2 ∨ get_size op = 4 ∨ get_size op = 8) by (destruct op; simpl in *; lia).
  destruct Hc as [E|[E|E]]; rewrite E in *; cbn [Z.eqb Pos.eqb]; f_equal.
  - unfold u16_i16_usize. rewrite Z.mod_small by lia. done.
  - unfold as_i32. rewrite Z.mod_small by lia. done.
  - unfold wrap64. change (2 ^ (8 * 8 - 1)) with (2 ^ 63). change (2 ^ (8 * 8)) with (2 ^ 64).
    change (256 ^ 8) with (2 ^ 64) in Hv. destruct (Z.ltb_spec v (2 ^ 63)); zdiv_lia.
Qed.

Lemma rd_num op x : 0 <= x < 2 ^ (32 - op_width op) → get_rd_num (encode op x) = x mod 32.
Proof.
  intros Hx. unfold get_rd_num, field. rewrite Z.shiftr_0_r, Z.land_ones by lia. change (2 ^ 5) with 32. unfold encode.
  replace (2 ^ (32 - op_width op)) with (32 * 2 ^ (27 - op_width op)).
  - rewrite (Z.add_comm _ x), Z.mul_assoc, (Z.mul_comm _ 32), <- Z.mul_assoc, Z.mul_comm, Z_mod_plus_full. done.
  - change 32 with (2 ^ 5). rewrite <- Z.pow_add_r by (destruct op; simpl; lia). f_equal. lia.
Qed.

Lemma la_index_ok gr r : length gr = 32%nat → Forall is_usize gr → 0 <= r < 32 →
  let v := if decide (Z.to_nat r = 0%nat) then 0 else default 0 (gr !! Z.to_nat r) in la_index gr r = Done v ∧ 0 <= v.
Proof.
  intros Hlen Hgr Hr. unfold la_index. destruct (Z.eqb_spec r 0) as [->|E]; [done|]. cbn [negb]. cbn zeta.
  destruct (lookup_lt_is_Some_2 gr (Z.to_nat r)) as [v Hv]; [lia|]. rewrite Hv, decide_False by lia. split; [done|].
  rewrite Forall_forall in Hgr. apply (Hgr v). by eapply list_elem_of_lookup_2.
Qed.

(** A kernel load or store at an address that is not aligned, on a LoongArch
    machine.  The handler decodes the instruction at the program counter; a store
    leaves the low bytes of its register at the address, lowest first, and
    touches no other byte; a load puts the bytes at the address into its
    register, extended as the instruction says; both continue after the
    instruction with all other registers unchanged.  A load into register 0
    panics. *)
Theorem unaligned_access_correct m gr badv op x :
  length gr = 32%nat → Forall is_usize gr → 0 <= x < 2 ^ (32 - op_width op) → load32 m (la_pc gr) = encode op x →
  0 <= badv → badv + 8 < 2 ^ 64 → badv mod get_size op ≠ 0 → (∀ i, 0 <= i < 8 → is_byte (m (badv + i))) →
  let sz := Z.to_nat (get_size op) in let rd := Z.to_nat (x mod 32) in let pc := la_pc gr +w 4 in
  if is_store op then
    ∃ m', trap_not_aligned m gr badv = Done (m', <[0%nat := pc]> gr) ∧
      le_value sz m' badv = (if decide (rd = 0%nat) then 0 else default 0 (gr !! rd)) mod 256 ^ sz ∧
      ∀ y, y < badv ∨ badv + sz <= y → m' y = m y
  else if decide (rd = 0%nat) then trap_not_aligned m gr badv = Panic
  else trap_not_aligned m gr badv = Done (m, <[0%nat := pc]> (<[rd := la_loaded op (le_value sz m badv)]> gr)).
Proof.
  intros Hlen Hgr Hx Hins Hb Hlim Hal Hby sz rd pc. unfold trap_not_aligned. rewrite Hins, decode_encode, rd_num by done.
  rewrite (proj2 (Z.eqb_neq _ 0)) by done.
  assert (Hs1 : get_size op ≠ 1) by (intros E; rewrite E, Z.mod_1_r in Hal; done).
  assert (Hsz : get_size op = 2 ∨ get_size op = 4 ∨ get_size op = 8) by (destruct op; simpl in *; lia).
  assert (Hz : Z.of_nat sz = get_size op) by (unfold sz; lia).
  assert (E3 : negb ((get_size op =? 2) || (get_size op =? 4) || (get_size op =? 8)) = false) by (destruct Hsz as [-> | [-> | ->]]; done).
  rewrite E3. fold sz. assert (Hrd : 0 <= x mod 32 < 32) by (apply Z.mod_pos_bound; lia).
  destruct (is_store op).
  - destruct (la_index_ok gr (x mod 32) Hlen Hgr Hrd) as [Hix Hv0]. fold rd in Hix, Hv0. rewrite Hix.
    cbn [mbind outcome_bind]. set (v := if decide _ then _ else _) in *.
    eexists. split; [reflexivity|]. split.
    + apply le_value_digits; [done|]. intros i Hi. rewrite store_bytewise_at by lia. rewrite decide_True by lia. do 3 f_equal. lia.
    + intros y Hy. rewrite store_bytewise_at by lia. by rewrite decide_False by lia.
  - assert (Hval : load_bytewise sz m badv 0 = le_value sz m badv).
    { rewrite load_bytewise_eq; [lia|intros i Hi; apply Hby; lia|lia|lia|lia|]. rewrite Hz.
      destruct Hsz as [-> | [-> | ->]]; done. }
    rewrite Hval. pose proof (le_value_range sz m badv ltac:(intros i Hi; apply Hby; lia)) as Hr. rewrite Hz in Hr.
    assert (Hext : (if negb (is_unsigned_ld op) then extend_signed (get_size op) (le_value sz m badv) else Done (le_value sz m badv)) =
      Done (la_loaded op (le_value sz m badv))).
    { destruct (is_unsigned_ld op) eqn:Eu; cbn [negb]; [unfold la_loaded; by rewrite Eu|by apply extend_loaded]. }
    rewrite Hext. cbn [mbind outcome_bind]. unfold la_index_mut. case_decide as Hd.
    + by rewrite (proj2 (Z.eqb_eq (x mod 32) 0)) by (unfold rd in Hd; lia).
    + rewrite (proj2 (Z.eqb_neq (x mod 32) 0)), (proj2 (Z.ltb_lt _ _)) by (unfold rd in Hd; lia). cbn [mbind outcome_bind]. fold rd.
      unfold la_pc at 1. by rewrite list_lookup_insert_ne by lia.
Qed.

(** [ld.h $a0, ...] at the program counter 0x1000, the bytes 0x34 0x92 at 0x2001. *)
Definition demo_la_mem : mem := store_bytes (store_bytes (λ _, 0) 0x1000 (Z_to_little_endian 4 8 (encode LdH 4))) 0x2001 [0x34; 0x92].
Definition demo_la_regs : list Z := 0x1000 :: replicate 31 0.

Lemma unaligned_access_correct_witness :
  ∃ gr, trap_not_aligned demo_la_mem demo_la_regs 0x2001 = Done (demo_la_mem, gr) ∧
    gr !! 4%nat = Some 0xffffffffffff9234 ∧ gr !! 0%nat = Some 0x1004.
Proof.
  pose proof (unaligned_access_correct demo_la_mem demo_la_regs 0x2001 LdH 4 eq_refl) as H.
  eexists. split; [apply H|split; reflexivity].
  - constructor; [split; vm_compute; congruence|]. apply Forall_replicate. split; vm_compute; congruence.
  - vm_compute. split; congruence.
  - reflexivity.
  - lia.
  - lia.
  - vm_compute. congruence.
  - intros i Hi. assert (Hc : i ∈ seqZ 0 8) by (apply elem_of_seqZ; lia). change (seqZ 0 8) with [0; 1; 2; 3; 4; 5; 6; 7] in Hc.
    rewrite !elem_of_cons, elem_of_nil in Hc. repeat destruct Hc as [->|Hc]; [vm_compute; split; congruence..|done].
Defined.

(** The offset of 12 bits is shifted back without its sign: a negative one gives
    an address that is off by 2 to the 60. *)
Lemma negative_offset_lost :
  get_si12 (encode LdW (0xfff * 2 ^ 10)) = 0xfff ∧
  get_addr (encode LdW (0xfff * 2 ^ 10)) (replicate 32 0) = Done (Some (2 ^ 60 - 1)).
Proof. split; vm_compute; reflexivity. Qed.

(** An unaligned load of a floating-point register writes a general register. *)
Lemma float_load_clobbers op x m gr badv :
  is_float_op op = true → is_store op = false →
  length gr = 32%nat → 0 <= x < 2 ^ (32 - op_width op) → load32 m (la_pc gr) = encode op x → x mod 32 ≠ 0 →
  badv mod get_size op ≠ 0 → ∃ gr', trap_not_aligned m gr badv = Done (m, gr') ∧ ∃ v, gr' !! Z.to_nat (x mod 32) = Some v ∧
    extend_signed (get_size op) (load_bytewise (Z.to_nat (get_size op)) m badv 0) = Done v.
Proof.
  intros Hf Hst Hlen Hx Hins Hrd Hal. unfold trap_not_aligned. rewrite Hins, decode_encode, rd_num, Hst by done.
  rewrite (proj2 (Z.eqb_neq _ 0)) by done. pose proof (Z.mod_pos_bound x 32 ltac:(lia)) as Hr.
  assert (Hu : is_unsigned_ld op = false) by (by destruct op). rewrite Hu. cbn [negb].
  assert (Hs : (get_size op =? 2) || (get_size op =? 4) || (get_size op =? 8) = true ∧ ∀ v, ∃ w, extend_signed (get_size op) v = Done w)
    by (destruct op; try done; (split; [done|intros v; by eexists])).
  destruct Hs as [-> Hs]. destruct (Hs (load_bytewise (Z.to_nat (get_size op)) m badv 0)) as [w ->]. cbn [negb mbind outcome_bind].
  unfold la_index_mut. rewrite (proj2 (Z.eqb_neq _ 0)), (proj2 (Z.ltb_lt _ _)) by lia. cbn [mbind outcome_bind].
  eexists. split; [done|]. exists w. split; [|done]. rewrite list_lookup_insert_ne by lia. apply list_lookup_insert_eq. lia.
Qed.

(** ** Bits *)

Lemma get_bits_ok value start stop : 0 <= value < 2 ^ 64 → 0 <= start →
  get_bits value start stop = if decide (start < stop <= 64) then Done ((value / 2 ^ start) mod 2 ^ (stop - start)) else Panic.
Proof.
  intros Hv Hs. unfold get_bits. destruct (Z.ltb_spec start stop); cbn [negb]; [|by rewrite decide_False by lia].
  destruct (Z.leb_spec stop 64); cbn [negb]; [|by rewrite decide_False by lia]. rewrite decide_True by lia.
  rewrite wsub_small by lia. destruct (Z.eqb_spec (stop - start) 64) as [E|E].
  - assert (start = 0 ∧ stop = 64) as [-> ->] by lia. by rewrite Z.pow_0_r, Z.div_1_r, Z.mod_small.
  - assert (Hp : 0 < 2 ^ (stop - start) < 2 ^ 64) by (split; [apply Z.pow_pos_nonneg; lia|apply Z.pow_lt_mono_r; lia]).
    rewrite wshl_small, wsub_small by lia. rewrite Z.mul_1_l, land_mask, Z.shiftr_div_pow2 by lia. done.
Qed.
