(* ===== verification/LaMachine.v ===== *)
(** * LoongArch: traps, the TLB, interrupts, time and the layout of memory
    ([os/src/hal/arch/loongarch/trap/mod.rs], [trap/context.rs], [tlb.rs],
    [sync.rs], [timer.rs], [kernel_stack.rs], [config.rs])

    The registers of the machine are arguments of the functions that read them;
    the TLB is a parameter with the behaviour of its instructions. *)

From S2P Require Import Prelude Address PhysMem IntrCell LaTrap.

(** ** Contexts ([trap/context.rs]) *)

Record LaFloatRegs := mkLaFloat { la_f : list Z; la_fcsr : Z; la_fcc : Z }.

Record LaTrapContext := mkLaCx {
  la_gp : list Z;
  la_fp : LaFloatRegs;
  la_origin_a0 : Z;
  la_sstatus : Z;
  la_kernel_satp : Z;
  la_trap_handler : Z;
  la_kernel_sp : Z;
}.

(** Words 0 and 3 of [GeneralRegs] are [pc] and [sp]. *)
Definition la_set_sp (cx : LaTrapContext) (sp : Z) : LaTrapContext :=
  mkLaCx (<[3%nat := sp]> (la_gp cx)) (la_fp cx) (la_origin_a0 cx) (la_sstatus cx) (la_kernel_satp cx) (la_trap_handler cx) (la_kernel_sp cx).

(** [prmd] is the register that [app_init_context] reads. *)
Definition la_app_init_context (prmd entry sp kernel_satp kernel_sp trap_handler : Z) : LaTrapContext :=
  let cx := mkLaCx (<[0%nat := entry]> (replicate 32 0)) (mkLaFloat (replicate 32 0) 0 0) 0 prmd kernel_satp trap_handler kernel_sp in
  la_set_sp cx sp.

(** ** Traps ([trap/mod.rs]) *)

Inductive LaException := AddressNotAligned | OtherException (code : Z).
Inductive LaCause := LaInterrupt (n : Z) | LaExc (e : LaException) | LaMachineError (n : Z) | LaUnknown.

Definition get_bad_addr (cause : LaCause) (badv : Z) : Z := match cause with LaExc _ => badv | _ => 0 end.
Definition get_bad_ins_addr (cause : LaCause) (era merrera : Z) : Z :=
  match cause with LaInterrupt _ | LaExc _ => era | LaMachineError _ => merrera | LaUnknown => 0 end.

Definition la_trap_from_kernel (cause : LaCause) (badv : Z) (m : mem) (gr : list Z) : outcome (mem * list Z) :=
  match cause with
  | LaExc AddressNotAligned => trap_not_aligned m gr badv
  | _ => Panic
  end.

(** ** Masking ([sync.rs]); [ie] is the bit of [crmd] *)

Definition la_enter (ie : bool) (i : IntrMaskingInfo) : bool * IntrMaskingInfo :=
  let i := if nested_level i =? 0 then mkIM (nested_level i) ie else i in
  (false, mkIM (nested_level i +w 1) (sie_before_masking i)).

Definition la_exit (ie : bool) (i : IntrMaskingInfo) : bool * IntrMaskingInfo :=
  let i := mkIM (nested_level i -w 1) (sie_before_masking i) in
  (if (nested_level i =? 0) && sie_before_masking i then true else ie, i).

(** It is the masking of the RISC-V port. *)
Lemma la_masking ie i : la_enter ie i = enter ie i ∧ la_exit ie i = exit ie i.
Proof. unfold la_enter, enter, la_exit, exit. by destruct (nested_level i =? 0). Qed.

(** ** Time ([timer.rs]) *)

Definition LA_TICKS_PER_SEC : Z := 100.

(** The clock from the words of [CPUCFG]: 32-bit arithmetic, a divisor of zero
    panics. *)
Definition get_timer_freq_first_time (base_freq mul div : Z) : outcome Z :=
  if div =? 0 then Panic else Done ((base_freq * mul) mod 2 ^ 32 / div).

(** The start value of the timer of [enable_timer_interrupt]. *)
Definition timer_init_val (clock_freq : Z) : Z := clock_freq / LA_TICKS_PER_SEC.

(** The frequency is right as long as the product fits in 32 bits. *)
Lemma timer_freq_ok base_freq mul div :
  0 <= base_freq * mul < 2 ^ 32 → 0 < div → get_timer_freq_first_time base_freq mul div = Done (base_freq * mul / div).
Proof. intros Hm Hd. unfold get_timer_freq_first_time. rewrite (proj2 (Z.eqb_neq _ _)), Z.mod_small by lia. done. Qed.

(** 100 MHz times 43 is more. *)
Lemma timer_freq_wraps : get_timer_freq_first_time 100000000 43 1 = Done 5032704.
Proof. reflexivity. Qed.

(** ** The layout of memory ([config.rs], [kernel_stack.rs]) *)

Definition LA_USER_STACK_SIZE : Z := PAGE_SIZE * 2.
Definition LA_KERNEL_STACK_SIZE : Z := 16 * 0x1000 * 0x1000.
Definition LA_VA_SPACE_SIZE : Z := Z.shiftl 1 39.
Definition LA_TRAMPOLINE : Z := LA_VA_SPACE_SIZE - PAGE_SIZE + 1.
Definition LA_TRAP_CONTEXT_BASE : Z := LA_TRAMPOLINE - PAGE_SIZE.

Definition la_trap_cx_bottom_from_tid (tid : Z) : Z := LA_TRAP_CONTEXT_BASE -w (tid *w PAGE_SIZE).
(** [base] is [USER_STACK_BASE], which the sources do not define. *)
Definition la_ustack_bottom_from_tid (base tid : Z) : Z := base +w (tid *w (PAGE_SIZE +w LA_USER_STACK_SIZE)).

(** The stack of the kernel is a vector at address [bottom]. *)
Definition la_kernel_stack_position (bottom : Z) : Z * Z := (bottom, bottom +w LA_KERNEL_STACK_SIZE).
Definition la_get_top (bottom : Z) : Z := (la_kernel_stack_position bottom).2.

(** No page holds a trap context: the base is one more than a multiple of the
    page size. *)
Lemma la_trap_contexts_unaligned tid : 0 <= tid < 2 ^ 26 → va_page_offset (la_trap_cx_bottom_from_tid tid) = 1.
Proof.
  intros Ht. unfold la_trap_cx_bottom_from_tid. rewrite va_page_offset_mod. change LA_TRAP_CONTEXT_BASE with 549755805697.
  unfold PAGE_SIZE. rewrite wmul_small, wsub_small by lia. zdiv_lia.
Qed.

(** The stack of the kernel is 256 MB, where its comment says 16. *)
Lemma la_kernel_stack_size : LA_KERNEL_STACK_SIZE = 256 * 2 ^ 20.
Proof. reflexivity. Qed.

(** ** The TLB ([tlb.rs]) *)

(** The registers of the TLB and its entries: [tlb_at h i] are the two words of
    entry [i], [tlb_find h vppn] the entry of a pair of pages.  [tlbsrch] sets the
    index, or the bit [NE] when there is no entry; [tlbrd] loads the words of the
    entry at the index. *)
Class Tlb (H : Type) := {
  set_vppn : Z → H → H;
  set_index : Z → H → H;
  tlbsrch : H → H;
  tlbrd : H → H;
  idx_raw : H → Z;
  idx_ne : H → bool;
  elo0 : H → Z;
  elo1 : H → Z;
  set_elo_ppn : bool → Z → H → H;      (** [tlbelo0::set_ppn] ([false]) and [tlbelo1::set_ppn] ([true]) *)
  set_elo_dirty : bool → bool → H → H; (** [set_dirty] *)
  tlb_at : H → Z → option (Z * Z);
  tlb_find : H → Z → option Z;
  idx_range h : 0 <= idx_raw h < 2 ^ 64;
  search_entries h vppn i : tlb_at (tlbsrch (set_vppn vppn h)) i = tlb_at h i;
  search_finds h vppn v : tlb_find (tlbsrch (set_vppn vppn h)) v = tlb_find h v;
  (** the registers are not the entries *)
  elo_entries h o p d i : tlb_at (set_elo_dirty o d (set_elo_ppn o p h)) i = tlb_at h i;
  elo_finds h o p d v : tlb_find (set_elo_dirty o d (set_elo_ppn o p h)) v = tlb_find h v;
  search_law h vppn :
    match tlb_find h vppn with
    | Some i => idx_ne (tlbsrch (set_vppn vppn h)) = false ∧ idx_raw (tlbsrch (set_vppn vppn h)) mod 2 ^ 16 = i ∧ is_Some (tlb_at h i)
    | None => idx_ne (tlbsrch (set_vppn vppn h)) = true
    end;
  index_law h i : idx_ne (set_index i h) = idx_ne h;
  read_law h i e0 e1 : tlb_at h i = Some (e0, e1) → elo0 (tlbrd (set_index i h)) = e0 ∧ elo1 (tlbrd (set_index i h)) = e1;
  word_range h i e0 e1 : tlb_at h i = Some (e0, e1) → 0 <= e0 < 2 ^ 64 ∧ 0 <= e1 < 2 ^ 64;
}.

Section tlb.
Context {H : Type} `{!Tlb H} (PALEN : Z).
Implicit Types h : H.

Definition USR_ASID : Z := 0.
Definition KERN_ASID : Z := Z.shiftl 1 10 - 1.

(** The value that [set_asid] stores when the register has [width] bits. *)
Definition set_asid_value (width asid : Z) : Z := Z.land asid (wshl 1 (width -w 1)).

(** [None] is [Err(())]. *)
Definition tlb_read (idx : Z) : K H (option (Z * Z)) :=
  kmodify (set_index idx) ;;
  h ← kget;
  kmodify tlbrd ;;
  if idx_ne h then mret None
  else
    h' ← kget;
    even_ppn ← klift (get_bits (elo0 h') 12 PALEN);
    odd_ppn ← klift (get_bits (elo1 h') 12 PALEN);
    mret (Some (even_ppn, odd_ppn)).

Definition tlb_serach (vpn : Z) : K H (option Z) :=
  kmodify (set_vppn (Z.shiftr vpn 1)) ;;
  kmodify tlbsrch ;;
  h ← kget;
  if idx_ne h then mret None
  else
    i ← klift (get_bits (idx_raw h) 0 16);
    r ← tlb_read i;
    mret (if Z.land vpn 1 =? 0 then fst <$> r else snd <$> r).

(** The frame number in a word of an entry. *)
Definition elo_ppn (e : Z) : Z := (e / 2 ^ 12) mod 2 ^ (PALEN - 12).

(** [true] is [Ok(())]. *)
Definition tlb_addr_allow_write (vpn ppn : Z) : K H bool :=
  kmodify (set_vppn (Z.shiftr vpn 1)) ;;
  kmodify tlbsrch ;;
  h ← kget;
  if idx_ne h then mret false
  else
    let odd := negb (Z.land vpn 1 =? 0) in
    kmodify (set_elo_ppn odd ppn) ;;
    kmodify (set_elo_dirty odd true) ;;
    mret true.

(** The function changes registers only; the entries, and what they map, stay. *)
Lemma allow_write_no_effect h vpn ppn : ∃ r h', tlb_addr_allow_write vpn ppn h = Done (r, h') ∧
  (∀ i, tlb_at h' i = tlb_at h i) ∧ ∀ v, tlb_find h' v = tlb_find h v.
Proof.
  apply wp_done. unfold tlb_addr_allow_write. wp_steps. set (h1 := tlbsrch _). destruct (idx_ne h1); wp_steps; split; intros x; unfold h1;
    by rewrite ?elo_entries, ?elo_finds, ?search_entries, ?search_finds.
Qed.

(** [tlb_serach] answers the frame that the TLB maps the page to, the one of
    the even or of the odd page of the pair, and an error exactly when the TLB has
    no entry for the pair. *)
Theorem tlb_serach_correct h vpn :
  12 < PALEN <= 64 → 0 <= vpn →
  ∃ r h', tlb_serach vpn h = Done (r, h') ∧
    r = (i ← tlb_find h (vpn / 2); '(e0, e1) ← tlb_at h i; Some (elo_ppn (if Z.even vpn then e0 else e1))).
Proof using All.
  intros HP Hv. apply wp_done. unfold tlb_serach. wp_steps. rewrite Z.shiftr_div_pow2 by lia. change (2 ^ 1) with 2.
  pose proof (search_law h (vpn / 2)) as Hs. set (h1 := tlbsrch _) in *. destruct (tlb_find h (vpn / 2)) as [i|].
  - destruct Hs as (Hne&Hraw&[[e0 e1] He]). rewrite Hne. wp_steps. eapply wp_lift.
    { rewrite get_bits_ok by (lia || apply idx_range). rewrite decide_True by lia. reflexivity. }
    cbn beta iota. rewrite Z.pow_0_r, Z.div_1_r, Z.sub_0_r, Hraw. unfold tlb_read. wp_steps. rewrite index_law, Hne. wp_steps.
    assert (He1 : tlb_at h1 i = Some (e0, e1)) by (unfold h1; by rewrite search_entries).
    destruct (read_law h1 i e0 e1 He1) as [-> ->]. destruct (word_range h1 i e0 e1 He1) as [H0 H1].
    eapply wp_lift; [rewrite get_bits_ok, decide_True by lia; reflexivity|]. cbn beta iota. wp_steps.
    eapply wp_lift; [rewrite get_bits_ok, decide_True by lia; reflexivity|]. cbn beta iota. wp_steps.
    cbn [mbind option_bind]. rewrite He. cbn. change 1 with (2 ^ 1 - 1). rewrite land_mask by lia. change (2 ^ 1) with 2. rewrite Zmod_even.
    by destruct (Z.even vpn).
  - rewrite Hs. wp_steps. done.
Qed.
End tlb.

(** [set_asid] keeps one bit of the number: for a register of ten bits the user
    and the kernel number both lose their value. *)
Lemma set_asid_keeps_one_bit : set_asid_value 10 KERN_ASID = 512 ∧ set_asid_value 10 5 = 0.
Proof. done. Qed.

(** ** A TLB of two entries *)

Record Tlb2 := mkTlb2 { t2_vppn : Z; t2_idx : Z; t2_ne : bool; t2_lo : Z * Z }.

Definition tlb2_at (i : Z) : option (Z * Z) :=
  if i =? 0 then Some (0x80200001, 0x80201001) else if i =? 1 then Some (0x80202001, 0x80203001) else None.
Definition tlb2_find (vppn : Z) : option Z := if vppn =? 8 then Some 0 else if vppn =? 9 then Some 1 else None.

#[refine] Instance tlb2_instance : Tlb Tlb2 := {
  set_vppn v h := mkTlb2 v (t2_idx h) (t2_ne h) (t2_lo h);
  set_index i h := mkTlb2 (t2_vppn h) i (t2_ne h) (t2_lo h);
  tlbsrch h := match tlb2_find (t2_vppn h) with
               | Some i => mkTlb2 (t2_vppn h) i false (t2_lo h)
               | None => mkTlb2 (t2_vppn h) (t2_idx h) true (t2_lo h)
               end;
  tlbrd h := mkTlb2 (t2_vppn h) (t2_idx h) (t2_ne h) (default (0, 0) (tlb2_at (t2_idx h)));
  idx_raw h := t2_idx h mod 2 ^ 64;
  idx_ne := t2_ne;
  elo0 h := (t2_lo h).1;
  elo1 h := (t2_lo h).2;
  set_elo_ppn o p h := mkTlb2 (t2_vppn h) (t2_idx h) (t2_ne h) (if o then ((t2_lo h).1, p * 4096) else (p * 4096, (t2_lo h).2));
  set_elo_dirty o d h := let on w := if d : bool then Z.lor w 2 else w in
    mkTlb2 (t2_vppn h) (t2_idx h) (t2_ne h) (if o : bool then ((t2_lo h).1, on (t2_lo h).2) else (on (t2_lo h).1, (t2_lo h).2));
  tlb_at h := tlb2_at;
  tlb_find h := tlb2_find;
}.
Proof.
  - intros h. apply Z.mod_pos_bound. lia.
  - done.
  - done.
  - done.
  - done.
  - intros h vppn. simpl. unfold tlb2_find. by destruct (vppn =? 8), (vppn =? 9).
  - done.
  - intros h i e0 e1 E. simpl. by rewrite E.
  - intros h i e0 e1. simpl. unfold tlb2_at. destruct (i =? 0), (i =? 1); intros [= <- <-]; lia.
Defined.

Lemma tlb_serach_correct_witness :
  ∃ r h', tlb_serach 48 17 (mkTlb2 0 0 true (0, 0)) = Done (r, h') ∧ r = Some 0x80201.
Proof. exact (tlb_serach_correct 48 (mkTlb2 0 0 true (0, 0)) 17 ltac:(lia) ltac:(lia)). Defined.

(** ** Start-up ([loongarch/mod.rs]) *)

(** The writes of control registers that [bootstrap_init] makes. *)
Inductive LaWrite :=
| EcfgLieTimer | EuenFpe (on : bool) | TiclrClear | TcfgEn (on : bool) | CrmdWe (on : bool) | CrmdPg (on : bool) | CrmdIe (on : bool)
| Eentry (a : Z).

(** How it ends: a core other than 0 waits for ever. *)
Inductive LaBootEnd := LaSpins | LaPanics.

(** [set_machine_error_trap_entry] is [todo!()]: nothing after it runs. *)
Definition la_bootstrap_init (core_id kern_trap : Z) : list LaWrite * LaBootEnd :=
  if negb (core_id =? 0) then ([], LaSpins)
  else ([EcfgLieTimer; EuenFpe true; TiclrClear; TcfgEn false; CrmdWe false; CrmdPg true; CrmdIe false; Eentry kern_trap], LaPanics).

(** Core 0 turns paging on and then panics, before the entry of the TLB refill is
    set: the port does not start. *)
Lemma la_bootstrap_panics kern_trap : (la_bootstrap_init 0 kern_trap).2 = LaPanics ∧ CrmdPg true ∈ (la_bootstrap_init 0 kern_trap).1.
Proof. split; [done|]. simpl. do 5 right. left. Qed.
