(* ===== verification/LaPage.v ===== *)
(** * LoongArch: page-table entries and tables ([os/src/hal/arch/loongarch/laflex.rs])

    The constants of the machine that the sources leave open are parameters:
    [PALEN], the width of physical addresses, and the window [MEMORY_HIGH_BASE] in
    which the kernel sees physical memory. *)

From S2P Require Import Prelude Address PhysMem IdAlloc FrameAlloc PageTable Sv39 Vfs.

(** ** [PTEFlags] *)

Definition LA_V : Z := Z.shiftl 1 0.
Definition LA_D : Z := Z.shiftl 1 1.
Definition LA_PLV0 : Z := Z.shiftl 0 2.
Definition LA_PLV3 : Z := Z.shiftl 3 2.
Definition LA_MAT_CC : Z := Z.shiftl 1 4.
Definition LA_MAT_SUC : Z := Z.shiftl 0 4.
Definition LA_G : Z := Z.shiftl 1 6.
Definition LA_P : Z := Z.shiftl 1 7.
Definition LA_W : Z := Z.shiftl 1 8.
Definition LA_NR : Z := Z.shiftl 1 (64 - 3).
Definition LA_NX : Z := Z.shiftl 1 (64 - 2).
Definition LA_RPLV : Z := Z.shiftl 1 (64 - 1).

Definition la_flags_all : Z :=
  fold_left Z.lor [LA_V; LA_D; LA_PLV0; LA_PLV3; LA_MAT_CC; LA_MAT_SUC; LA_G; LA_P; LA_W; LA_NR; LA_NX; LA_RPLV] 0.

(** [MapPermission::contains] *)
Definition has_perm (flags p : Z) : bool := contains flags p.

Section laflex.
Context (PALEN MEMORY_HIGH_BASE VPN_SEG_MASK MEMORY_HIGH_BASE_VPN : Z).

(** ** Entries; the entry is its word *)

Definition PPN_MASK : Z := Z.land (wshl 1 PALEN -w 1) (wnot (wshl 1 12 -w 1)).

Definition la_pte_new (ppn flags : Z) : Z := Z.lor (Z.land (wshl ppn 12) PPN_MASK) flags.
Definition la_pte_empty : Z := 0.
Definition la_pte_ppn (bits : Z) : Z := Z.shiftr (Z.land bits PPN_MASK) 12.

(** [PTEFlags::from_bits(self.bits).unwrap()] *)
Definition la_pte_flags (bits : Z) : outcome Z := unwrap (from_bits la_flags_all bits).

Definition la_is_valid (bits : Z) : outcome bool := f ← la_pte_flags bits; Done (contains f LA_V).
Definition la_readable (bits : Z) : outcome bool := f ← la_pte_flags bits; Done (negb (contains f LA_NR)).
Definition la_writable (bits : Z) : outcome bool := f ← la_pte_flags bits; Done (contains f LA_W).
Definition la_executable (bits : Z) : outcome bool := f ← la_pte_flags bits; Done (negb (contains f LA_NX)).
Definition la_is_dirty (bits : Z) : outcome bool := f ← la_pte_flags bits; Done (contains f LA_D).
Definition la_set_dirty (bits : Z) : Z := Z.lor bits LA_D.
Definition la_clear_dirty (bits : Z) : Z := Z.land bits (wnot LA_D).

Definition la_set_permission (bits flags : Z) : Z :=
  let bits := if has_perm flags PERM_R then Z.land bits (wnot LA_NR) else Z.lor bits LA_NR in
  let bits := if has_perm flags PERM_X then Z.land bits (wnot LA_NX) else Z.lor bits LA_NX in
  if has_perm flags PERM_W then Z.lor bits LA_W else Z.land bits (wnot LA_W).

(** ** Tables *)

Record LaflexPageTable := mkLaflex { la_root_ppn : Z; la_frames : list Z }.

Definition la_token (pt : LaflexPageTable) : Z := la_root_ppn pt.
Definition is_kernel_pt (pt : LaflexPageTable) : bool := la_token pt mod 2 ^ 32 =? 0.
Definition is_ident_map (pt : LaflexPageTable) (vpn : Z) : bool :=
  is_kernel_pt pt && (Z.land vpn VPN_SEG_MASK =? MEMORY_HIGH_BASE_VPN).
Definition get_root_ppn (pt : LaflexPageTable) : Z :=
  if is_kernel_pt pt then Z.shiftr (la_root_ppn pt) 32 else la_root_ppn pt.

Definition la_new : K KMem LaflexPageTable := o ← frame_alloc; frame ← kunwrap o; mret (mkLaflex frame [frame]).
Definition la_new_kernel : K KMem LaflexPageTable :=
  o ← frame_alloc; frame ← kunwrap o; mret (mkLaflex (wshl frame 32) [frame]).
Definition la_from_token (token : Z) : LaflexPageTable := mkLaflex (ppn_from_usize token) [].

(** The walk; [indexes::<4>] yields three indexes, as for every width. *)
Fixpoint la_walk_create (idxs : list Z) (i ppn : Z) (pt : LaflexPageTable) : K KMem (option Z * LaflexPageTable) :=
  match idxs with
  | [] => mret (None, pt)
  | idx :: rest =>
      let pte := pte_array_addr ppn idx in
      if i =? 3 then mret (Some pte, pt)
      else
        s ← kget;
        valid ← klift (la_is_valid (load64 (km_mem s) pte));
        pt' ← (if negb valid then
                 o ← frame_alloc;
                 frame ← kunwrap o;
                 write_pte pte (la_pte_new frame LA_V) ;;
                 mret (mkLaflex (la_root_ppn pt) (vec_push (la_frames pt) frame))
               else mret pt);
        s' ← kget;
        la_walk_create rest (i + 1) (pa_floor (pa_from_usize (Z.lor (wshl (la_pte_ppn (load64 (km_mem s') pte)) 12) MEMORY_HIGH_BASE))) pt'
  end.

Definition la_find_pte_create (pt : LaflexPageTable) (vpn : Z) : K KMem (option Z * LaflexPageTable) :=
  la_walk_create (vpn_indexes vpn) 0 (get_root_ppn pt) pt.

(** The flags that [map] gives an entry. *)
Definition la_map_flags (flags : Z) : Z :=
  let flag := Z.lor LA_V LA_MAT_CC in
  let flag := if negb (has_perm flags PERM_R) then Z.lor flag LA_NR else flag in
  let flag := if negb (has_perm flags PERM_X) then Z.lor flag LA_NX else flag in
  let flag := if has_perm flags PERM_W then Z.lor flag LA_W else flag in
  if has_perm flags PERM_U then Z.lor flag LA_PLV3 else flag.

Definition la_map (pt : LaflexPageTable) (vpn ppn flags : Z) : K KMem LaflexPageTable :=
  '(o, pt') ← la_find_pte_create pt vpn;
  pte ← kunwrap o;
  write_pte pte (la_pte_new ppn (la_map_flags flags)) ;;
  mret pt'.

(** ** Entries *)

Context (HP : 12 <= PALEN <= 61).

Lemma ppn_mask_testbit i : 0 <= i → Z.testbit PPN_MASK i = (12 <=? i) && (i <? PALEN).
Proof using HP.
  intros Hi. unfold PPN_MASK. change (wnot (wshl 1 12 -w 1)) with (Z.ldiff (Z.ones 64) (Z.ones 12)).
  assert (2 ^ PALEN <= 2 ^ 61) by (apply Z.pow_le_mono_r; lia). assert (0 < 2 ^ PALEN) by (apply Z.pow_pos_nonneg; lia).
  assert (wshl 1 PALEN -w 1 = Z.ones PALEN) as ->.
  { unfold wshl, wsub, wrap64. rewrite Z.shiftl_1_l, Z.ones_equiv, (Z.mod_small (2 ^ PALEN)), Z.mod_small by lia. lia. }
  rewrite Z.land_spec, Z.ldiff_spec, !Z.testbit_ones_nonneg by lia.
  destruct (Z.ltb_spec i PALEN), (Z.ltb_spec i 64), (Z.ltb_spec i 12), (Z.leb_spec 12 i); try lia; done.
Qed.

(** No flag lies where the frame number is. *)
Lemma flags_off_ppn bits : from_bits la_flags_all bits = Some bits → Z.land bits PPN_MASK = 0.
Proof using HP.
  unfold from_bits. destruct (Z.eqb_spec (Z.land bits (Z.lnot la_flags_all)) 0) as [Hz|]; [|done]. intros _.
  assert (Hall : Z.land bits la_flags_all = bits).
  { rewrite <- Z.ldiff_land in Hz. apply Z.bits_inj'. intros i Hi. apply (f_equal (λ z, Z.testbit z i)) in Hz.
    rewrite Z.ldiff_spec, Z.bits_0 in Hz. rewrite Z.land_spec. by destruct (Z.testbit bits i), (Z.testbit la_flags_all i). }
  assert (HM : Z.land (2 ^ 61 - 4096) PPN_MASK = PPN_MASK).
  { change (2 ^ 61 - 4096) with (Z.ldiff (Z.ones 61) (Z.ones 12)). apply Z.bits_inj'. intros i Hi.
    rewrite Z.land_spec, Z.ldiff_spec, !Z.testbit_ones_nonneg, ppn_mask_testbit by lia.
    destruct (Z.ltb_spec i PALEN), (Z.ltb_spec i 61), (Z.ltb_spec i 12), (Z.leb_spec 12 i); try lia; done. }
  rewrite <- Hall, <- HM, Z.land_assoc, <- (Z.land_assoc bits). change (Z.land la_flags_all (2 ^ 61 - 4096)) with 0. by rewrite Z.land_0_r.
Qed.

Lemma la_ppn_new ppn flags :
  0 <= ppn < 2 ^ (PALEN - 12) → from_bits la_flags_all flags = Some flags → la_pte_ppn (la_pte_new ppn flags) = ppn.
Proof using HP.
  intros Hp Hf%flags_off_ppn. unfold la_pte_ppn, la_pte_new. rewrite Z.land_lor_distr_l, Hf, Z.lor_0_r, <- Z.land_assoc, Z.land_diag.
  assert (Hlt : ppn * 2 ^ 12 < 2 ^ PALEN).
  { replace PALEN with ((PALEN - 12) + 12) by lia. rewrite Z.pow_add_r by lia. apply Z.mul_lt_mono_pos_r; lia. }
  assert (2 ^ PALEN <= 2 ^ 61) by (apply Z.pow_le_mono_r; lia).
  unfold wshl. rewrite Z.shiftl_mul_pow2 by lia. unfold wrap64. rewrite Z.mod_small by lia. rewrite <- Z.shiftl_mul_pow2 by lia.
  rewrite Z.shiftr_land, Z.shiftr_shiftl_l by lia. rewrite Z.sub_diag, Z.shiftl_0_r.
  apply Z.bits_inj'. intros i Hi. rewrite Z.land_spec, Z.shiftr_spec, ppn_mask_testbit by lia.
  destruct (Z.ltb_spec (i + 12) PALEN) as [|Hge]; [rewrite (proj2 (Z.leb_le 12 _)) by lia; apply andb_true_r|].
  rewrite andb_false_r, andb_false_r. symmetry. destruct (decide (ppn = 0)) as [->|]; [apply Z.bits_0|]. apply Z.bits_above_log2; [lia|].
  assert (Z.log2 ppn < PALEN - 12) by (apply Z.log2_lt_pow2; lia). lia.
Qed.

(** [flags] fails on every entry that holds the number of a frame. *)
Lemma la_flags_panics ppn flags :
  0 < ppn < 2 ^ (PALEN - 12) → from_bits la_flags_all flags = Some flags → la_pte_flags (la_pte_new ppn flags) = Panic.
Proof using HP.
  intros Hp Hf. pose proof (la_ppn_new ppn flags ltac:(lia) Hf) as Hn. unfold la_pte_flags.
  destruct (from_bits la_flags_all (la_pte_new ppn flags)) as [b|] eqn:E; [|done].
  assert (b = la_pte_new ppn flags) as -> by (unfold from_bits in E; destruct (_ =? 0); congruence).
  apply flags_off_ppn in E. unfold la_pte_ppn in Hn. rewrite E in Hn. change (Z.shiftr 0 12) with 0 in Hn. lia.
Qed.

(** ** Walks *)

(** With three indexes the walk does not come to the fourth level. *)
Lemma la_walk_none idxs : ∀ i ppn pt s, i + length idxs <= 3 → wlp (la_walk_create idxs i ppn pt) s (λ r _, r.1 = None).
Proof using.
  induction idxs as [|idx rest IH]; intros i ppn pt s Hi; [done|]. cbn [la_walk_create].
  simpl in Hi. rewrite (proj2 (Z.eqb_neq i 3)) by lia. do 3 (apply wlp_bind, wlp_intro; intros ? ? _).
  apply wlp_bind, wlp_get. apply IH. lia.
Qed.

Lemma la_map_panics pt vpn ppn flags s : la_map pt vpn ppn flags s = Panic.
Proof using.
  destruct (la_map pt vpn ppn flags s) as [[pt' s']|] eqn:E; [|done]. exfalso.
  refine (wlp_done (la_map pt vpn ppn flags) s (λ _ _, False) _ _ _ E). unfold la_map, la_find_pte_create.
  apply wlp_bind. eapply wlp_mono; [by apply la_walk_none|]. intros [o pt1] s1 Ho. simpl in Ho. subst o. by apply wlp_bind, wlp_unwrap.
Qed.

(** Changing the permission changes the three bits of it and no other. *)
Lemma la_set_permission_bits bits flags i :
  0 <= bits < 2 ^ 64 → 0 <= i < 64 →
  Z.testbit (la_set_permission bits flags) i =
    if i =? 61 then negb (has_perm flags PERM_R) else if i =? 62 then negb (has_perm flags PERM_X)
    else if i =? 8 then has_perm flags PERM_W else Z.testbit bits i.
Proof using.
  intros Hb Hi. assert (Hn : ∀ k b, 0 <= k < 64 → Z.testbit (Z.land b (wnot (Z.shiftl 1 k))) i = Z.testbit b i && negb (i =? k)).
  { intros k b Hk. rewrite Z.land_spec. f_equal. rewrite Z.shiftl_1_l.
    assert (wnot (2 ^ k) = Z.ldiff (Z.ones 64) (2 ^ k)) as ->.
    { unfold wnot. change (2 ^ 64 - 1) with (Z.ones 64). apply Z.sub_nocarry_ldiff. apply Z.bits_inj'. intros j Hj.
      rewrite Z.ldiff_spec, Z.testbit_ones_nonneg, Z.bits_0, Z.pow2_bits_eqb by lia.
      destruct (Z.eqb_spec k j); [|done]. by rewrite (proj2 (Z.ltb_lt _ _)) by lia. }
    rewrite Z.ldiff_spec, Z.testbit_ones_nonneg, Z.pow2_bits_eqb, (proj2 (Z.ltb_lt i 64)) by lia. by rewrite (Z.eqb_sym k i). }
  assert (Ho : ∀ k b, 0 <= k → Z.testbit (Z.lor b (Z.shiftl 1 k)) i = Z.testbit b i || (i =? k)).
  { intros k b Hk. rewrite Z.lor_spec, Z.shiftl_1_l, Z.pow2_bits_eqb by lia. by rewrite (Z.eqb_sym k i). }
  unfold la_set_permission, LA_NR, LA_NX, LA_W. change (64 - 3) with 61. change (64 - 2) with 62.
  destruct (has_perm flags PERM_R), (has_perm flags PERM_X), (has_perm flags PERM_W);
    repeat first [rewrite Hn by lia|rewrite Ho by lia];
    destruct (Z.eqb_spec i 61), (Z.eqb_spec i 62), (Z.eqb_spec i 8); try lia;
    cbn [negb]; by rewrite ?andb_true_r, ?andb_false_r, ?orb_true_r, ?orb_false_r, ?andb_true_r, ?andb_false_r.
Qed.

(** A LoongArch entry made of a frame number and flags gives the frame number
    back, and a change of permission changes only the three bits of it; but every
    question about such an entry ([is_valid], [readable], [writable], [executable],
    [is_dirty]) panics, because the whole word is taken for flags, and [map] panics
    in every state and for every page, because the walk asks for a fourth index
    that there is not. *)
Theorem laflex_entry_errors ppn flags perm :
  0 < ppn < 2 ^ (PALEN - 12) → from_bits la_flags_all flags = Some flags → 0 <= la_pte_new ppn flags < 2 ^ 64 →
  let e := la_pte_new ppn flags in
  la_pte_ppn e = ppn ∧ la_pte_ppn (la_set_permission e perm) = ppn ∧
  la_is_valid e = Panic ∧ la_readable e = Panic ∧ la_writable e = Panic ∧ la_executable e = Panic ∧ la_is_dirty e = Panic ∧
  ∀ pt vpn s, la_map pt vpn ppn perm s = Panic.
Proof using HP.
  intros Hp Hf Hr e. pose proof (la_flags_panics ppn flags Hp Hf) as Hpan. pose proof (la_ppn_new ppn flags ltac:(lia) Hf) as Hn.
  unfold la_is_valid, la_readable, la_writable, la_executable, la_is_dirty. fold e in Hpan, Hn. rewrite Hpan.
  split; [done|]. split; [|do 5 (split; [done|]); intros; apply la_map_panics].
  transitivity (la_pte_ppn e); [|exact Hn]. unfold la_pte_ppn. f_equal. apply Z.bits_inj'. intros i Hi. rewrite !Z.land_spec, ppn_mask_testbit by done.
  destruct (Z.leb_spec 12 i), (Z.ltb_spec i PALEN); [|by rewrite ?andb_false_l, ?andb_false_r..]. rewrite la_set_permission_bits by lia.
  destruct (Z.eqb_spec i 61), (Z.eqb_spec i 62), (Z.eqb_spec i 8); try lia; done.
Qed.
End laflex.

Lemma laflex_entry_errors_witness :
  la_pte_ppn 48 (la_pte_new 48 0x80200 (la_map_flags PERM_R)) = 0x80200 ∧ la_is_valid (la_pte_new 48 0x80200 (la_map_flags PERM_R)) = Panic.
Proof.
  destruct (laflex_entry_errors 48 0x9000000000000000 ltac:(lia) 0x80200 (la_map_flags PERM_R) PERM_R) as (H1&_&H2&_);
    [vm_compute; split; congruence|reflexivity|vm_compute; split; congruence|]. split; [exact H1|exact H2].
Defined.
