(* ===== verification/Process.v ===== *)
(** * Processes: creation, exit and wait
    ([os/src/task/process.rs], [os/src/task/mod.rs], [os/src/task/manager.rs],
    [os/src/syscall/process.rs])

    An [Arc<ProcessControlBlock>] is a process id into the table of control
    blocks.  Strong references are kept by the lists of children and by
    [PID2PCB]; the last one that goes drops the block, and dropping the
    [PidHandle] returns the id.  The address space, the threads and the
    descriptors are modelled in other files. *)

From S2P Require Import Prelude IdAlloc Timer FdTable.

Notation str := (list Z).

(** ** Data *)

Record PCB := mkPCB {
  is_zombie : bool;
  parent : option Z;
  children : list Z;
  exit_code : Z;
  cwd : str;
  fd_table : list (option nat);
  rusage : Rusage;
  tgid : Z;
}.

Record Procs := mkProcs {
  ps_pcbs : gmap Z PCB;
  ps_pid2pcb : gset Z;
  ps_pids : RecycleAllocator;
}.

Definition IDLE_PID : Z := 0.

Definition set_pcbs (m : gmap Z PCB) (s : Procs) : Procs := mkProcs m (ps_pid2pcb s) (ps_pids s).
Definition set_pid2pcb (m : gset Z) (s : Procs) : Procs := mkProcs (ps_pcbs s) m (ps_pids s).
Definition set_pids (a : RecycleAllocator) (s : Procs) : Procs := mkProcs (ps_pcbs s) (ps_pid2pcb s) a.

Definition with_zombie (code : Z) (p : PCB) : PCB :=
  mkPCB true (parent p) (children p) code (cwd p) (fd_table p) (rusage p) (tgid p).
Definition with_parent (q : Z) (p : PCB) : PCB :=
  mkPCB (is_zombie p) (Some q) (children p) (exit_code p) (cwd p) (fd_table p) (rusage p) (tgid p).
Definition with_children (l : list Z) (p : PCB) : PCB :=
  mkPCB (is_zombie p) (parent p) l (exit_code p) (cwd p) (fd_table p) (rusage p) (tgid p).
Definition with_fds (l : list (option nat)) (p : PCB) : PCB :=
  mkPCB (is_zombie p) (parent p) (children p) (exit_code p) (cwd p) l (rusage p) (tgid p).
Definition with_rusage (r : Rusage) (p : PCB) : PCB :=
  mkPCB (is_zombie p) (parent p) (children p) (exit_code p) (cwd p) (fd_table p) r (tgid p).

Definition on_pcb (p : Z) (f : PCB → PCB) : K Procs unit := kmodify (λ s, set_pcbs (alter f p (ps_pcbs s)) s).
Definition get_pcb (p : Z) : K Procs PCB := s ← kget; kunwrap (ps_pcbs s !! p).

(** ** [PID2PCB] *)

Definition pid2process (pid : Z) (s : Procs) : option Z := if decide (pid ∈ ps_pid2pcb s) then Some pid else None.
Definition insert_into_pid2process (pid : Z) : K Procs unit := kmodify (λ s, set_pid2pcb ({[pid]} ∪ ps_pid2pcb s) s).
Definition remove_from_pid2process (pid : Z) : K Procs unit :=
  s ← kget;
  if decide (pid ∈ ps_pid2pcb s) then kput (set_pid2pcb (ps_pid2pcb s ∖ {[pid]}) s) else kpanic.

Definition pid_alloc : K Procs Z :=
  s ← kget;
  let '(pid, a) := ra_alloc (ps_pids s) in
  kput (set_pids a s) ;;
  mret pid.

(** ** Creation *)

(** [ProcessControlBlock::new], the control block: standard input, output and
    error are open. *)
Definition pcb_new : K Procs Z :=
  pid ← pid_alloc;
  kmodify (λ s, set_pcbs (<[pid := mkPCB false None [] 0 [47] [Some 0%nat; Some 1%nat; Some 2%nat] rusage_new pid]>
                            (ps_pcbs s)) s) ;;
  insert_into_pid2process pid ;;
  mret pid.

(** [sys_clone] of process [me]; [exit_signal] is stored as the exit code. *)
Definition pcb_clone (me exit_signal : Z) : K Procs Z :=
  p ← get_pcb me;
  pid ← pid_alloc;
  let new_fd_table := copy_fd_table (fd_table p) in
  kmodify (λ s, set_pcbs (<[pid := mkPCB false (Some me) [] exit_signal (cwd p) new_fd_table rusage_new pid]> (ps_pcbs s)) s) ;;
  on_pcb me (λ p, with_children (children p ++ [pid]) p) ;;
  insert_into_pid2process pid ;;
  mret pid.

(** ** Exit *)

(** The children go to the initial process. *)
Definition reparent (initproc child : Z) : K Procs unit :=
  on_pcb child (with_parent initproc) ;;
  on_pcb initproc (λ p, with_children (children p ++ [child]) p).

(** [exit_current_and_run_next] when the main thread of process [pid] exits.
    The initial process has id [IDLE_PID]: its exit shuts the machine down. *)
Definition exit_process (initproc pid exit_code_ : Z) : K Procs unit :=
  if pid =? IDLE_PID then kpanic
  else
    remove_from_pid2process pid ;;
    on_pcb pid (with_zombie exit_code_) ;;
    p ← get_pcb pid;
    kassert (negb (pid =? initproc)) ;;
    kfor (children p) (reparent initproc) ;;
    on_pcb pid (with_children []) ;;
    on_pcb pid (with_fds []).

(** ** Wait *)

(** [Arc::strong_count], without references of running code. *)
Definition strong_count (s : Procs) (pid : Z) : nat :=
  sum_list ((λ q : Z * PCB, count_occ Z.eq_dec (children q.2) pid) <$> map_to_list (ps_pcbs s)) +
  (if decide (pid ∈ ps_pid2pcb s) then 1 else 0).

(** The last reference to [pid] goes: the block and its [PidHandle] are dropped. *)
Definition drop_pcb (pid : Z) : K Procs unit :=
  kmodify (λ s, set_pcbs (delete pid (ps_pcbs s)) s) ;;
  s ← kget;
  a ← klift (ra_dealloc (ps_pids s) pid);
  kput (set_pids a s).

Inductive WaitEnd :=
| WReturn (r : Z)
| WReaped (pid code : Z)
| WSuspend
| WAgain.

Definition WNOHANG : Z := 1.
Definition wait_options_all : Z := fold_left Z.lor [1; 2; 4; 8; 16777216] 0.

(** [pid == -1 || pid as usize == p.getpid()] *)
Definition wait_match (pid c : Z) : bool := (pid =? -1) || (wrap64 pid =? c).

(** One round of the loop of [sys_wait4] in process [me]. *)
Definition wait4_round (me pid option_ : Z) : K Procs WaitEnd :=
  inner ← get_pcb me;
  if negb (existsb (wait_match pid) (children inner)) then mret (WReturn (-1))
  else
    s ← kget;
    match list_find (λ c, option_map is_zombie (ps_pcbs s !! c) = Some true ∧ wait_match pid c = true)
            (children inner) with
    | Some (idx, child) =>
        on_pcb me (with_children (delete idx (children inner))) ;;
        s1 ← kget;
        kassert (Nat.eqb (strong_count s1 child) 0) ;;
        c ← get_pcb child;
        if child =? tgid c then
          on_pcb me (λ p, with_rusage (mkRU (ru_utime (rusage p)) (ru_stime (rusage p))
            (tv_add (ru_cutime (rusage p)) (ru_utime (rusage c)))
            (tv_add (ru_cstime (rusage p)) (ru_stime (rusage c)))) p) ;;
          drop_pcb child ;;
          mret (WReaped child (exit_code c))
        else drop_pcb child ;; mret WAgain
    | None => if Z.land option_ WNOHANG =? WNOHANG then mret (WReturn 0) else mret WSuspend
    end.

(** [sys_getppid]; the weak pointer to a dropped parent does not upgrade. *)
Definition sys_getppid (s : Procs) (me : Z) : option Z :=
  p ← ps_pcbs s !! me;
  match parent p with
  | None => Some 0
  | Some q => match ps_pcbs s !! q with Some _ => Some q | None => Some 0 end
  end.
