(* ===== verification/ProcessProps.v ===== *)
(** * The tree of processes

    Its invariant, that creation, exit and wait keep it, and what follows: no
    assertion of [sys_wait4] fails, a zombie is reaped exactly once and by its
    parent, and orphans belong to the initial process. *)

From S2P Require Import Prelude IdAlloc Timer FdTable Process.

Record forest (init : Z) (s : Procs) : Prop := {
  fo_init : ∃ p, ps_pcbs s !! init = Some p ∧ is_zombie p = false ∧ parent p = None;
  fo_child q p c : ps_pcbs s !! q = Some p →
    c ∈ children p ↔ ∃ pc, ps_pcbs s !! c = Some pc ∧ parent pc = Some q;
  fo_nodup q p : ps_pcbs s !! q = Some p → NoDup (children p);
  fo_parent c p : ps_pcbs s !! c = Some p → c ≠ init → ∃ q, parent p = Some q ∧ is_Some (ps_pcbs s !! q);
  fo_zombie q p : ps_pcbs s !! q = Some p → is_zombie p = true → children p = [];
  fo_live c : c ∈ ps_pid2pcb s ↔ ∃ p, ps_pcbs s !! c = Some p ∧ is_zombie p = false;
  fo_depth : ∃ d : Z → nat, d init = 0%nat ∧ ∀ c p q, ps_pcbs s !! c = Some p → parent p = Some q → (d q < d c)%nat;
  fo_tgid c p : ps_pcbs s !! c = Some p → tgid p = c;
  fo_pids : ra_wf (ps_pids s) ∧ ∀ c, ra_live (ps_pids s) c ↔ is_Some (ps_pcbs s !! c);
}.

(** The strong references to a block are where they should be. *)
Lemma sum_zero (l : list nat) : (∀ x, x ∈ l → x = 0%nat) → sum_list l = 0%nat.
Proof.
  induction l as [|x l IH]; intros Hl; simpl; [done|]. rewrite (Hl x) by left. apply IH. intros y Hy. apply Hl. by right.
Qed.

Lemma strong_count_zero s c :
  c ∉ ps_pid2pcb s → (∀ q p, ps_pcbs s !! q = Some p → c ∉ children p) → strong_count s c = 0%nat.
Proof.
  intros Hn Hc. unfold strong_count. rewrite decide_False by done. rewrite sum_zero; [done|].
  intros x ([q p]&->&Hq)%list_elem_of_fmap. simpl. apply count_occ_not_In. rewrite <- list_elem_of_In.
  apply (Hc q). by apply elem_of_map_to_list.
Qed.

(** A process without a block is nobody's parent or child. *)
Lemma forest_absent init s x :
  forest init s → ps_pcbs s !! x = None →
  x ≠ init ∧ (∀ c pc, ps_pcbs s !! c = Some pc → parent pc ≠ Some x) ∧ (∀ q p, ps_pcbs s !! q = Some p → x ∉ children p).
Proof.
  intros F Hx. destruct (fo_init _ _ F) as (p0&Hp0&_&Hpar0). split; [congruence|]. split.
  - intros c pc Hc Hpar. destruct (decide (c = init)) as [->|Hne]; [congruence|].
    destruct (fo_parent _ _ F c pc Hc Hne) as (q&Hq&[y Hy]). congruence.
  - intros q p Hq Hin. apply (fo_child _ _ F q p x Hq) in Hin as (pc&Hpc&_). congruence.
Qed.

(** What a process table is after [me] got the new child [pid]. *)
Definition child_added (s s' : Procs) (me pid : Z) (p new : PCB) : Prop :=
  ps_pcbs s' = <[me := with_children (children p ++ [pid]) p]> (<[pid := new]> (ps_pcbs s)) ∧
  ps_pid2pcb s' = {[pid]} ∪ ps_pid2pcb s ∧ ra_wf (ps_pids s') ∧
  (∀ x, ra_live (ps_pids s') x ↔ x = pid ∨ ra_live (ps_pids s) x).

(** A block after [child_added] is the new one or an old one, [pid] appended
    to the children of [me]. *)
Lemma child_added_blocks s s' me pid p new :
  ps_pcbs s !! me = Some p → ps_pcbs s !! pid = None → child_added s s' me pid p new →
  ps_pcbs s' !! pid = Some new ∧
  ∀ q, q ≠ pid → ps_pcbs s' !! q = (λ x, if decide (q = me) then with_children (children x ++ [pid]) x else x) <$> ps_pcbs s !! q.
Proof.
  intros Hme Hpid (->&_). assert (pid ≠ me) by congruence. split; [by rewrite lookup_insert_ne, lookup_insert_eq|].
  intros q Hq. case_decide as Hm; [subst q; by rewrite lookup_insert_eq, Hme|].
  rewrite !lookup_insert_ne by done. by destruct (ps_pcbs s !! q).
Qed.

Lemma forest_child_added init s s' me pid p new :
  forest init s → ps_pcbs s !! me = Some p → is_zombie p = false → ps_pcbs s !! pid = None →
  parent new = Some me → children new = [] → is_zombie new = false → tgid new = pid →
  child_added s s' me pid p new → forest init s'.
Proof.
  intros F Hme Hz Hpid Hn1 Hn2 Hn3 Hn4 Hadd. destruct (forest_absent init s pid F Hpid) as (Hne&Hnp&Hnc).
  destruct (child_added_blocks _ _ _ _ _ _ Hme Hpid Hadd) as [Hlp Hlo]. destruct Hadd as (_&H2'&Hwf'&Hlive').
  destruct (fo_pids _ _ F) as [Hwf Hlive]. assert (Hpm : pid ≠ me) by congruence.
  (* the blocks but the new one, in both directions *)
  assert (Hold : ∀ q y, ps_pcbs s' !! q = Some y → q ≠ pid → ∃ x, ps_pcbs s !! q = Some x ∧ parent y = parent x ∧
            is_zombie y = is_zombie x ∧ tgid y = tgid x ∧ children y = if decide (q = me) then children x ++ [pid] else children x).
  { intros q y Hq Hn. rewrite Hlo in Hq by done. apply fmap_Some in Hq as (x&Hx&->). exists x. by case_decide. }
  assert (Hnew : ∀ q x, ps_pcbs s !! q = Some x → q ≠ pid ∧
            ∃ y, ps_pcbs s' !! q = Some y ∧ parent y = parent x ∧ is_zombie y = is_zombie x).
  { intros q x Hq. assert (q ≠ pid) by congruence. rewrite Hlo, Hq by done. split; [done|]. eexists. split; [done|]. by case_decide. }
  assert (Hpar : ∀ c q, (∃ pc, ps_pcbs s' !! c = Some pc ∧ parent pc = Some q) ↔
            (c = pid ∧ q = me) ∨ ∃ pc, ps_pcbs s !! c = Some pc ∧ parent pc = Some q).
  { intros c q. split.
    - intros (pc&Hc&Hq). destruct (decide (c = pid)) as [->|Hcp]; [left; split; congruence|right].
      destruct (Hold c pc Hc Hcp) as (x&Hx&Hpx&_). exists x. split; congruence.
    - intros [[-> ->]|(pc&Hc&Hq)]; [by exists new|]. destruct (Hnew c pc Hc) as (_&y&Hy&Hpy&_). exists y. split; congruence. }
  clear Hlo. split.
  - destruct (fo_init _ _ F) as (p0&Hp0&Hz0&Hpar0). destruct (Hnew init p0 Hp0) as (_&y&Hy&H1&H2). exists y. split_and!; congruence.
  - intros q y c Hq. rewrite Hpar. destruct (decide (q = pid)) as [->|Hqp].
    + assert (y = new) as -> by congruence. rewrite Hn2, elem_of_nil. naive_solver.
    + destruct (Hold q y Hq Hqp) as (x&Hx&_&_&_&->). rewrite <- (fo_child _ _ F q x c Hx).
      case_decide; [rewrite elem_of_app, list_elem_of_singleton|]; naive_solver.
  - intros q y Hq. destruct (decide (q = pid)) as [->|Hqp]; [assert (y = new) as -> by congruence; rewrite Hn2; constructor|].
    destruct (Hold q y Hq Hqp) as (x&Hx&_&_&_&->). pose proof (fo_nodup _ _ F q x Hx). case_decide; [|done].
    apply NoDup_app. split; [done|]. split; [|apply NoDup_singleton]. intros z Hzc ->%list_elem_of_singleton. by apply (Hnc q x).
  - intros c y Hc Hci. destruct (decide (c = pid)) as [->|Hcp].
    + exists me. destruct (Hnew me p Hme) as (_&z&->&_). split; [congruence|done].
    + destruct (Hold c y Hc Hcp) as (x&Hx&->&_). destruct (fo_parent _ _ F c x Hx Hci) as (q&Hq&[z Hzq]).
      exists q. destruct (Hnew q z Hzq) as (_&y'&->&_). done.
  - intros q y Hq Hzy. destruct (decide (q = pid)) as [->|Hqp]; [congruence|].
    destruct (Hold q y Hq Hqp) as (x&Hx&_&Hzx&_&->). case_decide as Hqm; [congruence|]. apply (fo_zombie _ _ F q x); congruence.
  - intros c. rewrite H2', elem_of_union, elem_of_singleton, (fo_live _ _ F c). split.
    + intros [->|(x&Hx&Hzx)]; [by exists new|]. destruct (Hnew c x Hx) as (_&y&Hy&_&Hzy). exists y. split; congruence.
    + intros (y&Hy&Hzy). destruct (decide (c = pid)) as [->|Hcp]; [by left|right].
      destruct (Hold c y Hy Hcp) as (x&Hx&_&Hzx&_). exists x. split; congruence.
  - destruct (fo_depth _ _ F) as (d&Hd0&Hd). exists (λ x, if decide (x = pid) then S (d me) else d x).
    rewrite decide_False by done. split; [done|]. intros c y q Hc Hq.
    destruct (proj1 (Hpar c q)) as [[-> ->]|(x&Hx&Hqx)]; [by exists y|rewrite (decide_False (P := me = pid)), decide_True by done; lia|].
    destruct (Hnew c x Hx) as (Hcp&_). rewrite decide_False by (intros ->; by apply (Hnp c x)).
    rewrite decide_False by done. by apply (Hd c x).
  - intros c y Hc. destruct (decide (c = pid)) as [->|Hcp]; [congruence|].
    destruct (Hold c y Hc Hcp) as (x&Hx&_&_&Ht&_). rewrite Ht. by apply (fo_tgid _ _ F).
  - split; [done|]. intros c. rewrite Hlive', Hlive. split; [intros [->|[x Hx]]; [by rewrite Hlp|]|intros [y Hy]].
    + by destruct (Hnew c x Hx) as (_&y&->&_).
    + destruct (decide (c = pid)) as [->|Hcp]; [by left|right]. by destruct (Hold c y Hy Hcp) as (x&->&_).
Qed.

Lemma clone_wp init s me sig p :
  forest init s → ps_pcbs s !! me = Some p → is_zombie p = false → ra_room (ps_pids s) →
  wp (pcb_clone me sig) s (λ pid s', forest init s' ∧ ps_pcbs s !! pid = None ∧
    child_added s s' me pid p (mkPCB false (Some me) [] sig (cwd p) (fd_table p) rusage_new pid)).
Proof.
  intros F Hme Hz Hroom. unfold pcb_clone, get_pcb, pid_alloc. wp_steps. eapply wp_unwrap; [exact Hme|]. wp_steps.
  destruct (fo_pids _ _ F) as [Hwf Hlive]. destruct (ra_alloc (ps_pids s)) as [pid a'] eqn:Ea.
  destruct (ra_alloc_fresh _ _ _ Hwf Hroom Ea) as (Hwf'&Hfresh&Hlive'). unfold on_pcb, insert_into_pid2process. wp_steps.
  assert (Hpid : ps_pcbs s !! pid = None) by (rewrite Hlive in Hfresh; by apply eq_None_not_Some).
  rewrite copy_fd_table_eq.
  match goal with |- forest _ ?t ∧ _ => set (s' := t) end.
  assert (Hadd : child_added s s' me pid p (mkPCB false (Some me) [] sig (cwd p) (fd_table p) rusage_new pid)).
  { split_and!; [|done..]. apply map_eq. intros q. simpl. destruct (decide (q = me)) as [->|Hq].
    - by rewrite lookup_alter_eq, lookup_insert_eq, lookup_insert_ne, Hme by congruence.
    - by rewrite lookup_alter_ne, (lookup_insert_ne _ me) by done. }
  split; [by refine (forest_child_added init s s' me pid p _ F Hme Hz Hpid _ _ _ _ Hadd)|done].
Qed.

(** ** Exit *)

(** The block of [q] after the processes in [cs] became children of [init]. *)
Definition adopt (init : Z) (cs : list Z) (q : Z) (x : PCB) : PCB :=
  let x1 := if decide (q ∈ cs) then with_parent init x else x in
  if decide (q = init) then with_children (children x1 ++ cs) x1 else x1.

Lemma adopt_nil init q x : adopt init [] q x = x.
Proof.
  unfold adopt. rewrite (decide_False (P := q ∈ [])) by apply not_elem_of_nil. case_decide; [|done].
  destruct x; unfold with_children; simpl. by rewrite app_nil_r.
Qed.

Lemma adopt_snoc init cs c q x :
  adopt init (cs ++ [c]) q x =
  let y := adopt init cs q x in
  let z := if decide (q = c) then with_parent init y else y in
  if decide (q = init) then with_children (children z ++ [c]) z else z.
Proof.
  unfold adopt. simpl. destruct (decide (q ∈ cs ++ [c])) as [Hin|Hin]; rewrite elem_of_app, list_elem_of_singleton in Hin;
    destruct (decide (q ∈ cs)), (decide (q = c)), (decide (q = init)); try tauto;
    destruct x; unfold with_children, with_parent; simpl; by rewrite ?app_assoc.
Qed.

Lemma lookup_alter_fmap (f : PCB → PCB) i q (m : gmap Z PCB) :
  alter f i m !! q = (λ x, if decide (q = i) then f x else x) <$> m !! q.
Proof.
  case_decide as Hq; [subst q; by rewrite lookup_alter_eq|rewrite lookup_alter_ne by done; by destruct (m !! q)].
Qed.

Lemma reparent_loop init cs s :
  wp (kfor cs (reparent init)) s (λ _ s', ps_pid2pcb s' = ps_pid2pcb s ∧ ps_pids s' = ps_pids s ∧
    ∀ q, ps_pcbs s' !! q = adopt init cs q <$> ps_pcbs s !! q).
Proof.
  apply (wp_kfor (λ pre s', ps_pid2pcb s' = ps_pid2pcb s ∧ ps_pids s' = ps_pids s ∧
    ∀ q, ps_pcbs s' !! q = adopt init pre q <$> ps_pcbs s !! q) (reparent init) cs [] s).
  - intros pre c post s' _ (H1&H2&H3). unfold reparent, on_pcb. wp_steps. split_and!; [done..|]. intros q. simpl.
    rewrite !lookup_alter_fmap, H3. destruct (ps_pcbs s !! q); simpl; [|done]. by rewrite adopt_snoc.
  - split_and!; [done..|]. intros q. destruct (ps_pcbs s !! q) as [x|]; simpl; [by rewrite adopt_nil|done].
Qed.

(** What a process table is after [pid] exited with [code]. *)
Definition exited (init : Z) (s s' : Procs) (pid code : Z) (p : PCB) : Prop :=
  ps_pcbs s' !! pid = Some (mkPCB true (parent p) [] code (cwd p) [] (rusage p) (tgid p)) ∧
  (∀ q, q ≠ pid → ps_pcbs s' !! q = adopt init (children p) q <$> ps_pcbs s !! q) ∧
  ps_pid2pcb s' = ps_pid2pcb s ∖ {[pid]} ∧ ps_pids s' = ps_pids s.

Lemma forest_no_self init s pid p : forest init s → ps_pcbs s !! pid = Some p → pid ∉ children p ∧ init ∉ children p.
Proof.
  intros F Hp. split; intros (pc&Hpc&Hpar)%(fo_child _ _ F pid p _ Hp).
  - destruct (fo_depth _ _ F) as (d&_&Hd). specialize (Hd pid pc pid Hpc Hpar). lia.
  - destruct (fo_init _ _ F) as (p0&Hp0&_&Hpar0). congruence.
Qed.

Lemma exit_wp init s pid code p :
  forest init s → ps_pcbs s !! pid = Some p → is_zombie p = false → pid ≠ init → pid ≠ IDLE_PID →
  wp (exit_process init pid code) s (λ _ s', exited init s s' pid code p).
Proof.
  intros F Hp Hz Hinit Hidle. unfold exit_process. rewrite (proj2 (Z.eqb_neq pid IDLE_PID)) by done.
  unfold remove_from_pid2process, get_pcb. wp_steps.
  rewrite decide_True by (apply (fo_live _ _ F); by exists p). unfold on_pcb. wp_steps.
  eapply wp_unwrap; [simpl; rewrite lookup_alter_eq, Hp; done|]. wp_steps.
  apply wp_assert; [by apply negb_true_iff, Z.eqb_neq|]. wp_steps.
  eapply wp_mono; [apply reparent_loop|]. intros [] s1 (H1&H2&H3). wp_steps.
  destruct (forest_no_self init s pid p F Hp) as [Hself _]. split_and!; simpl.
  - rewrite !lookup_alter_eq, H3. simpl. rewrite lookup_alter_eq, Hp. simpl. unfold adopt. simpl.
    rewrite !decide_False by done. done.
  - intros q Hq. rewrite !lookup_alter_ne, H3 by done. simpl. by rewrite lookup_alter_ne by done.
  - done.
  - done.
Qed.

Lemma adopt_fields init cs q x :
  is_zombie (adopt init cs q x) = is_zombie x ∧ tgid (adopt init cs q x) = tgid x ∧
  parent (adopt init cs q x) = (if decide (q ∈ cs) then Some init else parent x) ∧
  children (adopt init cs q x) = (if decide (q = init) then children x ++ cs else children x).
Proof. unfold adopt. by repeat case_decide. Qed.

Lemma forest_exited init s s' pid code p :
  forest init s → ps_pcbs s !! pid = Some p → is_zombie p = false → pid ≠ init →
  exited init s s' pid code p → forest init s'.
Proof.
  intros F Hp Hz Hi (Hpid'&Hoth&H2'&Ha'). destruct (forest_no_self init s pid p F Hp) as [Hself Hini].
  destruct (fo_pids _ _ F) as [Hwf Hlive]. destruct (fo_init _ _ F) as (p0&Hp0&Hz0&Hpar0).
  (* each block: which fields changed *)
  assert (Hold : ∀ q y, ps_pcbs s' !! q = Some y → ∃ x, ps_pcbs s !! q = Some x ∧ tgid y = tgid x ∧
    is_zombie y = bool_decide (q = pid) || is_zombie x ∧
    parent y = (if decide (q ∈ children p) then Some init else parent x) ∧
    children y = (if decide (q = pid) then [] else if decide (q = init) then children x ++ children p else children x)).
  { intros q y Hq. destruct (decide (q = pid)) as [->|Hqp].
    - exists p. rewrite bool_decide_true, decide_False by done. rewrite Hpid' in Hq. by injection Hq as <-.
    - rewrite Hoth in Hq by done. apply fmap_Some in Hq as (x&Hx&->). exists x.
      destruct (adopt_fields init (children p) q x) as (?&?&?&?). rewrite bool_decide_false by done. done. }
  assert (Hnew : ∀ q x, ps_pcbs s !! q = Some x → ∃ y, ps_pcbs s' !! q = Some y).
  { intros q x Hq. destruct (decide (q = pid)) as [->|Hqp]; [by eexists|]. rewrite Hoth, Hq by done. by eexists. }
  assert (Hcp : ∀ c, c ∈ children p → ∃ x, ps_pcbs s !! c = Some x ∧ parent x = Some pid) by (intros c; apply (fo_child _ _ F pid p c Hp)).
  assert (Hpar : ∀ c q, (∃ pc, ps_pcbs s' !! c = Some pc ∧ parent pc = Some q) ↔
            (c ∈ children p ∧ q = init) ∨ (q ≠ pid ∧ ∃ pc, ps_pcbs s !! c = Some pc ∧ parent pc = Some q)).
  { intros c q. split.
    - intros (pc&Hc&Hq). destruct (Hold c pc Hc) as (x&Hx&_&_&Hpx&_). case_decide as Hin; [left; split; congruence|right].
      split; [|exists x; split; congruence]. intros ->. apply Hin, (fo_child _ _ F pid p c Hp). exists x. split; congruence.
    - intros H. assert (Hx : ∃ x, ps_pcbs s !! c = Some x) by (destruct H as [[?%Hcp _]|(_&x&?&_)]; naive_solver).
      destruct Hx as [x Hx]. destruct (Hnew c x Hx) as [y Hy]. exists y. split; [done|].
      destruct (Hold c y Hy) as (x'&Hx'&_&_&->&_). case_decide as Hin; [|naive_solver].
      destruct H as [[_ ->]|(Hne&x''&Hx''&Hp'')]; [done|]. destruct (Hcp c Hin) as (z&?&?). congruence. }
  clear Hoth. split.
  - destruct (Hnew init p0 Hp0) as [y Hy]. exists y. split; [done|]. destruct (Hold init y Hy) as (x&Hx&_&->&->&_).
    assert (x = p0) as -> by congruence. by rewrite bool_decide_false, decide_False by done.
  - intros q y c Hq. rewrite Hpar. destruct (Hold q y Hq) as (x&Hx&_&_&_&->).
    case_decide as Hqp; [rewrite elem_of_nil; naive_solver|]. rewrite <- (fo_child _ _ F q x c Hx).
    case_decide; [rewrite elem_of_app|]; naive_solver.
  - intros q y Hq. destruct (Hold q y Hq) as (x&Hx&_&_&_&->). pose proof (fo_nodup _ _ F q x Hx).
    case_decide; [constructor|]. case_decide; [|done]. apply NoDup_app. split_and!; [done| |by apply (fo_nodup _ _ F pid)].
    intros z (z1&Hz1&Hz2)%(fo_child _ _ F q x z Hx) (z3&Hz3&Hz4)%Hcp. congruence.
  - intros c y Hc Hci. destruct (Hold c y Hc) as (x&Hx&_&_&->&_). case_decide; [exists init; split; [done|by eapply Hnew]|].
    destruct (fo_parent _ _ F c x Hx Hci) as (q&Hq&[z Hzq]). exists q. split; [done|by eapply Hnew].
  - intros q y Hq Hzy. destruct (Hold q y Hq) as (x&Hx&_&Hzx&_&->). case_decide as Hqp; [done|].
    rewrite bool_decide_false in Hzx by done. simpl in Hzx. destruct (decide (q = init)) as [->|_]; [congruence|]. apply (fo_zombie _ _ F q x); congruence.
  - intros c. rewrite H2', elem_of_difference, elem_of_singleton, (fo_live _ _ F c). split.
    + intros ((x&Hx&Hzx)&Hc). destruct (Hnew c x Hx) as [y Hy]. exists y. split; [done|].
      destruct (Hold c y Hy) as (x'&?&_&->&_). rewrite bool_decide_false by done. simpl. congruence.
    + intros (y&Hy&Hzy). destruct (Hold c y Hy) as (x&Hx&_&Hzx&_). rewrite Hzx in Hzy. apply orb_false_iff in Hzy as [H1 H2].
      apply bool_decide_eq_false in H1. split; [by exists x|done].
  - destruct (fo_depth _ _ F) as (d&Hd0&Hd). exists d. split; [done|]. intros c y q Hc Hq.
    destruct (proj1 (Hpar c q)) as [[Hin ->]|(_&x&Hx&Hqx)]; [by exists y| |by apply (Hd c x)].
    destruct (Hcp c Hin) as (x&Hx&Hqx). specialize (Hd c x pid Hx Hqx). lia.
  - intros c y Hc. destruct (Hold c y Hc) as (x&Hx&Ht&_). rewrite Ht. by apply (fo_tgid _ _ F).
  - rewrite Ha'. split; [done|]. intros c. rewrite Hlive. split; [intros [x Hx]; by eapply Hnew|intros [y Hy]].
    by destruct (Hold c y Hy) as (x&->&_).
Qed.

(** ** Wait *)

(** What a process table is after [me] reaped its child [c]. *)
Definition reaped (s s' : Procs) (me c : Z) (p' : PCB) : Prop :=
  ps_pcbs s' = delete c (<[me := p']> (ps_pcbs s)) ∧ ps_pid2pcb s' = ps_pid2pcb s ∧
  ra_wf (ps_pids s') ∧ (∀ x, ra_live (ps_pids s') x ↔ x ≠ c ∧ ra_live (ps_pids s) x).

Lemma elem_of_delete_nodup {A} (l : list A) i c x :
  NoDup l → l !! i = Some c → x ∈ delete i l ↔ x ∈ l ∧ x ≠ c.
Proof.
  intros Hnd Hi. rewrite <- (take_drop_middle l i c Hi) in Hnd |- * at 2. rewrite delete_take_drop.
  apply NoDup_app in Hnd as (_&H1&(H2&_)%NoDup_cons). rewrite !elem_of_app, elem_of_cons.
  split; [|naive_solver]. intros [H|H]; (split; [by auto|]); intros ->; [apply (H1 c H); left|done].
Qed.

Lemma forest_reaped init s s' me p p' i c pc :
  forest init s → ps_pcbs s !! me = Some p → children p !! i = Some c → ps_pcbs s !! c = Some pc → is_zombie pc = true →
  parent p' = parent p → is_zombie p' = is_zombie p → tgid p' = tgid p → children p' = delete i (children p) →
  reaped s s' me c p' → forest init s'.
Proof.
  intros F Hme Hi Hc Hz H1 H2 H3 H4 (Hm'&Hp'&Hwf'&Hlive'). destruct (fo_pids _ _ F) as [Hwf Hlive].
  destruct (forest_no_self init s me p F Hme) as [Hself Hini]. assert (Hin : c ∈ children p) by (by eapply list_elem_of_lookup_2).
  assert (Hcm : c ≠ me) by congruence. assert (Hci : c ≠ init) by congruence.
  assert (Hpc : parent pc = Some me) by (apply (fo_child _ _ F me p c Hme) in Hin as (x&Hx&?); congruence).
  assert (Hl : ∀ q, ps_pcbs s' !! q = if decide (q = c) then None else if decide (q = me) then Some p' else ps_pcbs s !! q).
  { intros q. rewrite Hm'. case_decide as Hq; [subst q; by rewrite lookup_delete_eq|]. rewrite lookup_delete_ne by done.
    case_decide as Hq'; [subst q; by rewrite lookup_insert_eq|by rewrite lookup_insert_ne]. }
  assert (Hold : ∀ q y, ps_pcbs s' !! q = Some y → q ≠ c ∧ ∃ x, ps_pcbs s !! q = Some x ∧ tgid y = tgid x ∧ is_zombie y = is_zombie x ∧
            parent y = parent x ∧ children y = if decide (q = me) then delete i (children x) else children x).
  { intros q y. rewrite Hl. case_decide; [done|]. case_decide as Hq; [|intros; split; [done|by exists y]].
    intros [= <-]. subst q. split; [done|]. by exists p. }
  assert (Hnew : ∀ q x, ps_pcbs s !! q = Some x → q ≠ c → ∃ y, ps_pcbs s' !! q = Some y ∧ parent y = parent x ∧ is_zombie y = is_zombie x).
  { intros q x Hq Hn. rewrite Hl, decide_False by done. case_decide as Hqm; [|by exists x]. exists p'. split; [done|]. subst q.
    assert (x = p) as -> by congruence. done. }
  assert (Hnoc : ∀ q x, ps_pcbs s !! q = Some x → parent x ≠ Some c).
  { intros q x Hq Hpar. assert (Hq' : q ∈ children pc) by (apply (fo_child _ _ F c pc q Hc); by exists x).
    rewrite (fo_zombie _ _ F c pc Hc Hz) in Hq'. by apply not_elem_of_nil in Hq'. }
  clear Hl. split.
  - destruct (fo_init _ _ F) as (p0&Hp0&Hz0&Hpar0). destruct (Hnew init p0 Hp0 (not_eq_sym Hci)) as (y&Hy&?&?). exists y. split_and!; congruence.
  - intros q y x Hq. destruct (Hold q y Hq) as (Hqc&z&Hzq&_&_&_&->).
    assert (Hpar : (∃ px, ps_pcbs s' !! x = Some px ∧ parent px = Some q) ↔ x ≠ c ∧ x ∈ children z).
    { rewrite (fo_child _ _ F q z x Hzq). split.
      - intros (px&Hx&Hpx). destruct (Hold x px Hx) as (Hxc&w&Hw&_&_&Hpw&_). split; [done|]. exists w. split; congruence.
      - intros (Hxc&px&Hx&Hpx). destruct (Hnew x px Hx Hxc) as (w&Hw&?&_). exists w. split; congruence. }
    rewrite Hpar. case_decide as Hqm.
    + subst q. assert (z = p) as -> by congruence. rewrite (elem_of_delete_nodup _ _ _ _ (fo_nodup _ _ F me p Hme) Hi). tauto.
    + split; [|tauto]. intros Hx. split; [|done]. intros ->. apply (fo_child _ _ F q z c Hzq) in Hx as (?&?&?). congruence.
  - intros q y Hq. destruct (Hold q y Hq) as (_&z&Hzq&_&_&_&->). pose proof (fo_nodup _ _ F q z Hzq).
    case_decide; [|done]. eapply sublist_NoDup; [done|apply sublist_delete].
  - intros x y Hx Hxi. destruct (Hold x y Hx) as (_&z&Hz'&_&_&->&_). destruct (fo_parent _ _ F x z Hz' Hxi) as (q&Hq&[w Hw]).
    exists q. split; [done|]. destruct (Hnew q w Hw) as (?&->&_); [|done]. intros ->. by apply (Hnoc x z).
  - intros q y Hq Hzy. destruct (Hold q y Hq) as (_&z&Hzq&_&Hzz&_&->). pose proof (fo_zombie _ _ F q z Hzq ltac:(congruence)) as ->.
    by case_decide.
  - intros x. rewrite Hp', (fo_live _ _ F x). split.
    + intros (y&Hy&Hzy). destruct (Hnew x y Hy) as (w&Hw&_&?); [congruence|]. exists w. split; congruence.
    + intros (y&Hy&Hzy). destruct (Hold x y Hy) as (_&z&Hz'&_&?&_). exists z. split; congruence.
  - destruct (fo_depth _ _ F) as (d&Hd0&Hd). exists d. split; [done|]. intros x y q Hx Hq.
    destruct (Hold x y Hx) as (_&z&Hz'&_&_&?&_). apply (Hd x z); congruence.
  - intros x y Hx. destruct (Hold x y Hx) as (_&z&Hz'&->&_). by apply (fo_tgid _ _ F).
  - split; [done|]. intros x. rewrite Hlive', Hlive. split; [intros [Hx [y Hy]]; by destruct (Hnew x y Hy Hx) as (?&->&_)|].
    intros [y Hy]. by destruct (Hold x y Hy) as (?&z&->&_).
Qed.

(** The children [sys_wait4] looks at: the first zombie that matches. *)
Definition reapable (s : Procs) (pid : Z) (c : Z) : Prop :=
  option_map is_zombie (ps_pcbs s !! c) = Some true ∧ wait_match pid c = true.

Definition add_child_times (r rc : Rusage) : Rusage :=
  mkRU (ru_utime r) (ru_stime r) (tv_add (ru_cutime r) (ru_utime rc)) (tv_add (ru_cstime r) (ru_stime rc)).

(** What one round of [sys_wait4] does, in each of its four cases. *)
Definition wait_spec (init : Z) (s : Procs) (me pid option_ : Z) (p : PCB) (r : WaitEnd) (s' : Procs) : Prop :=
  match r with
  | WReaped c code => ∃ i pc, children p !! i = Some c ∧ ps_pcbs s !! c = Some pc ∧ reapable s pid c ∧
      (∀ j x, (j < i)%nat → children p !! j = Some x → ¬ reapable s pid x) ∧ code = exit_code pc ∧ forest init s' ∧
      reaped s s' me c (with_rusage (add_child_times (rusage p) (rusage pc)) (with_children (delete i (children p)) p))
  | WReturn r => s' = s ∧ (∀ c, c ∈ children p → ¬ reapable s pid c) ∧
      (r = -1 ∧ (∀ c, c ∈ children p → wait_match pid c = false) ∨
       r = 0 ∧ Z.testbit option_ 0 = true ∧ ∃ c, c ∈ children p ∧ wait_match pid c = true)
  | WSuspend => s' = s ∧ Z.testbit option_ 0 = false ∧ (∀ c, c ∈ children p → ¬ reapable s pid c) ∧
      ∃ c, c ∈ children p ∧ wait_match pid c = true
  | WAgain => False
  end.

(** The references of a zombie are those of its parent: removed from its
    children, the last one is gone. *)
Lemma reap_last_reference init s me p i c pc :
  forest init s → ps_pcbs s !! me = Some p → children p !! i = Some c → ps_pcbs s !! c = Some pc → is_zombie pc = true →
  strong_count (set_pcbs (alter (with_children (delete i (children p))) me (ps_pcbs s)) s) c = 0%nat.
Proof.
  intros F Hme Hi Hc Hz. apply strong_count_zero; simpl; [rewrite (fo_live _ _ F); intros (?&?&?); congruence|].
  intros q x Hq Hin. rewrite lookup_alter_fmap in Hq. apply fmap_Some in Hq as (y&Hy&->). case_decide as Hqm.
  - subst q. simpl in Hin. apply (elem_of_delete_nodup _ _ c c (fo_nodup _ _ F me p Hme) Hi) in Hin. tauto.
  - apply (fo_child _ _ F q y c Hy) in Hin as (?&?&?). apply list_elem_of_lookup_2 in Hi.
    apply (fo_child _ _ F me p c Hme) in Hi as (?&?&?). congruence.
Qed.

Lemma wnohang_bit o : (Z.land o WNOHANG =? WNOHANG) = Z.testbit o 0.
Proof.
  unfold WNOHANG. change 1 with (Z.ones 1) at 1. rewrite Z.land_ones by lia. change (2 ^ 1) with 2.
  rewrite Z.bit0_odd, Zmod_odd. by destruct (Z.odd o).
Qed.

Lemma wait4_wp init s me pid option_ p :
  forest init s → ps_pcbs s !! me = Some p →
  wp (wait4_round me pid option_) s (wait_spec init s me pid option_ p).
Proof.
  intros F Hme. unfold wait4_round, get_pcb. wp_steps. eapply wp_unwrap; [exact Hme|].
  destruct (existsb (wait_match pid) (children p)) eqn:Eany; simpl; wp_steps.
  2: { assert (Hno : ∀ c, c ∈ children p → wait_match pid c = false).
       { intros c Hc. apply not_true_iff_false. intros Hw. apply not_true_iff_false in Eany. apply Eany, existsb_exists.
         exists c. by rewrite <- list_elem_of_In. }
       split; [done|]. split; [|by left]. intros c Hc [_ Hw]. rewrite Hno in Hw; done. }
  apply existsb_exists in Eany as (c0&Hc0&Hm0). rewrite <- list_elem_of_In in Hc0.
  destruct (list_find _ (children p)) as [[i c]|] eqn:Ef.
  2: { apply list_find_None in Ef. rewrite Forall_forall in Ef. rewrite wnohang_bit.
       destruct (Z.testbit option_ 0) eqn:Eb; wp_steps; (split; [done|]); (split; [done|]); naive_solver. }
  apply list_find_Some in Ef as (Hi&Hr&Hfirst). pose proof Hr as [Hzc Hmc].
  destruct (ps_pcbs s !! c) as [pc|] eqn:Hc; [|done]. injection Hzc as Hzc.
  unfold on_pcb. wp_steps. apply wp_assert; [apply Nat.eqb_eq; exact (reap_last_reference init s me p i c pc F Hme Hi Hc Hzc)|]. wp_steps.
  assert (Hcm : c ≠ me).
  { intros ->. destruct (forest_no_self init s me p F Hme) as [Hself _]. by apply Hself, (list_elem_of_lookup_2 _ i). }
  eapply wp_unwrap; [simpl; rewrite lookup_alter_ne by done; exact Hc|].
  rewrite (proj2 (Z.eqb_eq c (tgid pc))) by (symmetry; by apply (fo_tgid _ _ F)). unfold drop_pcb. wp_steps.
  destruct (fo_pids _ _ F) as [Hwf Hlive]. destruct (ra_dealloc_live (ps_pids s) c Hwf) as (a&Ha&Hwf'&Hlive');
    [apply Hlive; by rewrite Hc|]. eapply wp_lift; [exact Ha|]. wp_steps. exists i, pc.
  set (p' := with_rusage _ _). match goal with |- context [forest init ?t] => set (s' := t) end.
  assert (Hre : reaped s s' me c p').
  { split; [|done]. apply map_eq. intros q. simpl. rewrite !lookup_delete. case_decide; [done|].
    rewrite !lookup_alter_fmap, lookup_insert. destruct (decide (me = q)) as [<-|Hq]; [rewrite Hme; simpl; by rewrite !decide_True by done|].
    destruct (ps_pcbs s !! q); simpl; by rewrite ?decide_False by done. }
  split; [done|]. split; [done|]. split; [split; [by rewrite Hc; simpl; rewrite Hzc|done]|]. split; [by eauto|]. split; [done|]. split; [|done].
  by refine (forest_reaped init s s' me p p' i c pc F Hme Hi Hc Hzc _ _ _ _ Hre).
Qed.

(** ** The system *)

Definition no_procs : Procs := mkProcs ∅ ∅ ra_new.

(** The steps of live processes; a [fork] needs a free process id. *)
Inductive pstep (s s' : Procs) : Prop :=
| step_clone me sig p pid : ps_pcbs s !! me = Some p → is_zombie p = false → ra_room (ps_pids s) →
    pcb_clone me sig s = Done (pid, s') → pstep s s'
| step_exit pid code p : ps_pcbs s !! pid = Some p → is_zombie p = false → pid ≠ IDLE_PID →
    exit_process IDLE_PID pid code s = Done ((), s') → pstep s s'
| step_wait me pid o p r : ps_pcbs s !! me = Some p → is_zombie p = false →
    wait4_round me pid o s = Done (r, s') → pstep s s'.

(** The states after the initial process was made. *)
Definition preach : Procs → Prop := λ s, ∃ s0, pcb_new no_procs = Done (IDLE_PID, s0) ∧ rtc pstep s0 s.

Lemma forest_boot : ∃ s0, pcb_new no_procs = Done (IDLE_PID, s0) ∧ forest IDLE_PID s0.
Proof.
  eexists. split; [vm_compute; reflexivity|].
  set (p0 := mkPCB false None [] 0 [47] [Some 0%nat; Some 1%nat; Some 2%nat] rusage_new 0).
  change (forest IDLE_PID (mkProcs {[0 := p0]} {[0]} (mkRA 1 []))).
  assert (H0 : ∀ q p, ({[0 := p0]} : gmap Z PCB) !! q = Some p → q = 0 ∧ p = p0) by (intros q p [-> <-]%lookup_singleton_Some; done).
  destruct (ra_alloc_fresh ra_new 0 (mkRA 1 []) ra_new_wf eq_refl eq_refl) as (Hwf&_&Hlive).
  split; simpl.
  - by exists p0.
  - intros q p c [-> ->]%H0. simpl. rewrite elem_of_nil. split; [done|]. intros (pc&[-> ->]%H0&?). done.
  - intros q p [-> ->]%H0. constructor.
  - intros c p [-> ->]%H0 Hc. done.
  - intros q p [-> ->]%H0. done.
  - intros c. rewrite elem_of_singleton. split; [intros ->; by exists p0|intros (p&[-> _]%H0&_); done].
  - exists (λ _, 0%nat). split; [done|]. intros c p q [-> ->]%H0 ?. done.
  - intros c p [-> ->]%H0. done.
  - split; [done|]. intros c. rewrite Hlive. split; [intros [->|[? ?]]; [done|simpl in *; lia]|].
    intros [p [-> _]%H0]. by left.
Qed.

Lemma forest_pstep s s' : forest IDLE_PID s → pstep s s' → forest IDLE_PID s'.
Proof.
  intros F [me sig p pid Hme Hz Hr Hrun|pid code p Hp Hz Hi Hrun|me pid o p r Hme Hz Hrun].
  - pose proof (clone_wp _ _ me sig p F Hme Hz Hr) as (?&?&Hs&HF&_)%wp_done. congruence.
  - pose proof (exit_wp _ _ pid code p F Hp Hz Hi Hi) as ([]&?&Hs&He)%wp_done.
    apply (forest_exited _ _ _ _ code _ F Hp Hz Hi). congruence.
  - pose proof (wait4_wp _ _ me pid o p F Hme) as (r'&s''&Hrun'&Hs)%wp_done.
    rewrite Hrun in Hrun'. injection Hrun' as <- <-.
    destruct r; simpl in Hs; [destruct Hs as [-> _]; done|naive_solver|destruct Hs as [-> _]; done|done].
Qed.

Lemma forest_reach s : preach s → forest IDLE_PID s.
Proof.
  intros (s0&H0&Hs). destruct forest_boot as (s1&H1&F). assert (s1 = s0) as -> by congruence. clear H0 H1.
  induction Hs; [done|]. eauto using forest_pstep.
Qed.

(** The [n]-th ancestor of a process. *)
Fixpoint ancestor (s : Procs) (n : nat) (c : Z) : option Z :=
  match n with O => Some c | S n => p ← ps_pcbs s !! c; q ← parent p; ancestor s n q end.

Lemma forest_rooted init s c : forest init s → is_Some (ps_pcbs s !! c) → ∃ n, ancestor s n c = Some init.
Proof.
  intros F. destruct (fo_depth _ _ F) as (d&_&Hd). remember (d c) as k eqn:Ek.
  revert c Ek. induction (lt_wf k) as [k _ IH]. intros c -> [p Hp].
  destruct (decide (c = init)) as [->|Hc]; [by exists 0%nat|].
  destruct (fo_parent _ _ F c p Hp Hc) as (q&Hq&Hqs). destruct (IH (d q) (Hd c p q Hp Hq) q eq_refl Hqs) as [n Hn].
  exists (S n). simpl. by rewrite Hp; simpl; rewrite Hq.
Qed.

(** ** Runs *)

Inductive PAct :=
| AClone (me : Z)
| AExit (pid code : Z)
| AWait (me pid o : Z).

Definition live_pcb (s : Procs) (q : Z) : bool := match ps_pcbs s !! q with Some p => negb (is_zombie p) | None => false end.
Definition state_of {A} (o : outcome (A * Procs)) : option Procs := match o with Done (_, s) => Some s | Panic => None end.

Definition pact (s : Procs) (a : PAct) : option Procs :=
  match a with
  | AClone me => if live_pcb s me && (ra_current (ps_pids s) <? 2 ^ 64 - 1) then state_of (pcb_clone me 17 s) else None
  | AExit pid code => if live_pcb s pid && negb (pid =? IDLE_PID) then state_of (exit_process IDLE_PID pid code s) else None
  | AWait me pid o => if live_pcb s me then state_of (wait4_round me pid o s) else None
  end.

Fixpoint pplay (s : Procs) (l : list PAct) : option Procs :=
  match l with [] => Some s | a :: l => s' ← pact s a; pplay s' l end.

Definition prun (l : list PAct) : option Procs := s ← state_of (pcb_new no_procs); pplay s l.

Lemma live_pcb_true s q : live_pcb s q = true → ∃ p, ps_pcbs s !! q = Some p ∧ is_zombie p = false.
Proof. unfold live_pcb. destruct (ps_pcbs s !! q) as [p|]; [|done]. intros ?%negb_true_iff. by exists p. Qed.

Lemma state_of_Some {A} (o : outcome (A * Procs)) s : state_of o = Some s → ∃ a, o = Done (a, s).
Proof. destruct o as [[a s']|]; [|done]. intros [= ->]. by exists a. Qed.

Lemma pact_sound s a s' : pact s a = Some s' → pstep s s'.
Proof.
  destruct a as [me|pid code|me pid o]; simpl.
  - destruct (live_pcb s me) eqn:El; [|done]. destruct (Z.ltb_spec (ra_current (ps_pids s)) (2 ^ 64 - 1)); [|done].
    apply live_pcb_true in El as (p&Hp&Hz). intros [pid Hrun]%state_of_Some. by eapply step_clone.
  - destruct (live_pcb s pid) eqn:El; [|done]. destruct (Z.eqb_spec pid IDLE_PID); [done|].
    apply live_pcb_true in El as (p&Hp&Hz). intros [[] Hrun]%state_of_Some. by eapply step_exit.
  - destruct (live_pcb s me) eqn:El; [|done]. apply live_pcb_true in El as (p&Hp&Hz).
    intros [r Hrun]%state_of_Some. by eapply step_wait.
Qed.

Lemma prun_sound l s : prun l = Some s → preach s.
Proof.
  unfold prun. destruct forest_boot as (s0&H0&_). rewrite H0. simpl. intros Hp. exists s0. split; [done|]. clear H0.
  revert s0 Hp. induction l as [|a l IH]; simpl; intros s0; [intros [= ->]; done|].
  destruct (pact s0 a) as [s1|] eqn:Ha; simpl; [|done]. intros Hp. eapply rtc_l; [by eapply pact_sound|by apply IH].
Qed.

(** ** Properties *)


(** Exit turns the process into a zombie with the exit code, without
    children and descriptors, removes it from [PID2PCB], and makes the initial
    process the parent of each of its children, at the end of the children it
    had; nothing else changes. *)
Theorem exit_correct s pid code p :
  preach s → ps_pcbs s !! pid = Some p → is_zombie p = false → pid ≠ IDLE_PID →
  wp (exit_process IDLE_PID pid code) s (λ _ s',
    ps_pcbs s' !! pid = Some (mkPCB true (parent p) [] code (cwd p) [] (rusage p) (tgid p)) ∧
    (∀ c x, c ∈ children p → ps_pcbs s !! c = Some x → ps_pcbs s' !! c = Some (with_parent IDLE_PID x)) ∧
    (∀ x, ps_pcbs s !! IDLE_PID = Some x → ps_pcbs s' !! IDLE_PID = Some (with_children (children x ++ children p) x)) ∧
    (∀ q, q ≠ pid → q ≠ IDLE_PID → q ∉ children p → ps_pcbs s' !! q = ps_pcbs s !! q) ∧
    ps_pid2pcb s' = ps_pid2pcb s ∖ {[pid]} ∧ ps_pids s' = ps_pids s).
Proof.
  intros F%forest_reach Hp Hz Hi. eapply wp_mono; [by apply exit_wp|]. intros _ s' (H1&H2&H3).
  destruct (forest_no_self _ _ pid p F Hp) as [Hself Hini]. split; [done|]. split; [|split; [|split; [|done]]].
  - intros c x Hc Hx. assert (c ≠ pid) by congruence. assert (c ≠ IDLE_PID) by congruence.
    rewrite H2, Hx by done. simpl. unfold adopt. by rewrite (decide_True (P := c ∈ children p)), decide_False by done.
  - intros x Hx. rewrite H2, Hx by done. simpl. unfold adopt. by rewrite (decide_False (P := IDLE_PID ∈ children p)), decide_True by done.
  - intros q Hq Hqi Hqc. rewrite H2 by done. destruct (ps_pcbs s !! q) as [x|]; [|done]. simpl. unfold adopt.
    by rewrite (decide_False (P := q ∈ children p)), decide_False by done.
Qed.

(** A round of [sys_wait4] returns [-1] exactly when no child matches,
    reaps the first zombie child that matches (and then returns its exit code,
    frees its control block and its process id, adds its times to those of the
    children), and otherwise returns [0] under [WNOHANG] or lets another task
    run.  The assertion that the parent held the last reference never fails. *)
Theorem wait4_correct s me pid option_ p :
  preach s → ps_pcbs s !! me = Some p →
  wp (wait4_round me pid option_) s (wait_spec IDLE_PID s me pid option_ p).
Proof. intros F%forest_reach Hme. by apply wait4_wp. Qed.

(** A run: the initial process forks 1, which forks 2 and 3 and exits with 7. *)
Definition family : Procs := default no_procs (prun [AClone 0; AClone 1; AClone 1]).
Definition orphaned : Procs := default no_procs (prun [AClone 0; AClone 1; AClone 1; AExit 1 7]).


Lemma exit_correct_witness :
  ∃ s', exit_process IDLE_PID 1 7 family = Done ((), s') ∧ option_map children (ps_pcbs s' !! IDLE_PID) = Some [1; 2; 3] ∧
    option_map parent (ps_pcbs s' !! 3) = Some (Some 0).
Proof.
  assert (H2 : prun [AClone 0; AClone 1; AClone 1] = Some family) by (vm_compute; reflexivity).
  destruct (ps_pcbs family !! 1) as [p|] eqn:Hp; [|vm_compute in Hp; discriminate].
  assert (Hz : is_zombie p = false) by (vm_compute in Hp; injection Hp as <-; reflexivity).
  pose proof (exit_correct family 1 7 p (prun_sound _ _ H2) Hp Hz ltac:(discriminate)) as Hw.
  apply wp_done in Hw as ([]&s'&Hrun&_&Hc&H0&_). exists s'. split; [exact Hrun|].
  destruct (ps_pcbs family !! IDLE_PID) as [x|] eqn:Hx; [|vm_compute in Hx; discriminate].
  destruct (ps_pcbs family !! 3) as [y|] eqn:Hy; [|vm_compute in Hy; discriminate].
  rewrite (H0 x eq_refl), (Hc 3 y); [|vm_compute in Hp; injection Hp as <-; simpl; set_solver|exact Hy].
  vm_compute in Hx, Hp. injection Hx as <-. injection Hp as <-. split; reflexivity.
Defined.

Lemma wait4_correct_witness :
  ∃ s', wait4_round 0 (-1) 0 orphaned = Done (WReaped 1 7, s') ∧ ps_pcbs s' !! 1 = None.
Proof.
  assert (H1 : prun [AClone 0; AClone 1; AClone 1; AExit 1 7] = Some orphaned) by (vm_compute; reflexivity).
  destruct (ps_pcbs orphaned !! 0) as [p|] eqn:Hp; [|vm_compute in Hp; discriminate].
  pose proof (wait4_correct orphaned 0 (-1) 0 p (prun_sound _ _ H1) Hp) as Hw.
  apply wp_done in Hw as (r&s'&Hrun&Hs). exists s'.
  assert (r = WReaped 1 7) as -> by (vm_compute in Hrun; by injection Hrun as <- _). split; [exact Hrun|].
  destruct Hs as (i&pc&_&_&_&_&_&_&(Hm&_)). rewrite Hm. apply lookup_delete_eq.
Defined.
