(* ===== verification/Threads.v ===== *)
(** * Control blocks of threads
    ([TaskControlBlock::new] of [os/src/task/task.rs], [os/src/syscall/thread.rs],
    [ProcessControlBlock::sys_clone] of [os/src/task/process.rs] and [sys_clone]
    of [os/src/syscall/process.rs])

    Making a thread takes a thread id, a user stack and a trap context from the
    process and a kernel stack from the kernel address space; the two spaces
    share the frame allocator and physical memory. *)

From S2P Require Import Prelude Address PhysMem IdAlloc FrameAlloc PageTable Sv39 UserMem MemorySet MapAreaSpec.
From S2P Require Import MemorySetSpec MemorySetOps Mmap Fork Elf UserRes StackProps TrapCx Exec ExecProps Timer Signal Sched.

(** ** State *)

(** The kernel's part: [KERNEL_SPACE], [KSTACK_ALLOCATOR] and the ready queue,
    in which a task is named by the identifier of its kernel stack. *)
Record Machine := mkMach {
  mc_mem : KMem;
  mc_kernel : MemorySet SV39PageTable;
  mc_kstacks : RecycleAllocator;
  mc_ready : list Z;
}.

Record TCB := mkTCB {
  tcb_kstack : Z;
  tcb_res : option Z;
  tcb_cx_ppn : Z;
  tcb_task_cx : TaskContext;
  tcb_status : TaskStatus;
  tcb_exit_code : option Z;
}.

(** The part of a process control block that threads use. *)
Record UProc := mkUP {
  up_space : MemorySet SV39PageTable;
  up_ids : RecycleAllocator;
  up_tasks : list (option TCB);
}.

Definition kernel_view (mc : Machine) : Spaced SV39PageTable := mkSp (mc_mem mc) (mc_kernel mc) (mc_kstacks mc).
Definition user_view (mc : Machine) (p : UProc) : Spaced SV39PageTable := mkSp (mc_mem mc) (up_space p) (up_ids p).

Definition on_kernel {A} (f : K (Spaced SV39PageTable) A) : K Machine A := λ mc,
  match f (kernel_view mc) with
  | Done (a, s) => Done (a, mkMach (sp_mem s) (sp_space s) (sp_ids s) (mc_ready mc))
  | Panic => Panic
  end.

Definition on_user {A} (p : UProc) (f : K (Spaced SV39PageTable) A) : K Machine (A * UProc) := λ mc,
  match f (user_view mc p) with
  | Done (a, s) => Done ((a, mkUP (sp_space s) (sp_ids s) (up_tasks p)), mkMach (sp_mem s) (mc_kernel mc) (mc_kstacks mc) (mc_ready mc))
  | Panic => Panic
  end.

Definition on_memory (f : mem → mem) : K Machine unit :=
  kmodify (λ mc, mkMach (with_mem f (mc_mem mc)) (mc_kernel mc) (mc_kstacks mc) (mc_ready mc)).

Definition enqueue (t : TCB) : K Machine unit :=
  kmodify (λ mc, mkMach (mc_mem mc) (mc_kernel mc) (mc_kstacks mc) (mc_ready mc ++ [tcb_kstack t])).

(** ** Operations; [trap_return] and [trap_handler] are the addresses of the
    functions, [sst] is the value of [sstatus] *)

Section ops.
Context (trap_return trap_handler : Z).

Definition task_new (p : UProc) (alloc : bool) : K Machine (TCB * UProc) :=
  '(res, p) ← on_user p (task_user_res_new alloc);
  '(cx_ppn, p) ← on_user p (trap_cx_ppn res);
  kstack ← on_kernel kstack_alloc;
  let kstack_top := get_top kstack in
  mret (mkTCB kstack (Some res) cx_ppn (goto_trap_return trap_return kstack_top) Ready None, p).

(** [while tasks.len() < n { tasks.push(None) }] *)
Definition pad_tasks (tasks : list (option TCB)) (n : Z) : list (option TCB) :=
  tasks ++ replicate (Z.to_nat n - length tasks) None.

Definition sys_thread_create (sst : Z) (p : UProc) (entry arg : Z) : K Machine (Z * UProc) :=
  '(new_task, p) ← task_new p true;
  enqueue new_task ;;
  tid ← kunwrap (tcb_res new_task);
  let tasks := <[Z.to_nat tid := Some new_task]> (pad_tasks (up_tasks p) (tid + 1)) in
  mc ← kget;
  let cx := app_init_context sst entry (ustack_top tid) (token (mc_kernel mc)) (get_top (tcb_kstack new_task)) trap_handler in
  on_memory (λ m, put_trap_cx m (tcb_cx_ppn new_task) cx) ;;
  on_memory (λ m, put_reg m (tcb_cx_ppn new_task) r_a0 arg) ;;
  mret (as_isize tid, mkUP (up_space p) (up_ids p) tasks).

(** [cur] is the current task. *)
Definition sys_gettid (cur : TCB) : outcome Z := tid ← unwrap (tcb_res cur); Done (as_isize tid).

(** Dropping the last reference to an exited task gives its kernel stack back. *)
Definition sys_waittid (cur : TCB) (p : UProc) (tid : Z) : K Machine (Z * UProc) :=
  own ← kunwrap (tcb_res cur);
  if own =? tid then mret (-1, p)
  else
    waited ← kunwrap (up_tasks p !! Z.to_nat tid);
    match waited with
    | None => mret (-1, p)
    | Some t =>
        match tcb_exit_code t with
        | Some exit_code =>
            on_kernel (kstack_drop (tcb_kstack t)) ;;
            mret (exit_code, mkUP (up_space p) (up_ids p) (<[Z.to_nat tid := None]> (up_tasks p)))
        | None => mret (-2, p)
        end
    end.

(** ** [sys_clone] *)

(** [CloneFlags]: every bit from [CLONE_VM] (bit 8) to [CLONE_IO] (bit 31). *)
Definition clone_flags_all : Z := Z.shiftl (Z.ones 24) 8.
Definition CLONE_PARENT_SETTID : Z := 0x00100000.

(** The space and the main thread of the child: [ProcessControlBlock::sys_clone]. *)
Definition clone_task (strampoline : Z) (parent : UProc) : K Machine UProc :=
  kassert (length (up_tasks parent) =? 1)%nat ;;
  mc ← kget;
  '(memory_set, m) ← klift (from_existed_user strampoline (up_space parent) (mc_mem mc));
  kput (mkMach m (mc_kernel mc) (mc_kstacks mc) (mc_ready mc)) ;;
  let memory_set := mkMS (page_table memory_set) (areas memory_set) (brk (up_space parent)) (heap_start (up_space parent)) in
  let child := mkUP memory_set ra_new [] in
  slot0 ← kunwrap (up_tasks parent !! 0%nat);
  parent_task ← kunwrap slot0;
  kunwrap (tcb_res parent_task) ;;
  '(task, child) ← task_new child false;
  let child := mkUP (up_space child) (up_ids child) (up_tasks child ++ [Some task]) in
  on_memory (λ m, put_kernel_sp m (tcb_cx_ppn task) (get_top (tcb_kstack task))) ;;
  enqueue task ;;
  mret child.

(** [pid] is the one the child was given. *)
Definition sys_clone (strampoline : Z) (parent : UProc) (pid flags stack ptid tls ctid : Z) : K Machine (Z * UProc) :=
  let copy_flags := Z.land (Z.land flags (Z.lnot 0xff)) clone_flags_all in
  kassert (Z.land (Z.land flags (Z.lnot 0xff)) (Z.lnot clone_flags_all) =? 0) ;;
  child ← clone_task strampoline parent;
  (if Z.land copy_flags CLONE_PARENT_SETTID =? CLONE_PARENT_SETTID then
     mc ← kget;
     a ← klift (translated_refmut (km_mem (mc_mem mc)) (token (up_space parent)) ptid);
     on_memory (λ m, store_bytes m a (Z_to_little_endian 4 8 (pid mod 2 ^ 32)))
   else mret ()) ;;
  slot0 ← kunwrap (up_tasks child !! 0%nat);
  task ← kunwrap slot0;
  on_memory (λ m, put_reg m (tcb_cx_ppn task) r_a0 0) ;;
  mret (as_isize pid, child).
End ops.
