(* ===== verification/ThreadProps.v ===== *)
(** * Threads and clones: theorems

    [thread_create] and [clone] as compositions of the user address space, the
    kernel address space and physical memory. *)

From S2P Require Import Prelude Address PhysMem IdAlloc FrameAlloc PageTable Sv39 UserMem MemorySet MapAreaSpec.
From S2P Require Import MemorySetSpec MemorySetOps Mmap Fork Elf UserCopy UserRes StackProps SpaceProps ResProps TrapCx Exec ExecProps Timer Signal Sched Threads.

(** ** Two address spaces in one memory *)

Definition apart (A B : MemorySet SV39PageTable) : Prop := ∀ p, p ∈ ms_frames A → p ∉ ms_frames B.

Lemma apart_sym A B : apart A B → apart B A.
Proof. intros H p Hb Ha. by apply (H p). Qed.

(** An operation that enlarges [A] leaves a space [B] apart from it alone. *)
Lemma grow_other s A new s' A' B :
  ms_grow s A new s' A' → ms_ok s B → apart A B →
  ms_ok s' B ∧ apart A' B ∧ ∀ x, x / 4096 ∈ ms_frames B → km_mem s' x = km_mem s x.
Proof.
  intros G Hok Hap.
  assert (Hm : ∀ x, x / 4096 ∈ ms_frames B → km_mem s' x = km_mem s x).
  { intros x Hx. apply (mg_same _ _ _ _ _ G). intros [Hp|Hn].
    - by apply (Hap (x / 4096)); [apply ms_frames_pt|].
    - apply (gr_fresh _ _ _ (mg_grows _ _ _ _ _ G) _ Hn). by apply (mo_owned _ _ Hok). }
  split; [|split; [|done]].
  - eapply parent_kept; [done|apply G|]. intros x Hx. by apply Hm, ms_frames_pt.
  - intros p. rewrite (mg_frames _ _ _ _ _ G), elem_of_app. intros [Hp|Hn]; [by apply Hap|].
    intros Hb. apply (gr_fresh _ _ _ (mg_grows _ _ _ _ _ G) _ Hn). by apply (mo_owned _ _ Hok).
Qed.

(** The entry of the trampoline. *)
Definition tramp_of (s : KMem) (ms : MemorySet SV39PageTable) : option Z := pt_lookup (km_mem s) (page_table ms) TRAMP_VPN.

Lemma tramp_kept s s' B :
  ms_ok s B → (∀ x, x / 4096 ∈ pt_frames (page_table B) → km_mem s' x = km_mem s x) → tramp_of s' B = tramp_of s B.
Proof. intros Hok Hm. by apply (pt_frame (km_mem s)); [apply Hok| |unfold is_vpn, TRAMP_VPN; lia]. Qed.

(** A data frame of a space is no frame of its tables. *)
Lemma ms_data_not_pt s (ms : MemorySet SV39PageTable) q : ms_ok s ms → q ∈ areas_frames (areas ms) → q ∉ pt_frames (page_table ms).
Proof. intros Hok (a&Ha&Hq)%elem_of_areas_frames. by destruct (ms_area_frame _ _ _ _ Hok Ha Hq). Qed.

(** The frame of the trap context of thread [tid]. *)
Definition thread_cx (ms : MemorySet SV39PageTable) (tid ppn : Z) : Prop :=
  ∃ ac, ac ∈ areas ms ∧ is_slot ac (tcx tid) ∧ data_frames ac !! (tcx tid).1.1 = Some ppn.

Lemma thread_cx_frame ms tid ppn : thread_cx ms tid ppn → ppn ∈ areas_frames (areas ms).
Proof. intros (ac&Ha&_&Hp). apply elem_of_areas_frames. exists ac. split; [done|]. apply elem_of_area_frames. eauto. Qed.

Lemma areas_ms_frames (ms : MemorySet SV39PageTable) p : p ∈ areas_frames (areas ms) → p ∈ ms_frames ms.
Proof. intros. apply elem_of_app. by right. Qed.

(** ** The invariant *)

Record mach_inv (lk lu : Z) (mc : Machine) (p : UProc) : Prop := {
  mi_kernel : kst_inv lk (kernel_view mc);
  mi_user : thr_inv lu (user_view mc p);
  mi_apart : apart (mc_kernel mc) (up_space p);
}.

Lemma kst_inv_mem lim m m' ms ids :
  kst_inv lim (mkSp m ms ids) → fa_wf (km_fa m') → ms_ok (T := SV39PageTable) m' ms → kst_inv lim (mkSp m' ms ids).
Proof. intros [_ ? ? ?] ??. by split. Qed.

Lemma thr_inv_mem lim m m' ms ids :
  thr_inv lim (mkSp m ms ids) → fa_wf (km_fa m') → ms_ok (T := SV39PageTable) m' ms → thr_inv lim (mkSp m' ms ids).
Proof. intros [_ ? ? ? ?] ??. by split. Qed.

(** Writing a data frame of the process. *)
Lemma mach_inv_write lk lu mc p ppn (f : mem → mem) :
  mach_inv lk lu mc p → ppn ∈ areas_frames (areas (up_space p)) →
  (∀ x, x / 4096 ≠ ppn → f (km_mem (mc_mem mc)) x = km_mem (mc_mem mc) x) →
  mach_inv lk lu (mkMach (with_mem f (mc_mem mc)) (mc_kernel mc) (mc_kstacks mc) (mc_ready mc)) p.
Proof.
  intros [Hk Hu Hap] Hp Hf. pose proof (ki_ok _ _ Hk) as [Hfa Hkok]. pose proof (ti_ok _ _ Hu) as [_ Huok]. split.
  - eapply kst_inv_mem; [exact Hk|done|]. eapply ms_ok_frame; [exact Hkok|apply Hkok|]. intros x Hx. apply Hf. intros E.
    apply (Hap ppn); [rewrite <- E; by apply ms_frames_pt|by apply areas_ms_frames].
  - eapply thr_inv_mem; [exact Hu|done|]. eapply ms_ok_write; [exact Huok|done|]. intros x Hx. apply Hf. intros E. apply Hx. by rewrite E.
  - done.
Qed.

Lemma wp_on_kernel {A} (f : K (Spaced SV39PageTable) A) mc (Q : A → Machine → Prop) :
  wp f (kernel_view mc) (λ a s, Q a (mkMach (sp_mem s) (sp_space s) (sp_ids s) (mc_ready mc))) → wp (on_kernel f) mc Q.
Proof. unfold wp, on_kernel. by destruct (f (kernel_view mc)) as [[a s]|]. Qed.

Lemma wp_on_user {A} p (f : K (Spaced SV39PageTable) A) mc (Q : A * UProc → Machine → Prop) :
  wp f (user_view mc p) (λ a s, Q (a, mkUP (sp_space s) (sp_ids s) (up_tasks p))
    (mkMach (sp_mem s) (mc_kernel mc) (mc_kstacks mc) (mc_ready mc))) → wp (on_user p f) mc Q.
Proof. unfold wp, on_user. by destruct (f (user_view mc p)) as [[a s]|]. Qed.

(** ** A kernel stack for a process *)

Definition kroom (lk : Z) (mc : Machine) : Prop := lk < TRAMP_VPN - 3 * (ra_current (mc_kstacks mc) + 1).

(** What taking a kernel stack leaves: [b] is any space apart from the kernel's. *)
Lemma kstack_for_wp lk mc :
  kst_inv lk (kernel_view mc) → kroom lk mc → 6 <= fa_free (km_fa (mc_mem mc)) →
  wp (on_kernel kstack_alloc) mc (λ id mc', kst_inv lk (kernel_view mc') ∧
    ¬ ra_live (mc_kstacks mc) id ∧ (∀ x, ra_live (mc_kstacks mc') x ↔ x = id ∨ ra_live (mc_kstacks mc) x) ∧
    is_usize (get_top id) ∧ mc_ready mc' = mc_ready mc ∧ token (mc_kernel mc') = token (mc_kernel mc) ∧
    fa_free (km_fa (mc_mem mc)) - 6 <= fa_free (km_fa (mc_mem mc')) ∧
    ra_current (mc_kstacks mc') <= ra_current (mc_kstacks mc) + 1 ∧
    tramp_of (mc_mem mc') (mc_kernel mc') = tramp_of (mc_mem mc) (mc_kernel mc) ∧
    ∀ B, ms_ok (mc_mem mc) B → apart (mc_kernel mc) B →
      ms_ok (mc_mem mc') B ∧ apart (mc_kernel mc') B ∧
      ∀ x, x / 4096 ∈ ms_frames B → km_mem (mc_mem mc') x = km_mem (mc_mem mc) x).
Proof.
  intros Hk Hr Hf. apply wp_on_kernel. eapply wp_mono; [by apply (kstack_alloc_wp lk)|].
  intros id s' (Hk'&Hnew&Hlive&_&_&(new&G)&Hid&Hfr&Hcur). destruct s' as [m' ms' ids']. cbn [sp_mem sp_space sp_ids] in *.
  split; [done|]. split; [done|]. split; [done|]. split; [|split; [done|split; [|split; [exact Hfr|split; [exact Hcur|split; [apply G|]]]]]].
  - unfold get_top. unfold kroom in Hr. pose proof (ki_lim _ _ Hk). cbn [sp_ids kernel_view] in *.
    rewrite kst_position by lia. unfold is_usize, TRAMPOLINE, PAGE_SIZE, TRAMP_VPN in *. simpl. lia.
  - apply G.
  - intros B HB Hap. by eapply grow_other.
Qed.

(** ** [thread_create] *)

Section threads.
Context (trap_return trap_handler : Z) (Hth : is_usize trap_handler).

(** What [TaskControlBlock::new] with fresh user resources leaves. *)
Record new_task_post (lk lu : Z) (mc : Machine) (p : UProc) (t : TCB) (tid : Z) (p' : UProc) (mc' : Machine) : Prop := {
  nt_inv : mach_inv lk lu mc' p';
  nt_res : tcb_res t = Some tid;
  nt_tid : 0 <= tid < 6 ∧ ¬ ra_live (up_ids p) tid;
  nt_live : ∀ x, ra_live (up_ids p') x ↔ x = tid ∨ ra_live (up_ids p) x;
  nt_alloc : ra_alloc (up_ids p) = (tid, up_ids p');
  nt_kstack : ¬ ra_live (mc_kstacks mc) (tcb_kstack t) ∧ ra_live (mc_kstacks mc') (tcb_kstack t) ∧ is_usize (get_top (tcb_kstack t));
  nt_cx : thread_cx (up_space p') tid (tcb_cx_ppn t) ∧ is_ppn (tcb_cx_ppn t);
  nt_task_cx : tcb_task_cx t = goto_trap_return trap_return (get_top (tcb_kstack t));
  nt_tasks : up_tasks p' = up_tasks p;
  nt_ready : mc_ready mc' = mc_ready mc;
  nt_token : token (mc_kernel mc') = token (mc_kernel mc);
  nt_free : fa_free (km_fa (mc_mem mc)) - 15 <= fa_free (km_fa (mc_mem mc'));
  nt_room : ra_current (mc_kstacks mc') <= ra_current (mc_kstacks mc) + 1;
  nt_areas : ∃ au ac, areas (up_space p') = areas (up_space p) ++ [au; ac] ∧ is_slot au (ust tid) ∧ is_slot ac (tcx tid);
  nt_data : ∀ b q, b ∈ areas (up_space p) → q ∈ area_frames b → q ≠ tcb_cx_ppn t ∧
    ∀ x, x / 4096 = q → km_mem (mc_mem mc') x = km_mem (mc_mem mc) x;
  nt_old : ∀ i ppn, thread_cx (up_space p) i ppn → thread_cx (up_space p') i ppn ∧ ppn ≠ tcb_cx_ppn t ∧
    ∀ x, x / 4096 = ppn → km_mem (mc_mem mc') x = km_mem (mc_mem mc) x;
  nt_tramp : tramp_of (mc_mem mc') (up_space p') = tramp_of (mc_mem mc) (up_space p) ∧
    tramp_of (mc_mem mc') (mc_kernel mc') = tramp_of (mc_mem mc) (mc_kernel mc);
}.

Lemma task_new_wp lk lu mc p :
  mach_inv lk lu mc p → ra_current (up_ids p) < 6 → kroom lk mc → 15 <= fa_free (km_fa (mc_mem mc)) →
  wp (task_new trap_return p true) mc (λ '(t, p') mc', ∃ tid, new_task_post lk lu mc p t tid p' mc').
Proof.
  intros [Hk Hu Hap] Hc Hr Hf. unfold task_new. wp_next. apply wp_on_user.
  eapply wp_mono; [apply (task_user_res_new_wp lu); [done|done|unfold sp_free; simpl; lia]|].
  intros tid [m1 ms1 ids1] (Hu1&Hfresh&Htid&Hlive&_&_&_&Hfr&Hra&new&au&ac&G&Har&Hsu&Hsc). cbn [sp_mem sp_space sp_ids user_view] in *.
  unfold sp_free in Hfr. cbn [sp_mem user_view] in Hfr. wp_next. apply wp_on_user.
  assert (Hac : ac ∈ areas ms1) by (rewrite Har; apply elem_of_app; right; right; left).
  eapply wp_mono; [apply (trap_cx_ppn_area _ ac tid); [apply Hu1|exact Hac|exact Hsc|lia]|].
  intros ppn ? (->&Hppn&Hp). cbn [sp_mem sp_space sp_ids user_view up_space up_ids up_tasks mc_mem]. wp_next.
  pose proof (ki_ok _ _ Hk) as [_ Hkok]. cbn [kernel_view sp_mem sp_space] in Hkok.
  destruct (grow_other _ _ _ _ _ (mc_kernel mc) G Hkok (apart_sym _ _ Hap)) as (Hkok1&Hap1&Hkm1).
  eapply wp_mono; [apply (kstack_for_wp lk)|].
  - eapply kst_inv_mem; [exact Hk|apply Hu1|exact Hkok1].
  - exact Hr.
  - simpl. lia.
  - intros id [m2 k2 ks2 rq] (Hk2&Hidf&Hidl&Htop&Erq&Etk&Hfr2&Hcur&Etr&Hoth). cbn [mc_mem mc_kernel mc_kstacks mc_ready kernel_view] in *. wp_steps.
    destruct (Hoth ms1 (proj2 (ti_ok _ _ Hu1)) (apart_sym _ _ Hap1)) as (Hok2&Hap2&Hm2).
    assert (Hdata : ∀ b q, b ∈ areas (up_space p) → q ∈ area_frames b → q ≠ ppn ∧ ∀ x, x / 4096 = q → km_mem m2 x = km_mem (mc_mem mc) x).
    { intros b q Hb Hin. pose proof (ti_ok _ _ Hu) as [_ Hok0]. cbn [user_view sp_mem sp_space] in Hok0.
      destruct (fin_apart m1 ms1 au ac (areas (up_space p)) (proj2 (ti_ok _ _ Hu1)) Har b q Hb Hin) as [_ Hqc].
      split; [intros ->; apply Hqc, elem_of_area_frames; eauto|]. intros x Hx. rewrite Hm2.
      - apply (mg_same _ _ _ _ _ G). rewrite Hx. destruct (ms_area_frame _ _ _ _ Hok0 Hb Hin) as [Hnp Hown].
        intros [?|Hn]; [done|]. by apply (gr_fresh _ _ _ (mg_grows _ _ _ _ _ G) q Hn).
      - rewrite Hx. apply areas_ms_frames, elem_of_areas_frames. exists b. split; [rewrite Har; apply elem_of_app; by left|done]. }
    exists tid. split; cbn [tcb_res tcb_kstack tcb_cx_ppn tcb_task_cx up_tasks up_ids up_space mc_ready mc_kernel mc_mem mc_kstacks]; try reflexivity; try assumption; try exact (conj Htid Hfresh).
    + split; [done| |done]. eapply thr_inv_mem; [exact Hu1|apply Hk2|exact Hok2].
    + split; [done|]. split; [apply Hidl; by left|done].
    + split; [by exists ac|done].
    + lia.
    + by exists au, ac.
    + intros i q (b&Hb&Hbs&Hq). split; [exists b; split; [rewrite Har; apply elem_of_app; by left|done]|].
      apply (Hdata b); [done|]. apply elem_of_area_frames. eauto.
    + split; [rewrite (tramp_kept m1 m2 ms1 (proj2 (ti_ok _ _ Hu1))); [apply G|]; intros x Hx; by apply Hm2, ms_frames_pt|].
      rewrite Etr. apply tramp_kept; [done|]. intros x Hx. by apply Hkm1, ms_frames_pt.
Qed.

(** Writing the registers of a new thread. *)
Definition thread_regs (sst entry arg tid ktoken ktop : Z) : TrapContext :=
  let cx := app_init_context sst entry (ustack_top tid) ktoken ktop trap_handler in
  with_regs cx (set_reg (general_regs cx) r_a0 arg).

Lemma pad_tasks_lookup (tasks : list (option TCB)) tid t (j : nat) :
  0 <= tid → let l := <[Z.to_nat tid := Some t]> (pad_tasks tasks (tid + 1)) in
  l !! Z.to_nat tid = Some (Some t) ∧ (j ≠ Z.to_nat tid → mjoin (l !! j) = mjoin (tasks !! j)).
Proof.
  intros Ht l. unfold l, pad_tasks. split.
  - apply list_lookup_insert_eq. rewrite length_app, length_replicate. lia.
  - intros Hj. rewrite list_lookup_insert_ne by done. destruct (decide (j < length tasks)%nat).
    + by rewrite lookup_app_l.
    + rewrite lookup_app_r, (lookup_ge_None_2 tasks) by lia.
      destruct (replicate _ None !! _) as [o|] eqn:E; [|done]. by apply lookup_replicate in E as [-> _].
Qed.

Lemma thread_create_wp lk lu mc p sst entry arg :
  mach_inv lk lu mc p → ra_current (up_ids p) < 6 → kroom lk mc → 15 <= fa_free (km_fa (mc_mem mc)) →
  is_usize sst → is_usize entry → is_usize arg → is_usize (token (mc_kernel mc)) →
  wp (sys_thread_create trap_return trap_handler sst p entry arg) mc (λ '(tid, p') mc',
    ∃ t, mach_inv lk lu mc' p' ∧ tcb_res t = Some tid ∧ ¬ ra_live (up_ids p) tid ∧ (∀ x, ra_live (up_ids p') x ↔ x = tid ∨ ra_live (up_ids p) x) ∧
      ¬ ra_live (mc_kstacks mc) (tcb_kstack t) ∧ mc_ready mc' = mc_ready mc ++ [tcb_kstack t] ∧
      up_tasks p' !! Z.to_nat tid = Some (Some t) ∧
      (∀ j, j ≠ Z.to_nat tid → mjoin (up_tasks p' !! j) = mjoin (up_tasks p !! j)) ∧
      thread_cx (up_space p') tid (tcb_cx_ppn t) ∧
      get_trap_cx (km_mem (mc_mem mc')) (tcb_cx_ppn t) =
        thread_regs sst entry arg tid (token (mc_kernel mc)) (get_top (tcb_kstack t)) ∧
      tcb_task_cx t = goto_trap_return trap_return (get_top (tcb_kstack t)) ∧
      ∀ i ppn, thread_cx (up_space p) i ppn → is_ppn ppn → thread_cx (up_space p') i ppn ∧
        get_trap_cx (km_mem (mc_mem mc')) ppn = get_trap_cx (km_mem (mc_mem mc)) ppn).
Proof.
  intros Hinv Hc Hr Hf Hsst Hent Harg Htok. unfold sys_thread_create, enqueue, on_memory. wp_next. eapply wp_mono; [by apply (task_new_wp lk lu)|].
  intros [t p1] mc1 (tid&[I Er [Ht Hfr] Hl _ (Hk1&Hk2&Hk3) [Hcx Hp] Etc Eta Erd Etk Hfree _ Har _ Hold _]). wp_steps. rewrite Er. wp_steps.
  cbn [mc_kernel mc_mem mc_kstacks mc_ready]. rewrite Etk. set (ppn := tcb_cx_ppn t) in *.
  set (cx := app_init_context sst entry (ustack_top tid) (token (mc_kernel mc)) (get_top (tcb_kstack t)) trap_handler).
  assert (Hcxo : tc_ok cx).
  { apply app_init_ok; try done. unfold ustack_top. destruct (ust_position tid) as [_ ->]; [lia|].
    unfold is_usize, TRAMPOLINE, PAGE_SIZE. lia. }
  pose proof (thread_cx_frame _ _ _ Hcx) as Hin.
  wp_steps. exists t.
  assert (Eid : as_isize tid = tid).
  { unfold as_isize, wrap64. rewrite Z.mod_small by lia. by rewrite (proj2 (Z.ltb_lt tid _)) by lia. }
  rewrite Eid.
  split; [|split; [done|split; [done|split; [done|split; [done|]]]]].
  { set (m1 := mkMach (with_mem (λ m, put_trap_cx m ppn cx) (mc_mem mc1)) (mc_kernel mc1) (mc_kstacks mc1) (mc_ready mc1)).
    assert (I1 : mach_inv lk lu m1 p1).
    { apply (mach_inv_write lk lu mc1 p1 ppn); [done|done|]. intros x Hx. by apply put_trap_cx_frame. }
    assert (I2 : mach_inv lk lu (mkMach (with_mem (λ m, put_reg m ppn r_a0 arg) (mc_mem m1)) (mc_kernel m1) (mc_kstacks m1) (mc_ready m1)) p1).
    { apply (mach_inv_write lk lu m1 p1 ppn); [done|done|]. intros x Hx. apply (put_word_frame _ ppn 10); [done|lia|done]. }
    destruct I2 as [J1 J2 J3]. by split. }
  cbn [mc_kernel mc_mem mc_kstacks mc_ready up_tasks up_space km_mem with_mem].
  destruct (pad_tasks_lookup (up_tasks p1) tid t 0%nat ltac:(lia)) as [Hpl _].
  split; [by rewrite Erd|]. split; [done|]. split; [|split; [done|split; [|split; [done|]]]].
  - intros j Hj. rewrite <- Eta. by apply (pad_tasks_lookup (up_tasks p1) tid t j ltac:(lia)).
  - rewrite get_put_reg by (done || (unfold r_a0; lia)). by rewrite get_put_trap_cx.
  - intros i q Hq Hqp. destruct (Hold i q Hq) as (H1&H2&H3). split; [done|].
    apply get_trap_cx_kept; [done|]. intros x Hx. unfold put_reg. rewrite (put_word_frame _ ppn 10) by (done || lia || congruence).
    rewrite put_trap_cx_frame by (done || congruence). by apply H3.
Qed.
End threads.

(** ** [clone] *)

(** Every bit from 8 to 31 is a flag: no argument of 32 bits is refused. *)
Lemma clone_flags_total flags :
  0 <= flags < 2 ^ 32 → Z.land (Z.land flags (Z.lnot 0xff)) (Z.lnot clone_flags_all) = 0.
Proof.
  intros Hf. rewrite <- Z.land_assoc. change (Z.land (Z.lnot 0xff) (Z.lnot clone_flags_all)) with (Z.lnot (Z.ones 32)).
  rewrite <- Z.ldiff_land. apply Z.ldiff_ones_r_low; [lia|]. destruct (decide (flags = 0)) as [->|]; [done|].
  apply Z.log2_lt_pow2; lia.
Qed.

Lemma copied_slots m (us ms : MemorySet SV39PageTable) lim (P : slot → Prop) :
  Forall2 (copied m) (areas us) (areas ms) → slots_in lim P us → slots_in lim P ms.
Proof.
  intros HF [H1 H2]. split.
  - intros c [i Hc]%list_elem_of_lookup. destruct (Forall2_lookup_r _ _ _ _ _ HF Hc) as (a&Ha&(E1&E2&E3)&_).
    apply list_elem_of_lookup_2 in Ha. unfold is_slot, area_spec in *. rewrite E1, E2, E3. by apply H1.
  - intros sl Hsl. destruct (H2 sl Hsl) as (a&[i Ha]%list_elem_of_lookup&Hs).
    destruct (Forall2_lookup_l _ _ _ _ _ HF Ha) as (c&Hc&(E1&E2&E3)&_). exists c.
    split; [by eapply list_elem_of_lookup_2|]. unfold is_slot, area_spec in *. by rewrite E1, E2, E3.
Qed.

Lemma area_byte_at m a v p i :
  map_type a = Framed → data_frames a !! v = Some p → 0 <= i < 4096 → area_byte m a (v * 4096 + i) = Some (m (p * 4096 + i)).
Proof.
  intros Hty Hd Hi. unfold area_byte, area_target. rewrite Hty. replace ((v * 4096 + i) / 4096) with v by zdiv_lia.
  rewrite Hd. simpl. do 2 f_equal. zdiv_lia.
Qed.

(** The child's trap context lies in a frame of its own with the same contents. *)
Lemma copied_thread_cx s (us ms : MemorySet SV39PageTable) m tid q :
  Forall2 (copied m) (areas us) (areas ms) → ms_ok s ms → thread_cx us tid q →
  ∃ ac q', ac ∈ areas ms ∧ is_slot ac (tcx tid) ∧ data_frames ac !! (tcx tid).1.1 = Some q' ∧
    ∀ i, 0 <= i < 4096 → m (q' * 4096 + i) = m (q * 4096 + i).
Proof.
  intros HF Hok (a&[i Ha]%list_elem_of_lookup&(R1&R2&R3)&Hq).
  destruct (Forall2_lookup_l _ _ _ _ _ HF Ha) as (c&Hc&(E1&E2&E3)&Hb). apply list_elem_of_lookup_2 in Hc.
  assert (Hin : in_area a (tcx tid).1.1) by (unfold in_area; rewrite R1; simpl; lia).
  destruct (mo_mapped _ _ Hok c (tcx tid).1.1 Hc) as (q'&Ht&_&_); [unfold in_area in *; by rewrite E1|].
  unfold area_target in Ht. rewrite E2, R2 in Ht. exists c, q'. split; [done|].
  split; [by unfold is_slot, area_spec; rewrite E1, E2, E3|]. split; [done|]. intros j Hj.
  assert (E : ((tcx tid).1.1 * 4096 + j) / 4096 = (tcx tid).1.1) by zdiv_lia.
  specialize (Hb ((tcx tid).1.1 * 4096 + j)). rewrite E in Hb. specialize (Hb Hin).
  rewrite (area_byte_at m c _ q'), (area_byte_at m a _ q) in Hb by (done || congruence). by injection Hb.
Qed.

Lemma ms_ok_heap s (ms : MemorySet SV39PageTable) b h : ms_ok s ms → ms_ok s (mkMS (page_table ms) (areas ms) b h).
Proof. intros []. by split. Qed.

(** Writing a frame that belongs to neither space. *)
Lemma mach_inv_write_other lk lu mc p ppn (f : mem → mem) :
  mach_inv lk lu mc p → ppn ∉ ms_frames (mc_kernel mc) → ppn ∉ ms_frames (up_space p) →
  (∀ x, x / 4096 ≠ ppn → f (km_mem (mc_mem mc)) x = km_mem (mc_mem mc) x) →
  mach_inv lk lu (mkMach (with_mem f (mc_mem mc)) (mc_kernel mc) (mc_kstacks mc) (mc_ready mc)) p.
Proof.
  intros [Hk Hu Hap] Hpk Hpu Hf. pose proof (ki_ok _ _ Hk) as [Hfa Hkok]. pose proof (ti_ok _ _ Hu) as [_ Huok]. split.
  - eapply kst_inv_mem; [exact Hk|done|]. eapply ms_ok_frame; [exact Hkok|apply Hkok|]. intros x Hx. apply Hf. intros E.
    apply Hpk. rewrite <- E. by apply ms_frames_pt.
  - eapply thr_inv_mem; [exact Hu|done|]. eapply ms_ok_frame; [exact Huok|apply Huok|]. intros x Hx. apply Hf. intros E.
    apply Hpu. rewrite <- E. by apply ms_frames_pt.
  - done.
Qed.

Section clone.
Context (trap_return : Z).

(** A parent that [clone] accepts: its only thread is the main one, whose trap
    context lies in frame [q]. *)
Record clonable (par : UProc) (q : Z) : Prop := {
  cl_tasks : ∃ t, up_tasks par = [Some t] ∧ is_Some (tcb_res t);
  cl_live : ∀ x, ra_live (up_ids par) x ↔ x = 0;
  cl_framed : ∀ b, b ∈ areas (up_space par) → map_type b = Framed;
  cl_cx : thread_cx (up_space par) 0 q;
  cl_ppn : is_ppn q;
}.

(** The new space and the kernel's, the parent's and the allocator after the copy. *)
Lemma fork_spaces lk lu mc par (ms : MemorySet SV39PageTable) m1 :
  mach_inv lk lu mc par → (∀ x, ra_live (up_ids par) x ↔ x = 0) → fork_inv (mc_mem mc) (up_space par) (areas (up_space par)) m1 ms →
  let child := mkUP (mkMS (page_table ms) (areas ms) (brk (up_space par)) (heap_start (up_space par))) (mkRA 1 []) [] in
  let mc1 := mkMach m1 (mc_kernel mc) (mc_kstacks mc) (mc_ready mc) in
  mach_inv lk lu mc1 child ∧ mach_inv lk lu mc1 par ∧ apart (up_space par) (up_space child) ∧
  ∀ x, x / 4096 ∈ ms_frames (up_space par) → km_mem m1 x = km_mem (mc_mem mc) x.
Proof.
  intros [Hk Hu Hap] Hl F child mc1. pose proof (ki_ok _ _ Hk) as [Hfa Hkok]. pose proof (ti_ok _ _ Hu) as [_ Huok].
  cbn [kernel_view user_view sp_mem sp_space] in *.
  assert (Hb : built (mc_mem mc) ms m1) by (split; apply F).
  pose proof (built_keeps _ _ _ _ Hb Hkok) as Hk1.
  assert (Hfresh : ∀ B, ms_ok (mc_mem mc) B → apart B ms).
  { intros B HB p Hp Hq. apply (gr_fresh _ _ _ (fk_new _ _ _ _ _ F) p Hq). by apply (mo_owned _ _ HB). }
  assert (Hkv : kst_inv lk (kernel_view mc1)) by (eapply kst_inv_mem; [exact Hk|apply F|done]).
  split; [|split; [|split]].
  - split; [done| |by apply Hfresh]. split; cbn [user_view sp_ids sp_space child up_space up_ids].
    + split; [apply F|]. apply ms_ok_heap, F.
    + split_and!; simpl; [constructor|constructor|lia|lia].
    + apply (ti_lim _ _ Hu).
    + simpl. lia.
    + eapply slots_in_ext; [|eapply (copied_slots (km_mem m1) (up_space par)); [apply F|apply (ti_slots _ _ Hu)]].
      intros sl. unfold thread_slots, live_slots. cbn [user_view sp_ids]. setoid_rewrite Hl.
      split; intros (i&Hi&Hs); exists i; (split; [|done]); unfold ra_live in *; simpl in *.
      * subst i. split; [lia|]. apply not_elem_of_nil.
      * destruct Hi as [? _]. lia.
  - split; [done| |done]. eapply thr_inv_mem; [exact Hu|apply F|apply F].
  - by apply Hfresh.
  - intros x Hx. apply (fk_same _ _ _ _ _ F). intros Hin. exact (Hfresh _ Huok _ Hx Hin).
Qed.

(** The trap context of the child: the parent's, with its own kernel stack. *)
Definition child_cx (cx : TrapContext) (ktop : Z) : TrapContext :=
  mkTC (general_regs cx) (sstatus cx) (sepc cx) (kernel_satp cx) ktop (trap_handler_addr cx).

Record clone_post (lk lu : Z) (mc : Machine) (par : UProc) (cx : TrapContext) (child : UProc) (t : TCB) (mc' : Machine) : Prop := {
  cp_child : mach_inv lk lu mc' child;
  cp_parent : mach_inv lk lu mc' par;
  cp_apart : apart (up_space par) (up_space child);
  cp_same : ∀ x, x / 4096 ∈ ms_frames (up_space par) → km_mem (mc_mem mc') x = km_mem (mc_mem mc) x;
  cp_copy : Forall2 (λ a c, same_attrs a c ∧ ∀ va, in_area a (va / 4096) → va / 4096 ≠ (tcx 0).1.1 →
    area_byte (km_mem (mc_mem mc')) c va = area_byte (km_mem (mc_mem mc)) a va) (areas (up_space par)) (areas (up_space child));
  cp_heap : brk (up_space child) = brk (up_space par) ∧ heap_start (up_space child) = heap_start (up_space par);
  cp_task : up_tasks child = [Some t] ∧ tcb_res t = Some 0;
  cp_kstack : ¬ ra_live (mc_kstacks mc) (tcb_kstack t) ∧ mc_ready mc' = mc_ready mc ++ [tcb_kstack t];
  cp_frame : thread_cx (up_space child) 0 (tcb_cx_ppn t) ∧ is_ppn (tcb_cx_ppn t);
  cp_cx : get_trap_cx (km_mem (mc_mem mc')) (tcb_cx_ppn t) = cx;
  cp_task_cx : tcb_task_cx t = goto_trap_return trap_return (get_top (tcb_kstack t));
}.

(** Writing the child's trap context preserves everything else. *)
Lemma clone_post_write lk lu mc par cx child t mc' (f : mem → mem) cx' :
  clone_post lk lu mc par cx child t mc' → (∀ b, b ∈ areas (up_space par) → map_type b = Framed) →
  (∀ x, x / 4096 ≠ tcb_cx_ppn t → f (km_mem (mc_mem mc')) x = km_mem (mc_mem mc') x) →
  get_trap_cx (f (km_mem (mc_mem mc'))) (tcb_cx_ppn t) = cx' →
  clone_post lk lu mc par cx' child t (mkMach (with_mem f (mc_mem mc')) (mc_kernel mc') (mc_kstacks mc') (mc_ready mc')).
Proof.
  intros [H1 H2 H3 H4 H5 H6 H7 H8 [H9 H9'] H10 H11] Hfr Hf Hcx. set (q := tcb_cx_ppn t) in *.
  pose proof (thread_cx_frame _ _ _ H9) as Hq. pose proof (areas_ms_frames _ _ Hq) as Hq'.
  assert (Hqp : q ∉ ms_frames (up_space par)) by (intros Hin; by apply (H3 q)).
  split; try done; cbn [mc_mem mc_kernel mc_kstacks mc_ready with_mem km_mem].
  - by eapply mach_inv_write.
  - eapply mach_inv_write_other; [done| |done|done]. intros Hin. by apply (mi_apart _ _ _ _ H1 q).
  - intros x Hx. rewrite Hf; [by apply H4|]. intros E. apply Hqp. by rewrite <- E.
  - pose proof (ti_ok _ _ (mi_user _ _ _ _ H1)) as [_ Hok]. destruct H9 as (ac&Hac&_&Hd).
    apply Forall2_same_length_lookup. split; [by eapply Forall2_length|]. intros i a c Ha Hc.
    destruct (Forall2_lookup_lr _ _ _ _ _ _ H5 Ha Hc) as [Hat Hb]. split; [done|]. intros va Hva Hne. rewrite <- Hb by done.
    apply list_elem_of_lookup_2 in Hc, Ha. unfold area_byte, area_target. destruct Hat as (_&->&_). rewrite (Hfr a Ha).
    destruct (data_frames c !! (va / 4096)) as [ppn|] eqn:Et; [|done]. simpl. f_equal. apply Hf. intros E.
    apply Hne. assert (ppn = q) as -> by zdiv_lia. exact (proj2 (frame_page _ _ _ _ _ _ _ Hok Hc Hac Et Hd)).
Qed.

(** The control block of the child's main thread: no user resources are made. *)
Lemma child_task_wp lk lu mc cs ac q :
  mach_inv lk lu mc (mkUP cs (mkRA 1 []) []) → ac ∈ areas cs → is_slot ac (tcx 0) → data_frames ac !! (tcx 0).1.1 = Some q →
  kroom lk mc → 6 <= fa_free (km_fa (mc_mem mc)) →
  wp (task_new trap_return (mkUP cs ra_new []) false) mc (λ '(t, c) mc', c = mkUP cs (mkRA 1 []) [] ∧ is_ppn q ∧
    t = mkTCB (tcb_kstack t) (Some 0) q (goto_trap_return trap_return (get_top (tcb_kstack t))) Ready None ∧
    kst_inv lk (kernel_view mc') ∧ ¬ ra_live (mc_kstacks mc) (tcb_kstack t) ∧ is_usize (get_top (tcb_kstack t)) ∧
    mc_ready mc' = mc_ready mc ∧
    ∀ B, ms_ok (mc_mem mc) B → apart (mc_kernel mc) B → ms_ok (mc_mem mc') B ∧ apart (mc_kernel mc') B ∧
      ∀ x, x / 4096 ∈ ms_frames B → km_mem (mc_mem mc') x = km_mem (mc_mem mc) x).
Proof.
  intros [Hk Hu Hap] Hac Hs Hq Hr Hf. unfold task_new. wp_next. apply wp_on_user.
  unfold task_user_res_new, alloc_tid. wp_next. eapply wp_with_ids; [reflexivity|]. wp_steps. apply wp_on_user.
  eapply wp_mono; [apply (trap_cx_ppn_area (user_view mc (mkUP cs (mkRA 1 []) [])) ac 0); [apply Hu|exact Hac|exact Hs|lia]|].
  intros q' ? (->&Hq'&Hp). cbn [user_view sp_mem sp_space sp_ids up_space up_ids up_tasks mc_kernel mc_kstacks mc_ready] in *.
  assert (q' = q) as -> by congruence. wp_next. destruct mc as [m k ks rq]. cbn [mc_mem mc_kernel mc_kstacks mc_ready] in *.
  eapply wp_mono; [by apply (kstack_for_wp lk)|]. intros id mc' (H1&H2&_&H3&H4&_&_&_&_&H5). wp_steps. done.
Qed.

Lemma clone_task_wp lk lu mc par q st :
  mach_inv lk lu mc par → clonable par q → tramp_ok st → kroom lk mc →
  9 + 3 * length (areas (up_space par) ≫= area_pages) <= fa_free (km_fa (mc_mem mc)) →
  wp (clone_task trap_return st par) mc (λ child mc', ∃ t,
    clone_post lk lu mc par (child_cx (get_trap_cx (km_mem (mc_mem mc)) q) (get_top (tcb_kstack t))) child t mc').
Proof.
  intros Hinv [(pt&Et&r0&Er) Hl Hfr Hcx Hq] Hst Hroom Hfree. unfold clone_task. rewrite Et. wp_steps. apply wp_assert; [reflexivity|]. wp_steps.
  pose proof (ti_ok _ _ (mi_user _ _ _ _ Hinv)) as [Hfa Hok]. cbn [user_view sp_mem sp_space] in *.
  pose proof (from_existed_user_wp st (up_space par) (mc_mem mc) Hfa Hok Hfr Hst ltac:(lia)) as Hfork.
  apply wp_done in Hfork as (ms&m1&E&F). eapply wp_lift; [exact E|]. cbn beta iota. wp_steps. wp_next.
  eapply wp_unwrap; [reflexivity|]. wp_steps. rewrite Er. wp_steps.
  destruct (fork_spaces lk lu mc par ms m1 Hinv Hl F) as (Ic&Ip&Hap&Hsame).
  destruct (copied_thread_cx m1 (up_space par) ms (km_mem m1) 0 q (fk_copied _ _ _ _ _ F) (fk_child _ _ _ _ _ F) Hcx)
    as (ac&q'&Hac&Hslot&Hq'&Hbytes).
  set (cs := mkMS (page_table ms) (areas ms) (brk (up_space par)) (heap_start (up_space par))) in *.
  pose proof (fk_free _ _ _ _ _ F) as Hff.
  eapply wp_mono; [apply (child_task_wp lk lu _ cs ac q' Ic); try done; simpl; lia|].
  intros [t c] mc2 (->&Hp'&->&Hk2&Hkf&Htop&Erd&Hoth). cbn [tcb_kstack tcb_cx_ppn tcb_res mc_mem mc_kernel mc_kstacks mc_ready] in *.
  set (kid := tcb_kstack t) in *. unfold on_memory, enqueue. wp_steps.
  destruct (Hoth cs (proj2 (ti_ok _ _ (mi_user _ _ _ _ Ic))) (mi_apart _ _ _ _ Ic)) as (Okc&Apc&Mc).
  destruct (Hoth (up_space par) (proj2 (ti_ok _ _ (mi_user _ _ _ _ Ip))) (mi_apart _ _ _ _ Ip)) as (Okp&App&Mp).
  set (t0 := mkTCB kid (Some 0) q' (goto_trap_return trap_return (get_top kid)) Ready None).
  set (mc3 := mkMach (mc_mem mc2) (mc_kernel mc2) (mc_kstacks mc2) (mc_ready mc2 ++ [kid])).
  assert (Hcx3 : get_trap_cx (km_mem (mc_mem mc2)) q' = get_trap_cx (km_mem (mc_mem mc)) q).
  { assert (Hqf : q' ∈ ms_frames cs) by (apply areas_ms_frames, (thread_cx_frame cs 0); by exists ac).
    assert (Hqp : q ∈ ms_frames (up_space par)) by (by eapply areas_ms_frames, thread_cx_frame).
    rewrite (get_trap_cx_kept (km_mem m1) (km_mem (mc_mem mc2))) by (done || (intros x Hx; apply Mc; by rewrite Hx)).
    transitivity (get_trap_cx (km_mem m1) q).
    - apply get_trap_cx_ext. intros i Hi. unfold is_ppn in *. rewrite !pa_from_ppn_eq by lia. apply Hbytes. lia.
    - apply get_trap_cx_kept; [done|]. intros x Hx. apply Hsame. by rewrite Hx. }
  assert (P : clone_post lk lu mc par (get_trap_cx (km_mem (mc_mem mc)) q) (mkUP cs (mkRA 1 []) [Some t0]) t0 mc3).
  { split; try done.
    - split; [exact Hk2| |exact Apc]. eapply thr_inv_mem; [apply Ic|apply Hk2|done].
    - split; [exact Hk2| |exact App]. eapply thr_inv_mem; [apply Ip|apply Hk2|done].
    - intros x Hx. cbn [mc_mem mc3]. rewrite Mp by done. auto.
    - apply Forall2_same_length_lookup. split; [by eapply Forall2_length; apply F|]. intros i a c Ha Hc.
      destruct (Forall2_lookup_lr _ _ _ _ _ _ (fk_copied _ _ _ _ _ F) Ha Hc) as [Hat Hb]. split; [done|]. intros va Hva _.
      apply list_elem_of_lookup_2 in Ha, Hc. destruct Hat as (_&Hty&_).
      rewrite (area_byte_ext (km_mem m1) (km_mem (mc_mem mc3))), Hb by
        (done || (rewrite Hty; by apply Hfr) || (intros p Hpc x <-; apply Mc; by eapply areas_ms_frames, elem_areas_frames)).
      apply area_byte_ext; [by apply Hfr|]. intros p Hpa x <-. apply Hsame. by eapply areas_ms_frames, elem_areas_frames.
    - split; [done|]. cbn [mc3 mc_ready]. by rewrite Erd.
    - split; [by exists ac|done]. }
  exists t0. apply (clone_post_write _ _ _ _ _ _ _ mc3 (λ m, put_kernel_sp m q' (get_top kid)) _ P).
  - done.
  - intros x Hx. by apply (put_word_frame _ q' 35).
  - cbn [mc3 mc_mem tcb_cx_ppn t0]. rewrite get_put_kernel_sp by done. by rewrite Hcx3.
Qed.
End clone.

(** ** Theorems *)

(** [thread_create] gives the process a thread with an unused id, its own
    kernel stack, user stack and trap context; the context enters [entry] with
    the argument in [a0] on the new stack, the thread is in the task table and
    in the ready queue, first runs [trap_return] on its kernel stack, and the
    registers of the other threads are untouched. *)
Theorem thread_create_correct trap_return trap_handler lk lu mc p sst entry arg :
  is_usize trap_handler → mach_inv lk lu mc p → ra_current (up_ids p) < 6 → kroom lk mc → 15 <= fa_free (km_fa (mc_mem mc)) →
  is_usize sst → is_usize entry → is_usize arg → is_usize (token (mc_kernel mc)) →
  wp (sys_thread_create trap_return trap_handler sst p entry arg) mc (λ '(tid, p') mc',
    ∃ t, mach_inv lk lu mc' p' ∧ tcb_res t = Some tid ∧ ¬ ra_live (up_ids p) tid ∧
      (∀ x, ra_live (up_ids p') x ↔ x = tid ∨ ra_live (up_ids p) x) ∧
      ¬ ra_live (mc_kstacks mc) (tcb_kstack t) ∧ mc_ready mc' = mc_ready mc ++ [tcb_kstack t] ∧
      up_tasks p' !! Z.to_nat tid = Some (Some t) ∧
      (∀ j, j ≠ Z.to_nat tid → mjoin (up_tasks p' !! j) = mjoin (up_tasks p !! j)) ∧
      thread_cx (up_space p') tid (tcb_cx_ppn t) ∧
      get_trap_cx (km_mem (mc_mem mc')) (tcb_cx_ppn t) =
        thread_regs trap_handler sst entry arg tid (token (mc_kernel mc)) (get_top (tcb_kstack t)) ∧
      tcb_task_cx t = goto_trap_return trap_return (get_top (tcb_kstack t)) ∧
      ∀ i ppn, thread_cx (up_space p) i ppn → is_ppn ppn → thread_cx (up_space p') i ppn ∧
        get_trap_cx (km_mem (mc_mem mc')) ppn = get_trap_cx (km_mem (mc_mem mc)) ppn).
Proof. intros. by apply thread_create_wp. Qed.

Lemma no_settid flags :
  Z.testbit flags 20 = false →
  (Z.land (Z.land (Z.land flags (Z.lnot 0xff)) clone_flags_all) CLONE_PARENT_SETTID =? CLONE_PARENT_SETTID) = false.
Proof.
  intros Hb. apply Z.eqb_neq. intros E. apply (f_equal (λ z, Z.testbit z 20)) in E. by rewrite !Z.land_spec, Hb in E.
Qed.


(** ** A machine: [demo] in the role of the kernel's space, and a process just loaded *)

Definition udemo_run : outcome (MemorySet SV39PageTable * Z * KMem) := from_elf demo_parse demo_st [7; 8; 9] demo.2.
Definition udemo : UProc := match udemo_run with Done (ms, _, _) => mkUP ms ra_new [] | Panic => mkUP demo.1 ra_new [] end.
Definition mdemo : Machine := match udemo_run with Done (_, _, m) => mkMach m demo.1 ra_new [] | Panic => mkMach demo.2 demo.1 ra_new [] end.

Lemma udemo_facts :
  mach_inv 0x12 0x12 mdemo udemo ∧ mc_kernel mdemo = demo.1 ∧ mc_kstacks mdemo = ra_new ∧ up_ids udemo = ra_new ∧
  150 <= fa_free (km_fa (mc_mem mdemo)) ∧ ∃ a, areas (up_space udemo) = [a] ∧ area_spec a 0x10 0x12 (ph_perm demo_ph).
Proof.
  destruct demo_facts as (Hfa&Hok&_&Hfree&a&Ha&HR&_). destruct demo_phs_facts as [He Hp].
  pose proof (from_elf_wp (T := SV39PageTable) [7; 8; 9] demo_parse demo_st demo.2 demo_elf [demo_ph] Hfa demo_tramp eq_refl He Hp
    ltac:(change (3 + 3 * _) with 9; lia)) as W.
  destruct (proj1 (wp_done _ _ _) W) as ([ms entry]&m&E&[E1 E2 E3 E4 _ _ _ E8]). clear W.
  unfold mdemo, udemo, udemo_run. rewrite E. clear E.
  change (3 + 3 * total_pages (loads [demo_ph])) with 9 in E8. change (loads [demo_ph]) with [demo_ph] in E4.
  inversion E4 as [|? b ? ? Hb Hnil Eq1 Eq2]; subst. inversion Hnil; subst. destruct Hb as [Hs _].
  split; [|split; [done|split; [done|split; [done|split; [simpl; lia|]]]]].
  - split.
    + split; [|apply ra_new_wf|unfold TRAMP_VPN; simpl; lia|].
      * split; [exact E1|]. exact (built_keeps _ _ _ _ E3 Hok).
      * split; [|intros sl (id&[Hid _]&_); simpl in Hid; lia]. intros c. cbn [kernel_view sp_space mc_kernel]. rewrite Ha.
        intros ->%list_elem_of_singleton. left. rewrite HR. simpl. lia.
    + split; [exact (conj E1 E2)|apply ra_new_wf|unfold TRAMP_VPN; lia|simpl; lia|].
      split; [|intros sl (id&[Hid _]&_); simpl in Hid; lia]. intros c. cbn [user_view sp_space up_space]. rewrite <- Eq2.
      intros ->%list_elem_of_singleton. left. destruct Hs as (->&_). vm_compute. congruence.
    + intros p Hk Hu. apply (gr_fresh _ _ _ (bu_grows _ _ _ E3) p Hu). by apply (mo_owned _ _ Hok).
  - exists b. split; [by symmetry|]. exact Hs.
Qed.

#[global] Opaque udemo mdemo.

Lemma demo_room mc : mc_kstacks mc = ra_new → kroom 0x12 mc.
Proof. unfold kroom. intros ->. reflexivity. Qed.


Lemma thread_create_correct_witness :
  wp (sys_thread_create 0x80201000 0x80202000 0x100 udemo 0x10004 7) mdemo (λ '(tid, p') mc',
    ∃ t, mach_inv 0x12 0x12 mc' p' ∧ up_tasks p' !! Z.to_nat tid = Some (Some t) ∧
      get_reg (general_regs (get_trap_cx (km_mem (mc_mem mc')) (tcb_cx_ppn t))) r_a0 = 7).
Proof.
  destruct udemo_facts as (Hinv&Ek&Eks&Eid&Hfree&_). destruct demo_facts as (_&Hok&_). eapply wp_mono.
  - apply (thread_create_correct 0x80201000 0x80202000 0x12 0x12 mdemo udemo 0x100 0x10004 7).
    + split; [lia|reflexivity].
    + exact Hinv.
    + rewrite Eid. reflexivity.
    + exact (demo_room mdemo Eks).
    + lia.
    + split; [lia|reflexivity].
    + split; [lia|reflexivity].
    + split; [lia|reflexivity].
    + rewrite Ek. exact (token_usize _ _ Hok).
  - intros [tid p'] mc' (t&H1&_&_&_&_&_&H2&_&_&H3&_). exists t. split; [exact H1|]. split; [exact H2|]. rewrite H3. reflexivity.
Defined.


(** [waittid] on an id the process has never had indexes past the table. *)
Lemma waittid_unknown_panics cur p tid own mc :
  tcb_res cur = Some own → own ≠ tid → (length (up_tasks p) <= Z.to_nat tid)%nat → sys_waittid cur p tid mc = Panic.
Proof.
  intros Ec Hne Hlen. unfold sys_waittid, kunwrap, mbind, K_bind. rewrite Ec. simpl.
  destruct (Z.eqb_spec own tid); [done|]. by rewrite lookup_ge_None_2.
Qed.
