(* ===== verification/NewProcess.v ===== *)
(** * The first process ([ProcessControlBlock::new] of [os/src/task/process.rs])

    The address space of a program, its main thread and the registers with which
    it starts; the rest of the control block is [pcb_new] of [Process]. *)

From S2P Require Import Prelude Address PhysMem IdAlloc FrameAlloc PageTable Sv39 UserMem MemorySet MapAreaSpec.
From S2P Require Import MemorySetSpec MemorySetOps Mmap Fork Elf UserRes StackProps TrapCx Exec SpaceProps ResProps ExecProps Timer Signal Sched Threads ThreadProps.

Section new.
Context (trap_return trap_handler : Z).

Definition process_new (elf_new : list Z → option ElfFile) (strampoline sst : Z) (elf_data : list Z) : K Machine UProc :=
  mc ← kget;
  '((memory_set, entry_point), m) ← klift (from_elf elf_new strampoline elf_data (mc_mem mc));
  kput (mkMach m (mc_kernel mc) (mc_kstacks mc) (mc_ready mc)) ;;
  '(task, process) ← task_new trap_return (mkUP memory_set ra_new []) true;
  tid ← kunwrap (tcb_res task);
  mc ← kget;
  let cx := app_init_context sst entry_point (ustack_top tid) (token (mc_kernel mc)) (get_top (tcb_kstack task)) trap_handler in
  on_memory (λ m, put_trap_cx m (tcb_cx_ppn task) cx) ;;
  let process := mkUP (up_space process) (up_ids process) (up_tasks process ++ [Some task]) in
  enqueue task ;;
  mret process.

Lemma loaded_ext m m' input ph a :
  loaded m input ph a → (∀ q, q ∈ area_frames a → ∀ x, x / 4096 = q → m' x = m x) → loaded m' input ph a.
Proof. intros [Hs Hb] Hm. split; [done|]. intros va Hva. rewrite (area_byte_ext m m') by (done || apply Hs). by apply Hb. Qed.

(** A space that was just loaded, beside the kernel's. *)
Lemma fresh_space_inv lk lu mc ms m input st elf phs entry :
  kst_inv lk (kernel_view mc) → elf_post input st elf phs (mc_mem mc) ms entry m →
  (∀ ph, ph ∈ loads phs → seg_end ph <= lu) → 0 <= lu < TRAMP_VPN - 25 →
  mach_inv lk lu (mkMach m (mc_kernel mc) (mc_kstacks mc) (mc_ready mc)) (mkUP ms ra_new []).
Proof.
  intros Hk [E1 E2 E3 E4 _ _ _ _ _] Hlow Hlu. pose proof (ki_ok _ _ Hk) as [Hfa Hkok]. cbn [kernel_view sp_mem sp_space] in Hfa, Hkok. split.
  - eapply (kst_inv_mem lk (mc_mem mc)); [exact Hk|exact E1|]. exact (built_keeps _ _ _ _ E3 Hkok).
  - split; [exact (conj E1 E2)|apply ra_new_wf|done|simpl; lia|].
    split; [|intros sl (id&[Hid _]&_); simpl in Hid; lia]. intros c [i Hi]%list_elem_of_lookup. left.
    cbn [user_view sp_space up_space] in Hi. destruct (Forall2_lookup_r _ _ _ _ _ E4 Hi) as (ph&Hph&(->&_)&_).
    apply list_elem_of_lookup_2 in Hph. simpl. by apply Hlow.
  - intros p Hp Hu. apply (gr_fresh _ _ _ (bu_grows _ _ _ E3) p Hu). by apply (mo_owned _ _ Hkok).
Qed.

(** The first process.  From a loadable program [new] builds, without a
    panic, an address space with the segments of the program, a stack and a trap
    context, apart from the kernel's; the main thread has id 0 and a kernel stack
    nobody has, enters the program at its entry point with the stack pointer at
    the top of its stack, first runs [trap_return], and is in the ready queue. *)
Theorem process_new_correct lk lu mc elf_new st sst input elf phs :
  is_usize trap_handler → kst_inv lk (kernel_view mc) → kroom lk mc → is_usize sst → is_usize (elf_entry_point elf) →
  tramp_ok st → elf_new input = Some elf → elf_ok elf phs → phs_ok input phs →
  (∀ ph, ph ∈ loads phs → seg_end ph <= lu) → 0 <= lu < TRAMP_VPN - 25 →
  18 + 3 * total_pages (loads phs) <= fa_free (km_fa (mc_mem mc)) →
  wp (process_new elf_new st sst input) mc (λ p mc', ∃ t,
    mach_inv lk lu mc' p ∧ up_tasks p = [Some t] ∧ tcb_res t = Some 0 ∧
    ¬ ra_live (mc_kstacks mc) (tcb_kstack t) ∧ mc_ready mc' = mc_ready mc ++ [tcb_kstack t] ∧
    tcb_task_cx t = goto_trap_return trap_return (get_top (tcb_kstack t)) ∧
    thread_cx (up_space p) 0 (tcb_cx_ppn t) ∧
    get_trap_cx (km_mem (mc_mem mc')) (tcb_cx_ppn t) =
      app_init_context sst (elf_entry_point elf) (ustack_top 0) (token (mc_kernel mc)) (get_top (tcb_kstack t)) trap_handler ∧
    (tramp_of (mc_mem mc') (up_space p) = Some (tramp_pte (T := SV39PageTable) st) ∧
     tramp_of (mc_mem mc') (mc_kernel mc') = tramp_of (mc_mem mc) (mc_kernel mc) ∧ token (mc_kernel mc') = token (mc_kernel mc)) ∧
    ∃ segs au ac, areas (up_space p) = segs ++ [au; ac] ∧ is_slot au (ust 0) ∧ is_slot ac (tcx 0) ∧
      Forall2 (loaded (km_mem (mc_mem mc')) input) (loads phs) segs).
Proof.
  intros Hth Hk Hr Hsst Hent Hst Hnew Helf Hphs Hlow Hlu Hfree. unfold process_new.
  pose proof (ki_ok _ _ Hk) as [Hfa Hkok]. cbn [kernel_view sp_mem sp_space] in Hfa, Hkok.
  pose proof (total_pages_nonneg _ _ (po_seg _ _ Hphs)) as Hnn.
  destruct (proj1 (wp_done _ _ _) (from_elf_wp (T := SV39PageTable) input elf_new st (mc_mem mc) elf phs Hfa Hst Hnew Helf Hphs ltac:(lia)))
    as ([ms entry]&m&E&P). pose proof (fresh_space_inv lk lu mc ms m input st elf phs entry Hk P Hlow Hlu) as Hinv.
  destruct P as [_ _ E3 E4 _ _ -> E8 E9].
  assert (Hkt : tramp_of m (mc_kernel mc) = tramp_of (mc_mem mc) (mc_kernel mc)).
  { apply tramp_kept; [exact Hkok|]. intros x Hx. apply (bu_same _ _ _ E3). intros Hin.
    apply (gr_fresh _ _ _ (bu_grows _ _ _ E3) _ Hin), (mo_owned _ _ Hkok). by apply ms_frames_pt. } wp_steps. eapply wp_lift; [exact E|]. cbn beta iota. wp_steps.
  eapply wp_mono; [apply (task_new_wp trap_return lk lu); [exact Hinv|reflexivity|exact Hr|simpl; lia]|].
  intros [t p1] mc1 (tid&N). pose proof (nt_alloc _ _ _ _ _ _ _ _ _ N) as Ha. assert (tid = 0) as -> by (injection Ha; auto). clear Ha.
  rewrite (nt_res _ _ _ _ _ _ _ _ _ N). wp_steps. exists t. cbn [mc_ready mc_mem up_tasks up_space mc_kernel].
  destruct (nt_cx _ _ _ _ _ _ _ _ _ N) as [Hcx Hp]. pose proof (thread_cx_frame _ _ _ Hcx) as Hin.
  destruct (nt_kstack _ _ _ _ _ _ _ _ _ N) as (Hks&_&Htop). rewrite (nt_token _ _ _ _ _ _ _ _ _ N). cbn [mc_kernel].
  set (cx := app_init_context _ _ _ _ _ _). assert (Hcxo : tc_ok cx).
  { apply app_init_ok; try done. by eapply token_usize. }
  assert (Hw : mach_inv lk lu (mkMach (with_mem (λ m, put_trap_cx m (tcb_cx_ppn t) cx) (mc_mem mc1)) (mc_kernel mc1) (mc_kstacks mc1) (mc_ready mc1)) p1).
  { apply (mach_inv_write lk lu mc1 p1 (tcb_cx_ppn t)); [apply N|exact Hin|]. intros x Hx. by apply put_trap_cx_frame. }
  split; [destruct Hw as [J1 J2 J3]; by split|]. split; [by rewrite (nt_tasks _ _ _ _ _ _ _ _ _ N)|].
  split; [apply (nt_res _ _ _ _ _ _ _ _ _ N)|]. split; [exact Hks|]. split; [by rewrite (nt_ready _ _ _ _ _ _ _ _ _ N)|].
  split; [apply (nt_task_cx _ _ _ _ _ _ _ _ _ N)|]. split; [done|]. split; [by apply get_put_trap_cx|].
  assert (Hpt : ∀ B, ms_ok (mc_mem mc1) B → tcb_cx_ppn t ∉ pt_frames (page_table B) →
    tramp_of (with_mem (λ m, put_trap_cx m (tcb_cx_ppn t) cx) (mc_mem mc1)) B = tramp_of (mc_mem mc1) B).
  { intros B HB HnB. apply tramp_kept; [done|]. intros x Hx. cbn [km_mem with_mem]. apply put_trap_cx_frame; [done|done|]. intros E0. by rewrite E0 in Hx. }
  destruct (nt_inv _ _ _ _ _ _ _ _ _ N) as [Jk Ju Jap]. destruct (nt_tramp _ _ _ _ _ _ _ _ _ N) as [Tu Tk].
  pose proof (ki_ok _ _ Jk) as [_ Jkok]. pose proof (ti_ok _ _ Ju) as [_ Juok]. cbn [kernel_view user_view sp_mem sp_space] in Jkok, Juok.
  split; [split; [|split]|].
  { rewrite Hpt, Tu by (done || apply (ms_data_not_pt _ _ _ Juok Hin)). exact E9. }
  { rewrite Hpt, Tk; [exact Hkt|done|]. intros Hk'. apply (Jap (tcb_cx_ppn t)); [by apply ms_frames_pt|by apply areas_ms_frames]. }
  { done. }
  destruct (nt_areas _ _ _ _ _ _ _ _ _ N) as (au&ac&Har&Hsu&Hsc). exists (areas ms), au, ac. split; [exact Har|]. split; [done|]. split; [done|].
  apply Forall2_same_length_lookup_2; [by eapply Forall2_length|]. intros i ph b Hph Hb.
  pose proof (Forall2_lookup_lr _ _ _ _ _ _ E4 Hph Hb) as Hl. apply list_elem_of_lookup_2 in Hb.
  apply (loaded_ext _ _ _ _ _ Hl). intros q Hq x Hx.
  destruct (nt_data _ _ _ _ _ _ _ _ _ N b q Hb Hq) as [Hne Hm]. cbn [km_mem with_mem]. rewrite put_trap_cx_frame by (done || congruence). by apply Hm.
Qed.
End new.

Lemma process_new_correct_witness :
  wp (process_new 0x80201000 0x80202000 demo_parse demo_st 0x100 [7; 8; 9]) (mkMach demo.2 demo.1 ra_new []) (λ p mc',
    ∃ t, up_tasks p = [Some t] ∧ mc_ready mc' = [tcb_kstack t] ∧ length (areas (up_space p)) = 3%nat).
Proof.
  destruct demo_facts as (Hfa&Hok&_&Hfree&a&Ha&HR&_). destruct demo_phs_facts as [He Hp]. eapply wp_mono.
  - apply (process_new_correct 0x80201000 0x80202000 0x12 0x12 (mkMach demo.2 demo.1 ra_new []) demo_parse demo_st 0x100 [7; 8; 9] demo_elf [demo_ph]).
    + vm_compute; split; congruence.
    + split; [exact (conj Hfa Hok)|apply ra_new_wf|unfold TRAMP_VPN; simpl; lia|].
      split; [|intros sl (id&[Hid _]&_); simpl in Hid; lia]. intros c. cbn [kernel_view sp_space mc_kernel]. rewrite Ha.
      intros ->%list_elem_of_singleton. left. rewrite HR. simpl. lia.
    + apply demo_room. reflexivity.
    + vm_compute; split; congruence.
    + vm_compute; split; congruence.
    + exact demo_tramp.
    + reflexivity.
    + exact He.
    + exact Hp.
    + change (loads [demo_ph]) with [demo_ph]. intros ph ->%list_elem_of_singleton. vm_compute. congruence.
    + unfold TRAMP_VPN. lia.
    + change (18 + 3 * _) with 24. cbn [mc_mem]. lia.
  - intros p mc' (t&_&Ht&_&_&Hr&_&_&_&_&segs&au&ac&Har&_&_&HF). exists t. split; [exact Ht|]. split; [exact Hr|].
    rewrite Har, length_app. apply Forall2_length in HF. rewrite <- HF. reflexivity.
Defined.
