(* ===== verification/InitProc.v ===== *)
(** * The initial process ([user/src/bin/initproc.rs], [user/src/lib.rs])

    The program as a machine that makes system calls and goes on with their
    answers, run by the kernel's process calls beside the steps of all other
    processes. *)

From stdpp Require Import strings.
From S2P Require Import Prelude IdAlloc Timer Process ProcessProps.
Open Scope Z_scope.

(** ** The waiting loops of the user library *)

(** [wait] and [waitpid]: where they are in their loop. *)
Inductive WaitLoop := InWait | InYield.

(** [sys_waitpid] answered [ans]; [-2] makes the loop yield and ask again. *)
Definition wait_next (w : WaitLoop) (ans : Z) : WaitLoop + Z :=
  match w with
  | InWait => if ans =? -2 then inl InYield else inr ans
  | InYield => inl InWait
  end.

(** ** The program *)

Definition tests : list string :=
  ["brk"; "clone"; "dup"; "execve"; "fork"; "getcwd"; "getpid"; "gettimeofday"; "mmap"; "open"; "times"; "uname";
   "wait"; "write"; "chdir"; "close"; "dup2"; "exit"; "fstat"; "getdents"; "getppid"; "mkdir_"; "munmap"; "openat";
   "read"; "sleep"; "waitpid"; "yield"]%string.

Inductive UCall :=
| UFork
| UWaitpid (pid : Z)
| UYield
| UPrint (msg : string)
| UExec (prog : string)
| UPanic (msg : string)
| UReturn (code : Z).

(** The points of [main] at which it makes a call: in the loop over the tests, in
    the loop that collects, and in the processes it forks. *)
Inductive IState :=
| AtFork (prog : string) (rest : list string)
| AtWait (pid : Z) (rest : list string) (w : WaitLoop)
| AtYield (rest : list string)
| AtShellFork
| Collect (w : WaitLoop)
| CollectYield
| TestPrint (prog : string)
| TestExec (prog : string)
| TestPanic
| ShellPrint
| ShellExec
| Returned.

Definition next_test (rest : list string) : IState :=
  match rest with [] => AtShellFork | prog :: rest => AtFork prog rest end.

Definition init_start : IState := next_test tests.

Definition wait_call (pid : Z) (w : WaitLoop) : UCall := match w with InWait => UWaitpid pid | InYield => UYield end.

Definition init_call (st : IState) : UCall :=
  match st with
  | AtFork _ _ | AtShellFork => UFork
  | AtWait _ _ w | Collect w => wait_call (-1) w
  | AtYield _ | CollectYield => UYield
  | TestPrint prog => UPrint ("Running " +:+ prog)
  | TestExec prog => UExec prog
  | TestPanic => UPanic "exec failed"
  | ShellPrint => UPrint "Exiting main..."
  | ShellExec => UExec "user_shell"
  | Returned => UReturn 0
  end.

Definition init_next (st : IState) (ans : Z) : IState :=
  match st with
  | AtFork prog rest => if ans =? 0 then TestPrint prog else AtWait ans rest InWait
  | AtWait pid rest w =>
      match wait_next w ans with
      | inl w' => AtWait pid rest w'
      | inr _ => if pid =? -1 then AtYield rest else next_test rest
      end
  | AtYield rest => next_test rest
  | AtShellFork => if ans =? 0 then ShellPrint else Collect InWait
  | Collect w =>
      match wait_next w ans with
      | inl w' => Collect w'
      | inr pid => if pid =? -1 then CollectYield else Collect InWait
      end
  | CollectYield => Collect InWait
  | TestPrint prog => TestExec prog
  | TestExec prog => TestPanic
  | TestPanic => TestPanic
  | ShellPrint => ShellExec
  | ShellExec => Returned
  | Returned => Returned
  end.

(** ** The system *)

(** The answer of a round of [sys_wait4], unless it goes on waiting. *)
Definition wait_answer (r : WaitEnd) : option Z :=
  match r with WReturn a => Some a | WReaped pid _ => Some pid | WSuspend | WAgain => None end.

(** A step of the initial process. *)
Inductive istep : IState * Procs → IState * Procs → Prop :=
| istep_fork st s pid s' : init_call st = UFork → ra_room (ps_pids s) → pcb_clone IDLE_PID 0 s = Done (pid, s') →
    istep (st, s) (init_next st pid, s')
| istep_wait st s pid r s' : init_call st = UWaitpid pid → wait4_round IDLE_PID pid 0 s = Done (r, s') →
    istep (st, s) (match wait_answer r with Some a => init_next st a | None => st end, s')
| istep_yield st s : init_call st = UYield → istep (st, s) (init_next st 0, s).

(** A step of another process; [forks] says whether it may create processes. *)
Inductive other_step (forks : bool) (s s' : Procs) : Prop :=
| ostep_clone me sig p pid : forks = true → me ≠ IDLE_PID → ps_pcbs s !! me = Some p → is_zombie p = false →
    ra_room (ps_pids s) → pcb_clone me sig s = Done (pid, s') → other_step forks s s'
| ostep_exit pid code p : pid ≠ IDLE_PID → ps_pcbs s !! pid = Some p → is_zombie p = false →
    exit_process IDLE_PID pid code s = Done ((), s') → other_step forks s s'
| ostep_wait me pid o p r : me ≠ IDLE_PID → ps_pcbs s !! me = Some p → is_zombie p = false →
    wait4_round me pid o s = Done (r, s') → other_step forks s s'.

(** A run; the list says which of its steps the initial process made. *)
Inductive irun (forks : bool) : list bool → IState * Procs → IState * Procs → Prop :=
| irun_nil x : irun forks [] x x
| irun_init l x y z : istep x y → irun forks l y z → irun forks (true :: l) x z
| irun_other l st s s' z : other_step forks s s' → irun forks l (st, s') z → irun forks (false :: l) (st, s) z.

Definition init_reach (forks : bool) (x : IState * Procs) : Prop :=
  ∃ s0 l, pcb_new no_procs = Done (IDLE_PID, s0) ∧ irun forks l (init_start, s0) x.

(** ** The points of the initial process *)

(** The steps it makes before it waits; [None] in the processes it forks. *)
Definition until_wait (st : IState) : option nat :=
  match st with
  | AtWait _ _ InWait | Collect InWait => Some 0%nat
  | AtFork _ _ | AtShellFork | AtWait _ _ InYield | Collect InYield | CollectYield => Some 1%nat
  | AtYield _ => Some 2%nat
  | _ => None
  end.

Lemma until_next_test rest : until_wait (next_test rest) = Some 1%nat.
Proof. by destruct rest. Qed.

(** Every point but a wait comes one step nearer to it. *)
Lemma until_wait_step st n ans :
  until_wait st = Some (S n) → (init_call st = UFork → ans ≠ 0) → until_wait (init_next st ans) = Some n.
Proof.
  destruct st as [| ? ? []| | |[]| | | | | | |]; simpl; try done; intros [= <-] Ha; rewrite ?until_next_test; try done;
    by rewrite (proj2 (Z.eqb_neq ans 0)) by auto.
Qed.

Lemma until_wait_zero st : until_wait st = Some 0%nat → init_call st = UWaitpid (-1) ∧ ∀ a, ∃ n, until_wait (init_next st a) = Some n ∧ (n <= 2)%nat.
Proof.
  destruct st as [| ? ? []| | |[]| | | | | | |]; simpl; try done; intros _; (split; [done|]); intros a; destruct (a =? -2); simpl;
    repeat case_match; rewrite ?until_next_test; eauto with lia.
Qed.

Lemma until_wait_call st n : until_wait st = Some (S n) → init_call st = UFork ∨ init_call st = UYield.
Proof. destruct st as [| ? ? []| | |[]| | | | | | |]; simpl; naive_solver. Qed.

(** ** Steps *)

Lemma istep_pstep st s st' s' : forest IDLE_PID s → istep (st, s) (st', s') → s' = s ∨ pstep s s'.
Proof.
  intros F Hst. destruct (fo_init _ _ F) as (p&Hp&Hz&_). inversion Hst; subst; [right; by eapply step_clone|right; by eapply step_wait|by left].
Qed.

Lemma ostep_pstep f s s' : other_step f s s' → pstep s s'.
Proof. destruct 1; [by eapply step_clone|by eapply step_exit|by eapply step_wait]. Qed.

Lemma fork_fresh s sig pid s' :
  forest IDLE_PID s → ra_room (ps_pids s) → pcb_clone IDLE_PID sig s = Done (pid, s') →
  ∃ p new, ps_pcbs s !! IDLE_PID = Some p ∧ pid ≠ IDLE_PID ∧ ps_pcbs s !! pid = None ∧ child_added s s' IDLE_PID pid p new.
Proof.
  intros F Hr E. destruct (fo_init _ _ F) as (p&Hp&Hz&_). pose proof (clone_wp _ _ _ sig p F Hp Hz Hr) as (pid'&?&E'&_&Hn&Hadd)%wp_done.
  rewrite E in E'. injection E' as <- <-. exists p, (mkPCB false (Some IDLE_PID) [] sig (cwd p) (fd_table p) rusage_new pid).
  split_and!; [done|congruence|done|done].
Qed.

Lemma wait_run s me pid o p r s' :
  forest IDLE_PID s → ps_pcbs s !! me = Some p → wait4_round me pid o s = Done (r, s') → wait_spec IDLE_PID s me pid o p r s'.
Proof. intros F Hp E. pose proof (wait4_wp _ _ me pid o p F Hp) as (?&?&E'&Hs)%wp_done. congruence. Qed.

Lemma irun_main f l x y : irun f l x y → forest IDLE_PID x.2 → is_Some (until_wait x.1) → forest IDLE_PID y.2 ∧ is_Some (until_wait y.1).
Proof.
  induction 1 as [x|l [st s] [st' s'] z Hi _ IH|l st s s' z Ho _ IH]; intros F Hm; [done| |].
  - simpl in *. apply IH; [destruct (istep_pstep _ _ _ _ F Hi) as [->|?]; [done|by eapply forest_pstep]|].
    destruct Hm as [[|n] Hn].
    + destruct (until_wait_zero st Hn) as [Hc Hnext]. inversion Hi; subst; try congruence.
      case_match; [|by eexists]. destruct (Hnext z0) as (k&?&_). by exists k.
    + exists n. inversion Hi as [? ? pid ? Hc Hr E|? ? ? ? ? Hc|? ? Hc]; subst.
      * destruct (fork_fresh _ _ _ _ F Hr E) as (?&?&_&Hne&_). by apply until_wait_step.
      * destruct (until_wait_call _ _ Hn); congruence.
      * apply until_wait_step; [done|congruence].
  - apply IH; [eapply forest_pstep; [exact F|by eapply ostep_pstep]|done].
Qed.

Lemma init_reach_main f st s : init_reach f (st, s) → forest IDLE_PID s ∧ is_Some (until_wait st).
Proof.
  intros (s0&l&H0&Hr). destruct forest_boot as (s1&H1&F). assert (s1 = s0) as -> by congruence.
  exact (irun_main f l _ _ Hr F ltac:(by eexists)).
Qed.

(** ** Zombies of the initial process *)

(** Process [c] is a zombie and the [i]-th child of the initial process. *)
Definition zombie_at (s : Procs) (i : nat) (c : Z) : Prop :=
  ∃ p pc, ps_pcbs s !! IDLE_PID = Some p ∧ children p !! i = Some c ∧ ps_pcbs s !! c = Some pc ∧ is_zombie pc = true.

Lemma clone_zombie me sig s pid s' i c p :
  forest IDLE_PID s → ps_pcbs s !! me = Some p → is_zombie p = false → ra_room (ps_pids s) →
  pcb_clone me sig s = Done (pid, s') → zombie_at s i c → zombie_at s' i c.
Proof.
  intros F Hp Hz Hr E (p0&pc&H0&Hi&Hc&Hzc). pose proof (clone_wp _ _ me sig p F Hp Hz Hr) as (?&?&E'&_&Hn&Hadd)%wp_done.
  rewrite E in E'. injection E' as <- <-. destruct (child_added_blocks _ _ _ _ _ _ Hp Hn Hadd) as [_ Hb].
  unfold zombie_at. rewrite !Hb, H0, Hc by congruence. eexists _, _. split; [done|]. split; [|split; [done|by case_decide]].
  case_decide; [|done]. by apply lookup_app_l_Some.
Qed.

Lemma ostep_zombie f s s' i c : forest IDLE_PID s → other_step f s s' → zombie_at s i c → zombie_at s' i c.
Proof.
  intros F [me sig p pid _ _ Hp Hz Hr E|pid code p Hi0 Hp Hz E|me pid o p r Hme Hp Hz E] Hza; [by eapply clone_zombie| |];
    destruct Hza as (p0&pc&H0&Hi&Hc&Hzc).
  - pose proof (exit_wp _ _ pid code p F Hp Hz Hi0 Hi0) as ([]&?&E'&_&Hq&_)%wp_done. rewrite E in E'. injection E' as <-.
    exists (adopt IDLE_PID (children p) IDLE_PID p0), (adopt IDLE_PID (children p) c pc).
    rewrite !Hq, H0, Hc by congruence. destruct (adopt_fields IDLE_PID (children p) c pc) as (->&_).
    destruct (adopt_fields IDLE_PID (children p) IDLE_PID p0) as (_&_&_&->). rewrite decide_True by done.
    split_and!; [done|by apply lookup_app_l_Some|done|done].
  - pose proof (wait_run _ _ _ _ _ _ _ F Hp E) as Hs. destruct r as [|c' code| |]; simpl in Hs; [..|done];
      [destruct Hs as [-> _]; by exists p0, pc| |destruct Hs as [-> _]; by exists p0, pc].
    destruct Hs as (j&pc'&Hj&Hc'&_&_&_&_&Hre&_). apply list_elem_of_lookup_2 in Hj. apply (fo_child _ _ F me p c' Hp) in Hj as (?&Hx&Hpar).
    pose proof (list_elem_of_lookup_2 _ _ _ Hi) as Hin. apply (fo_child _ _ F _ p0 c H0) in Hin as (?&Hy&Hpar').
    destruct (fo_init _ _ F) as (?&?&_&?). exists p0, pc. rewrite Hre, !lookup_delete_ne, !lookup_insert_ne by congruence. done.
Qed.

(** A wait of the initial process reaps [c], or a zombie before it. *)
Lemma wait_zombie s i c r s' :
  forest IDLE_PID s → zombie_at s i c → wait4_round IDLE_PID (-1) 0 s = Done (r, s') →
  is_Some (wait_answer r) ∧ (ps_pcbs s' !! c = None ∨ (0 < i)%nat ∧ zombie_at s' (i - 1) c).
Proof.
  intros F (p&pc&Hp&Hi&Hc&Hz) E. pose proof (wait_run _ _ _ _ _ _ _ F Hp E) as Hs.
  assert (Hre : reapable s (-1) c) by (split; [by rewrite Hc; simpl; rewrite Hz|done]).
  pose proof (list_elem_of_lookup_2 _ _ _ Hi) as Hin. destruct r as [|c' code| |]; simpl in Hs; [..|done].
  - destruct Hs as (_&Hno&_). by destruct (Hno c Hin).
  - split; [done|]. destruct Hs as (j&pc'&Hj&Hc'&_&Hfirst&_&_&Hs'&_). rewrite Hs'.
    destruct (decide (c' = c)) as [->|Hne]; [left; by rewrite lookup_delete_eq|right].
    assert (Hji : (j < i)%nat).
    { destruct (Nat.lt_trichotomy j i) as [?|[->|Hlt]]; [done|congruence|]. by destruct (Hfirst i c Hlt Hi). }
    destruct (fo_init _ _ F) as (?&?&_&?). pose proof (list_elem_of_lookup_2 _ _ _ Hj) as Hin'.
    apply (fo_child _ _ F _ p c' Hp) in Hin' as (?&?&?). apply (fo_child _ _ F _ p c Hp) in Hin as (?&?&?).
    split; [lia|]. unfold zombie_at. rewrite Hs', !lookup_delete_ne, lookup_insert_eq, lookup_insert_ne by congruence.
    eexists _, _. split; [reflexivity|]. split; [|split; [exact Hc|done]]. simpl. rewrite list_lookup_delete_ge by lia. by replace (S (i - 1)) with i by lia.
  - destruct Hs as (_&_&Hno&_). by destruct (Hno c Hin).
Qed.

Lemma istep_zombie st s st' s' n i c :
  forest IDLE_PID s → until_wait st = Some n → istep (st, s) (st', s') → zombie_at s i c →
  ps_pcbs s' !! c = None ∨ ∃ j n', zombie_at s' j c ∧ until_wait st' = Some n' ∧ (3 * j + n' < 3 * i + n)%nat.
Proof.
  intros F Hn Hi Hza. destruct n as [|n].
  - destruct (until_wait_zero st Hn) as [Hc Hnext]. inversion Hi as [|? ? pid r ? Hw E|]; subst; try congruence.
    rewrite Hc in Hw. injection Hw as <-. destruct (wait_zombie _ _ _ _ _ F Hza E) as [[a ->] [?|[Hpos Hza']]]; [by left|right].
    destruct (Hnext a) as (k&Hk&Hle). exists (i - 1)%nat, k. split_and!; [done|done|lia].
  - right. exists i, n. inversion Hi as [? ? pid ? Hc Hr E|? ? ? ? ? Hc|? ? Hc]; subst.
    + destruct (fork_fresh _ _ _ _ F Hr E) as (p&?&Hp&Hne&_). destruct (fo_init _ _ F) as (p'&Hp'&Hz&_).
      split_and!; [by eapply clone_zombie|by apply until_wait_step|lia].
    + destruct (until_wait_call _ _ Hn); congruence.
    + split_and!; [done|apply until_wait_step; [done|congruence]|lia].
Qed.

(** The steps of the initial process in a run. *)
Fixpoint own (l : list bool) : nat :=
  match l with [] => O | true :: l => S (own l) | false :: l => own l end.

Lemma reaps_run f l : ∀ st s y i n c,
  forest IDLE_PID s → until_wait st = Some n → zombie_at s i c → irun f l (st, s) y → (3 * i + n < own l)%nat →
  ∃ l1 l2 st1 s1, l = l1 ++ l2 ∧ irun f l1 (st, s) (st1, s1) ∧ irun f l2 (st1, s1) y ∧ ps_pcbs s1 !! c = None.
Proof.
  induction l as [|b l IH]; intros st s y i n c F Hn Hza Hr Hown; [by simpl in Hown; lia|].
  inversion Hr as [|? ? [st' s'] ? Hi Hr'|? ? ? s' ? Ho Hr']; subst.
  - assert (F' : forest IDLE_PID s') by (destruct (istep_pstep _ _ _ _ F Hi) as [->|?]; [done|by eapply forest_pstep]).
    destruct (istep_zombie _ _ _ _ _ _ _ F Hn Hi Hza) as [Hgone|(j&n'&Hza'&Hn'&Hlt)].
    + exists [true], l, st', s'. split_and!; [done|by eapply irun_init, irun_nil|done|done].
    + destruct (IH st' s' y j n' c F' Hn' Hza' Hr') as (l1&l2&st1&s1&->&H1&H2&H3); [simpl in Hown; lia|].
      exists (true :: l1), l2, st1, s1. split_and!; [done|by eapply irun_init|done|done].
  - destruct (IH st s' y i n c) as (l1&l2&st1&s1&->&H1&H2&H3); [eapply forest_pstep; [exact F|by eapply ostep_pstep]|done|by eapply ostep_zombie|done|done|].
    exists (false :: l1), l2, st1, s1. split_and!; [done|by eapply irun_other|done|done].
Qed.

(** ** One test after the other *)

(** The initial process has the children [cs], and there is no other process. *)
Definition alone (s : Procs) (cs : list Z) : Prop :=
  (∃ p, ps_pcbs s !! IDLE_PID = Some p ∧ children p = cs) ∧ ∀ q, is_Some (ps_pcbs s !! q) → q = IDLE_PID ∨ q ∈ cs.

(** While no test creates processes of its own. *)
Definition sequential (st : IState) (s : Procs) : Prop :=
  match st with
  | AtFork _ _ | AtShellFork | AtYield _ => alone s []
  | AtWait _ _ _ => ∃ cs, alone s cs ∧ (length cs <= 1)%nat
  | _ => True
  end.

Lemma alone_childless s cs q p : forest IDLE_PID s → alone s cs → q ≠ IDLE_PID → ps_pcbs s !! q = Some p → children p = [].
Proof.
  intros F [(p0&H0&<-) Hall] Hq Hp. apply elem_of_nil_inv. intros c Hc. apply (fo_child _ _ F q p c Hp) in Hc as (pc&Hpc&Hpar).
  destruct (Hall c) as [->|Hin]; [by eexists|destruct (fo_init _ _ F) as (?&?&_&?); congruence|].
  apply (fo_child _ _ F _ p0 c H0) in Hin as (?&?&?). congruence.
Qed.

Lemma ostep_alone s s' cs : forest IDLE_PID s → other_step false s s' → alone s cs → alone s' cs.
Proof.
  intros F [me sig p pid Hf|pid code p Hi0 Hp Hz E|me pid o p r Hme Hp Hz E] Ha; [done| |];
    pose proof (alone_childless s cs _ p F Ha ltac:(eassumption) Hp) as Hch.
  - destruct Ha as [(p0&H0&Hcs) Hall]. pose proof (exit_wp _ _ pid code p F Hp Hz Hi0 Hi0) as ([]&?&E'&_&Hq&_)%wp_done.
    rewrite E in E'. injection E' as <-. rewrite Hch in Hq. split.
    + exists p0. by rewrite Hq, H0 by done; simpl; rewrite adopt_nil.
    + intros q [x Hx]. destruct (decide (q = pid)) as [->|Hne]; [apply Hall; by exists p|]. rewrite Hq in Hx by done.
      apply Hall. by destruct (ps_pcbs s !! q).
  - pose proof (wait_run _ _ _ _ _ _ _ F Hp E) as Hs. destruct r as [|c' code| |]; simpl in Hs; [..|done]; try by destruct Hs as [-> _].
    destruct Hs as (j&?&Hj&_). by rewrite Hch in Hj.
Qed.

(** A wait that returns leaves no child when there was at most one. *)
Lemma wait_alone s cs r s' :
  forest IDLE_PID s → alone s cs → (length cs <= 1)%nat → wait4_round IDLE_PID (-1) 0 s = Done (r, s') →
  match wait_answer r with Some _ => alone s' [] | None => s' = s end.
Proof.
  intros F Ha Hlen E. pose proof Ha as [(p&Hp&Hcs) Hall]. pose proof (wait_run _ _ _ _ _ _ _ F Hp E) as Hs.
  destruct r as [a|c code| |]; simpl in Hs |- *; [| |by destruct Hs|done].
  - destruct Hs as (->&_&[(_&Hno)|(_&?&_)]); [|done]. assert (cs = []) as ->; [|done].
    apply elem_of_nil_inv. intros c Hc. rewrite <- Hcs in Hc. by specialize (Hno c Hc).
  - destruct Hs as (i&pc&Hi&_&_&_&_&_&Hre&_). rewrite Hcs in *. destruct cs as [|c0 [|? ?]]; [by rewrite lookup_nil in Hi| |simpl in Hlen; lia].
    apply list_lookup_singleton_Some in Hi as [-> ->]. assert (c ≠ IDLE_PID).
    { intros ->. destruct (forest_no_self _ _ _ _ F Hp) as [Hn _]. apply Hn. rewrite Hcs. by apply list_elem_of_singleton. }
    split; [rewrite Hre, lookup_delete_ne, lookup_insert_eq by done; by eexists|].
    intros q [x Hx]. left. rewrite Hre in Hx. apply lookup_delete_Some in Hx as [Hqc Hx].
    destruct (decide (q = IDLE_PID)) as [|Hq]; [done|]. rewrite lookup_insert_ne in Hx by done.
    destruct (Hall q) as [?|Hin%list_elem_of_singleton]; [by eexists|done|congruence].
Qed.

Lemma fork_alone s sig pid s' : forest IDLE_PID s → alone s [] → ra_room (ps_pids s) →
  pcb_clone IDLE_PID sig s = Done (pid, s') → alone s' [pid].
Proof.
  intros F [(p0&H0&Hcs) Hall] Hr E. destruct (fork_fresh _ _ _ _ F Hr E) as (p&new&Hp&Hne&Hnone&Hadd).
  rewrite H0 in Hp. injection Hp as <-. destruct (child_added_blocks _ _ _ _ _ _ H0 Hnone Hadd) as [Hpid Hb]. split.
  - rewrite Hb, H0 by done. eexists. split; [done|]. simpl. by rewrite Hcs.
  - intros q [x Hx]. rewrite list_elem_of_singleton. destruct (decide (q = pid)); [by right|left]. rewrite Hb in Hx by done.
    destruct (Hall q) as [?|?%elem_of_nil]; [by destruct (ps_pcbs s !! q)|done|done].
Qed.

Lemma sequential_next rest s : alone s [] → sequential (next_test rest) s.
Proof. by destruct rest. Qed.

Lemma istep_sequential st s st' s' : forest IDLE_PID s → istep (st, s) (st', s') → sequential st s → sequential st' s'.
Proof.
  intros F Hi Hs. inversion Hi as [? ? pid ? Hc Hr E|? ? pid r ? Hc E|? ? Hc]; subst.
  - destruct (fork_fresh _ _ _ _ F Hr E) as (_&_&_&Hne&_). destruct st as [| ? ? []| | |[]| | | | | | |]; try done; simpl in *;
      (destruct (Z.eqb_spec pid 0); [done|]); [|done]. exists [pid]. split; [by eapply fork_alone|simpl; lia].
  - destruct st as [| ? ? []| | |[]| | | | | | |]; try done; simpl in *; [|by case_match; repeat case_match].
    injection Hc as <-. destruct Hs as (cs&Ha&Hlen). pose proof (wait_alone _ _ _ _ F Ha Hlen E) as Hw.
    destruct (wait_answer r) as [a|]; [|subst; by exists cs]. destruct (a =? -2); [exists []; split; [done|simpl; lia]|].
    destruct (pid0 =? -1); [done|by apply sequential_next].
  - destruct st as [| ? ? []| | |[]| | | | | | |]; try done; simpl in *. by apply sequential_next.
Qed.

Lemma irun_sequential l x y : irun false l x y → forest IDLE_PID x.2 → sequential x.1 x.2 → sequential y.1 y.2.
Proof.
  induction 1 as [x|l [st s] [st' s'] z Hi _ IH|l st s s' z Ho _ IH]; intros F Hs; simpl in *; [done| |].
  - apply IH; [destruct (istep_pstep _ _ _ _ F Hi) as [->|?]; [done|by eapply forest_pstep]|by eapply istep_sequential].
  - apply IH; [eapply forest_pstep; [exact F|by eapply ostep_pstep]|].
    destruct st; simpl in *; try done; try by eapply ostep_alone. destruct Hs as (cs&?&?). exists cs. split; [by eapply ostep_alone|done].
Qed.

(** The tests still to run are the end of the list. *)
Definition in_order (st : IState) : Prop :=
  match st with
  | AtFork prog rest => (prog :: rest) `suffix_of` tests
  | AtWait _ rest _ | AtYield rest => rest `suffix_of` tests
  | _ => True
  end.

Lemma in_order_next st ans : in_order st → in_order (init_next st ans).
Proof.
  assert (Hn : ∀ rest, rest `suffix_of` tests → in_order (next_test rest)) by (by intros []).
  destruct st as [prog rest|pid rest []|rest| |[]| | | | | | |]; simpl; try done; repeat case_match; simpl; eauto.
  intros Hs. by eapply suffix_cons_l.
Qed.

Lemma irun_in_order f l x y : irun f l x y → in_order x.1 → in_order y.1.
Proof.
  induction 1 as [|l [st s] y z Hi _ IH|]; intros Ho; [done| |by auto].
  apply IH. inversion Hi; subst; simpl; try case_match; by try apply in_order_next.
Qed.

(** The initial process always has a step: no call of it panics. *)
Lemma istep_progress st s :
  forest IDLE_PID s → is_Some (until_wait st) → (init_call st = UFork → ra_room (ps_pids s)) → ∃ y, istep (st, s) y.
Proof.
  intros F [n Hn] Hroom. destruct (fo_init _ _ F) as (p&Hp&Hz&_). destruct n as [|n].
  - destruct (until_wait_zero st Hn) as [Hc _]. destruct (proj1 (wp_done _ _ _) (wait4_wp _ _ IDLE_PID (-1) 0 p F Hp)) as (r&s'&E&_).
    eexists. by eapply istep_wait.
  - destruct (until_wait_call st n Hn) as [Hc|Hc]; [|eexists; by apply istep_yield].
    destruct (proj1 (wp_done _ _ _) (clone_wp _ _ IDLE_PID 0 p F Hp Hz (Hroom Hc))) as (pid&s'&E&_).
    eexists. eapply istep_fork; [done|by apply Hroom|exact E].
Qed.


(** ** Runs *)

Definition init_act (x : IState * Procs) : option (IState * Procs) :=
  let '(st, s) := x in
  match init_call st with
  | UFork =>
      if ra_current (ps_pids s) <? 2 ^ 64 - 1 then
        match pcb_clone IDLE_PID 0 s with Done (pid, s') => Some (init_next st pid, s') | Panic => None end
      else None
  | UWaitpid pid =>
      match wait4_round IDLE_PID pid 0 s with
      | Done (r, s') => Some (match wait_answer r with Some a => init_next st a | None => st end, s')
      | Panic => None
      end
  | UYield => Some (init_next st 0, s)
  | _ => None
  end.

Lemma init_act_sound x y : init_act x = Some y → istep x y.
Proof.
  destruct x as [st s]. unfold init_act. destruct (init_call st) eqn:Hc; try done.
  - destruct (Z.ltb_spec (ra_current (ps_pids s)) (2 ^ 64 - 1)); [|done]. destruct (pcb_clone IDLE_PID 0 s) as [[pid s']|] eqn:E; [|done].
    intros [= <-]. by eapply istep_fork.
  - destruct (wait4_round IDLE_PID pid 0 s) as [[r s']|] eqn:E; [|done]. intros [= <-]. by eapply istep_wait.
  - intros [= <-]. by apply istep_yield.
Qed.

Definition actor (a : PAct) : Z := match a with AClone me => me | AExit pid _ => pid | AWait me _ _ => me end.

Lemma pact_other s a s' : actor a ≠ IDLE_PID → pact s a = Some s' → other_step true s s'.
Proof.
  destruct a as [me|pid code|me pid o]; simpl; intros Ha.
  - destruct (live_pcb s me) eqn:El; [|done]. destruct (Z.ltb_spec (ra_current (ps_pids s)) (2 ^ 64 - 1)); [|done].
    apply live_pcb_true in El as (p&Hp&Hz). intros [pid Hrun]%state_of_Some. by eapply ostep_clone.
  - destruct (live_pcb s pid) eqn:El; [|done]. destruct (Z.eqb_spec pid IDLE_PID); [done|].
    apply live_pcb_true in El as (p&Hp&Hz). intros [[] Hrun]%state_of_Some. by eapply ostep_exit.
  - destruct (live_pcb s me) eqn:El; [|done]. apply live_pcb_true in El as (p&Hp&Hz).
    intros [r Hrun]%state_of_Some. by eapply ostep_wait.
Qed.

(** [None] is a step of the initial process. *)
Fixpoint iplay (x : IState * Procs) (l : list (option PAct)) : option (IState * Procs) :=
  match l with
  | [] => Some x
  | None :: l => y ← init_act x; iplay y l
  | Some a :: l => if actor a =? IDLE_PID then None else s' ← pact x.2 a; iplay (x.1, s') l
  end.

Lemma iplay_sound l : ∀ x y, iplay x l = Some y → irun true ((λ a, bool_decide (a = None)) <$> l) x y.
Proof.
  induction l as [|[a|] l IH]; intros [st s] y; cbn [iplay fmap list_fmap fst snd].
  - intros [= <-]. constructor.
  - destruct (Z.eqb_spec (actor a) IDLE_PID); [done|]. destruct (pact s a) as [s'|] eqn:E; [|done]. simpl. intros H%IH.
    eapply irun_other; [by eapply pact_other|exact H].
  - destruct (init_act (st, s)) as [z|] eqn:E; [|done]. simpl. intros H%IH. eapply irun_init; [by apply init_act_sound|exact H].
Qed.

(** The first test creates process 2, which exits, and exits; the initial process
    then has two zombies, and starts the second and the third test. *)
Definition orphan_run : list (option PAct) := [None; Some (AClone 1); Some (AExit 2 3); Some (AExit 1 7)].
Definition booted : IState * Procs := (init_start, default no_procs (state_of (pcb_new no_procs))).
Definition two_zombies : IState * Procs := default booted (iplay booted orphan_run).
Definition third_test : IState * Procs := default booted (iplay two_zombies [None; None; None; None; None; None]).

