(* ===== verification/Boot.v ===== *)
(** * The start of the kernel ([rust_main] of [os/src/main.rs], [add_initproc] of
    [os/src/task/mod.rs])

    The parts of the kernel in the order in which they are started: memory, the
    file system's initial program, the first process.  The parts that only set
    registers or print are left out. *)

From S2P Require Import Prelude Address PhysMem IdAlloc FrameAlloc PageTable Sv39 UserMem MemorySet MapAreaSpec.
From S2P Require Import MemorySetSpec MemorySetOps Mmap Fork Elf UserRes StackProps TrapCx Exec SpaceProps KernelSpace ResProps ExecProps.
From S2P Require Import Timer Signal Sched Threads ThreadProps NewProcess Mmu Asm TrapPath Path FdTable Pipe Vfs VfsProps Process ProcessProps.

(** [from_raw_parts_mut(sbss, ebss - sbss).fill(0)] *)
Definition clear_bss (sbss ebss : Z) : K KMem unit := kmodify (with_mem (λ m, fill_bytes m sbss (ebss - sbss) 0)).

Section boot.
Context {FS DirH FileH : Type} `{!FatFs FS DirH FileH}.
Context (trap_return trap_handler : Z) (elf_new : list Z → option ElfFile).

(** [INITPROC]: the control block of the process is [pcb_new]. *)
Definition add_initproc (fs : FS) (strampoline sst : Z) : K Machine UProc :=
  inode ← kunwrap (open_initproc fs O_RDONLY);
  '(v, _) ← klift (read_all fs inode);
  process_new trap_return trap_handler elf_new strampoline sst v.

(** What the system is when [run_tasks] is called. *)
Record Booted := mkBooted { bt_satp : Z; bt_machine : Machine; bt_init : UProc; bt_pid : Z; bt_procs : Procs }.

(** [m] is the memory the firmware leaves, [sst] the value of [sstatus]. *)
Definition rust_main (k : KernelSymbols) (sbss sst : Z) (fs : FS) (m : mem) : outcome Booted :=
  '(_, s) ← clear_bss sbss (ebss k) (mkKMem m fa_new);
  '((ms, satp), s) ← mm_init k s;
  '(p, mc) ← add_initproc fs (strampoline k) sst (mkMach s ms ra_new []);
  '(pid, ps) ← pcb_new no_procs;
  Done (mkBooted satp mc p pid ps).

(** The pages of the kernel's own segments end at the end of memory. *)
Definition KLIM : Z := MEMORY_END / 4096.

Lemma boot_kst k s ms s' :
  layout_ok k → boot_space k s ms s' → kst_inv KLIM (kernel_view (mkMach s' ms ra_new [])).
Proof.
  intros Hk [HI _ _]. apply kst_start_inv. destruct HI as [Hfa Hok _ Har _ _]. split; [exact (conj Hfa Hok)|]. split; [done|].
  split; [unfold KLIM, MEMORY_END, TRAMP_VPN; split; vm_compute; congruence|].
  intros a [i Ha]%list_elem_of_lookup. destruct (Forall2_lookup_r _ _ _ _ _ Har Ha) as (x&Hx&HR&_). rewrite HR. cbn [get_end r_r].
  apply list_elem_of_lookup_2, (segs_end k Hk) in Hx. unfold KLIM, MEMORY_END in *. zdiv_lia.
Qed.

(** The initial program: a file of the root directory that is a loadable program
    and leaves room for its segments. *)
Record initproc_ok (k : KernelSymbols) (fs : FS) (f : FileH) (elf : ElfFile) (phs : list ProgramHeader) (lu : Z) : Prop := {
  ip_open : fat_open_file fs [105; 110; 105; 116; 112; 114; 111; 99] = Some f;
  ip_pos : fat_pos f = 0;
  ip_parse : elf_new (fat_content fs f) = Some elf;
  ip_elf : elf_ok elf phs;
  ip_phs : phs_ok (fat_content fs f) phs;
  ip_entry : is_usize (elf_entry_point elf);
  ip_even : elf_entry_point elf mod 2 = 0;
  ip_low : ∀ ph, ph ∈ loads phs → seg_end ph <= lu;
  ip_lim : 0 <= lu < TRAMP_VPN - 25;
  ip_room : 18 + 3 * total_pages (loads phs) <= (MEMORY_END - ekernel k) / 4096 - 222;
}.

Lemma open_initproc_read fs f :
  fat_open_file fs [105; 110; 105; 116; 112; 114; 111; 99] = Some f → fat_pos f = 0 →
  ∃ i i', open_initproc fs O_RDONLY = Some i ∧ read_all fs i = Done (fat_content fs f, i').
Proof.
  intros Ho Hp.
  destruct (read_all_loop_ok (S (length (fat_content fs f))) fs f []) as (f'&Hr&_); [lia|unfold rest; rewrite length_drop; lia|].
  unfold open_initproc. rewrite Ho. eexists _, _. split; [done|]. unfold read_all. cbn [i_file inode_new].
  rewrite Hr. unfold rest. by rewrite Hp.
Qed.

(** The first return to user mode. *)
Lemma first_return s msu msk f st y c sst entry kt kp :
  thread_tables s msu msk 0 f st → syms_ok y → cm c = km_mem s → cs c SATP = token msk → kt = token msk → trap_handler mod 2 = 0 → entry mod 2 = 0 →
  get_trap_cx (km_mem s) f = app_init_context sst entry (ustack_top 0) kt kp trap_handler →
  ∃ c', resume y st (cpu_trap_return y (trap_cx_user_va 0) (token msu) c) = Some c' ∧ in_user_mode c' msu msk 0 f ∧ cm c' = cm c ∧
    pc c' = entry ∧ xr c' r_sp = ustack_top 0 ∧ ∀ r, (0 < r < 32)%nat → r ≠ 4%nat → r ≠ r_sp → xr c' r = 0.
Proof.
  intros Htt Hy Hcm Hs -> Hh He Hcx. destruct (trap_leaves s msu msk 0 f st y c Htt Hcm Hs) as (c'&E&R1&R2&R3&R4&R5&R6&R7&R8&_).
  rewrite Hcx in R2, R3, R7, R8. cbn [app_init_context set_sp with_regs sstatus sepc general_regs] in R2, R3, R7, R8.
  exists c'. split; [rewrite (proj1 (resume_label y st _ Hy)); [exact E|done]|]. split; [|split; [done|]].
  - split; [rewrite R2; unfold set_spp_user; by rewrite Z.clearbit_eq|done|done|done|by rewrite R1, Hcm, Hcx|by rewrite R1, Hcm, Hcx].
  - split; [rewrite R3; unfold even_pc; lia|]. split; [by rewrite R8 by (unfold r_sp; lia)|]. intros r Hr H4 H2. rewrite R8 by done.
    unfold get_reg, set_reg. rewrite list_lookup_insert_ne by done. unfold regs_default. by rewrite lookup_replicate_2 by lia.
Qed.

End boot.

